(* ===== verification/_CoqProject ===== *)
-Q . S2P
Prelude.v
Mem.v
Klib.v
DList.v
CpuInstr.v
Mmu.v
Desc.v
BootInfo.v
Loader16.v
Loader32.v
Kernel.v
Queues.v
ListRef.v
Demo.v
Sched.v
Mutex.v
Sem.v
Log.v
Tasks.v
Irq.v
Events.v
Machine.v
Safety.v
System.v
Fairness.v
Refinement.v
Progress.v
Bitmap.v
Memory.v
AddressSpace.v
KernelTables.v
Init.v
FirstTask.v
X86.v
Asm.v
Boot.v
