(* ===== verification/Prelude.v ===== *)
(** * A verification library for the ideal-linux-x86 kernel

    ideal-linux-x86 is a small 32-bit operating system in C: a boot sector
    (src/source/boot) enters a loader (src/source/loader) that detects memory,
    reads the kernel file from disk, unpacks it and turns protection and paging
    on; the kernel (src/source/kernel) sets up its tables, devices and memory,
    starts a first task and schedules tasks that share the processor, sleep, and
    synchronise with mutexes and semaphores. This library models that code as
    executable definitions, named as in the source, and proves what makes it
    correct; where the code does not do what it means to, the theorem states
    exactly what it does instead.

    ** The files, in order

    - [Prelude]: outcomes of C code ([err], [result]), the state monad [stm],
      integers at their width ([u8], [u16], [u32], [s32]), bits, lists.
    - [Mem]: byte memory, a finite map; loads and stores of 1, 2 and 4 bytes;
      the predicates [mapped], [bytes_at], [cstring], [word_at], [agree].
    - [Klib]: kernel/tools/klib.c and klib.h, every function.
    - [DList]: kernel/tools/list.c and list.h over a heap of nodes.
    - [CpuInstr]: comm/cpu_instr.h; registers and the history of port accesses.
    - [Mmu]: kernel/cpu/mmu.h; page-table entries as words and as bit fields.
    - [Desc]: descriptors of kernel/include/cpu/cpu.h and the table code of
      kernel/cpu/cpu.c.
    - [BootInfo]: comm/boot_info.h.
    - [Loader16], [Loader32]: loader/loader_16.c with loader.h, and
      loader/loader_32.c with comm/elf.h, over the state [loader_t].
    - [Kernel]: the kernel's state [kstate] (what the C files keep in static
      variables and the structures they point to, one record field each) and the
      monad [K] of kernel code.
    - [Queues]: the abstract kernel [kabs], tasks in queues, and the relation
      [krel] that says which queues the linked lists of a [kstate] stand for.
      [ListRef]: list operations through a pointer. [Demo]: concrete states.
    - [Sched], [Mutex], [Sem], [Tasks]: kernel/core/task.c, kernel/ipc/mutex.c,
      kernel/ipc/sem.c, and task creation with the descriptor allocation of
      cpu.c. Each has operations, a specification on [kabs], and refinement.
    - [Log]: kernel/tools/log.c and [panic]; it discharges the interface below.
    - [Irq]: kernel/cpu/irq.c, irq.h, kernel/dev/time.c.
    - [Events]: the abstract kernel. Its events move tasks between queues, charge
      time slices, count sleepers down and change the owners of mutexes and the
      values of semaphores.
    - [Machine], [Safety]: the running system as a step relation, its invariant,
      and the event that every step is. [System], [Fairness]: what holds in every
      reachable machine, and along runs. [Refinement]: runs of the machine are runs
      of the abstract kernel. [Progress]: flags, deadlock, preemption, sleep.
    - [Bitmap], [Memory]: kernel/tools/bitmap.c and kernel/core/memory.c;
      [AddressSpace]: what destroying an address space gives back;
      [KernelTables]: the directory of the kernel itself.
    - [Init]: kernel/init/init.c and first_task.c. [FirstTask]: a task of the
      running system that runs [first_task_main].
    - [X86]: the instructions of the assembly files over registers and memory, and
      lemmas that run code over a stack of words. [Asm]: the files start.S of the
      boot sector, the loader and the kernel, and first_task_entry.S.
    - [Boot]: boot/boot.c, and all stages in a row.

    ** How code becomes definitions

    A C function is a definition in [stm S] over the part of the state it works
    on, or in [K] for kernel code; [with_cpu], [with_nodes], [with_mem] and the
    like lift the first into the second. Pointers are addresses; the structures
    of tasks, mutexes and semaphores are records found by address, the fields of
    type [list_node_t] inside them are nodes at the field's offset, so that
    [list_node_parent] is the subtraction of the source. An access to what does
    not exist is [Err (Fault _)], a failed [ASSERT] is [Panic], text that leaves
    its buffer is [Overrun], a [va_arg] too many is [VaArg], an endless loop is
    [Halted]. A far jump to a TSS is an outcome of its own, [KJump sel s k]: the
    state at the switch and the code the old task has still to run.

    Integers have their C width. Signed arithmetic wraps around, as the compiled
    code does where C leaves it open; a shift of 1 takes its count modulo 32.

    Loops are fixpoints on fuel, computed from the arguments or from the size of
    the memory: a loop that walks memory stops at an unmapped address at the
    latest, and one that walks a list has at most as many steps as the heap has
    nodes. [klib_loops_terminate] and [reload_elf_total] prove that the fuel
    never runs out, on any input; the other loops are proved to return in the
    theorems about them. The polling loops of the serial port and of the disk
    have a bound that is a parameter, with the hypothesis that the device becomes
    ready within it ([uart_ready], [AtaDisk]). The endless loops of the tasks are
    given as their first [n] rounds, for every [n].

    ** Interfaces and parameters

    - [Layout]: addresses of the kernel's static objects. [KernelImage],
      [LoaderImage]: addresses from the linker. [Entry]: addresses of the
      assembly entry points of interrupts.
    - [Device]: what a port answers, given the history of accesses. [Bios]: what
      function 0xE820 answers. [AtaDisk] states the protocol of a 48-bit drive:
      the loader's theorems hold for any device that keeps it.
    - [Logger] with [LoggerLaws]: [log_printf] as the scheduler, the mutex and
      the memory code see it, an operation that touches nothing but the port
      history when the log mutex is free and the text fits its buffer. [Log]
      proves the laws for the real [log_printf] ([log_laws]).
    - [PageWalk]: [find_pte] and [creat_kernel_tables], which the source calls
      and no file of it defines. [WalkLaws] states what [create_kernel_table]
      needs of the first: every page has an entry of its own, which looking it up
      leaves alone, all of them zero in a cleared directory. A flat table is an
      instance. Nothing is assumed of the second. What [kernel_init] does before
      the call is proved; what it does after it is proved for any state that
      differs from the one before in memory, search position and ports only
      ([builds]). Reading the name as [create_kernel_table] is one instance, in
      which the call returns or fails, depending on where the code of the image
      ends ([kernel_init_establishes]).

    ** What the theorems show

    - The running system ([System]). A machine is a kernel state, the code that
      suspended tasks have still to run, the locks tasks hold and the flags they
      gave themselves; a step is a kernel call, a clock interrupt or the rest of a
      suspended call. In every machine reachable from boot: no step crashes,
      mutual exclusion holds, no task is lost or queued twice, the head of the
      ready queue runs, and a semaphore with waiters has no units.
    - Refinement and order ([Refinement], [Fairness]). Every run from boot is a run
      of the abstract kernel, one enabled event for each step ([runs_refine]);
      from properties of events alone follow that a ready task runs within the
      slices of the tasks ahead of it, that tasks wait in line, and that
      semaphores conserve their units along any run. [sleep_cut_short] is a run in
      which a sleep ends too early.
    - Progress ([Progress], [FirstTask]). A task runs its own code with the flags it
      gave itself, whatever protected regions, interrupts and switches lie between
      ([flags_are_private]); so no reachable machine is stuck, and clock
      interrupts alone bring ready tasks to the processor and sleepers back from
      their calls, within bounds in time slices and countdowns. A task that runs
      [first_task_main] goes round forever, its line sent over COM1 in every round
      ([first_task_main_goes_round]).
    - The start ([Boot], [Init], [Loader16], [Loader32]). [cold_boot] composes
      the stages: from real mode and a kernel file on the disk to [kernel_init] at
      its call of [creat_kernel_tables], and, if this call returns, to the end of
      [init_main]: the first task is current, but paging is on with 0 for a page
      directory, and the task has no entry point. Each stage has its own theorems:
      the memory map recorded and counted, the hand-over to protected mode, the
      sectors read, the segments of the file in place, paging, files rejected,
      totality on any bytes, and the state [kernel_init] establishes.
    - The components. Scheduler, mutex, semaphore, task creation and list
      operations refine their specifications on queues, on every branch; ticks,
      sleeping, preemption and round robin; what goes wrong when the creation of
      one task is preempted by that of another ([task_init_race]); the text
      [kernel_vsprintf] and [log_printf] produce, and number formatting with its
      round trip; bitmap and page allocation; page tables, entries and address spaces, the mapping of the
      kernel itself and the case in which it fails; descriptors, vectors and
      interrupt masks.
    - The assembly ([Asm]). Interrupts are transparent to the code they interrupt
      and hand their handler the frame it expects; the kernel's start passes its
      argument on and loads segments and stack; [simple_switch] exchanges two
      suspended tasks; the boot sector ends with the loader in memory.

    The other theorems of the files state further behaviour of single functions,
    flaws of the code included (string and memory comparison, the copying of a
    pointer's own bytes, the search that returns the same page again).

    ** Limits of the model

    - Interrupts arrive between kernel calls. Inside one, the code has them
      masked wherever it touches shared state, except for the creation of tasks
      and log lines; [task_init_race] is about the first of these.
    - The hardware task switch moves the flags, the page directory and the task
      register; the other registers belong to the code of the tasks, which is
      arbitrary. The busy bit of a TSS is not modelled.
    - The calls of [permitted] are those of a task that behaves: existing objects,
      unused task structures, sleeps of at least a millisecond, lock nesting
      within [int], log lines of at most 127 characters; and a task may mask and
      unmask interrupts. The idle task makes no calls.
    - The text of a log line is given by [format], which [kernel_vsprintf_format]
      proves to be what the code writes into its buffer.
    - The assembly runs on a machine of its own ([X86]), with flat segments, on
      which a C function is any function with the calling convention. The models
      meet at the frame ([exception_frame_t] is the argument of the handlers of
      [Irq]) and at the hand-overs ([exit] of the loader names the entry points).
      The processor's choice how to push a segment register is a parameter.
    - Addresses are physical: the kernel's code and data are reached without
      translation, and CR3 is a number. Where page tables matter, they are words in
      memory ([KernelTables], [AddressSpace], [translate] in [Loader32]). So what is
      proved of the running system ([System] to [Progress], [FirstTask]) is what its
      code does as long as addresses mean themselves. The code as it stands does not
      see to that: [task_first_init] loads 0 into CR3 with paging on ([cold_boot]).
    - How the first task enters its code is not modelled: [task_first_init] gives it
      the entry point 0, and nothing in the repository that compiles jumps to
      [first_task_main] or [first_task_entry]. The running system starts with the
      first task as a task like any other, which may make any permitted call.
    - Addresses do not wrap around at 2^32: an access beyond the mapped memory is
      a [Fault]. The kernel's memory and the loader's are models of their own;
      [cold_boot] ties them together by the processor and the memory map. In the
      loader's state [boot_info] is a record and [page_dir] a constant, apart from
      its memory, so a segment that would be loaded over them is not caught.

    ** Not modelled

    - [move_to_first_task] of init.c, which does not compile (an undeclared name,
      a malformed asm statement), and the test code in comments.
    - The CMake files and the scripts that write disk images. *)
From stdpp Require Export base numbers list gmap fin_maps strings.
From Stdlib Require Export ZArith Lia ZifyBool.
From Stdlib Require Import Ascii String.

#[global] Open Scope Z_scope.

(** ** Outcomes of C code

    [Fault a]: an access to address [a], which no object owns.
    [Panic c]: [ASSERT (c)] failed ([panic] logs and halts).
    [Halted]: the code entered a [for (;;)] loop.
    [Overrun n]: [n] bytes of text were put into a local buffer that is smaller.
    [VaArg]: [va_arg] was called more often than arguments were passed.
    [OutOfFuel]: a loop's fuel ran out (never the fate of the C code). *)
Inductive err : Type :=
| Fault (a : Z)
| Panic (cond : string)
| Halted
| Overrun (n : Z)
| VaArg
| OutOfFuel.

#[export] Instance err_eq_dec : EqDecision err.
Proof. solve_decision. Defined.

Inductive result (A : Type) : Type :=
| Ok (a : A)
| Err (e : err).
Arguments Ok {A} _.
Arguments Err {A} _.

#[export] Instance result_eq_dec `{EqDecision A} : EqDecision (result A).
Proof. solve_decision. Defined.

(** ** State-and-error monad: a C function that reads and writes a state [S] *)
Definition stm (S A : Type) : Type := S → result (A * S).

#[global] Instance stm_ret S : MRet (stm S) := λ A a s, Ok (a, s).
#[global] Instance stm_bind S : MBind (stm S) := λ A B f m s,
  match m s with
  | Ok (a, s') => f a s'
  | Err e => Err e
  end.

Definition throw {S A} (e : err) : stm S A := λ _, Err e.
Definition get {S} : stm S S := λ s, Ok (s, s).
Definition put {S} (s : S) : stm S unit := λ _, Ok (tt, s).

Section stm_laws.
Context {S A B C : Type}.

Lemma stm_bind_ok (m : stm S A) (f : A → stm S B) s a s' :
  m s = Ok (a, s') → (m ≫= f) s = f a s'.
Proof. intros H. unfold mbind, stm_bind. by rewrite H. Qed.

Lemma stm_bind_err (m : stm S A) (f : A → stm S B) s e :
  m s = Err e → (m ≫= f) s = Err e.
Proof. intros H. unfold mbind, stm_bind. by rewrite H. Qed.

Lemma stm_bind_inv (m : stm S A) (f : A → stm S B) s b s'' :
  (m ≫= f) s = Ok (b, s'') → ∃ a s', m s = Ok (a, s') ∧ f a s' = Ok (b, s'').
Proof.
  unfold mbind, stm_bind. destruct (m s) as [[a s']|e]; [eauto | done].
Qed.

Lemma stm_bind_err_inv (m : stm S A) (f : A → stm S B) s e :
  (m ≫= f) s = Err e → m s = Err e ∨ ∃ a s', m s = Ok (a, s') ∧ f a s' = Err e.
Proof.
  unfold mbind, stm_bind. destruct (m s) as [[a s']|e']; [by eauto|]. intros [= ->]. by left.
Qed.

Lemma stm_bind_assoc (m : stm S A) (f : A → stm S B) (g : B → stm S C) s :
  ((m ≫= f) ≫= g) s = (m ≫= (λ a, f a ≫= g)) s.
Proof. unfold mbind, stm_bind. by destruct (m s) as [[a s']|e]. Qed.

Lemma stm_bind_fuel (f : stm S A) (g : A → stm S B) s :
  f s ≠ Err OutOfFuel → (∀ a s', f s = Ok (a, s') → g a s' ≠ Err OutOfFuel) →
  (f ≫= g) s ≠ Err OutOfFuel.
Proof.
  intros Hf Hg. unfold mbind, stm_bind. destruct (f s) as [[a s']|e] eqn:E; [by apply Hg|].
  by intros [= ->].
Qed.
End stm_laws.

(** One step of a monadic program whose head is known to succeed. *)
Ltac stm_step H := rewrite (stm_bind_ok _ _ _ _ _ H); cbn beta.

(** ** Machine integers

    [uint8_t], [uint16_t] and [uint32_t] are the residues below [2^8], [2^16]
    and [2^32]; [int] is the signed 32-bit range, on which arithmetic wraps
    around as the compiled code does. *)
Definition u8 (z : Z) : Z := z mod 2 ^ 8.
Definition u16 (z : Z) : Z := z mod 2 ^ 16.
Definition u32 (z : Z) : Z := z mod 2 ^ 32.
Definition s32 (z : Z) : Z := (z + 2 ^ 31) mod 2 ^ 32 - 2 ^ 31.

Definition is_u8 (z : Z) : Prop := 0 ≤ z < 2 ^ 8.
Definition is_u16 (z : Z) : Prop := 0 ≤ z < 2 ^ 16.
Definition is_u32 (z : Z) : Prop := 0 ≤ z < 2 ^ 32.
Definition is_s32 (z : Z) : Prop := - 2 ^ 31 ≤ z < 2 ^ 31.

#[export] Instance is_u8_dec z : Decision (is_u8 z).
Proof. unfold is_u8. apply _. Defined.
#[export] Instance is_u16_dec z : Decision (is_u16 z).
Proof. unfold is_u16. apply _. Defined.
#[export] Instance is_u32_dec z : Decision (is_u32 z).
Proof. unfold is_u32. apply _. Defined.
#[export] Instance is_s32_dec z : Decision (is_s32 z).
Proof. unfold is_s32. apply _. Defined.

Section widths.
Lemma u8_id z : 0 ≤ z < 256 → u8 z = z.
Proof. intros. apply Z.mod_small. lia. Qed.
Lemma u16_id z : 0 ≤ z < 65536 → u16 z = z.
Proof. intros. apply Z.mod_small. lia. Qed.
Lemma u32_id z : 0 ≤ z < 4294967296 → u32 z = z.
Proof. intros. apply Z.mod_small. lia. Qed.
Lemma s32_id z : - 2147483648 ≤ z < 2147483648 → s32 z = z.
Proof. intros. unfold s32. rewrite Z.mod_small; lia. Qed.
Lemma u8_range z : 0 ≤ u8 z < 256.
Proof. apply Z.mod_pos_bound. lia. Qed.
Lemma u16_range z : 0 ≤ u16 z < 65536.
Proof. apply Z.mod_pos_bound. lia. Qed.
Lemma u32_range z : 0 ≤ u32 z < 4294967296.
Proof. apply Z.mod_pos_bound. lia. Qed.
Lemma s32_range z : - 2147483648 ≤ s32 z < 2147483648.
Proof. unfold s32. pose proof (Z.mod_pos_bound (z + 2 ^ 31) (2 ^ 32)). lia. Qed.
End widths.

Create Rewrite HintDb widths.
#[export] Hint Rewrite u8_id u16_id u32_id s32_id using lia : widths.

(** ** Bits of a word *)
Section bits.
Lemma testbit_mod_pow2 a n i :
  0 ≤ n → Z.testbit (a mod 2 ^ n) i = bool_decide (i < n) && Z.testbit a i.
Proof.
  intros Hn. case_bool_decide.
  - destruct (decide (0 ≤ i)).
    + rewrite Z.mod_pow2_bits_low by lia. done.
    + rewrite !Z.testbit_neg_r by lia. done.
  - rewrite Z.mod_pow2_bits_high by lia. done.
Qed.

Lemma testbit_one_shift k i :
  0 ≤ k → Z.testbit (Z.shiftl 1 k) i = bool_decide (i = k).
Proof.
  intros Hk. rewrite Z.shiftl_1_l. case_bool_decide as H.
  - subst. by apply Z.pow2_bits_true.
  - apply Z.pow2_bits_false. lia.
Qed.

Lemma testbit_u8_high a i : is_u8 a → 8 ≤ i → Z.testbit a i = false.
Proof.
  intros Ha Hi. rewrite <- (Z.mod_small a (2 ^ 8)) by done.
  by apply Z.mod_pow2_bits_high.
Qed.
End bits.

(** ** Strings as byte lists (without the terminating NUL) *)
Definition bytes_of_string (s : string) : list Z :=
  (λ c, Z.of_N (N_of_ascii c)) <$> String.list_ascii_of_string s.

(** ** Lists *)
Section lists.
Context {A B : Type}.
Implicit Types (l : list A).

(** The head and the last element with a default, as a C list reads them. *)
Definition hd_or (d : A) (l : list A) : A := match l with [] => d | x :: _ => x end.
Definition last_or (d : A) (l : list A) : A :=
  match last l with Some x => x | None => d end.

Lemma last_or_app d l x : last_or d (l ++ [x]) = x.
Proof. unfold last_or. by rewrite last_snoc. Qed.

Lemma last_or_cons d x l : last_or d (x :: l) = last_or x l.
Proof. unfold last_or. rewrite last_cons. by destruct (last l). Qed.

Lemma last_or_app_ne d l1 l2 : last_or d (l1 ++ l2) = last_or (last_or d l1) l2.
Proof.
  revert d. induction l1 as [|x l1 IH]; intros d; [done|].
  cbn [app]. rewrite !last_or_cons. apply IH.
Qed.

Lemma hd_or_app d l1 l2 : hd_or d (l1 ++ l2) = hd_or (hd_or d l2) l1.
Proof. by destruct l1. Qed.

Lemma hd_or_in d l : l ≠ [] → hd_or d l ∈ l.
Proof. destruct l; [done|]. intros _. cbn. left. Qed.

Lemma last_or_in d l : l ≠ [] → last_or d l ∈ l.
Proof.
  induction l as [|x l _] using rev_ind; [done|]. intros _.
  rewrite last_or_app, elem_of_app. right. by left.
Qed.

Lemma filter_ext_in (P Q : A → Prop) `{∀ x, Decision (P x), ∀ x, Decision (Q x)} l :
  (∀ x, x ∈ l → P x ↔ Q x) → filter P l = filter Q l.
Proof.
  induction l as [|x l IH]; intros E; [done|]. rewrite !filter_cons.
  rewrite IH by (intros y Hy; apply E; by right).
  destruct (E x ltac:(left)) as [E1 E2].
  repeat case_decide; try done; tauto.
Qed.
End lists.

(** Decidable facts about concrete data, by evaluation. *)
Ltac decide_vm := apply (bool_decide_unpack _); vm_compute; exact I.

(** Non-membership in explicit lists: splits the hypotheses on [cons] and [++]
    and closes goals [x ≠ y] and [x ∉ l]. *)
Ltac mem_simpl :=
  repeat match goal with
  | H : _ ∉ _ :: _ |- _ => apply not_elem_of_cons in H as [? ?]
  | H : _ ∉ _ ++ _ |- _ => apply not_elem_of_app in H as [? ?]
  | H : NoDup (_ :: _) |- _ => apply NoDup_cons in H as [? ?]
  end.
Ltac notin :=
  mem_simpl; rewrite ?not_elem_of_app, ?not_elem_of_cons; repeat split;
  try apply not_elem_of_nil; try (intros ?; subst); (congruence || contradiction).
