(* ===== verification/Mem.v ===== *)
(** * Byte-addressed memory

    The memory that [char *], [uint8_t *], [pde_t *] and [pte_t *] pointers
    reach: a finite map from addresses to bytes. An access outside the map is
    a [Fault]. Multi-byte accesses are little-endian, as on the x86. *)
From S2P Require Import Prelude.

(** ** Accesses *)
Abbreviation mem := (gmap Z Z).

Definition load8 (a : Z) : stm mem Z := λ m,
  match m !! a with Some v => Ok (v, m) | None => Err (Fault a) end.

Definition store8 (a v : Z) : stm mem unit := λ m,
  match m !! a with Some _ => Ok (tt, <[a := u8 v]> m) | None => Err (Fault a) end.

Definition load32 (a : Z) : stm mem Z :=
  b0 ← load8 a; b1 ← load8 (a + 1); b2 ← load8 (a + 2); b3 ← load8 (a + 3);
  mret (b0 + Z.shiftl b1 8 + Z.shiftl b2 16 + Z.shiftl b3 24).

Definition store32 (a v : Z) : stm mem unit :=
  store8 a v;; store8 (a + 1) (Z.shiftr v 8);;
  store8 (a + 2) (Z.shiftr v 16);; store8 (a + 3) (Z.shiftr v 24).

Definition load16 (a : Z) : stm mem Z :=
  b0 ← load8 a; b1 ← load8 (a + 1); mret (b0 + Z.shiftl b1 8).

Definition store16 (a v : Z) : stm mem unit :=
  store8 a v;; store8 (a + 1) (Z.shiftr v 8).

(** ** Assertions about memory *)

(** Writing a list of bytes at consecutive addresses. *)
Fixpoint write_bytes (m : mem) (a : Z) (l : list Z) : mem :=
  match l with
  | [] => m
  | v :: l' => write_bytes (<[a := v]> m) (a + 1) l'
  end.

(** The [n] addresses from [a] on are mapped. *)
Definition mapped (m : mem) (a n : Z) : Prop :=
  ∀ x, a ≤ x < a + n → is_Some (m !! x).

(** The bytes [l] are stored from [a] on. *)
Fixpoint bytes_at (m : mem) (a : Z) (l : list Z) : Prop :=
  match l with
  | [] => True
  | v :: l' => m !! a = Some v ∧ bytes_at m (a + 1) l'
  end.

(** A NUL-terminated C string with the characters [l] is stored at [a]. *)
Fixpoint cstring (m : mem) (a : Z) (l : list Z) : Prop :=
  match l with
  | [] => m !! a = Some 0
  | c :: l' => m !! a = Some c ∧ c ≠ 0 ∧ cstring m (a + 1) l'
  end.

(** ** Lemmas *)
Section mem_lemmas.
Implicit Types (m : mem) (l : list Z).

Lemma load8_ok m a v : m !! a = Some v → load8 a m = Ok (v, m).
Proof. intros H. unfold load8. by rewrite H. Qed.

Lemma store8_ok m a v :
  is_Some (m !! a) → store8 a v m = Ok (tt, <[a := u8 v]> m).
Proof. intros [w H]. unfold store8. by rewrite H. Qed.

Lemma load8_fault m a : m !! a = None → load8 a m = Err (Fault a).
Proof. intros H. unfold load8. by rewrite H. Qed.

Lemma store8_fault m a v : m !! a = None → store8 a v m = Err (Fault a).
Proof. intros H. unfold store8. by rewrite H. Qed.

Lemma load8_fuel m a : load8 a m ≠ Err OutOfFuel.
Proof. unfold load8. by destruct (m !! a). Qed.

Lemma store8_fuel m a v : store8 a v m ≠ Err OutOfFuel.
Proof. unfold store8. by destruct (m !! a). Qed.

Lemma write_bytes_lookup m a l x :
  write_bytes m a l !! x =
    if decide (a ≤ x < a + Z.of_nat (length l))
    then l !! Z.to_nat (x - a) else m !! x.
Proof.
  revert m a. induction l as [|v l IH]; intros m a; cbn [write_bytes length].
  { rewrite decide_False by lia. done. }
  rewrite IH. destruct (decide (x = a)) as [->|Hne].
  - rewrite decide_False by lia. rewrite decide_True by lia.
    rewrite lookup_insert_eq, Z.sub_diag. done.
  - rewrite lookup_insert_ne by done.
    destruct (decide (a ≤ x < a + Z.of_nat (S (length l)))) as [H|H].
    + rewrite decide_True by lia.
      replace (Z.to_nat (x - a)) with (S (Z.to_nat (x - (a + 1)))) by lia. done.
    + rewrite decide_False by lia. done.
Qed.

Lemma write_bytes_app m a l1 l2 :
  write_bytes m a (l1 ++ l2) =
  write_bytes (write_bytes m a l1) (a + Z.of_nat (length l1)) l2.
Proof.
  revert m a. induction l1 as [|v l1 IH]; intros m a; cbn [app write_bytes length].
  - f_equal. lia.
  - rewrite IH. f_equal. lia.
Qed.

Lemma write_bytes_mapped m a l b n :
  mapped m b n → mapped (write_bytes m a l) b n.
Proof.
  intros H x Hx. rewrite write_bytes_lookup. case_decide as E; [|by apply H].
  apply lookup_lt_is_Some. lia.
Qed.

Lemma write_bytes_outside m a l x :
  ¬ (a ≤ x < a + Z.of_nat (length l)) → write_bytes m a l !! x = m !! x.
Proof. intros H. rewrite write_bytes_lookup. by rewrite decide_False. Qed.

Lemma write_bytes_insert m a l v :
  write_bytes m a (l ++ [v]) = <[a + Z.of_nat (length l) := v]> (write_bytes m a l).
Proof. by rewrite write_bytes_app. Qed.

Lemma bytes_at_lookup m a l :
  bytes_at m a l ↔ ∀ i v, l !! i = Some v → m !! (a + Z.of_nat i) = Some v.
Proof.
  revert a. induction l as [|w l IH]; intros a; cbn [bytes_at].
  { split; [done|]. intros _. done. }
  rewrite IH. split.
  - intros [Hw Hl] [|i] v; cbn.
    + intros [= <-]. by rewrite Z.add_0_r.
    + intros Hi. rewrite <-(Hl i v Hi). f_equal. lia.
  - intros H. split.
    + rewrite <-(H 0%nat w eq_refl). f_equal. lia.
    + intros i v Hi. rewrite <-(H (S i) v Hi). f_equal. lia.
Qed.

Lemma bytes_at_write m a l : bytes_at (write_bytes m a l) a l.
Proof.
  apply bytes_at_lookup. intros i v Hi. rewrite write_bytes_lookup.
  pose proof (lookup_lt_Some _ _ _ Hi). rewrite decide_True by lia.
  rewrite <-Hi. f_equal. lia.
Qed.

Lemma bytes_at_app m a l1 l2 :
  bytes_at m a (l1 ++ l2) ↔
  bytes_at m a l1 ∧ bytes_at m (a + Z.of_nat (length l1)) l2.
Proof.
  revert a. induction l1 as [|v l1 IH]; intros a; cbn [app bytes_at length].
  - rewrite Z.add_0_r. tauto.
  - rewrite IH. replace (a + 1 + Z.of_nat (length l1))
      with (a + Z.of_nat (S (length l1))) by lia. tauto.
Qed.

(** Two memories with the same bytes in a range and everywhere else. *)
Lemma write_bytes_unique m m' a l :
  bytes_at m' a l →
  (∀ x, ¬ (a ≤ x < a + Z.of_nat (length l)) → m' !! x = m !! x) →
  m' = write_bytes m a l.
Proof.
  intros Hb Ho. apply map_eq. intros x. rewrite write_bytes_lookup.
  case_decide as E; [|by apply Ho].
  destruct (lookup_lt_is_Some_2 l (Z.to_nat (x - a))) as [v Hv]; [lia|].
  rewrite Hv. rewrite bytes_at_lookup in Hb. rewrite <-(Hb _ _ Hv). f_equal. lia.
Qed.

Lemma write_bytes_overwrite m a l l' :
  length l = length l' → write_bytes (write_bytes m a l) a l' = write_bytes m a l'.
Proof.
  intros Hl. apply write_bytes_unique; [apply bytes_at_write|].
  intros x Hx. rewrite !write_bytes_outside by lia. done.
Qed.

Lemma write_bytes_self m a l : bytes_at m a l → write_bytes m a l = m.
Proof. intros H. symmetry. by apply write_bytes_unique. Qed.

Lemma mapped_le m a n n' : mapped m a n → n' ≤ n → mapped m a n'.
Proof. intros H Hn x Hx. apply H. lia. Qed.

Lemma mapped_shift m a n k : mapped m a n → 0 ≤ k → mapped m (a + k) (n - k).
Proof. intros H Hk x Hx. apply H. lia. Qed.

Lemma mapped_at m a n x : mapped m a n → a ≤ x < a + n → is_Some (m !! x).
Proof. intros H. apply H. Qed.

Lemma mapped_insert m a n k v : mapped m a n → mapped (<[k := v]> m) a n.
Proof.
  intros H x Hx. destruct (decide (k = x)) as [->|].
  - by rewrite lookup_insert_eq.
  - rewrite lookup_insert_ne by done. by apply H.
Qed.

(** A scan cannot visit more consecutive addresses than the memory has: the
    fuel [S (size m)] is enough for every loop that walks over memory. *)
Lemma mapped_size m a n : 0 ≤ n → mapped m a n → n ≤ Z.of_nat (size m).
Proof.
  intros Hn H.
  assert (Hsub : (list_to_set (seqZ a n) : gset Z) ⊆ dom m).
  { intros x Hx. apply elem_of_list_to_set, elem_of_seqZ in Hx.
    apply elem_of_dom, H. lia. }
  apply subseteq_size in Hsub.
  rewrite size_list_to_set, length_seqZ, size_dom in Hsub by apply NoDup_seqZ.
  lia.
Qed.

Lemma mapped_cons m a (n : nat) :
  is_Some (m !! a) → mapped m (a + 1) (Z.of_nat n) → mapped m a (Z.of_nat (S n)).
Proof.
  intros Ha H x Hx. destruct (decide (x = a)) as [->|]; [done|]. apply H. lia.
Qed.

Lemma mapped_insert_inv m a n k v :
  is_Some (m !! k) → mapped (<[k := v]> m) a n → mapped m a n.
Proof.
  intros Hk H x Hx. destruct (decide (k = x)) as [->|]; [done|].
  specialize (H x Hx). by rewrite lookup_insert_ne in H.
Qed.

(** So a loop that maps one more address per unit of fuel never exhausts it. *)
Lemma scan_fuel m a : ¬ mapped m a (Z.of_nat (S (size m))).
Proof. intros H. apply mapped_size in H; lia. Qed.

Lemma cstring_bytes m a l :
  cstring m a l ↔ bytes_at m a (l ++ [0]) ∧ Forall (λ c, c ≠ 0) l.
Proof.
  revert a. induction l as [|c l IH]; intros a; cbn [cstring app bytes_at].
  - split; [|tauto]. intros H. split; [done|constructor].
  - rewrite IH, Forall_cons. tauto.
Qed.

Lemma cstring_mapped m a l : cstring m a l → mapped m a (Z.of_nat (length l) + 1).
Proof.
  revert a. induction l as [|c l IH]; cbn [cstring length]; intros a.
  - intros H x Hx. replace x with a by lia. eauto.
  - intros (Hc & _ & Hl) x Hx. destruct (decide (x = a)) as [->|]; [eauto|].
    apply (IH (a + 1)); [done|lia].
Qed.

Lemma cstring_size m a l : cstring m a l → (length l < size m)%nat.
Proof. intros H%cstring_mapped. apply mapped_size in H; lia. Qed.

Lemma cstring_text m a l : cstring m a l → bytes_at m a l.
Proof. intros [H _]%cstring_bytes. by apply bytes_at_app in H as [H _]. Qed.

Lemma cstring_write m a l :
  Forall (λ c, c ≠ 0) l → cstring (write_bytes m a (l ++ [0])) a l.
Proof. intros H. apply cstring_bytes. split; [apply bytes_at_write|done]. Qed.

(** A string away from the written range is untouched. *)
Lemma cstring_frame m m' a l :
  cstring m a l →
  (∀ x, a ≤ x ≤ a + Z.of_nat (length l) → m' !! x = m !! x) → cstring m' a l.
Proof.
  revert a. induction l as [|c l IH]; cbn [cstring length]; intros a.
  - intros H Hm. rewrite Hm by lia. done.
  - intros (Hc & Hn & Hl) Hm. split; [rewrite Hm by lia; done|]. split; [done|].
    apply IH; [done|]. intros x Hx. apply Hm. lia.
Qed.
End mem_lemmas.

(** ** 32-bit words *)

(** The little-endian bytes of a word. *)
Definition le32 (v : Z) : list Z :=
  [u8 v; u8 (Z.shiftr v 8); u8 (Z.shiftr v 16); u8 (Z.shiftr v 24)].

Section words.
Implicit Types (m : mem).

Lemma le32_u8 v : Forall is_u8 (le32 v).
Proof. repeat constructor; apply u8_range. Qed.

Lemma le32_value v :
  is_u32 v →
  u8 v + Z.shiftl (u8 (Z.shiftr v 8)) 8 + Z.shiftl (u8 (Z.shiftr v 16)) 16 +
    Z.shiftl (u8 (Z.shiftr v 24)) 24 = v.
Proof.
  unfold is_u32, u8. intros Hv. rewrite !Z.shiftr_div_pow2, !Z.shiftl_mul_pow2 by lia.
  change (2 ^ 16) with (2 ^ 8 * 2 ^ 8). change (2 ^ 24) with (2 ^ 8 * 2 ^ 8 * 2 ^ 8).
  rewrite <-!Z.div_div by lia. change (2 ^ 8) with 256.
  Z.to_euclidean_division_equations. lia.
Qed.

Lemma load32_ok m a v : is_u32 v → bytes_at m a (le32 v) → load32 a m = Ok (v, m).
Proof.
  intros Hv (H0 & H1 & H2 & H3 & _). rewrite <-!Z.add_assoc in *. unfold load32.
  stm_step (load8_ok _ _ _ H0). stm_step (load8_ok _ _ _ H1).
  stm_step (load8_ok _ _ _ H2). stm_step (load8_ok _ _ _ H3).
  by rewrite le32_value.
Qed.

Lemma store32_ok m a v : mapped m a 4 → store32 a v m = Ok (tt, write_bytes m a (le32 v)).
Proof.
  intros Hm. unfold store32.
  stm_step (store8_ok m a v (Hm a ltac:(lia))).
  stm_step (store8_ok _ (a + 1) (Z.shiftr v 8)
    (mapped_insert _ _ _ a (u8 v) Hm (a + 1) ltac:(lia))).
  stm_step (store8_ok _ (a + 2) (Z.shiftr v 16)
    (mapped_insert _ _ _ (a + 1) (u8 (Z.shiftr v 8))
      (mapped_insert _ _ _ a (u8 v) Hm) (a + 2) ltac:(lia))).
  rewrite store8_ok; [cbn [le32 write_bytes]; by rewrite <-!Z.add_assoc|].
  apply (mapped_at _ a 4); [|lia]. by repeat apply mapped_insert.
Qed.
End words.

(** ** 16-bit words *)
Definition le16 (v : Z) : list Z := [u8 v; u8 (Z.shiftr v 8)].

Section half_words.
Implicit Types (m : mem).

Lemma load16_ok m a v : is_u16 v → bytes_at m a (le16 v) → load16 a m = Ok (v, m).
Proof.
  unfold is_u16. intros Hv (H0 & H1 & _). unfold load16.
  stm_step (load8_ok _ _ _ H0). stm_step (load8_ok _ _ _ H1).
  replace (u8 v + Z.shiftl (u8 (Z.shiftr v 8)) 8) with v; [done|].
  unfold u8. rewrite Z.shiftr_div_pow2, Z.shiftl_mul_pow2 by lia.
  change (2 ^ 8) with 256 in *. change (2 ^ 16) with 65536 in *.
  Z.to_euclidean_division_equations. lia.
Qed.

Lemma store16_ok m a v : mapped m a 2 → store16 a v m = Ok (tt, write_bytes m a (le16 v)).
Proof.
  intros Hm. unfold store16. stm_step (store8_ok m a v (Hm a ltac:(lia))).
  rewrite store8_ok; [done|]. apply (mapped_at _ a 2); [by apply mapped_insert|lia].
Qed.
End half_words.

(** ** Words at an address *)
Definition word_at (m : mem) (a v : Z) : Prop := is_u32 v ∧ bytes_at m a (le32 v).
Definition half_at (m : mem) (a v : Z) : Prop := is_u16 v ∧ bytes_at m a (le16 v).

(** Two memories with the same contents from [a] to [a + n]. *)
Definition agree (m m' : mem) (a n : Z) : Prop := ∀ x, a ≤ x < a + n → m' !! x = m !! x.

Section words_at.
Implicit Types (m : mem).

Lemma word_load m a v : word_at m a v → load32 a m = Ok (v, m).
Proof. intros [Hv Hb]. by apply load32_ok. Qed.

Lemma half_load m a v : half_at m a v → load16 a m = Ok (v, m).
Proof. intros [Hv Hb]. by apply load16_ok. Qed.

Lemma word_mapped m a v : word_at m a v → mapped m a 4.
Proof.
  intros [_ Hb] x Hx. rewrite bytes_at_lookup in Hb.
  assert (Hi : ∃ w, le32 v !! Z.to_nat (x - a) = Some w).
  { apply lookup_lt_is_Some_2. cbn. lia. }
  destruct Hi as [w Hw]. exists w. specialize (Hb _ _ Hw).
  by replace (a + Z.of_nat (Z.to_nat (x - a))) with x in Hb by lia.
Qed.

Lemma word_write_same m a v : is_u32 v → word_at (write_bytes m a (le32 v)) a v.
Proof. intros Hv. split; [done|apply bytes_at_write]. Qed.

Lemma word_write_other m a b v w :
  word_at m b w → a + 4 ≤ b ∨ b + 4 ≤ a → word_at (write_bytes m a (le32 v)) b w.
Proof.
  intros [Hw Hb] Hd. split; [done|]. rewrite bytes_at_lookup in *. intros i x Hi.
  rewrite write_bytes_outside; [by apply Hb|].
  apply lookup_lt_Some in Hi as Hl. cbn in Hl. cbn [length le32]. lia.
Qed.

Lemma word_outside m a l b v :
  word_at m b v → a + Z.of_nat (length l) ≤ b ∨ b + 4 ≤ a → word_at (write_bytes m a l) b v.
Proof.
  intros [Hv Hb] Hd. split; [done|]. rewrite bytes_at_lookup in *. intros i x Hi.
  rewrite write_bytes_outside; [by apply Hb|].
  apply lookup_lt_Some in Hi as Hl. cbn in Hl. lia.
Qed.

Lemma bytes_at_agree m m' a l :
  bytes_at m a l → agree m m' a (Z.of_nat (length l)) → bytes_at m' a l.
Proof.
  rewrite !bytes_at_lookup. intros H Ha i v Hi. apply lookup_lt_Some in Hi as Hl.
  rewrite Ha by lia. by apply H.
Qed.

Lemma word_at_agree m m' a v : word_at m a v → agree m m' a 4 → word_at m' a v.
Proof. intros [Hv Hb] Ha. split; [done|]. by apply bytes_at_agree with m. Qed.

Lemma half_at_agree m m' a v : half_at m a v → agree m m' a 2 → half_at m' a v.
Proof. intros [Hv Hb] Ha. split; [done|]. by apply bytes_at_agree with m. Qed.

Lemma agree_sub m m' a n b k : agree m m' a n → a ≤ b → b + k ≤ a + n → agree m m' b k.
Proof. intros H Hb Hk x Hx. apply H. lia. Qed.

Lemma agree_trans m1 m2 m3 a n : agree m1 m2 a n → agree m2 m3 a n → agree m1 m3 a n.
Proof. intros H1 H2 x Hx. by rewrite H2, H1. Qed.

Lemma agree_write m a n b l :
  b + Z.of_nat (length l) ≤ a ∨ a + n ≤ b → agree m (write_bytes m b l) a n.
Proof. intros Hd x Hx. apply write_bytes_outside. lia. Qed.
End words_at.

(** ** Memories that hold bytes *)
Definition bytes_ok (m : mem) : Prop := ∀ a v, m !! a = Some v → is_u8 v.

(** The [n] bytes from [a] on. *)
Fixpoint bytes_from (m : mem) (a : Z) (n : nat) : list Z :=
  match n with
  | O => []
  | S n' => default 0 (m !! a) :: bytes_from m (a + 1) n'
  end.

Section bytes_ok.
Implicit Types (m : mem).

Lemma bytes_ok_write m a l : bytes_ok m → Forall is_u8 l → bytes_ok (write_bytes m a l).
Proof.
  intros Hm Hl x v. rewrite write_bytes_lookup. case_decide; [|apply Hm].
  intros Hv. rewrite Forall_forall in Hl. apply Hl. by apply list_elem_of_lookup_2 in Hv.
Qed.

Lemma length_bytes_from m a n : length (bytes_from m a n) = n.
Proof. revert a. induction n as [|n IH]; intros a; cbn [bytes_from length]; [done|]. by rewrite IH. Qed.

Lemma bytes_from_u8 m a n : bytes_ok m → Forall is_u8 (bytes_from m a n).
Proof.
  intros Hm. revert a. induction n as [|n IH]; intros a; cbn [bytes_from]; constructor; [|apply IH].
  destruct (m !! a) as [v|] eqn:E; cbn; [by apply (Hm a)|unfold is_u8; lia].
Qed.

Lemma bytes_from_at m a n : mapped m a (Z.of_nat n) → bytes_at m a (bytes_from m a n).
Proof.
  revert a. induction n as [|n IH]; intros a Hm; cbn [bytes_from bytes_at]; [done|]. split.
  - destruct (Hm a ltac:(lia)) as [v ->]. done.
  - apply IH. intros x Hx. apply Hm. lia.
Qed.

Lemma bytes_at_from m a l : bytes_at m a l → bytes_from m a (length l) = l.
Proof.
  revert a. induction l as [|v l IH]; intros a; cbn [bytes_at bytes_from length]; [done|].
  intros [-> Hl]. cbn. by rewrite IH.
Qed.

Lemma bytes_from_agree m m' a n : agree m m' a (Z.of_nat n) → bytes_from m' a n = bytes_from m a n.
Proof.
  revert a. induction n as [|n IH]; intros a Ha; cbn [bytes_from]; [done|].
  rewrite IH by (intros x Hx; apply Ha; lia). by rewrite Ha by lia.
Qed.

Lemma load32_range m a v m' : bytes_ok m → load32 a m = Ok (v, m') → is_u32 v ∧ m' = m.
Proof.
  intros Hm. unfold load32, load8, mbind, stm_bind, mret, stm_ret.
  destruct (m !! a) as [b0|] eqn:E0; [|done]. destruct (m !! (a + 1)) as [b1|] eqn:E1; [|done].
  destruct (m !! (a + 2)) as [b2|] eqn:E2; [|done]. destruct (m !! (a + 3)) as [b3|] eqn:E3; [|done].
  intros [= <- <-]. apply Hm in E0, E1, E2, E3. unfold is_u8, is_u32 in *.
  rewrite !Z.shiftl_mul_pow2 by lia. split; [lia|done].
Qed.

Lemma load16_range m a v m' : bytes_ok m → load16 a m = Ok (v, m') → is_u16 v ∧ m' = m.
Proof.
  intros Hm. unfold load16, load8, mbind, stm_bind, mret, stm_ret.
  destruct (m !! a) as [b0|] eqn:E0; [|done]. destruct (m !! (a + 1)) as [b1|] eqn:E1; [|done].
  intros [= <- <-]. apply Hm in E0, E1. unfold is_u8, is_u16 in *.
  rewrite !Z.shiftl_mul_pow2 by lia. split; [lia|done].
Qed.
End bytes_ok.

(** ** Operations that never map or unmap an address *)
Definition keeps_dom {A} (f : stm mem A) : Prop :=
  ∀ m a m', f m = Ok (a, m') → dom m' = dom m.

Section keeps_dom.
Context {A B : Type}.

Lemma keeps_dom_bind (f : stm mem A) (g : A → stm mem B) :
  keeps_dom f → (∀ a, keeps_dom (g a)) → keeps_dom (f ≫= g).
Proof.
  intros Hf Hg m b m'' H. apply stm_bind_inv in H as (a & m' & H1 & H2).
  rewrite (Hg _ _ _ _ H2). by apply (Hf _ _ _ H1).
Qed.

Lemma keeps_dom_ret (a : A) : keeps_dom (mret a).
Proof. by intros m b m' [= _ <-]. Qed.

Lemma keeps_dom_throw e : keeps_dom (throw (A := A) e).
Proof. by intros m b m' [=]. Qed.

Lemma keeps_dom_get : keeps_dom get.
Proof. by intros m b m' [= _ <-]. Qed.

Lemma keeps_dom_load8 a : keeps_dom (load8 a).
Proof. intros m b m'. unfold load8. destruct (m !! a); [|done]. by intros [= _ <-]. Qed.

Lemma keeps_dom_store8 a v : keeps_dom (store8 a v).
Proof.
  intros m b m'. unfold store8. destruct (m !! a) eqn:E; [|done]. intros [= _ <-].
  rewrite dom_insert_L. apply subseteq_union_1_L, singleton_subseteq_l. by apply elem_of_dom_2 in E.
Qed.

Lemma keeps_dom_mapped (f : stm mem A) m b m' a n :
  keeps_dom f → f m = Ok (b, m') → mapped m' a n → mapped m a n.
Proof.
  intros Hf H Hm x Hx. apply elem_of_dom. rewrite <-(Hf _ _ _ H). apply elem_of_dom. by apply Hm.
Qed.
End keeps_dom.

Create HintDb keeps.
#[export] Hint Resolve keeps_dom_ret keeps_dom_throw keeps_dom_get keeps_dom_load8
  keeps_dom_store8 : keeps.

(** Walks through a monadic body: binds, conditionals and matches. *)
Ltac keeps :=
  repeat first
    [ solve [eauto 2 with keeps]
    | apply keeps_dom_bind; intros
    | match goal with
      | |- keeps_dom (if ?b then _ else _) => destruct b
      | |- keeps_dom (match ?x with _ => _ end) => destruct x
      | |- keeps_dom (let '(_, _) := ?x in _) => destruct x
      end ].

(** ** Concrete memories, for examples *)
Definition zero_mem (a n : Z) : mem := list_to_map ((λ x, (x, 0)) <$> seqZ a n).

Lemma zero_mem_lookup a n x :
  zero_mem a n !! x = if decide (a ≤ x < a + n) then Some 0 else None.
Proof.
  unfold zero_mem. case_decide as E.
  - apply elem_of_list_to_map_1.
    + rewrite <-list_fmap_compose. change (fst ∘ _) with (λ x : Z, x). rewrite list_fmap_id.
      apply NoDup_seqZ.
    + apply list_elem_of_fmap. exists x. split; [done|]. by apply elem_of_seqZ.
  - apply not_elem_of_list_to_map_1. rewrite <-list_fmap_compose.
    change (fst ∘ _) with (λ x : Z, x). rewrite list_fmap_id. by rewrite elem_of_seqZ.
Qed.

Lemma zero_mem_mapped a n : mapped (zero_mem a n) a n.
Proof. intros x Hx. rewrite zero_mem_lookup, decide_True by lia. eauto. Qed.

Definition mapped_check (m : mem) (a n : Z) : bool :=
  forallb (λ x, bool_decide (is_Some (m !! x))) (seqZ a n).

Lemma mapped_check_ok m a n : mapped_check m a n = true → mapped m a n.
Proof.
  intros H x Hx. unfold mapped_check in H. rewrite forallb_forall in H.
  apply (bool_decide_eq_true_1 _), H, list_elem_of_In, elem_of_seqZ. lia.
Qed.

Create HintDb mem.
#[export] Hint Resolve write_bytes_mapped mapped_insert mapped_at bytes_at_write : mem.
