(* ===== verification/Klib.v ===== *)
(** * klib: strings, memory blocks, number formatting (kernel/tools/klib.c)

    Each function works on the byte memory of [Mem]. A pointer is its address;
    [0] is the null pointer. Loops that walk over memory take [S (size m)] as
    fuel, which no walk can exhaust ([klib_loops_terminate]). A function that
    can reach its closing brace without [return] yields [option Z], [None]
    being the missing value. *)
From S2P Require Import Prelude Mem.

(** ** String and block operations *)

Fixpoint strcpy_loop (fuel : nat) (dest src : Z) : stm mem Z :=
  match fuel with
  | O => throw OutOfFuel
  | S f =>
      d ← load8 dest;
      if d =? 0 then mret dest else
      s ← load8 src;
      if s =? 0 then mret dest else
      store8 dest s;; strcpy_loop f (dest + 1) (src + 1)
  end.

Definition kernel_strcpy (dest src : Z) : stm mem unit :=
  if (dest =? 0) || (src =? 0) then mret tt else
  m ← get;
  dest ← strcpy_loop (S (size m)) dest src;
  store8 dest 0.

(** [while (size-- && *s)]: returns the final [d] and [size]. *)
Fixpoint strncpy_loop (fuel : nat) (size d s : Z) : stm mem (Z * Z) :=
  match fuel with
  | O => throw OutOfFuel
  | S f =>
      let size' := s32 (size - 1) in
      if size =? 0 then mret (d, size') else
      c ← load8 s;
      if c =? 0 then mret (d, size') else
      store8 d c;; strncpy_loop f size' (d + 1) (s + 1)
  end.

Definition kernel_strncpy (dest src size : Z) : stm mem unit :=
  if (dest =? 0) || (src =? 0) || (size =? 0) then mret tt else
  m ← get;
  '(d, size) ← strncpy_loop (S (base.size m)) size dest src;
  if size =? 0 then store8 (d - 1) 0 else store8 d 0.

Fixpoint strncmp_loop (fuel : nat) (s1 s2 size : Z) : stm mem (option Z) :=
  let finish size := mret (if size =? 0 then Some 0 else None) in
  match fuel with
  | O => throw OutOfFuel
  | S f =>
      a ← load8 s1;
      if a =? 0 then finish size else
      b ← load8 s2;
      if b =? 0 then finish size else
      let size' := s32 (size - 1) in
      if size =? 0 then finish size' else
      if negb (a =? b) then mret (Some 1) else
      strncmp_loop f (s1 + 1) (s2 + 1) size'
  end.

Definition kernel_strncmp (s1 s2 size : Z) : stm mem (option Z) :=
  if (s1 =? 0) || (s2 =? 0) then mret (Some 0) else
  m ← get; strncmp_loop (S (base.size m)) s1 s2 size.

Fixpoint strlen_loop (fuel : nat) (p len : Z) : stm mem Z :=
  match fuel with
  | O => throw OutOfFuel
  | S f =>
      c ← load8 p;
      if c =? 0 then mret len else strlen_loop f (p + 1) (s32 (len + 1))
  end.

Definition kernel_strlen (s : Z) : stm mem Z :=
  if s =? 0 then mret 0 else
  m ← get; strlen_loop (S (size m)) s 0.

(** [while (size--) *d++ = *s++] *)
Fixpoint copy_loop (fuel : nat) (size d s : Z) : stm mem Z :=
  match fuel with
  | O => throw OutOfFuel
  | S f =>
      if size =? 0 then mret d else
      c ← load8 s; store8 d c;; copy_loop f (s32 (size - 1)) (d + 1) (s + 1)
  end.

(** The copy reads from [(uint8_t * )&src]: the address of the parameter
    itself, passed here as [src_slot]. *)
Definition kernel_memcpy (src_slot dest src size : Z) : stm mem unit :=
  if (dest =? 0) || (src =? 0) || (size =? 0) then mret tt else
  m ← get; copy_loop (S (base.size m)) size dest src_slot;; mret tt.

Fixpoint memset_loop (fuel : nat) (size d v : Z) : stm mem unit :=
  match fuel with
  | O => throw OutOfFuel
  | S f =>
      if size =? 0 then mret tt else
      store8 d v;; memset_loop f (s32 (size - 1)) (d + 1) v
  end.

Definition kernel_memset (dest v size : Z) : stm mem unit :=
  if (dest =? 0) || (size =? 0) then mret tt else
  m ← get; memset_loop (S (base.size m)) size dest v.

Fixpoint memcmp_loop (fuel : nat) (size s1 s2 : Z) : stm mem (option Z) :=
  match fuel with
  | O => throw OutOfFuel
  | S f =>
      let size' := s32 (size - 1) in
      if size =? 0 then mret (if size' =? 0 then Some 0 else None) else
      a ← load8 s1; b ← load8 s2;
      if negb (a =? b) then mret (Some 1) else
      memcmp_loop f size' (s1 + 1) (s2 + 1)
  end.

Definition kernel_memcmp (d1 d2 size : Z) : stm mem (option Z) :=
  if (d1 =? 0) || (d2 =? 0) || (size =? 0) then mret (Some 0) else
  m ← get; memcmp_loop (S (base.size m)) size d1 d2.

(** ** Alignment ([klib.h]) *)
Definition down2 (size bound : Z) : Z :=
  Z.land size (u32 (Z.lnot (u32 (bound - 1)))).

Definition up2 (size bound : Z) : Z :=
  Z.land (u32 (size + bound - 1)) (u32 (Z.lnot (u32 (bound - 1)))).

(** ** Numbers *)
Definition numchar : list Z := bytes_of_string "FEDCBA9876543210123456789ABCDEF"%string.

(** The character [numchar[i]]; an index outside the table is not reached for
    the bases the function accepts. *)
Definition numchar_at (i : Z) : Z := default 0 (numchar !! Z.to_nat i).

(** [do { *str++ = numchar[num%base+15]; num = num/base; } while (num != 0)] *)
Fixpoint itoa_digits (fuel : nat) (num base str : Z) : stm mem Z :=
  match fuel with
  | O => throw OutOfFuel
  | S f =>
      store8 str (numchar_at (Z.rem num base + 15));;
      let num := Z.quot num base in
      if negb (num =? 0) then itoa_digits f num base (str + 1)
      else mret (str + 1)
  end.

(** [while (start < str) swap] *)
Fixpoint reverse_loop (fuel : nat) (start str : Z) : stm mem unit :=
  if start <? str then
    match fuel with
    | O => throw OutOfFuel
    | S f =>
        temp ← load8 start;
        c ← load8 str;
        store8 start c;;
        store8 str temp;;
        reverse_loop f (start + 1) (str - 1)
    end
  else mret tt.

Definition kernel_itoa (num buf base : Z) : stm mem unit :=
  if negb (base =? 2) && negb (base =? 8) && negb (base =? 10) && negb (base =? 16)
  then store8 buf 0
  else
    '(str, start) ←
      (if (num <? 0) && (base =? 10)
       then store8 buf 45;; mret (buf + 1, buf + 1)
       else mret (buf, buf));
    str ← itoa_digits 32 num base str;
    store8 str 0;;
    reverse_loop (Z.to_nat (str - 1 - start)) start (str - 1).

(** ** Formatted output *)
Inductive fmt_state : Type := NORMAL | READ_FMT.

(** [va_arg]: the next 32-bit argument word, if the caller passed one. *)
Definition va_arg (args : list Z) : stm mem (Z * list Z) :=
  match args with
  | [] => throw VaArg
  | a :: args' => mret (a, args')
  end.

(** The action of a conversion character [ch] in state [READ_FMT]: the new
    output pointer and the remaining arguments. *)
Definition vsprintf_conv (ch p : Z) (args : list Z) : stm mem (Z * list Z) :=
  if ch =? 115 (* 's' *) then
    '(str, args) ← va_arg args;
    len ← kernel_strlen str;
    m ← get;
    p ← copy_loop (S (size m)) len p str;
    mret (p, args)
  else if ch =? 100 (* 'd' *) then
    '(num_d, args) ← va_arg args;
    kernel_itoa num_d p 10;;
    len ← kernel_strlen p;
    mret (p + len, args)
  else if ch =? 99 (* 'c' *) then
    '(c, args) ← va_arg args;
    store8 p c;;
    mret (p + 1, args)
  else if ch =? 120 (* 'x' *) then
    '(num_d, args) ← va_arg args;
    kernel_itoa num_d p 16;;
    len ← kernel_strlen p;
    mret (p + len, args)
  else mret (p, args).

Fixpoint vsprintf_loop (fuel : nat) (state : fmt_state) (p fmt : Z) (args : list Z)
    : stm mem unit :=
  match fuel with
  | O => throw OutOfFuel
  | S f =>
      ch ← load8 fmt;
      if ch =? 0 then mret tt else
      match state with
      | NORMAL =>
          if ch =? 37 (* '%' *) then vsprintf_loop f READ_FMT p (fmt + 1) args
          else store8 p ch;; vsprintf_loop f NORMAL (p + 1) (fmt + 1) args
      | READ_FMT =>
          '(p, args) ← vsprintf_conv ch p args;
          vsprintf_loop f NORMAL p (fmt + 1) args
      end
  end.

Definition kernel_vsprintf (str_buf fmt : Z) (args : list Z) : stm mem unit :=
  m ← get; vsprintf_loop (S (size m)) NORMAL str_buf fmt args.

Definition kernel_sprintf (buffer fmt : Z) (args : list Z) : stm mem unit :=
  kernel_vsprintf buffer fmt args.

(** ** Loop lemmas: what each loop does, and that its fuel is never exhausted *)
Section loops.
Implicit Types (m : mem) (l : list Z) (fuel : nat).

Lemma strlen_loop_ok fuel p len l m :
  cstring m p l → (length l < fuel)%nat → 0 ≤ len →
  len + Z.of_nat (length l) < 2 ^ 31 →
  strlen_loop fuel p len m = Ok (len + Z.of_nat (length l), m).
Proof.
  revert fuel p len. induction l as [|c l IH]; intros [|fuel] p len Hs Hf H0 Hl;
    cbn [length] in *; try lia; cbn [strlen_loop cstring] in *.
  - stm_step (load8_ok _ _ _ Hs). by rewrite Z.eqb_refl, Z.add_0_r.
  - destruct Hs as (Hc & Hn & Hs). stm_step (load8_ok _ _ _ Hc).
    rewrite (proj2 (Z.eqb_neq c 0) Hn), s32_id by lia.
    rewrite IH by (done || lia). do 2 f_equal. lia.
Qed.

Lemma kernel_strlen_ok s l m :
  s ≠ 0 → cstring m s l → Z.of_nat (length l) < 2 ^ 31 →
  kernel_strlen s m = Ok (Z.of_nat (length l), m).
Proof.
  intros Hn Hs Hl. unfold kernel_strlen. rewrite (proj2 (Z.eqb_neq s 0) Hn).
  rewrite (stm_bind_ok get _ m m m) by done.
  pose proof (cstring_size _ _ _ Hs).
  apply (strlen_loop_ok _ _ 0); try done; lia.
Qed.

Lemma copy_loop_ok fuel d s l m :
  bytes_at m s l → Forall is_u8 l → mapped m d (Z.of_nat (length l)) →
  s + Z.of_nat (length l) ≤ d ∨ d + Z.of_nat (length l) ≤ s →
  (length l < fuel)%nat → Z.of_nat (length l) < 2 ^ 31 →
  copy_loop fuel (Z.of_nat (length l)) d s m =
    Ok (d + Z.of_nat (length l), write_bytes m d l).
Proof.
  revert fuel d s m. induction l as [|c l IH]; intros [|fuel] d s m Hb Hu Hd Hsep Hf Hl;
    cbn [length] in *; try lia.
  { cbn. by rewrite Z.add_0_r. }
  cbn [copy_loop bytes_at write_bytes] in *. destruct Hb as [Hc Hb].
  apply Forall_cons in Hu as [Hc8 Hu].
  replace (Z.of_nat (S (length l)) =? 0) with false by lia.
  stm_step (load8_ok _ _ _ Hc).
  stm_step (store8_ok m d c (Hd d ltac:(lia))).
  rewrite s32_id, u8_id by (unfold is_u8 in *; lia).
  replace (Z.of_nat (S (length l)) - 1) with (Z.of_nat (length l)) by lia.
  rewrite IH; [do 2 f_equal; lia|..]; try done; try lia.
  - apply bytes_at_lookup. intros i v Hi. pose proof (lookup_lt_Some _ _ _ Hi).
    rewrite lookup_insert_ne by lia. by apply bytes_at_lookup with l.
  - apply mapped_insert. intros x Hx. apply Hd. lia.
Qed.

Lemma memset_loop_ok fuel d v n m :
  mapped m d (Z.of_nat n) → (n < fuel)%nat → Z.of_nat n < 2 ^ 31 →
  memset_loop fuel (Z.of_nat n) d v m = Ok (tt, write_bytes m d (replicate n (u8 v))).
Proof.
  revert fuel d m. induction n as [|n IH]; intros [|fuel] d m Hd Hf Hn; try lia; [done|].
  cbn [memset_loop replicate write_bytes].
  replace (Z.of_nat (S n) =? 0) with false by lia.
  stm_step (store8_ok m d v (Hd d ltac:(lia))).
  rewrite s32_id by lia. replace (Z.of_nat (S n) - 1) with (Z.of_nat n) by lia.
  apply IH; try lia. apply mapped_insert. intros x Hx. apply Hd. lia.
Qed.

Lemma kernel_memset_ok dest v n m :
  dest ≠ 0 → mapped m dest n → 0 ≤ n < 2 ^ 31 →
  kernel_memset dest v n m = Ok (tt, write_bytes m dest (replicate (Z.to_nat n) (u8 v))).
Proof.
  intros Hd Hm Hn. unfold kernel_memset. rewrite (proj2 (Z.eqb_neq dest 0) Hd).
  destruct (Z.eqb_spec n 0) as [->|Hn0]; [done|]. cbn [orb].
  rewrite (stm_bind_ok get _ m m m) by done.
  pose proof (mapped_size m dest n ltac:(lia) Hm).
  rewrite <-(Z2Nat.id n) at 1 by lia. apply memset_loop_ok; try lia.
  by rewrite Z2Nat.id by lia.
Qed.

(** *** Fuel *)
#[local] Ltac scan H IH :=
  cbn in H; unfold load8, store8, mbind, stm_bind, mret, stm_ret in H;
  repeat (case_match; simplify_eq; try done);
  apply IH in H; apply mapped_cons; [by eauto|];
  eauto using mapped_insert_inv.

Lemma strlen_loop_fuel fuel p len m :
  strlen_loop fuel p len m = Err OutOfFuel → mapped m p (Z.of_nat fuel).
Proof. revert p len. induction fuel as [|f IH]; intros p len H; [intros ??; lia|]. scan H IH. Qed.

Lemma strcpy_loop_fuel fuel dest src m :
  strcpy_loop fuel dest src m = Err OutOfFuel → mapped m dest (Z.of_nat fuel).
Proof.
  revert dest src m. induction fuel as [|f IH]; intros dest src m H; [intros ??; lia|]. scan H IH.
Qed.

Lemma strncpy_loop_fuel fuel size d s m :
  strncpy_loop fuel size d s m = Err OutOfFuel → mapped m s (Z.of_nat fuel).
Proof.
  revert size d s m. induction fuel as [|f IH]; intros size d s m H; [intros ??; lia|]. scan H IH.
Qed.

Lemma strncmp_loop_fuel fuel s1 s2 size m :
  strncmp_loop fuel s1 s2 size m = Err OutOfFuel → mapped m s1 (Z.of_nat fuel).
Proof.
  revert s1 s2 size. induction fuel as [|f IH]; intros s1 s2 size H; [intros ??; lia|]. scan H IH.
Qed.

Lemma copy_loop_fuel fuel size d s m :
  copy_loop fuel size d s m = Err OutOfFuel → mapped m s (Z.of_nat fuel).
Proof.
  revert size d s m. induction fuel as [|f IH]; intros size d s m H; [intros ??; lia|]. scan H IH.
Qed.

Lemma memset_loop_fuel fuel size d v m :
  memset_loop fuel size d v m = Err OutOfFuel → mapped m d (Z.of_nat fuel).
Proof.
  revert size d m. induction fuel as [|f IH]; intros size d m H; [intros ??; lia|]. scan H IH.
Qed.

Lemma memcmp_loop_fuel fuel size s1 s2 m :
  memcmp_loop fuel size s1 s2 m = Err OutOfFuel → mapped m s1 (Z.of_nat fuel).
Proof.
  revert size s1 s2. induction fuel as [|f IH]; intros size s1 s2 H; [intros ??; lia|]. scan H IH.
Qed.
End loops.

(** ** No function here maps or unmaps memory *)
Section klib_keeps.

Lemma copy_loop_keeps fuel size d s : keeps_dom (copy_loop fuel size d s).
Proof. revert size d s. induction fuel; intros; cbn [copy_loop]; keeps. Qed.

Lemma strlen_loop_keeps fuel p len : keeps_dom (strlen_loop fuel p len).
Proof. revert p len. induction fuel; intros; cbn [strlen_loop]; keeps. Qed.

Lemma itoa_digits_keeps fuel num base str : keeps_dom (itoa_digits fuel num base str).
Proof. revert num str. induction fuel; intros; cbn [itoa_digits]; keeps. Qed.

Lemma reverse_loop_keeps fuel start str : keeps_dom (reverse_loop fuel start str).
Proof. revert start str. induction fuel; intros; cbn [reverse_loop]; keeps. Qed.

#[local] Hint Resolve copy_loop_keeps strlen_loop_keeps itoa_digits_keeps
  reverse_loop_keeps : keeps.

Lemma kernel_strlen_keeps s : keeps_dom (kernel_strlen s).
Proof. unfold kernel_strlen. keeps. Qed.

Lemma kernel_itoa_keeps num buf base : keeps_dom (kernel_itoa num buf base).
Proof. unfold kernel_itoa. keeps. Qed.

#[local] Hint Resolve kernel_strlen_keeps kernel_itoa_keeps : keeps.

Lemma vsprintf_conv_keeps ch p args : keeps_dom (vsprintf_conv ch p args).
Proof. unfold vsprintf_conv, va_arg. keeps. Qed.
End klib_keeps.

(** ** Number formatting: the text [kernel_itoa] produces, and its value *)

(** The digit characters, least significant first. *)
Fixpoint digits_lsd (fuel : nat) (num base : Z) : list Z :=
  match fuel with
  | O => []
  | S f =>
      numchar_at (Z.rem num base + 15) ::
      (if Z.quot num base =? 0 then [] else digits_lsd f (Z.quot num base) base)
  end.

Definition itoa_text (num base : Z) : list Z :=
  (if (num <? 0) && (base =? 10) then [45] else []) ++ rev (digits_lsd 32 num base).

(** Reading a number back: the inverse of the formatting. *)
Definition digit_value (c : Z) : Z := if c <=? 57 then c - 48 else c - 55.
Definition value_lsd (base : Z) (ds : list Z) : Z :=
  foldr (λ c acc, digit_value c + base * acc) 0 ds.
Definition parse_int (base : Z) (text : list Z) : Z :=
  match text with
  | c :: ds => if c =? 45 then - value_lsd base (rev ds) else value_lsd base (rev text)
  | [] => 0
  end.

Definition itoa_base (base : Z) : Prop := base ∈ [2; 8; 10; 16].

Section itoa.
Implicit Types (m : mem) (l : list Z) (fuel : nat).

Lemma numchar_digit r :
  -16 < r < 16 →
  is_u8 (numchar_at (r + 15)) ∧ 48 ≤ numchar_at (r + 15) ∧
  digit_value (numchar_at (r + 15)) = Z.abs r.
Proof.
  intros Hr.
  assert (Hall : Forall (λ r, is_u8 (numchar_at (r + 15)) ∧ 48 ≤ numchar_at (r + 15) ∧
    digit_value (numchar_at (r + 15)) = Z.abs r) (seqZ (-15) 31)).
  { apply (bool_decide_unpack _). vm_compute. exact I. }
  rewrite Forall_forall in Hall. apply Hall, elem_of_seqZ. lia.
Qed.

Lemma itoa_base_range base : itoa_base base → 2 ≤ base ≤ 16.
Proof. unfold itoa_base. set_unfold. lia. Qed.

Lemma rem_digit num base : itoa_base base → -16 < Z.rem num base < 16.
Proof.
  intros Hb%itoa_base_range. pose proof (Z.rem_bound_abs num base). lia.
Qed.

Lemma quot_shrinks num base k :
  2 ≤ base → 0 ≤ k → Z.abs num < 2 ^ (k + 1) → Z.abs (Z.quot num base) < 2 ^ k.
Proof.
  intros Hb Hk H. rewrite <-Z.quot_abs, (Z.abs_eq base), Z.quot_div_nonneg by lia.
  apply Z.div_lt_upper_bound; [lia|]. rewrite Z.pow_add_r in H by lia.
  pose proof (Z.pow_pos_nonneg 2 k). nia.
Qed.

Lemma digits_lsd_chars fuel num base :
  itoa_base base → Forall (λ c, is_u8 c ∧ 48 ≤ c) (digits_lsd fuel num base).
Proof.
  intros Hb. revert num. induction fuel as [|f IH]; intros num; cbn [digits_lsd]; [constructor|].
  destruct (numchar_digit _ (rem_digit num _ Hb)) as (? & ? & _).
  constructor; [done|]. case_match; [constructor|apply IH].
Qed.

Lemma digits_lsd_value fuel num base :
  itoa_base base → Z.abs num < 2 ^ Z.of_nat fuel → (0 < fuel)%nat →
  value_lsd base (digits_lsd fuel num base) = Z.abs num.
Proof.
  intros Hb. pose proof (itoa_base_range _ Hb) as Hr. revert num.
  induction fuel as [|f IH]; intros num Hn Hf; [lia|]. cbn [digits_lsd value_lsd foldr].
  destruct (numchar_digit _ (rem_digit num _ Hb)) as (_ & _ & ->).
  pose proof (Z.quot_rem' (Z.abs num) base) as Hqr.
  replace (Z.abs num ÷ base) with (Z.abs (num ÷ base)) in Hqr
    by (rewrite <-Z.quot_abs by lia; f_equal; lia).
  replace (Z.rem (Z.abs num) base) with (Z.abs (Z.rem num base)) in Hqr
    by (rewrite <-Z.rem_abs by lia; f_equal; lia).
  destruct (Z.eqb_spec (num ÷ base) 0) as [E|E].
  - rewrite E in Hqr. cbn [foldr]. lia.
  - destruct f as [|f].
    { exfalso. apply E. apply Z.abs_0_iff.
      pose proof (quot_shrinks num base 0 ltac:(lia) ltac:(lia) Hn). lia. }
    fold (value_lsd base (digits_lsd (S f) (num ÷ base) base)).
    rewrite IH; [lia| |lia]. apply quot_shrinks; [lia|lia|].
    by replace (Z.of_nat (S f) + 1) with (Z.of_nat (S (S f))) by lia.
Qed.

Lemma digits_lsd_length fuel num base : (length (digits_lsd fuel num base) ≤ fuel)%nat.
Proof.
  revert num. induction fuel as [|f IH]; intros num; cbn [digits_lsd]; [done|].
  cbn [length]. case_match; cbn [length]; [lia|]. specialize (IH (num ÷ base)). lia.
Qed.

Lemma digits_lsd_nonempty fuel num base :
  (0 < fuel)%nat → (0 < length (digits_lsd fuel num base))%nat.
Proof. destruct fuel; cbn [digits_lsd length]; lia. Qed.

Lemma itoa_digits_ok fuel num base str m :
  itoa_base base → Z.abs num < 2 ^ Z.of_nat fuel → (0 < fuel)%nat →
  mapped m str (Z.of_nat (length (digits_lsd fuel num base))) →
  itoa_digits fuel num base str m =
    Ok (str + Z.of_nat (length (digits_lsd fuel num base)),
        write_bytes m str (digits_lsd fuel num base)).
Proof.
  intros Hb. pose proof (itoa_base_range _ Hb) as Hr. revert num str m.
  induction fuel as [|f IH]; intros num str m Hn Hf Hm; [lia|].
  cbn [digits_lsd itoa_digits length write_bytes] in *.
  destruct (numchar_digit _ (rem_digit num _ Hb)) as (Hu & _ & _).
  stm_step (store8_ok m str (numchar_at (Z.rem num base + 15)) (Hm str ltac:(lia))).
  rewrite (u8_id (numchar_at _)) by (unfold is_u8 in Hu; lia).
  destruct (Z.eqb_spec (num ÷ base) 0) as [E|E]; cbn [negb length write_bytes].
  { done. }
  destruct f as [|f].
  { exfalso. apply E. apply Z.abs_0_iff.
    pose proof (quot_shrinks num base 0 ltac:(lia) ltac:(lia) Hn). lia. }
  rewrite IH; [do 2 f_equal; lia| |lia|].
  - apply quot_shrinks; [lia|lia|].
    by replace (Z.of_nat (S f) + 1) with (Z.of_nat (S (S f))) by lia.
  - apply mapped_insert. intros x Hx. apply Hm. lia.
Qed.

(** Two-ended view of a list with at least two elements. *)
Lemma list_two_ends l :
  (2 ≤ length l)%nat → ∃ x mid y, l = x :: mid ++ [y].
Proof.
  destruct l as [|x l]; cbn [length]; [lia|]. intros H.
  destruct l as [|y l _] using rev_ind; cbn [length] in H; [lia|]. eauto.
Qed.

Lemma reverse_loop_ok fuel a l m :
  bytes_at m a l → Forall is_u8 l → Z.of_nat (length l) - 1 ≤ Z.of_nat fuel →
  ∃ m', reverse_loop fuel a (a + Z.of_nat (length l) - 1) m = Ok (tt, m') ∧
    bytes_at m' a (rev l) ∧
    ∀ x, ¬ (a ≤ x < a + Z.of_nat (length l)) → m' !! x = m !! x.
Proof.
  revert a l m. induction fuel as [|f IH]; intros a l m Hb Hu Hf.
  { exists m. cbn. replace (a <? a + Z.of_nat (length l) - 1) with false by lia.
    split; [done|]. split; [|done]. destruct l as [|? [|]]; cbn in *; try done. lia. }
  destruct (decide (2 ≤ length l)%nat) as [H2|H2]; last first.
  { exists m. cbn. replace (a <? a + Z.of_nat (length l) - 1) with false by lia.
    split; [done|]. split; [|done]. destruct l as [|? [|]]; cbn in *; try done. lia. }
  destruct (list_two_ends _ H2) as (x & mid & y & ->).
  cbn [length] in *. rewrite length_app in *. cbn [length] in *.
  apply Forall_cons in Hu as [Hx Hu]. apply Forall_app in Hu as [Hmid Hy].
  apply Forall_cons in Hy as [Hy _]. unfold is_u8 in Hx, Hy.
  cbn [bytes_at] in Hb. destruct Hb as [Hxa Hb]. apply bytes_at_app in Hb as [Hbm [Hya _]].
  set (e := a + Z.of_nat (S (length mid + 1)) - 1).
  replace (a + 1 + Z.of_nat (length mid)) with e in Hya by lia.
  cbn [reverse_loop]. replace (a <? e) with true by lia.
  stm_step (load8_ok _ _ _ Hxa). stm_step (load8_ok _ _ _ Hya).
  stm_step (store8_ok m a y ltac:(eauto)). rewrite u8_id by lia.
  assert (He : is_Some (<[a:=y]> m !! e)) by (rewrite lookup_insert_ne by lia; eauto).
  stm_step (store8_ok _ e x He). rewrite u8_id by lia.
  destruct (IH (a + 1) mid (<[e:=x]> (<[a:=y]> m))) as (m' & Hr & Hb' & Ho); [|done|lia|].
  { apply bytes_at_lookup. intros i v Hi. pose proof (lookup_lt_Some _ _ _ Hi).
    rewrite !lookup_insert_ne by lia. by apply bytes_at_lookup with mid. }
  exists m'. replace (e - 1) with (a + 1 + Z.of_nat (length mid) - 1) by lia.
  split; [done|]. split.
  - cbn [rev]. rewrite rev_app_distr. cbn [rev app].
    cbn [bytes_at].
    rewrite bytes_at_app, length_rev. cbn [bytes_at].
    replace (a + 1 + Z.of_nat (length mid)) with e by lia.
    rewrite !Ho by lia. rewrite lookup_insert_ne, lookup_insert_eq by lia.
    by rewrite lookup_insert_eq.
  - intros z Hz. rewrite Ho by lia. by rewrite !lookup_insert_ne by lia.
Qed.

(** The end of a conversion: terminate the digits [ds] and reverse them. *)
Lemma terminate_reverse_ok a ds m :
  Forall is_u8 ds → (0 < length ds)%nat → mapped m a (Z.of_nat (length ds) + 1) →
  (store8 (a + Z.of_nat (length ds)) 0;;
   reverse_loop (Z.to_nat (a + Z.of_nat (length ds) - 1 - a)) a (a + Z.of_nat (length ds) - 1))
    (write_bytes m a ds) = Ok (tt, write_bytes m a (rev ds ++ [0])).
Proof.
  intros Hu Hne Hm.
  assert (He : is_Some (write_bytes m a ds !! (a + Z.of_nat (length ds)))).
  { rewrite write_bytes_outside by lia. apply Hm. lia. }
  stm_step (store8_ok _ _ 0 He). change (u8 0) with 0. rewrite <-write_bytes_insert.
  replace (a + Z.of_nat (length ds) - 1 - a) with (Z.of_nat (length ds) - 1) by lia.
  destruct (reverse_loop_ok (Z.to_nat (Z.of_nat (length ds) - 1)) a ds
    (write_bytes m a (ds ++ [0]))) as (m' & -> & Hb' & Ho); [|done|lia|].
  - by apply (bytes_at_app _ _ ds [0]), bytes_at_write.
  - do 2 f_equal. apply write_bytes_unique.
    + apply bytes_at_app. split; [done|]. rewrite length_rev. cbn [bytes_at]. split; [|done].
      rewrite Ho by lia. rewrite write_bytes_insert. by rewrite lookup_insert_eq.
    + intros x. rewrite length_app, length_rev. cbn [length]. intros Hx. rewrite Ho by lia.
      rewrite write_bytes_outside; [done|]. rewrite length_app. cbn [length]. lia.
Qed.

Lemma itoa_core_ok num base a m :
  itoa_base base → is_s32 num →
  mapped m a (Z.of_nat (length (digits_lsd 32 num base)) + 1) →
  (str ← itoa_digits 32 num base a;
   store8 str 0;;
   reverse_loop (Z.to_nat (str - 1 - a)) a (str - 1)) m =
  Ok (tt, write_bytes m a (rev (digits_lsd 32 num base) ++ [0])).
Proof.
  intros Hb Hn Hm. unfold is_s32 in Hn.
  pose proof (digits_lsd_chars 32 num base Hb) as Hch.
  pose proof (digits_lsd_nonempty 32 num base ltac:(lia)) as Hne.
  assert (Z.abs num < 2 ^ Z.of_nat 32) as Habs by (change (Z.of_nat 32) with 32; lia).
  pose proof (itoa_digits_ok 32 num base a m Hb Habs ltac:(lia)) as Hd.
  set (ds := digits_lsd 32 num base) in *.
  stm_step (Hd (mapped_le _ _ _ (Z.of_nat (length ds)) Hm ltac:(lia))).
  apply terminate_reverse_ok; [|done|done].
  eapply Forall_impl; [exact Hch|]. by intros c [].
Qed.

Lemma kernel_itoa_ok num buf base m :
  itoa_base base → is_s32 num →
  mapped m buf (Z.of_nat (length (itoa_text num base)) + 1) →
  kernel_itoa num buf base m =
    Ok (tt, write_bytes m buf (itoa_text num base ++ [0])).
Proof.
  intros Hb Hn Hm. unfold kernel_itoa.
  assert (negb (base =? 2) && negb (base =? 8) && negb (base =? 10) && negb (base =? 16)
    = false) as -> by (unfold itoa_base in Hb; set_unfold; lia).
  unfold itoa_text in *. destruct ((num <? 0) && (base =? 10)).
  - rewrite length_app, length_rev in Hm. cbn [length] in Hm.
    erewrite (stm_bind_ok _ _ m (buf + 1, buf + 1) (<[buf := 45]> m)); last first.
    { stm_step (store8_ok m buf 45 (Hm buf ltac:(lia))). done. }
    cbn beta iota. rewrite itoa_core_ok; [done|done|done|].
    apply mapped_insert. intros x Hx. apply Hm. lia.
  - cbn [app] in *. rewrite length_rev in Hm.
    rewrite (stm_bind_ok _ _ m (buf, buf) m) by done. by apply itoa_core_ok.
Qed.

Lemma itoa_text_chars num base :
  itoa_base base → Forall (λ c, is_u8 c ∧ 45 ≤ c) (itoa_text num base).
Proof.
  intros Hb. apply Forall_app. split.
  - case_match; repeat constructor; unfold is_u8; lia.
  - apply Forall_rev. eapply Forall_impl; [by apply digits_lsd_chars|].
    cbn. intros c []. split; [done|lia].
Qed.

Lemma itoa_text_length num base : (length (itoa_text num base) ≤ 33)%nat.
Proof.
  unfold itoa_text. rewrite length_app, length_rev.
  pose proof (digits_lsd_length 32 num base). case_match; cbn [length]; lia.
Qed.

Lemma itoa_text_value num base :
  itoa_base base → is_s32 num →
  parse_int base (itoa_text num base) = if base =? 10 then num else Z.abs num.
Proof.
  intros Hb Hn. unfold is_s32 in Hn.
  pose proof (digits_lsd_value 32 num base Hb
    ltac:(change (Z.of_nat 32) with 32; lia) ltac:(lia)) as Hv.
  pose proof (digits_lsd_chars 32 num base Hb) as Hch.
  pose proof (digits_lsd_nonempty 32 num base ltac:(lia)) as Hne.
  unfold itoa_text. set (ds := digits_lsd 32 num base) in *.
  destruct ((num <? 0) && (base =? 10)) eqn:E; cbn [app].
  - unfold parse_int. rewrite Z.eqb_refl, rev_involutive, Hv. destruct (base =? 10); lia.
  - unfold parse_int. destruct (rev ds) as [|c l] eqn:Er.
    { apply (f_equal length) in Er. rewrite length_rev in Er. cbn in Er. lia. }
    assert (48 ≤ c) as Hc.
    { apply Forall_rev in Hch. rewrite Er in Hch. by apply Forall_cons in Hch as [[]]. }
    replace (c =? 45) with false by lia. rewrite <-Er, rev_involutive, Hv.
    destruct (base =? 10); lia.
Qed.
End itoa.

(** ** Formatted output as a pure function *)

(** An argument as the caller means it: a number, or a string. *)
Inductive fmt_arg : Type := AInt (z : Z) | AStr (l : list Z).

(** The text of one conversion and the arguments left. *)
Definition conv_text (ch : Z) (args : list fmt_arg) : option (list Z * list fmt_arg) :=
  if ch =? 115 then
    match args with AStr l :: args' => Some (l, args') | _ => None end
  else if ch =? 100 then
    match args with AInt z :: args' => Some (itoa_text z 10, args') | _ => None end
  else if ch =? 99 then
    match args with AInt z :: args' => Some ([u8 z], args') | _ => None end
  else if ch =? 120 then
    match args with AInt z :: args' => Some (itoa_text z 16, args') | _ => None end
  else Some ([], args).

Fixpoint format_from (st : fmt_state) (f : list Z) (args : list fmt_arg) : option (list Z) :=
  match f with
  | [] => Some []
  | ch :: f' =>
      match st with
      | NORMAL =>
          if ch =? 37 then format_from READ_FMT f' args
          else cons ch <$> format_from NORMAL f' args
      | READ_FMT =>
          '(out, args') ← conv_text ch args;
          app out <$> format_from NORMAL f' args'
      end
  end.

Definition format (f : list Z) (args : list fmt_arg) : option (list Z) :=
  format_from NORMAL f args.

(** The word [w] passes the argument [a]; a string lies outside [[lo, hi)]. *)
Definition arg_word (m : mem) (lo hi w : Z) (a : fmt_arg) : Prop :=
  match a with
  | AInt z => w = z ∧ is_s32 z
  | AStr l =>
      w ≠ 0 ∧ cstring m w l ∧ Forall is_u8 l ∧ Z.of_nat (length l) < 2 ^ 31 ∧
      (w + Z.of_nat (length l) < lo ∨ hi ≤ w)
  end.

Section vsprintf.
Implicit Types (m : mem) (l f out : list Z).

(** What one output step at [p] may change: [out] is stored, and the byte
    behind it is kept or cleared. *)
Definition emitted m p out m' : Prop :=
  bytes_at m' p out ∧
  (∀ x, ¬ (p ≤ x < p + Z.of_nat (length out) + 1) → m' !! x = m !! x) ∧
  (m' !! (p + Z.of_nat (length out)) = m !! (p + Z.of_nat (length out)) ∨
   m' !! (p + Z.of_nat (length out)) = Some 0).

Lemma emitted_nil m p : emitted m p [] m.
Proof. split; [done|]. split; [done|]. by left. Qed.

Lemma emitted_write m p out : emitted m p out (write_bytes m p out).
Proof.
  split; [apply bytes_at_write|]. split.
  - intros x Hx. apply write_bytes_outside. lia.
  - left. apply write_bytes_outside. lia.
Qed.

Lemma emitted_write_nul m p out : emitted m p out (write_bytes m p (out ++ [0])).
Proof.
  split; [by apply (bytes_at_app _ _ out [0]), bytes_at_write|]. split.
  - intros x Hx. apply write_bytes_outside. rewrite length_app. cbn [length]. lia.
  - right. rewrite write_bytes_insert. by rewrite lookup_insert_eq.
Qed.

Lemma emitted_app m p out1 m1 out2 m2 :
  emitted m p out1 m1 → emitted m1 (p + Z.of_nat (length out1)) out2 m2 →
  emitted m p (out1 ++ out2) m2.
Proof.
  intros (Hb1 & Ho1 & He1) (Hb2 & Ho2 & He2).
  rewrite <-Z.add_assoc, <-Nat2Z.inj_add, <-length_app in He2.
  split; [|split].
  - apply bytes_at_app. split; [|done]. apply bytes_at_lookup. intros i v Hi.
    pose proof (lookup_lt_Some _ _ _ Hi). rewrite Ho2 by lia.
    by apply bytes_at_lookup with out1.
  - intros x. rewrite length_app. intros Hx. rewrite Ho2, Ho1 by lia. done.
  - destruct He2 as [He2|He2]; [|by right]. rewrite He2.
    destruct out2 as [|c out2]; [by rewrite app_nil_r|]. left. apply Ho1.
    rewrite length_app. cbn [length]. lia.
Qed.

Lemma emitted_mapped m p out m' a n :
  mapped m p (Z.of_nat (length out)) → emitted m p out m' → mapped m a n → mapped m' a n.
Proof.
  intros Hp (Hb & Ho & He) Ha x Hx.
  destruct (decide (p ≤ x < p + Z.of_nat (length out))) as [H|H].
  - destruct (lookup_lt_is_Some_2 out (Z.to_nat (x - p))) as [v Hv]; [lia|].
    rewrite bytes_at_lookup in Hb. specialize (Hb _ _ Hv).
    replace (p + Z.of_nat (Z.to_nat (x - p))) with x in Hb by lia. eauto.
  - destruct (decide (x = p + Z.of_nat (length out))) as [->|].
    + destruct He as [->| ->]; eauto.
    + rewrite Ho by lia. by apply Ha.
Qed.

Lemma itoa_step num p base m :
  itoa_base base → is_s32 num → p ≠ 0 →
  mapped m p (Z.of_nat (length (itoa_text num base)) + 1) →
  (kernel_itoa num p base;; kernel_strlen p) m =
    Ok (Z.of_nat (length (itoa_text num base)),
        write_bytes m p (itoa_text num base ++ [0])).
Proof.
  intros Hb Hn Hp Hm. stm_step (kernel_itoa_ok num p base m Hb Hn Hm).
  pose proof (itoa_text_length num base). pose proof (itoa_text_chars num base Hb) as Hch.
  apply kernel_strlen_ok; [done| |lia]. apply cstring_write.
  eapply Forall_impl; [exact Hch|]. cbn. intros c []. lia.
Qed.

Lemma conv_ok m0 lo hi ch args out args' words p m :
  conv_text ch args = Some (out, args') →
  Forall2 (arg_word m0 lo hi) words args →
  0 < lo → lo ≤ p → p + Z.of_nat (length out) + 1 ≤ hi →
  (∀ x, ¬ (lo ≤ x < hi) → m !! x = m0 !! x) →
  mapped m p (Z.of_nat (length out) + 1) →
  ∃ m' words',
    vsprintf_conv ch p words m = Ok ((p + Z.of_nat (length out), words'), m') ∧
    Forall2 (arg_word m0 lo hi) words' args' ∧ emitted m p out m'.
Proof.
  intros Hc Hargs Hlo Hp Hhi Hag Hm. unfold conv_text in Hc. unfold vsprintf_conv.
  assert (Hsome : ∀ a as', args = a :: as' → ∃ w ws, words = w :: ws ∧
    arg_word m0 lo hi w a ∧ Forall2 (arg_word m0 lo hi) ws as').
  { intros a as' ->. inversion Hargs; subst; eauto 10. }
  destruct (ch =? 115); [|destruct (ch =? 100); [|destruct (ch =? 99);
    [|destruct (ch =? 120)]]].
  - destruct args as [|[|l] as']; simplify_eq.
    destruct (Hsome _ _ eq_refl) as (w & ws & -> & (Hw0 & Hs & Hu & Hl & Hd) & Hws).
    assert (Hs' : cstring m w out).
    { apply (cstring_frame m0); [done|]. intros x Hx. apply Hag. lia. }
    cbn [va_arg]. rewrite (stm_bind_ok _ _ m (w, ws) m) by done. cbn beta iota.
    stm_step (kernel_strlen_ok w out m Hw0 Hs' Hl).
    rewrite (stm_bind_ok get _ m m m) by done.
    pose proof (cstring_size _ _ _ Hs').
    stm_step (copy_loop_ok (S (size m)) p w out m (cstring_text _ _ _ Hs') Hu
      (mapped_le _ _ _ (Z.of_nat (length out)) Hm ltac:(lia)) ltac:(lia) ltac:(lia) Hl).
    eexists _, ws. split; [done|]. split; [done|]. apply emitted_write.
  - destruct args as [|[z|] as']; simplify_eq.
    destruct (Hsome _ _ eq_refl) as (w & ws & -> & (-> & Hz) & Hws).
    cbn [va_arg]. rewrite (stm_bind_ok _ _ m (z, ws) m) by done. cbn beta iota.
    rewrite <-stm_bind_assoc.
    stm_step (itoa_step z p 10 m ltac:(unfold itoa_base; set_solver) Hz ltac:(lia) Hm).
    eexists _, ws. split; [done|]. split; [done|]. apply emitted_write_nul.
  - destruct args as [|[z|] as']; simplify_eq.
    destruct (Hsome _ _ eq_refl) as (w & ws & -> & (-> & Hz) & Hws).
    cbn [va_arg]. rewrite (stm_bind_ok _ _ m (z, ws) m) by done. cbn beta iota.
    stm_step (store8_ok m p z (Hm p ltac:(lia))).
    eexists _, ws. split; [done|]. split; [done|]. apply (emitted_write _ _ [u8 z]).
  - destruct args as [|[z|] as']; simplify_eq.
    destruct (Hsome _ _ eq_refl) as (w & ws & -> & (-> & Hz) & Hws).
    cbn [va_arg]. rewrite (stm_bind_ok _ _ m (z, ws) m) by done. cbn beta iota.
    rewrite <-stm_bind_assoc.
    stm_step (itoa_step z p 16 m ltac:(unfold itoa_base; set_solver) Hz ltac:(lia) Hm).
    eexists _, ws. split; [done|]. split; [done|]. apply emitted_write_nul.
  - simplify_eq. exists m, words. rewrite Z.add_0_r. split; [done|].
    split; [done|]. apply emitted_nil.
Qed.

Lemma vsprintf_loop_ok fuel st f args out words m0 lo hi p fmt m :
  format_from st f args = Some out →
  Forall2 (arg_word m0 lo hi) words args →
  cstring m0 fmt f → Forall is_u8 f →
  (fmt + Z.of_nat (length f) < lo ∨ hi ≤ fmt) →
  0 < lo → lo ≤ p → p + Z.of_nat (length out) + 1 ≤ hi →
  (∀ x, ¬ (lo ≤ x < hi) → m !! x = m0 !! x) →
  mapped m p (Z.of_nat (length out) + 1) → (length f < fuel)%nat →
  ∃ m', vsprintf_loop fuel st p fmt words m = Ok (tt, m') ∧ emitted m p out m'.
Proof.
  revert fuel st args out words p fmt m. induction f as [|ch f IH];
    intros [|fuel] st args out words p fmt m Hf Hargs Hs Hu Hsep Hlo Hp Hhi Hag Hm Hfuel;
    cbn [length cstring] in *; try lia.
  { cbn [format_from] in Hf. simplify_eq. exists m. cbn [vsprintf_loop].
    assert (m !! fmt = Some 0) as Hz by (rewrite Hag by lia; done).
    stm_step (load8_ok _ _ _ Hz). rewrite Z.eqb_refl. split; [done|]. apply emitted_nil. }
  destruct Hs as (Hch & Hn & Hs). apply Forall_cons in Hu as [Hch8 Hu].
  assert (m !! fmt = Some ch) as Hz by (rewrite Hag by lia; done).
  cbn [vsprintf_loop format_from] in *. stm_step (load8_ok _ _ _ Hz).
  rewrite (proj2 (Z.eqb_neq ch 0) Hn). destruct st.
  - destruct (ch =? 37).
    { apply (IH fuel READ_FMT args out); try done; lia. }
    apply fmap_Some in Hf as (rest & Hf & ->). cbn [length] in *.
    stm_step (store8_ok m p ch (Hm p ltac:(lia))).
    rewrite u8_id by (unfold is_u8 in Hch8; lia).
    destruct (IH fuel NORMAL args rest words (p + 1) (fmt + 1) (<[p := ch]> m))
      as (m' & Hr & He); try done; try lia.
    { intros x Hx. rewrite lookup_insert_ne by lia. by apply Hag. }
    { apply mapped_insert. intros x Hx. apply Hm. lia. }
    exists m'. split; [done|]. apply (emitted_app _ _ [ch] _ _ _ (emitted_write m p [ch])).
    exact He.
  - apply bind_Some in Hf as ([o1 args'] & Hc & Hf).
    apply fmap_Some in Hf as (rest & Hf & ->). rewrite length_app in *.
    destruct (conv_ok m0 lo hi ch args o1 args' words p m) as (m1 & words' & Hr1 & Ha1 & He1);
      try done; try lia; [by eapply mapped_le; [exact Hm|lia]|].
    stm_step Hr1. cbn beta iota.
    destruct (IH fuel NORMAL args' rest words' (p + Z.of_nat (length o1)) (fmt + 1) m1)
      as (m' & Hr & He); try done; try lia.
    { intros x Hx. destruct He1 as (_ & Ho & _). rewrite Ho by lia. by apply Hag. }
    { eapply emitted_mapped; [|exact He1|].
      - eapply mapped_le; [exact Hm|lia].
      - intros x Hx. apply Hm. lia. }
    exists m'. split; [done|]. by eapply emitted_app.
Qed.

(** Whatever the format and the memory, the fuel is enough. *)
Lemma itoa_digits_fuel fuel num base str m :
  2 ≤ base → Z.abs num < 2 ^ Z.of_nat fuel → (0 < fuel)%nat →
  itoa_digits fuel num base str m ≠ Err OutOfFuel.
Proof.
  intros Hb. revert num str m. induction fuel as [|f IH]; intros num str m Hn Hf; [lia|].
  cbn [itoa_digits]. apply stm_bind_fuel; [apply store8_fuel|]. intros _ m1 _.
  destruct (Z.eqb_spec (num ÷ base) 0) as [E|E]; [done|]. cbn [negb].
  destruct f as [|f].
  { exfalso. apply E, Z.abs_0_iff.
    pose proof (quot_shrinks num base 0 ltac:(lia) ltac:(lia) Hn). lia. }
  apply IH; [|lia]. apply quot_shrinks; [lia|lia|].
  by replace (Z.of_nat (S f) + 1) with (Z.of_nat (S (S f))) by lia.
Qed.

Lemma reverse_loop_fuel fuel start str m :
  str - start ≤ Z.of_nat fuel → reverse_loop fuel start str m ≠ Err OutOfFuel.
Proof.
  revert start str m. induction fuel as [|f IH]; intros start str m Hf; cbn [reverse_loop].
  - replace (start <? str) with false by lia. done.
  - case_match; [|done].
    repeat (apply stm_bind_fuel; [apply load8_fuel || apply store8_fuel|]; intros).
    apply IH. lia.
Qed.

Lemma kernel_itoa_fuel num buf base m :
  is_s32 num → kernel_itoa num buf base m ≠ Err OutOfFuel.
Proof.
  intros Hn. unfold is_s32 in Hn. unfold kernel_itoa. case_match; [apply store8_fuel|].
  apply stm_bind_fuel.
  { case_match; [|done]. apply stm_bind_fuel; [apply store8_fuel|done]. }
  intros [str start] m1 _. apply stm_bind_fuel.
  { apply itoa_digits_fuel; [lia| |lia]. change (Z.of_nat 32) with 32. lia. }
  intros str2 m2 _. apply stm_bind_fuel; [apply store8_fuel|]. intros _ m3 _.
  apply reverse_loop_fuel. lia.
Qed.

Lemma kernel_strlen_fuel s m : kernel_strlen s m ≠ Err OutOfFuel.
Proof.
  unfold kernel_strlen. destruct (s =? 0); [done|]. rewrite (stm_bind_ok get _ m m m) by done.
  intros H%strlen_loop_fuel. by apply scan_fuel in H.
Qed.

Lemma vsprintf_conv_fuel ch p args m :
  Forall is_s32 args → vsprintf_conv ch p args m ≠ Err OutOfFuel.
Proof.
  intros Ha. unfold vsprintf_conv.
  assert (Hnum : ∀ base, ('(num_d, args) ← va_arg args;
    kernel_itoa num_d p base;; len ← kernel_strlen p; mret (p + len, args)) m ≠ Err OutOfFuel).
  { intros base. apply stm_bind_fuel; [by destruct args|]. intros [n args1] m1 H.
    destruct args as [|w ws]; simplify_eq. injection H as <- <- <-.
    apply Forall_cons in Ha as [Hw _].
    apply stm_bind_fuel; [by apply kernel_itoa_fuel|]. intros [] m2 _.
    apply stm_bind_fuel; [apply kernel_strlen_fuel|]. done. }
  destruct (ch =? 115); [|destruct (ch =? 100); [apply Hnum|destruct (ch =? 99);
    [|destruct (ch =? 120); [apply Hnum|done]]]].
  - apply stm_bind_fuel; [by destruct args|]. intros [w args1] m1 _.
    apply stm_bind_fuel; [apply kernel_strlen_fuel|]. intros len m2 _.
    apply stm_bind_fuel; [done|]. intros m3 m4 H. unfold get in H. simplify_eq.
    apply stm_bind_fuel; [|done]. intros H%copy_loop_fuel. by apply scan_fuel in H.
  - apply stm_bind_fuel; [by destruct args|]. intros [w args1] m1 _.
    by apply stm_bind_fuel; [apply store8_fuel|].
Qed.

Lemma vsprintf_conv_args ch p args m p' args' m' :
  vsprintf_conv ch p args m = Ok ((p', args'), m') → Forall is_s32 args → Forall is_s32 args'.
Proof.
  intros H Ha. unfold vsprintf_conv in H.
  repeat match type of H with (if ?b then _ else _) _ = _ => destruct b end;
    [apply stm_bind_inv in H as ([w ws] & m1 & Hv & H)..|by injection H as <- <- <-];
    (destruct args as [|w' ws']; [done|]; injection Hv as <- <- <-;
     apply Forall_cons in Ha as [_ Ha]);
    repeat (apply stm_bind_inv in H as (? & ? & _ & H));
    by injection H as _ <- _.
Qed.

Lemma vsprintf_loop_fuel fuel st p fmt args m :
  Forall is_s32 args → vsprintf_loop fuel st p fmt args m = Err OutOfFuel →
  mapped m fmt (Z.of_nat fuel).
Proof.
  revert st p fmt args m. induction fuel as [|f IH]; intros st p fmt args m Ha H;
    [intros ??; lia|].
  cbn [vsprintf_loop] in H. destruct (m !! fmt) as [ch|] eqn:E; last first.
  { unfold mbind, stm_bind in H. by rewrite (load8_fault _ _ E) in H. }
  rewrite (stm_bind_ok _ _ _ _ _ (load8_ok _ _ _ E)) in H.
  destruct (ch =? 0); [done|]. apply mapped_cons; [eauto|]. destruct st.
  - destruct (ch =? 37); [by eapply IH|].
    apply stm_bind_err_inv in H as [H|([] & m1 & H1 & H)]; [by apply store8_fuel in H|].
    eapply keeps_dom_mapped; [apply keeps_dom_store8|exact H1|]. by eapply IH.
  - apply stm_bind_err_inv in H as [H|([p' args'] & m1 & H1 & H)];
      [by apply vsprintf_conv_fuel in H|].
    eapply keeps_dom_mapped; [apply vsprintf_conv_keeps|exact H1|].
    eapply IH; [|exact H]. by eapply vsprintf_conv_args.
Qed.
End vsprintf.

(** ** Comparison and bounded-copy lemmas *)
Section compare_copy.
Implicit Types (m : mem) (l : list Z).

Lemma memcmp_loop_ok fuel s1 s2 l1 l2 m :
  bytes_at m s1 l1 → bytes_at m s2 l2 → length l1 = length l2 →
  (length l1 < fuel)%nat → Z.of_nat (length l1) < 2 ^ 31 →
  memcmp_loop fuel (Z.of_nat (length l1)) s1 s2 m =
    Ok (if decide (l1 = l2) then None else Some 1, m).
Proof.
  revert fuel s1 s2 l2. induction l1 as [|a l1 IH]; intros [|fuel] s1 s2 l2 H1 H2 Hl Hf Hn;
    cbn [length] in *; try lia; destruct l2 as [|b l2]; try done.
  cbn [memcmp_loop bytes_at length] in *. destruct H1 as [Ha H1], H2 as [Hb H2].
  replace (Z.of_nat (S (length l1)) =? 0) with false by lia.
  stm_step (load8_ok _ _ _ Ha). stm_step (load8_ok _ _ _ Hb).
  destruct (Z.eqb_spec a b) as [->|Hab]; cbn [negb].
  - rewrite s32_id by lia.
    replace (Z.of_nat (S (length l1)) - 1) with (Z.of_nat (length l1)) by lia.
    rewrite (IH fuel _ _ l2) by (done || lia). do 2 f_equal.
    repeat case_decide; congruence.
  - by rewrite decide_False by congruence.
Qed.

Lemma strncmp_loop_ok fuel s1 s2 l1 l2 n m :
  cstring m s1 l1 → cstring m s2 l2 → (length l1 < fuel)%nat → 0 ≤ n < 2 ^ 31 →
  let k := Nat.min (Z.to_nat n) (Nat.min (length l1) (length l2)) in
  strncmp_loop fuel s1 s2 n m =
    Ok (if decide (take k l1 = take k l2)
        then if n =? Z.of_nat (Nat.min (length l1) (length l2)) then Some 0 else None
        else Some 1, m).
Proof.
  revert fuel s1 s2 l2 n. induction l1 as [|a l1 IH]; intros [|fuel] s1 s2 l2 n H1 H2 Hf Hn;
    cbn [length] in *; try lia; cbn [strncmp_loop cstring] in *.
  { stm_step (load8_ok _ _ _ H1). cbn [Z.eqb]. rewrite Nat.min_0_r. cbn [take].
    by rewrite decide_True. }
  destruct H1 as (Ha & Ha0 & H1). stm_step (load8_ok _ _ _ Ha).
  rewrite (proj2 (Z.eqb_neq a 0) Ha0).
  destruct l2 as [|b l2]; cbn [cstring length] in *.
  { stm_step (load8_ok _ _ _ H2). cbn [Z.eqb]. rewrite !Nat.min_0_r. cbn [take].
    by rewrite decide_True. }
  destruct H2 as (Hb & Hb0 & H2). stm_step (load8_ok _ _ _ Hb).
  rewrite (proj2 (Z.eqb_neq b 0) Hb0).
  destruct (Z.eqb_spec n 0) as [->|Hn0].
  { cbn [Z.to_nat Nat.min take]. rewrite decide_True by done.
    rewrite s32_id by lia. by replace (0 =? Z.of_nat _) with false by lia. }
  replace (Z.to_nat n) with (S (Z.to_nat (n - 1))) by lia. cbn [Nat.min take].
  destruct (Z.eqb_spec a b) as [->|Hab]; cbn [negb].
  - rewrite s32_id by lia. rewrite (IH fuel _ _ l2 (n - 1)) by (done || lia).
    do 2 f_equal. replace (n =? Z.of_nat (S (Nat.min (length l1) (length l2))))
      with (n - 1 =? Z.of_nat (Nat.min (length l1) (length l2))) by lia.
    repeat case_decide; congruence.
  - by rewrite decide_False by congruence.
Qed.

Lemma strncpy_loop_ok fuel n d s l m :
  cstring m s l → Forall is_u8 l →
  mapped m d (Z.min n (Z.of_nat (length l))) →
  s + Z.of_nat (length l) < d ∨ d + n ≤ s →
  (length l < fuel)%nat → 0 ≤ n < 2 ^ 31 →
  strncpy_loop fuel n d s m =
    Ok ((d + Z.min n (Z.of_nat (length l)),
         if Z.of_nat (length l) <? n then n - Z.of_nat (length l) - 1 else -1),
        write_bytes m d (take (Z.to_nat n) l)).
Proof.
  revert fuel n d s m. induction l as [|c l IH]; intros [|fuel] n d s m Hs Hu Hd Hsep Hf Hn;
    cbn [length] in *; try lia; cbn [strncpy_loop cstring] in *.
  { change (Z.of_nat 0) with 0. rewrite take_nil, Z.min_r, Z.add_0_r by lia. destruct (Z.eqb_spec n 0) as [->|Hn0]; [done|].
    stm_step (load8_ok _ _ _ Hs). cbn [Z.eqb write_bytes]. rewrite s32_id by lia.
    replace (0 <? n) with true by lia. by rewrite Z.sub_0_r. }
  destruct Hs as (Hc & Hc0 & Hs). apply Forall_cons in Hu as [Hc8 Hu]. unfold is_u8 in Hc8.
  destruct (Z.eqb_spec n 0) as [->|Hn0].
  { rewrite Z.min_l, Z.add_0_r by lia. by replace (Z.of_nat _ <? 0) with false by lia. }
  stm_step (load8_ok _ _ _ Hc). rewrite (proj2 (Z.eqb_neq c 0) Hc0).
  stm_step (store8_ok m d c (Hd d ltac:(lia))). rewrite u8_id, s32_id by lia.
  rewrite IH; try done; try lia.
  - replace (Z.to_nat n) with (S (Z.to_nat (n - 1))) by lia. cbn [take write_bytes].
    do 3 f_equal; [lia|]. destruct (Z.ltb_spec (Z.of_nat (length l)) (n - 1));
      destruct (Z.ltb_spec (Z.of_nat (S (length l))) n); lia.
  - apply (cstring_frame m); [done|]. intros x Hx. by rewrite lookup_insert_ne by lia.
  - apply mapped_insert. intros x Hx. apply Hd. lia.
Qed.

(** The bytes [kernel_strncpy] leaves at its destination. *)
Definition strncpy_out (size : Z) (l : list Z) : list Z :=
  let len := Z.of_nat (length l) in
  if len <? size - 1 then l ++ [0]
  else if len =? size - 1 then take (Z.to_nat (size - 2)) l ++ [0]
  else take (Z.to_nat size) l ++ [0].

Lemma kernel_strncpy_ok dest src size l m :
  dest ≠ 0 → src ≠ 0 → 2 ≤ size < 2 ^ 31 →
  cstring m src l → Forall is_u8 l → mapped m dest (size + 1) →
  src + Z.of_nat (length l) < dest ∨ dest + size < src →
  kernel_strncpy dest src size m = Ok (tt, write_bytes m dest (strncpy_out size l)).
Proof.
  intros Hd Hs Hn Hstr Hu Hm Hsep. unfold kernel_strncpy.
  rewrite (proj2 (Z.eqb_neq dest 0) Hd), (proj2 (Z.eqb_neq src 0) Hs).
  replace (size =? 0) with false by lia. cbn [orb].
  rewrite (stm_bind_ok get _ m m m) by done.
  pose proof (cstring_size _ _ _ Hstr).
  stm_step (strncpy_loop_ok (S (base.size m)) size dest src l m Hstr Hu
    (mapped_le _ _ _ (Z.min size (Z.of_nat (length l))) Hm ltac:(lia))
    ltac:(lia) ltac:(lia) ltac:(lia)). cbn iota. unfold strncpy_out.
  set (len := Z.of_nat (length l)).
  assert (Hst : ∀ k, 0 ≤ k ≤ size → is_Some (write_bytes m dest (take (Z.to_nat size) l) !!
    (dest + k))).
  { intros k Hk. eapply mapped_at; [by apply write_bytes_mapped|lia]. }
  destruct (Z.ltb_spec len size) as [Hl|Hl]; [destruct (Z.ltb_spec len (size - 1)) as [Hl1|Hl1]|].
  - replace (size - len - 1 =? 0) with false by lia.
    rewrite Z.min_r by lia. rewrite store8_ok by (apply Hst; lia).
    rewrite take_ge in * by lia. by rewrite write_bytes_insert.
  - replace (size - len - 1 =? 0) with true by lia. replace (len =? size - 1) with true by lia.
    rewrite Z.min_r, <-Z.add_sub_assoc by lia. rewrite store8_ok by (apply Hst; lia).
    rewrite take_ge by lia. change (u8 0) with 0. do 2 f_equal.
    destruct l as [|c l' _] using rev_ind; [cbn in *; lia|].
    unfold len in *. rewrite length_app in *. cbn [length] in *.
    rewrite take_app_le, take_ge by lia. rewrite !write_bytes_insert.
    replace (dest + (Z.of_nat (length l' + 1) - 1)) with (dest + Z.of_nat (length l')) by lia.
    by rewrite insert_insert_eq.
  - change (-1 =? 0) with false. replace (len <? size - 1) with false by lia.
    replace (len =? size - 1) with false by lia.
    rewrite Z.min_l by lia. rewrite store8_ok by (apply Hst; lia). change (u8 0) with 0.
    rewrite write_bytes_insert, length_take.
    by replace (Z.of_nat (Nat.min (Z.to_nat size) (length l))) with size by lia.
Qed.
End compare_copy.

(** ** Properties of klib *)

(** C32: [kernel_itoa] terminates within its buffer and what it writes reads
    back as the number: for every [int] and every accepted base it stores a
    NUL-terminated text of at most 33 characters that denotes the number
    itself in base 10, and the magnitude of the number in bases 2, 8 and 16
    (the sign of a negative number is printed in base 10 only). *)
Theorem kernel_itoa_roundtrip num buf base m :
  base ∈ [2; 8; 10; 16] → is_s32 num →
  mapped m buf (Z.of_nat (length (itoa_text num base)) + 1) →
  ∃ m', kernel_itoa num buf base m = Ok (tt, m') ∧
    cstring m' buf (itoa_text num base) ∧
    (∀ x, ¬ (buf ≤ x ≤ buf + Z.of_nat (length (itoa_text num base))) → m' !! x = m !! x) ∧
    (length (itoa_text num base) ≤ 33)%nat ∧
    parse_int base (itoa_text num base) = (if base =? 10 then num else Z.abs num).
Proof.
  intros Hb Hn Hm. eexists. split; [by apply kernel_itoa_ok|]. split_and!.
  - apply cstring_write. eapply Forall_impl; [by apply itoa_text_chars|]. cbn. intros c []. lia.
  - intros x Hx. apply write_bytes_outside. rewrite length_app. cbn [length]. lia.
  - apply itoa_text_length.
  - by apply itoa_text_value.
Qed.

(** C31: formatting: when the pure function [format] gives the text of a format
    string and its arguments, [kernel_vsprintf] writes exactly that text at
    the buffer, touches no byte beyond the one behind it, and leaves that one
    as it was or cleared (so the text is NUL-terminated in a zeroed buffer). *)
Theorem kernel_vsprintf_format m buf fmt f args words out :
  format f args = Some out →
  Forall2 (arg_word m buf (buf + Z.of_nat (length out) + 1)) words args →
  cstring m fmt f → Forall is_u8 f → 0 < buf →
  mapped m buf (Z.of_nat (length out) + 1) →
  fmt + Z.of_nat (length f) < buf ∨ buf + Z.of_nat (length out) + 1 ≤ fmt →
  ∃ m', kernel_vsprintf buf fmt words m = Ok (tt, m') ∧ bytes_at m' buf out ∧
    (∀ x, ¬ (buf ≤ x ≤ buf + Z.of_nat (length out)) → m' !! x = m !! x) ∧
    (m' !! (buf + Z.of_nat (length out)) = m !! (buf + Z.of_nat (length out)) ∨
     m' !! (buf + Z.of_nat (length out)) = Some 0).
Proof.
  intros Hf Ha Hs Hu Hb Hm Hsep. unfold kernel_vsprintf.
  rewrite (stm_bind_ok get _ m m m) by done. pose proof (cstring_size _ _ _ Hs).
  destruct (vsprintf_loop_ok (S (size m)) NORMAL f args out words m buf
    (buf + Z.of_nat (length out) + 1) buf fmt m) as (m' & Hr & Hb' & Ho & He);
    try done; try lia.
  exists m'. split_and!; try done. intros x Hx. apply Ho. lia.
Qed.

(** C37: every loop of klib terminates, whatever the pointers, sizes and memory
    contents: no function runs out of fuel, so each one returns or faults on
    an unmapped address. *)
Theorem klib_loops_terminate m dest src size v num base args :
  is_s32 num → Forall is_s32 args →
  kernel_strcpy dest src m ≠ Err OutOfFuel ∧
  kernel_strncpy dest src size m ≠ Err OutOfFuel ∧
  kernel_strncmp dest src size m ≠ Err OutOfFuel ∧
  kernel_strlen src m ≠ Err OutOfFuel ∧
  kernel_memcpy v dest src size m ≠ Err OutOfFuel ∧
  kernel_memset dest v size m ≠ Err OutOfFuel ∧
  kernel_memcmp dest src size m ≠ Err OutOfFuel ∧
  kernel_itoa num dest base m ≠ Err OutOfFuel ∧
  kernel_vsprintf dest src args m ≠ Err OutOfFuel.
Proof.
  intros Hn Ha. split_and!.
  - unfold kernel_strcpy. case_match; [done|]. apply stm_bind_fuel; [done|].
    intros m1 m2 [= -> ->]. apply stm_bind_fuel; [|intros; apply store8_fuel].
    intros Hl%strcpy_loop_fuel. by apply scan_fuel in Hl.
  - unfold kernel_strncpy. case_match; [done|]. apply stm_bind_fuel; [done|].
    intros m1 m2 [= -> ->]. apply stm_bind_fuel.
    + intros Hl%strncpy_loop_fuel. by apply scan_fuel in Hl.
    + intros [d n] m3 _. case_match; apply store8_fuel.
  - unfold kernel_strncmp. case_match; [done|]. apply stm_bind_fuel; [done|].
    intros m1 m2 [= -> ->] Hl%strncmp_loop_fuel. by apply scan_fuel in Hl.
  - apply kernel_strlen_fuel.
  - unfold kernel_memcpy. case_match; [done|]. apply stm_bind_fuel; [done|].
    intros m1 m2 [= -> ->]. apply stm_bind_fuel; [|done].
    intros Hl%copy_loop_fuel. by apply scan_fuel in Hl.
  - unfold kernel_memset. case_match; [done|]. apply stm_bind_fuel; [done|].
    intros m1 m2 [= -> ->] Hl%memset_loop_fuel. by apply scan_fuel in Hl.
  - unfold kernel_memcmp. case_match; [done|]. apply stm_bind_fuel; [done|].
    intros m1 m2 [= -> ->] Hl%memcmp_loop_fuel. by apply scan_fuel in Hl.
  - by apply kernel_itoa_fuel.
  - unfold kernel_vsprintf. apply stm_bind_fuel; [done|].
    intros m1 m2 [= -> ->] Hl%vsprintf_loop_fuel; [|done]. by apply scan_fuel in Hl.
Qed.

(** What [kernel_strncpy] leaves at the destination, in its three cases.
    A source shorter than [size - 1] is copied with its NUL; one of exactly
    [size - 1] characters loses its last character; a longer one fills all
    [size] bytes and the NUL goes to [dest[size]], one byte past the buffer. *)
Theorem kernel_strncpy_cases m dest src size l :
  dest ≠ 0 → src ≠ 0 → 2 ≤ size < 2 ^ 31 →
  cstring m src l → Forall is_u8 l → mapped m dest (size + 1) →
  src + Z.of_nat (length l) < dest ∨ dest + size < src →
  ∃ m', kernel_strncpy dest src size m = Ok (tt, m') ∧
    (Z.of_nat (length l) < size - 1 → cstring m' dest l) ∧
    (Z.of_nat (length l) = size - 1 → cstring m' dest (take (length l - 1) l)) ∧
    (size ≤ Z.of_nat (length l) →
      bytes_at m' dest (take (Z.to_nat size) l) ∧ m' !! (dest + size) = Some 0) ∧
    (∀ x, ¬ (dest ≤ x ≤ dest + size) → m' !! x = m !! x).
Proof.
  intros Hd Hs Hn Hstr Hu Hm Hsep. eexists.
  split; [by eapply kernel_strncpy_ok|].
  assert (Forall (λ c, c ≠ 0) l) as Hnz by by apply cstring_bytes in Hstr as [_ ?].
  unfold strncpy_out. split_and!.
  - intros Hl. replace (Z.of_nat (length l) <? size - 1) with true by lia.
    by apply cstring_write.
  - intros Hl. rewrite Hl, Z.ltb_irrefl, Z.eqb_refl.
    replace (Z.to_nat (size - 2)) with (length l - 1)%nat by lia.
    by apply cstring_write, Forall_take.
  - intros Hl. replace (Z.of_nat (length l) <? size - 1) with false by lia.
    replace (Z.of_nat (length l) =? size - 1) with false by lia.
    pose proof (bytes_at_write m dest (take (Z.to_nat size) l ++ [0])) as Hb.
    apply bytes_at_app in Hb as [Hb [Hz _]]. split; [done|].
    rewrite length_take in Hz. by replace (Z.of_nat _) with size in Hz by lia.
  - intros x Hx. apply write_bytes_outside.
    repeat case_match; rewrite length_app, ?length_take; cbn [length]; lia.
Qed.

(** [kernel_memcmp] on two equal non-empty blocks reaches the end of the
    function without returning a value (its loop leaves [size] at -1), and
    returns 1 on different blocks: it never returns 0 for a comparison. *)
Theorem kernel_memcmp_result m d1 d2 l1 l2 :
  d1 ≠ 0 → d2 ≠ 0 → length l1 = length l2 → 0 < Z.of_nat (length l1) < 2 ^ 31 →
  bytes_at m d1 l1 → bytes_at m d2 l2 →
  kernel_memcmp d1 d2 (Z.of_nat (length l1)) m =
    Ok (if decide (l1 = l2) then None else Some 1, m).
Proof.
  intros H1 H2 Hl Hn Hb1 Hb2. unfold kernel_memcmp.
  rewrite (proj2 (Z.eqb_neq d1 0) H1), (proj2 (Z.eqb_neq d2 0) H2).
  replace (Z.of_nat (length l1) =? 0) with false by lia. cbn [orb].
  rewrite (stm_bind_ok get _ m m m) by done. apply memcmp_loop_ok; try done; try lia.
  assert (mapped m d1 (Z.of_nat (length l1))) as Hm%mapped_size; [|lia|lia].
  intros x Hx. rewrite bytes_at_lookup in Hb1.
  destruct (lookup_lt_is_Some_2 l1 (Z.to_nat (x - d1))) as [v Hv]; [lia|].
  specialize (Hb1 _ _ Hv). by replace (d1 + Z.of_nat (Z.to_nat (x - d1))) with x in Hb1 by lia.
Qed.

(** [kernel_strncmp] returns 1 when the strings differ before the size or
    the end of the shorter one, 0 when they agree and the size is exactly the
    length of the shorter one, and otherwise ends without a return value: equal
    strings compare as 0 for one size only. *)
Theorem kernel_strncmp_result m s1 s2 l1 l2 size :
  s1 ≠ 0 → s2 ≠ 0 → 0 ≤ size < 2 ^ 31 → cstring m s1 l1 → cstring m s2 l2 →
  let k := Nat.min (Z.to_nat size) (Nat.min (length l1) (length l2)) in
  kernel_strncmp s1 s2 size m =
    Ok (if decide (take k l1 = take k l2)
        then if size =? Z.of_nat (Nat.min (length l1) (length l2)) then Some 0 else None
        else Some 1, m).
Proof.
  intros H1 H2 Hn Hs1 Hs2 k. unfold kernel_strncmp.
  rewrite (proj2 (Z.eqb_neq s1 0) H1), (proj2 (Z.eqb_neq s2 0) H2). cbn [orb].
  rewrite (stm_bind_ok get _ m m m) by done. apply strncmp_loop_ok; try done.
  pose proof (cstring_size _ _ _ Hs1). lia.
Qed.

(** [kernel_memcpy] does not copy what [src] points to: for up to four
    bytes it stores the little-endian bytes of the pointer [src] itself, taken
    from the stack slot of the parameter. *)
Theorem kernel_memcpy_copies_pointer m src_slot dest src size :
  dest ≠ 0 → src ≠ 0 → 1 ≤ size ≤ 4 → bytes_at m src_slot (le32 src) →
  mapped m dest size → src_slot + 4 ≤ dest ∨ dest + 4 ≤ src_slot →
  kernel_memcpy src_slot dest src size m =
    Ok (tt, write_bytes m dest (take (Z.to_nat size) (le32 src))).
Proof.
  intros Hd Hs Hn Hb Hm Hsep. unfold kernel_memcpy.
  rewrite (proj2 (Z.eqb_neq dest 0) Hd), (proj2 (Z.eqb_neq src 0) Hs).
  replace (size =? 0) with false by lia. cbn [orb].
  rewrite (stm_bind_ok get _ m m m) by done.
  pose proof (mapped_size m dest size ltac:(lia) Hm).
  assert (Hl : Z.of_nat (length (take (Z.to_nat size) (le32 src))) = size).
  { rewrite length_take. change (length (le32 src)) with 4%nat. lia. }
  rewrite <-Hl at 1. erewrite stm_bind_ok; [done|].
  apply copy_loop_ok; rewrite ?Hl; try lia; try done.
  - rewrite <-(take_drop (Z.to_nat size) (le32 src)) in Hb. by apply bytes_at_app in Hb as [].
  - apply Forall_take, le32_u8.
Qed.

(** *** Alignment *)
Section align.

Lemma land_u32_lnot a b :
  is_u32 a → Z.land a (u32 (Z.lnot b)) = Z.ldiff a b.
Proof.
  intros Ha. apply Z.bits_inj'. intros i Hi. unfold u32.
  rewrite Z.land_spec, Z.ldiff_spec, testbit_mod_pow2, Z.lnot_spec by lia.
  case_bool_decide as H; [done|]. cbn [andb].
  rewrite <-(Z.mod_small a (2 ^ 32)) by done.
  rewrite Z.mod_pow2_bits_high by lia. done.
Qed.

Lemma down2_pow2 size k :
  is_u32 size → 0 ≤ k < 32 → down2 size (2 ^ k) = size - size mod 2 ^ k.
Proof.
  intros Hs Hk. unfold down2.
  assert (1 ≤ 2 ^ k < 2 ^ 32) as Hp.
  { split; [|by apply Z.pow_lt_mono_r; lia]. pose proof (Z.pow_pos_nonneg 2 k). lia. }
  rewrite (u32_id (2 ^ k - 1)) by lia. rewrite land_u32_lnot by done.
  replace (2 ^ k - 1) with (Z.ones k) by (rewrite Z.ones_equiv; lia).
  rewrite Z.ldiff_ones_r by lia.
  rewrite Z.shiftl_mul_pow2, Z.shiftr_div_pow2 by lia.
  pose proof (Z.div_mod size (2 ^ k)). lia.
Qed.
End align.

(** Alignment by a power of two: [down2] is the largest multiple of the
    bound below the size; [up2] is the smallest one above it when that fits 32
    bits, and wraps around to 0 when it does not. *)
Theorem down2_up2_align size k :
  is_u32 size → 0 ≤ k < 32 →
  down2 size (2 ^ k) = size - size mod 2 ^ k ∧
  (size + 2 ^ k - 1 < 2 ^ 32 →
    up2 size (2 ^ k) mod 2 ^ k = 0 ∧ size ≤ up2 size (2 ^ k) < size + 2 ^ k) ∧
  (2 ^ 32 ≤ size + 2 ^ k - 1 → up2 size (2 ^ k) = 0).
Proof.
  intros Hs Hk. unfold is_u32 in Hs.
  assert (1 ≤ 2 ^ k < 2 ^ 32) as Hp.
  { split; [|by apply Z.pow_lt_mono_r; lia]. pose proof (Z.pow_pos_nonneg 2 k). lia. }
  assert (up2 size (2 ^ k) = down2 (u32 (size + 2 ^ k - 1)) (2 ^ k)) as -> by done.
  pose proof (u32_range (size + 2 ^ k - 1)).
  rewrite !down2_pow2 by (done || unfold is_u32; lia). split; [done|].
  pose proof (Z.mod_pos_bound (u32 (size + 2 ^ k - 1)) (2 ^ k) ltac:(lia)). split.
  - intros Hlt. rewrite u32_id in * by lia. split; [|lia].
    rewrite Zminus_mod, Zmod_mod, Z.sub_diag. apply Zmod_0_l.
  - intros Hge. assert (u32 (size + 2 ^ k - 1) = size + 2 ^ k - 1 - 2 ^ 32) as ->.
    { unfold u32. symmetry. apply (Z.mod_unique _ _ 1); lia. }
    rewrite Z.mod_small; lia.
Qed.

(** *** Witnesses *)
Lemma kernel_itoa_roundtrip_witness :
  ∃ m', kernel_itoa (-2147483648) 4096 10 (zero_mem 4096 64) = Ok (tt, m') ∧
    parse_int 10 (itoa_text (-2147483648) 10) = -2147483648.
Proof.
  destruct (kernel_itoa_roundtrip (-2147483648) 4096 10 (zero_mem 4096 64))
    as (m' & Hr & _ & _ & _ & Hp).
  - by apply (bool_decide_unpack _).
  - by apply (bool_decide_unpack _).
  - apply mapped_check_ok. vm_compute. reflexivity.
  - exists m'. split; [exact Hr|exact Hp].
Defined.

(** [log_printf ("%s=%x", "id", 255)] *)
Definition vsprintf_demo_mem : mem :=
  write_bytes (write_bytes (zero_mem 4096 128) 4096 (bytes_of_string "%s=%x" ++ [0]))
    4112 (bytes_of_string "id" ++ [0]).

Lemma kernel_vsprintf_format_witness :
  ∃ m', kernel_vsprintf 4160 4096 [4112; 255] vsprintf_demo_mem = Ok (tt, m') ∧
    bytes_at m' 4160 (bytes_of_string "id=FF").
Proof.
  destruct (kernel_vsprintf_format vsprintf_demo_mem 4160 4096 (bytes_of_string "%s=%x")
    [AStr (bytes_of_string "id"); AInt 255] [4112; 255] (bytes_of_string "id=FF"))
    as (m' & Hr & Hb & _).
  - vm_compute. reflexivity.
  - repeat constructor; try by (vm_compute; congruence).
  - vm_compute. repeat split; discriminate.
  - by apply (bool_decide_unpack _).
  - lia.
  - apply mapped_check_ok. vm_compute. reflexivity.
  - left. vm_compute. reflexivity.
  - exists m'. split; [exact Hr|exact Hb].
Defined.

Lemma klib_loops_terminate_witness :
  kernel_strlen 4096 (write_bytes ∅ 4096 [97; 98; 99]) ≠ Err OutOfFuel ∧
  kernel_itoa (-7) 4096 2 (zero_mem 4096 4) ≠ Err OutOfFuel.
Proof.
  split.
  - apply (klib_loops_terminate (write_bytes ∅ 4096 [97; 98; 99]) 0 4096 0 0 0 2 []);
      by apply (bool_decide_unpack _).
  - apply (klib_loops_terminate (zero_mem 4096 4) 4096 0 0 0 (-7) 2 []);
      by apply (bool_decide_unpack _).
Defined.

Lemma kernel_strncpy_cases_witness :
  ∃ m', kernel_strncpy 4160 4096 5
      (write_bytes (zero_mem 4096 128) 4096 (bytes_of_string "idle" ++ [0])) = Ok (tt, m') ∧
    cstring m' 4160 (bytes_of_string "idl").
Proof.
  destruct (kernel_strncpy_cases
    (write_bytes (zero_mem 4096 128) 4096 (bytes_of_string "idle" ++ [0]))
    4160 4096 5 (bytes_of_string "idle")) as (m' & Hr & _ & Hc & _).
  - lia.
  - lia.
  - lia.
  - vm_compute. repeat split; discriminate.
  - by apply (bool_decide_unpack _).
  - apply mapped_check_ok. vm_compute. reflexivity.
  - left. vm_compute. reflexivity.
  - exists m'. split; [exact Hr|]. apply Hc. vm_compute. reflexivity.
Defined.

Lemma kernel_memcmp_result_witness :
  kernel_memcmp 4096 4112 2
    (write_bytes (write_bytes (zero_mem 4096 32) 4096 [1; 2]) 4112 [1; 2]) =
  Ok (None, write_bytes (write_bytes (zero_mem 4096 32) 4096 [1; 2]) 4112 [1; 2]).
Proof.
  apply (kernel_memcmp_result _ 4096 4112 [1; 2] [1; 2]); try lia; try reflexivity.
  - cbn. lia.
  - vm_compute. repeat split.
  - vm_compute. repeat split.
Defined.

Lemma kernel_strncmp_result_witness :
  kernel_strncmp 4096 4112 5
    (write_bytes (write_bytes (zero_mem 4096 32) 4096 [97; 98; 0]) 4112 [97; 98; 0]) =
  Ok (None, write_bytes (write_bytes (zero_mem 4096 32) 4096 [97; 98; 0]) 4112 [97; 98; 0]).
Proof.
  apply (kernel_strncmp_result _ 4096 4112 [97; 98] [97; 98] 5); try lia;
    vm_compute; repeat split; discriminate.
Defined.

Lemma kernel_memcpy_copies_pointer_witness :
  kernel_memcpy 4096 4112 74565 3
    (write_bytes (zero_mem 4096 32) 4096 (le32 74565)) =
  Ok (tt, write_bytes (write_bytes (zero_mem 4096 32) 4096 (le32 74565)) 4112 [69; 35; 1]).
Proof.
  apply (kernel_memcpy_copies_pointer _ 4096 4112 74565 3); try lia.
  - vm_compute. repeat split.
  - apply mapped_check_ok. vm_compute. reflexivity.
Defined.

Lemma down2_up2_align_witness :
  down2 5000 4096 = 4096 ∧ up2 4294967295 4096 = 0.
Proof.
  split.
  - destruct (down2_up2_align 5000 12) as (H & _ & _); [by apply (bool_decide_unpack _)|lia|].
    exact H.
  - destruct (down2_up2_align 4294967295 12) as (_ & _ & H);
      [by apply (bool_decide_unpack _)|lia|]. apply H. vm_compute. congruence.
Defined.
