(* ===== verification/DList.v ===== *)
(** * Doubly linked lists (kernel/tools/list.c, kernel/include/tools/list.h)

    List nodes live in a heap of their own, a finite map from addresses to
    [list_node_t] records; [0] is the null pointer and an access through any
    other address without a node is a [Fault]. A [list_t *] parameter is passed
    by value and returned: the list header never aliases a node. *)
From S2P Require Import Prelude.

(** ** Data *)
Record list_node_t : Type := ListNode { n_pre : Z; n_next : Z }.
Record list_t : Type := List { l_first : Z; l_last : Z; l_count : Z }.

#[export] Instance list_node_t_eq_dec : EqDecision list_node_t.
Proof. solve_decision. Defined.
#[export] Instance list_t_eq_dec : EqDecision list_t.
Proof. solve_decision. Defined.

Abbreviation nodes := (gmap Z list_node_t).

(** ** Field accesses *)
Definition node_get (a : Z) : stm nodes list_node_t := λ h,
  match h !! a with Some n => Ok (n, h) | None => Err (Fault a) end.
Definition node_set (a : Z) (n : list_node_t) : stm nodes unit := λ h,
  match h !! a with Some _ => Ok (tt, <[a := n]> h) | None => Err (Fault a) end.
Definition set_pre (a p : Z) : stm nodes unit :=
  n ← node_get a; node_set a (ListNode p (n_next n)).
Definition set_next (a q : Z) : stm nodes unit :=
  n ← node_get a; node_set a (ListNode (n_pre n) q).

(** ** Operations *)
Definition list_node_init (node : Z) : stm nodes unit :=
  set_next node 0;; set_pre node 0.

Definition list_node_next (node : Z) : stm nodes Z :=
  n ← node_get node; mret (n_next n).

Definition list_node_pre (node : Z) : stm nodes Z :=
  n ← node_get node; mret (n_pre n).

Definition list_init : list_t := List 0 0 0.
Definition list_is_empty (l : list_t) : bool := l_count l =? 0.
Definition list_count (l : list_t) : Z := l_count l.
Definition list_first (l : list_t) : Z := l_first l.
Definition list_last (l : list_t) : Z := l_last l.

Definition list_insert_first (l : list_t) (node : Z) : stm nodes list_t :=
  set_next node (l_first l);;
  set_pre node 0;;
  l' ← (if list_is_empty l
        then mret (List node node (l_count l))
        else set_pre (l_first l) node;; mret (List node (l_last l) (l_count l)));
  mret (List (l_first l') (l_last l') (s32 (l_count l' + 1))).

Definition list_insert_last (l : list_t) (node : Z) : stm nodes list_t :=
  set_pre node (l_last l);;
  set_next node 0;;
  l' ← (if list_is_empty l
        then mret (List node (l_last l) (l_count l))
        else set_next (l_last l) node;; mret l);
  mret (List (l_first l') node (s32 (l_count l' + 1))).

Definition list_remove_first (l : list_t) : stm nodes (Z * list_t) :=
  if list_is_empty l then mret (0, l) else
  let remove_node := l_first l in
  first ← list_node_next remove_node;
  last ← (if first =? 0 then mret 0 else set_pre first 0;; mret (l_last l));
  set_next remove_node 0;;
  set_pre remove_node 0;;
  mret (remove_node, List first last (s32 (l_count l - 1))).

Definition list_remove (l : list_t) (node : Z) : stm nodes (Z * list_t) :=
  first ← (if node =? l_first l then list_node_next node else mret (l_first l));
  last ← (if node =? l_last l then list_node_pre node else mret (l_last l));
  pre ← list_node_pre node;
  (if pre =? 0 then mret tt else next ← list_node_next node; set_next pre next);;
  next ← list_node_next node;
  (if next =? 0 then mret tt else pre ← list_node_pre node; set_pre next pre);;
  set_next node 0;;
  set_pre node 0;;
  mret (node, List first last (s32 (l_count l - 1))).

(** [list_node_parent (node, type, field)]: the structure around a node, given
    the field's offset. *)
Definition list_node_parent (node off : Z) : Z :=
  if node =? 0 then 0 else u32 (node - off).

(** ** The sequence a list stands for *)

(** The nodes [xs] are linked in order; [p] precedes the first, [nx] follows the
    last. *)
Fixpoint dseg (h : nodes) (p : Z) (xs : list Z) (nx : Z) : Prop :=
  match xs with
  | [] => True
  | x :: xs' => h !! x = Some (ListNode p (hd_or nx xs')) ∧ dseg h x xs' nx
  end.

Record dlist (h : nodes) (l : list_t) (xs : list Z) : Prop := {
  dl_seg : dseg h 0 xs 0;
  dl_first : l_first l = hd_or 0 xs;
  dl_last : l_last l = last_or 0 xs;
  dl_count : l_count l = Z.of_nat (length xs);
  dl_nodup : NoDup xs;
  dl_nonnull : 0 ∉ xs;
  dl_len : Z.of_nat (length xs) < 2 ^ 31
}.

(** A heap that differs from [h] only at the nodes [ys]. *)
Definition nodes_frame (h h' : nodes) (ys : list Z) : Prop :=
  ∀ y, y ∉ ys → h' !! y = h !! y.

Section segments.
Implicit Types (h : nodes) (xs ys : list Z).

Lemma dseg_app h p xs ys nx :
  dseg h p (xs ++ ys) nx ↔ dseg h p xs (hd_or nx ys) ∧ dseg h (last_or p xs) ys nx.
Proof.
  revert p. induction xs as [|x xs IH]; intros p; cbn [app dseg]; [tauto|].
  rewrite IH, hd_or_app, last_or_cons. tauto.
Qed.

Lemma dseg_frame h h' p xs nx :
  dseg h p xs nx → (∀ x, x ∈ xs → h' !! x = h !! x) → dseg h' p xs nx.
Proof.
  revert p. induction xs as [|x xs IH]; intros p; cbn [dseg]; [done|].
  intros [Hx Hs] Hf. split; [rewrite Hf by left; done|].
  apply IH; [done|]. intros y Hy. apply Hf. by right.
Qed.

Lemma dseg_in h p xs nx x : dseg h p xs nx → x ∈ xs → is_Some (h !! x).
Proof.
  revert p. induction xs as [|y xs IH]; intros p; cbn [dseg].
  - by intros _ ?%not_elem_of_nil.
  - intros [Hy Hs] [->|Hx]%elem_of_cons; eauto.
Qed.

Lemma dlist_frame h h' l xs :
  dlist h l xs → (∀ x, x ∈ xs → h' !! x = h !! x) → dlist h' l xs.
Proof. intros [] Hf. split; try done. by eapply dseg_frame. Qed.

Lemma dlist_frame_disjoint h h' l xs ys :
  dlist h l xs → nodes_frame h h' ys → (∀ x, x ∈ xs → x ∉ ys) → dlist h' l xs.
Proof. intros Hd Hf Hn. eapply dlist_frame; [done|]. intros x Hx. apply Hf, Hn, Hx. Qed.

Lemma dlist_in h l xs x : dlist h l xs → x ∈ xs → is_Some (h !! x).
Proof. intros [] Hx. by eapply dseg_in. Qed.

Lemma dlist_empty h l xs : dlist h l xs → list_is_empty l = bool_decide (xs = []).
Proof.
  intros []. unfold list_is_empty. rewrite dl_count0.
  destruct xs; cbn [length]; case_bool_decide; try done; lia.
Qed.

Lemma dlist_init h : dlist h list_init [].
Proof. split; try done; [constructor|apply not_elem_of_nil]. Qed.
End segments.

Section accesses.
Implicit Types (h : nodes).

Lemma node_get_ok h a n : h !! a = Some n → node_get a h = Ok (n, h).
Proof. intros H. unfold node_get. by rewrite H. Qed.

Lemma set_pre_ok h a n p :
  h !! a = Some n → set_pre a p h = Ok (tt, <[a := ListNode p (n_next n)]> h).
Proof.
  intros H. unfold set_pre. stm_step (node_get_ok _ _ _ H). unfold node_set. by rewrite H.
Qed.

Lemma set_next_ok h a n q :
  h !! a = Some n → set_next a q h = Ok (tt, <[a := ListNode (n_pre n) q]> h).
Proof.
  intros H. unfold set_next. stm_step (node_get_ok _ _ _ H). unfold node_set. by rewrite H.
Qed.

Lemma list_node_next_ok h a n : h !! a = Some n → list_node_next a h = Ok (n_next n, h).
Proof. intros H. unfold list_node_next. by stm_step (node_get_ok _ _ _ H). Qed.

Lemma list_node_pre_ok h a n : h !! a = Some n → list_node_pre a h = Ok (n_pre n, h).
Proof. intros H. unfold list_node_pre. by stm_step (node_get_ok _ _ _ H). Qed.

Lemma list_node_parent_ok t off :
  0 < t → 0 ≤ off → t + off < 2 ^ 32 → list_node_parent (t + off) off = t.
Proof.
  intros. unfold list_node_parent. replace (t + off =? 0) with false by lia.
  rewrite u32_id; lia.
Qed.
End accesses.

(** Setting both fields of a node, in either order. *)
Section both_fields.
Lemma set_pre_next h a n p q {B} (f : unit → stm nodes B) :
  h !! a = Some n →
  (set_pre a p;; set_next a q ≫= f) h = f tt (<[a := ListNode p q]> h).
Proof.
  intros H. stm_step (set_pre_ok _ _ _ p H).
  assert (H' : <[a := ListNode p (n_next n)]> h !! a = Some (ListNode p (n_next n)))
    by apply lookup_insert_eq.
  stm_step (set_next_ok _ _ _ q H'). by rewrite insert_insert_eq.
Qed.

Lemma set_next_pre h a n p q {B} (f : unit → stm nodes B) :
  h !! a = Some n →
  (set_next a q;; set_pre a p ≫= f) h = f tt (<[a := ListNode p q]> h).
Proof.
  intros H. stm_step (set_next_ok _ _ _ q H).
  assert (H' : <[a := ListNode (n_pre n) q]> h !! a = Some (ListNode (n_pre n) q))
    by apply lookup_insert_eq.
  stm_step (set_pre_ok _ _ _ p H'). by rewrite insert_insert_eq.
Qed.
End both_fields.

(** ** Each operation implements its sequence operation *)
Section refinement.
Implicit Types (h : nodes) (l : list_t) (xs : list Z).

#[local] Ltac outside := rewrite !lookup_insert_ne by notin.

Lemma list_insert_last_ok h l xs n :
  dlist h l xs → is_Some (h !! n) → n ≠ 0 → n ∉ xs →
  Z.of_nat (length xs) + 1 < 2 ^ 31 →
  ∃ l' h', list_insert_last l n h = Ok (l', h') ∧ dlist h' l' (xs ++ [n]) ∧
    nodes_frame h h' (n :: xs).
Proof.
  intros Hd [nd Hn] Hn0 Hnin Hlen. unfold list_insert_last. rewrite (dlist_empty _ _ _ Hd).
  destruct Hd as [Hseg Hf Hl Hc Hnd Hnz _]. erewrite set_pre_next by done.
  destruct xs as [|z ys _] using rev_ind.
  - rewrite bool_decide_true by done. eexists _, _. split; [done|]. cbn [app]. split.
    + split; cbn; rewrite ?Hc; try done.
      * split; [by rewrite Hl, lookup_insert_eq|done].
      * apply NoDup_singleton.
      * notin.
    + intros y Hy. by outside.
  - rewrite bool_decide_false by (by destruct ys).
    rewrite Hl, last_or_app in *. rewrite length_app in *. cbn [length] in *.
    apply dseg_app in Hseg as [Hseg [Hz _]]. cbn [hd_or] in *.
    pose proof (proj1 (NoDup_app _ _) Hnd) as (Hndy & Hndz & _).
    assert (Hzys : z ∉ ys) by (intros Hin; apply (Hndz z Hin); left).
    assert (Hz' : <[n := ListNode z 0]> h !! z = Some (ListNode (last_or 0 ys) 0)) by by outside.
    rewrite (stm_bind_ok _ _ _ l (<[z := ListNode (last_or 0 ys) n]> (<[n := ListNode z 0]> h)));
      last by stm_step (set_next_ok _ _ _ n Hz').
    eexists _, _. split; [done|]. split.
    + split; cbn [l_first l_last l_count].
      * rewrite <-app_assoc. apply dseg_app. split.
        { eapply dseg_frame; [exact Hseg|]. intros y Hy. outside. done. }
        cbn. rewrite lookup_insert_eq. split; [done|]. split; [|done].
        outside. by rewrite lookup_insert_eq.
      * rewrite Hf. by destruct ys.
      * by rewrite last_or_app.
      * rewrite Hc, s32_id by lia. rewrite !length_app. cbn [length]. lia.
      * apply NoDup_app. split; [done|]. split; [|apply NoDup_singleton].
        by intros x Hx ->%list_elem_of_singleton.
      * notin.
      * rewrite !length_app. cbn [length]. lia.
    + intros y Hy. by outside.
Qed.

Lemma list_insert_first_ok h l xs n :
  dlist h l xs → is_Some (h !! n) → n ≠ 0 → n ∉ xs →
  Z.of_nat (length xs) + 1 < 2 ^ 31 →
  ∃ l' h', list_insert_first l n h = Ok (l', h') ∧ dlist h' l' (n :: xs) ∧
    nodes_frame h h' (n :: xs).
Proof.
  intros Hd [nd Hn] Hn0 Hnin Hlen. unfold list_insert_first. rewrite (dlist_empty _ _ _ Hd).
  destruct Hd as [Hseg Hf Hl Hc Hnd Hnz _]. erewrite set_next_pre by done.
  destruct xs as [|z ys].
  - rewrite bool_decide_true by done. eexists _, _. split; [done|]. split.
    + split; cbn; rewrite ?Hc; try done.
      * split; [by rewrite Hf, lookup_insert_eq|done].
      * apply NoDup_singleton.
      * notin.
    + intros y Hy. by outside.
  - rewrite bool_decide_false by done. rewrite Hf in *. cbn [hd_or dseg] in *.
    destruct Hseg as [Hz Hseg]. apply NoDup_cons in Hnd as [Hzy Hndy].
    assert (Hz' : <[n := ListNode 0 z]> h !! z = Some (ListNode 0 (hd_or 0 ys))) by by outside.
    rewrite (stm_bind_ok _ _ _ (List n (l_last l) (l_count l))
      (<[z := ListNode n (hd_or 0 ys)]> (<[n := ListNode 0 z]> h)));
      last by stm_step (set_pre_ok _ _ _ n Hz').
    eexists _, _. split; [done|]. split.
    + split; cbn [l_first l_last l_count length] in *.
      * cbn. rewrite lookup_insert_eq. split; [outside; by rewrite lookup_insert_eq|].
        split; [done|]. eapply dseg_frame; [exact Hseg|]. intros y Hy. by outside.
      * done.
      * by rewrite Hl, !last_or_cons.
      * rewrite Hc, s32_id by lia. lia.
      * apply NoDup_cons. split; [done|]. by apply NoDup_cons.
      * notin.
      * lia.
    + intros y Hy. by outside.
Qed.

Lemma list_remove_first_nil h l : dlist h l [] → list_remove_first l h = Ok ((0, l), h).
Proof.
  intros Hd. unfold list_remove_first. rewrite (dlist_empty _ _ _ Hd).
  by rewrite bool_decide_true.
Qed.

Lemma list_remove_first_cons h l x xs :
  dlist h l (x :: xs) →
  ∃ l' h', list_remove_first l h = Ok ((x, l'), h') ∧ dlist h' l' xs ∧
    h' !! x = Some (ListNode 0 0) ∧ nodes_frame h h' (x :: xs).
Proof.
  intros Hd. unfold list_remove_first. rewrite (dlist_empty _ _ _ Hd).
  rewrite bool_decide_false by done.
  destruct Hd as [Hseg Hf Hl Hc Hnd Hnz Hlen]. rewrite Hf. cbn [hd_or] in *.
  destruct Hseg as [Hx Hseg]. apply NoDup_cons in Hnd as [Hxs Hnd].
  stm_step (list_node_next_ok _ _ _ Hx). cbn [n_next length] in *.
  destruct xs as [|z ys]; cbn [hd_or dseg] in *.
  - rewrite Z.eqb_refl. rewrite (stm_bind_ok _ _ _ 0 h) by done. cbn beta.
    erewrite set_next_pre by done. eexists _, _. split; [done|]. split; [|split].
    + split; cbn; rewrite ?Hc; try done; notin.
    + apply lookup_insert_eq.
    + intros y Hy. by outside.
  - destruct Hseg as [Hz Hseg]. apply NoDup_cons in Hnd as [Hzy Hnd].
    rewrite (proj2 (Z.eqb_neq z 0)) by notin.
    rewrite (stm_bind_ok _ _ _ (l_last l) (<[z := ListNode 0 (hd_or 0 ys)]> h));
      last by stm_step (set_pre_ok _ _ _ 0 Hz).
    cbn beta. erewrite set_next_pre by (outside; exact Hx).
    eexists _, _. split; [done|]. split; [|split].
    + split; cbn [l_first l_last l_count hd_or length] in *.
      * cbn. outside. rewrite lookup_insert_eq. split; [done|].
        eapply dseg_frame; [exact Hseg|]. intros y Hy. by outside.
      * done.
      * by rewrite Hl, !last_or_cons.
      * rewrite Hc, s32_id by lia. lia.
      * by apply NoDup_cons.
      * notin.
      * lia.
    + apply lookup_insert_eq.
    + intros y Hy. by outside.
Qed.

(** The neighbours are linked past the node: the segment before it, then the one
    behind it. *)
Lemma relink_pre h a n nx :
  dseg h 0 a n → NoDup a → 0 ∉ a → n ∉ a → h !! n = Some (ListNode (last_or 0 a) nx) →
  ∃ h', (if last_or 0 a =? 0 then mret tt
         else next ← list_node_next n; set_next (last_or 0 a) next) h = Ok (tt, h') ∧
    dseg h' 0 a nx ∧ nodes_frame h h' a.
Proof.
  intros Hs Hnd H0 Hn Hnode. destruct a as [|p a' _] using rev_ind.
  { exists h. split; [done|]. split; [done|]. by intros y. }
  rewrite last_or_app in *. apply dseg_app in Hs as [Hs [Hp _]]. cbn [hd_or] in *.
  apply NoDup_app in Hnd as (Hnd & Hpa & _).
  assert (p ∉ a') by (intros Hin; apply (Hpa p Hin); left).
  rewrite (proj2 (Z.eqb_neq p 0)) by notin.
  stm_step (list_node_next_ok _ _ _ Hnode). rewrite (set_next_ok _ _ _ _ Hp). cbn [n_next n_pre].
  eexists. split; [done|]. split.
  - apply dseg_app. cbn [dseg hd_or]. rewrite lookup_insert_eq. split; [|done].
    eapply dseg_frame; [exact Hs|]. intros y Hy. by outside.
  - intros y Hy. by outside.
Qed.

Lemma relink_next h b n p :
  dseg h n b 0 → NoDup b → 0 ∉ b → n ∉ b → h !! n = Some (ListNode p (hd_or 0 b)) →
  ∃ h', (if hd_or 0 b =? 0 then mret tt
         else pre ← list_node_pre n; set_pre (hd_or 0 b) pre) h = Ok (tt, h') ∧
    dseg h' p b 0 ∧ nodes_frame h h' b.
Proof.
  intros Hs Hnd H0 Hn Hnode. destruct b as [|q b'].
  { exists h. split; [done|]. split; [done|]. by intros y. }
  cbn [dseg hd_or] in *. destruct Hs as [Hq Hs]. mem_simpl.
  rewrite (proj2 (Z.eqb_neq q 0)) by notin.
  stm_step (list_node_pre_ok _ _ _ Hnode). rewrite (set_pre_ok _ _ _ _ Hq). cbn [n_next n_pre].
  eexists. split; [done|]. split.
  - rewrite lookup_insert_eq. split; [done|].
    eapply dseg_frame; [exact Hs|]. intros y Hy. by outside.
  - intros y Hy. by outside.
Qed.

Lemma list_remove_ok h l a n b :
  dlist h l (a ++ n :: b) →
  ∃ l' h', list_remove l n h = Ok ((n, l'), h') ∧ dlist h' l' (a ++ b) ∧
    h' !! n = Some (ListNode 0 0) ∧ nodes_frame h h' (a ++ n :: b).
Proof.
  intros [Hseg Hf Hl Hc Hnd H0 Hlen]. apply dseg_app in Hseg as [Ha [Hn Hb]].
  apply NoDup_app in Hnd as (Hnda & Hab & Hndb). mem_simpl.
  assert (n ∉ a) as Hna by (intros Hin; apply (Hab n Hin); left).
  assert (∀ x, x ∈ a → x ∉ b) as Hab' by (intros x Hx; specialize (Hab x Hx); by mem_simpl).
  assert (E1 : (if n =? l_first l then list_node_next n else mret (l_first l)) h =
    Ok (hd_or 0 (a ++ b), h)).
  { rewrite Hf. destruct a as [|x a]; cbn [app hd_or].
    - rewrite Z.eqb_refl. by rewrite (list_node_next_ok _ _ _ Hn).
    - by rewrite (proj2 (Z.eqb_neq n x)) by notin. }
  assert (E2 : (if n =? l_last l then list_node_pre n else mret (l_last l)) h =
    Ok (last_or 0 (a ++ b), h)).
  { rewrite Hl, !last_or_app_ne, last_or_cons. destruct b as [|x b _] using rev_ind.
    - cbn [last_or last]. rewrite Z.eqb_refl. by rewrite (list_node_pre_ok _ _ _ Hn).
    - rewrite !last_or_app. by rewrite (proj2 (Z.eqb_neq n x)) by notin. }
  unfold list_remove. stm_step E1. stm_step E2. stm_step (list_node_pre_ok _ _ _ Hn).
  cbn [n_pre].
  destruct (relink_pre h a n (hd_or 0 b)) as (h1 & R1 & Ha1 & F1); try done.
  stm_step R1. assert (h1 !! n = Some (ListNode (last_or 0 a) (hd_or 0 b))) as Hn1
    by by rewrite F1.
  stm_step (list_node_next_ok _ _ _ Hn1). cbn [n_next].
  destruct (relink_next h1 b n (last_or 0 a)) as (h2 & R2 & Hb2 & F2); try done.
  { eapply dseg_frame; [exact Hb|]. intros x Hx. apply F1. intros Hxa. by apply (Hab' x). }
  stm_step R2. erewrite set_next_pre by (rewrite F2 by done; exact Hn1).
  assert (Fn : ∀ y, y ∉ a ++ n :: b → <[n := ListNode 0 0]> h2 !! y = h !! y).
  { intros y Hy. mem_simpl. outside. by rewrite F2, F1. }
  eexists _, _. split; [done|]. split; [|split; [apply lookup_insert_eq|exact Fn]].
  split; cbn [l_first l_last l_count].
  - eapply (dseg_frame h2).
    + apply dseg_app. split; [|done]. eapply dseg_frame; [exact Ha1|]. intros x Hx. by apply F2, Hab'.
    + intros x Hx. apply lookup_insert_ne. intros ->. by apply elem_of_app in Hx as [].
  - done.
  - done.
  - rewrite length_app in *. cbn [length] in *. rewrite Hc, s32_id by lia. lia.
  - apply NoDup_app. done.
  - notin.
  - rewrite length_app in *. cbn [length] in *. lia.
Qed.
End refinement.

(** ** Properties *)

(** Appending a detached node makes the list stand for the sequence with the
    node at its end, links it consistently in both directions, and leaves every
    node outside the list as it was. *)
Theorem list_insert_last_refines h l xs node :
  dlist h l xs → is_Some (h !! node) → node ≠ 0 → node ∉ xs →
  Z.of_nat (length xs) + 1 < 2 ^ 31 →
  ∃ l' h', list_insert_last l node h = Ok (l', h') ∧ dlist h' l' (xs ++ [node]) ∧
    nodes_frame h h' (node :: xs).
Proof. apply list_insert_last_ok. Qed.

(** Inserting at the front makes the list stand for the sequence with the
    node at its head. *)
Theorem list_insert_first_refines h l xs node :
  dlist h l xs → is_Some (h !! node) → node ≠ 0 → node ∉ xs →
  Z.of_nat (length xs) + 1 < 2 ^ 31 →
  ∃ l' h', list_insert_first l node h = Ok (l', h') ∧ dlist h' l' (node :: xs) ∧
    nodes_frame h h' (node :: xs).
Proof. apply list_insert_first_ok. Qed.

(** Removing the first node returns the null pointer on an empty list and
    otherwise the head of the sequence, detached, with the rest left in the
    list. *)
Theorem list_remove_first_refines h l xs :
  dlist h l xs →
  match xs with
  | [] => list_remove_first l h = Ok ((0, l), h)
  | x :: xs' => ∃ l' h', list_remove_first l h = Ok ((x, l'), h') ∧ dlist h' l' xs' ∧
      h' !! x = Some (ListNode 0 0) ∧ nodes_frame h h' xs
  end.
Proof.
  destruct xs; [apply list_remove_first_nil|apply list_remove_first_cons].
Qed.

(** C38: removing any node of the list deletes exactly that node from the
    sequence, keeps the order of the others, and detaches the node. *)
Theorem list_remove_refines h l a node b :
  dlist h l (a ++ node :: b) →
  ∃ l' h', list_remove l node h = Ok ((node, l'), h') ∧ dlist h' l' (a ++ b) ∧
    h' !! node = Some (ListNode 0 0) ∧ nodes_frame h h' (a ++ node :: b).
Proof. apply list_remove_ok. Qed.

(** *** Witnesses: two linked nodes and a detached one *)
Definition demo_nodes : nodes :=
  {[ 16 := ListNode 0 24; 24 := ListNode 16 0; 32 := ListNode 7 7 ]}.
Definition demo_list : list_t := List 16 24 2.

Lemma demo_dlist : dlist demo_nodes demo_list [16; 24].
Proof.
  split; try reflexivity.
  - vm_compute. repeat split.
  - by apply (bool_decide_unpack _).
  - by apply (bool_decide_unpack _).
Qed.

Lemma list_insert_last_refines_witness :
  ∃ l' h', list_insert_last demo_list 32 demo_nodes = Ok (l', h') ∧
    dlist h' l' [16; 24; 32].
Proof.
  destruct (list_insert_last_refines demo_nodes demo_list [16; 24] 32)
    as (l' & h' & Hr & Hd & _).
  - apply demo_dlist.
  - vm_compute. eauto.
  - lia.
  - by apply (bool_decide_unpack _).
  - vm_compute. reflexivity.
  - exists l', h'. split; [exact Hr|exact Hd].
Defined.

Lemma list_insert_first_refines_witness :
  ∃ l' h', list_insert_first demo_list 32 demo_nodes = Ok (l', h') ∧
    dlist h' l' [32; 16; 24].
Proof.
  destruct (list_insert_first_refines demo_nodes demo_list [16; 24] 32)
    as (l' & h' & Hr & Hd & _).
  - apply demo_dlist.
  - vm_compute. eauto.
  - lia.
  - by apply (bool_decide_unpack _).
  - vm_compute. reflexivity.
  - exists l', h'. split; [exact Hr|exact Hd].
Defined.

Lemma list_remove_first_refines_witness :
  ∃ l' h', list_remove_first demo_list demo_nodes = Ok ((16, l'), h') ∧ dlist h' l' [24].
Proof.
  destruct (list_remove_first_refines demo_nodes demo_list [16; 24] demo_dlist)
    as (l' & h' & Hr & Hd & _).
  exists l', h'. split; [exact Hr|exact Hd].
Defined.

Lemma list_remove_refines_witness :
  ∃ l' h', list_remove demo_list 24 demo_nodes = Ok ((24, l'), h') ∧ dlist h' l' [16].
Proof.
  destruct (list_remove_refines demo_nodes demo_list [16] 24 [] demo_dlist)
    as (l' & h' & Hr & Hd & _).
  exists l', h'. split; [exact Hr|exact Hd].
Defined.
