(* ===== verification/CpuInstr.v ===== *)
(** * Processor registers and instructions (comm/cpu_instr.h)

    The registers the kernel and the loader touch, and the port history. What a
    device answers is not code of this repository: it is the parameter
    [dev_read], which sees the whole history of port accesses. *)
From S2P Require Import Prelude.

(** ** State *)
Inductive io_event : Type :=
| PortIn (port v : Z)
| PortOut (port v : Z).

#[export] Instance io_event_eq_dec : EqDecision io_event.
Proof. solve_decision. Defined.

(** The newest event comes first. *)
Class Device : Type := dev_read : list io_event → Z → Z.

Record cpu_t : Type := Cpu {
  c_eflags : Z;
  c_cr0 : Z;
  c_cr3 : Z;
  c_cr4 : Z;
  c_tr : Z;
  c_gdtr : Z * Z * Z;
  c_idtr : Z * Z * Z;
  c_io : list io_event
}.

Definition EFLAGS_IF : Z := Z.shiftl 1 9.
Definition EFLAGS_DEFAULT : Z := Z.shiftl 1 1.

(** ** Instructions *)
Section instructions.
Context `{Device}.

Definition inb (port : Z) : stm cpu_t Z := λ c,
  let v := u8 (dev_read (c_io c) (u16 port)) in
  Ok (v, Cpu (c_eflags c) (c_cr0 c) (c_cr3 c) (c_cr4 c) (c_tr c) (c_gdtr c) (c_idtr c)
           (PortIn (u16 port) v :: c_io c)).

Definition inw (port : Z) : stm cpu_t Z := λ c,
  let v := u16 (dev_read (c_io c) (u16 port)) in
  Ok (v, Cpu (c_eflags c) (c_cr0 c) (c_cr3 c) (c_cr4 c) (c_tr c) (c_gdtr c) (c_idtr c)
           (PortIn (u16 port) v :: c_io c)).
End instructions.

Definition outb (port data : Z) : stm cpu_t unit := λ c,
  Ok (tt, Cpu (c_eflags c) (c_cr0 c) (c_cr3 c) (c_cr4 c) (c_tr c) (c_gdtr c) (c_idtr c)
            (PortOut (u16 port) (u8 data) :: c_io c)).

Definition set_eflags (e : Z) (c : cpu_t) : cpu_t :=
  Cpu e (c_cr0 c) (c_cr3 c) (c_cr4 c) (c_tr c) (c_gdtr c) (c_idtr c) (c_io c).

Definition cli : stm cpu_t unit := λ c,
  Ok (tt, set_eflags (Z.land (c_eflags c) (Z.lnot EFLAGS_IF)) c).
Definition sti : stm cpu_t unit := λ c,
  Ok (tt, set_eflags (Z.lor (c_eflags c) EFLAGS_IF) c).
Definition read_eflags : stm cpu_t Z := λ c, Ok (c_eflags c, c).
Definition write_eflags (e : Z) : stm cpu_t unit := λ c, Ok (tt, set_eflags e c).

(** The pseudo-descriptor of [lgdt] and [lidt]: limit, low and high half of the
    base address. *)
Definition table_ptr (start size : Z) : Z * Z * Z :=
  (u16 (size - 1), Z.land start 65535, Z.land (Z.shiftr start 16) 65535).

Definition lgdt (start size : Z) : stm cpu_t unit := λ c,
  Ok (tt, Cpu (c_eflags c) (c_cr0 c) (c_cr3 c) (c_cr4 c) (c_tr c) (table_ptr start size)
            (c_idtr c) (c_io c)).
Definition lidt (start size : Z) : stm cpu_t unit := λ c,
  Ok (tt, Cpu (c_eflags c) (c_cr0 c) (c_cr3 c) (c_cr4 c) (c_tr c) (c_gdtr c)
            (table_ptr start size) (c_io c)).

(** The reads of the control registers are declared [uint16_t]. *)
Definition read_cr0 : stm cpu_t Z := λ c, Ok (u16 (c_cr0 c), c).
Definition read_cr3 : stm cpu_t Z := λ c, Ok (u16 (c_cr3 c), c).
Definition read_cr4 : stm cpu_t Z := λ c, Ok (u16 (c_cr4 c), c).
Definition write_cr0 (v : Z) : stm cpu_t unit := λ c,
  Ok (tt, Cpu (c_eflags c) v (c_cr3 c) (c_cr4 c) (c_tr c) (c_gdtr c) (c_idtr c) (c_io c)).
Definition write_cr3 (v : Z) : stm cpu_t unit := λ c,
  Ok (tt, Cpu (c_eflags c) (c_cr0 c) v (c_cr4 c) (c_tr c) (c_gdtr c) (c_idtr c) (c_io c)).
Definition write_cr4 (v : Z) : stm cpu_t unit := λ c,
  Ok (tt, Cpu (c_eflags c) (c_cr0 c) (c_cr3 c) v (c_tr c) (c_gdtr c) (c_idtr c) (c_io c)).
Definition write_tr (sel : Z) : stm cpu_t unit := λ c,
  Ok (tt, Cpu (c_eflags c) (c_cr0 c) (c_cr3 c) (c_cr4 c) (u16 sel) (c_gdtr c) (c_idtr c)
            (c_io c)).

(** Port accesses in front of the history: all that port instructions change. *)
Definition add_io (ev : list io_event) (c : cpu_t) : cpu_t :=
  Cpu (c_eflags c) (c_cr0 c) (c_cr3 c) (c_cr4 c) (c_tr c) (c_gdtr c) (c_idtr c) (ev ++ c_io c).

(** The last byte written to a port, as a readable register of the device. *)
Fixpoint last_out (port : Z) (io : list io_event) : option Z :=
  match io with
  | [] => None
  | PortOut p v :: io' => if p =? port then Some v else last_out port io'
  | PortIn _ _ :: io' => last_out port io'
  end.

(** ** The history *)

(** The history after [k] reads of a port. *)
Fixpoint polled `{Device} (port : Z) (k : nat) (io : list io_event) : list io_event :=
  match k with
  | O => io
  | S k' => polled port k' (PortIn port (u8 (dev_read io port)) :: io)
  end.

Lemma add_io_io ev c : c_io (add_io ev c) = ev ++ c_io c.
Proof. done. Qed.

Lemma add_io_app ev1 ev2 c : add_io ev2 (add_io ev1 c) = add_io (ev2 ++ ev1) c.
Proof. unfold add_io. cbn. by rewrite app_assoc. Qed.

Lemma outb_ok p v c : outb p v c = Ok (tt, add_io [PortOut (u16 p) (u8 v)] c).
Proof. done. Qed.

Lemma inb_ok `{Device} p c :
  inb p c = Ok (u8 (dev_read (c_io c) (u16 p)),
    add_io [PortIn (u16 p) (u8 (dev_read (c_io c) (u16 p)))] c).
Proof. done. Qed.

Lemma inw_ok `{Device} p c :
  inw p c = Ok (u16 (dev_read (c_io c) (u16 p)),
    add_io [PortIn (u16 p) (u16 (dev_read (c_io c) (u16 p)))] c).
Proof. done. Qed.

(** ** Waiting for an interrupt

    [hlt] stops the processor until the next interrupt, which leaves the registers
    as they are when it returns. *)
Definition hlt : stm cpu_t unit := mret tt.

(** ** Interrupt masking by [cli] and a saved [eflags] *)
Lemma cli_masks e : Z.testbit (Z.land e (Z.lnot EFLAGS_IF)) 9 = false.
Proof. rewrite Z.land_spec. apply andb_false_r. Qed.

Lemma cli_keeps e i : 0 ≤ i → i ≠ 9 →
  Z.testbit (Z.land e (Z.lnot EFLAGS_IF)) i = Z.testbit e i.
Proof.
  intros Hi H9. rewrite Z.land_spec, Z.lnot_spec by done. unfold EFLAGS_IF.
  rewrite testbit_one_shift by lia. rewrite bool_decide_false by done. apply andb_true_r.
Qed.
