(* ===== verification/Mmu.v ===== *)
(** * Page-directory and page-table entries (kernel/cpu/mmu.h)

    An entry is a union of a 32-bit word and a structure of bit fields. Code that
    sets [v] and reads a field goes through [pde_of] or [pte_of]; the fields, in
    the order of the source, fill the word from bit 0 on, the unnamed ones
    included. *)
From S2P Require Import Prelude CpuInstr.

Definition PDE_CNT : Z := 1024.
Definition PTE_CNT : Z := 1024.
Definition PTE_P : Z := Z.shiftl 1 0.
Definition PTE_W : Z := Z.shiftl 1 1.

(** ** Bit fields *)

(** The field of [width] bits from bit [pos] on. *)
Definition bit_field (v pos width : Z) : Z := Z.land (Z.shiftr v pos) (Z.ones width).

(** The fields of the widths [ws] from bit [pos] on, and the word they make up. *)
Fixpoint split_fields (ws : list Z) (pos v : Z) : list Z :=
  match ws with
  | [] => []
  | w :: ws' => bit_field v pos w :: split_fields ws' (pos + w) v
  end.

Fixpoint join_fields (ws fs : list Z) (pos : Z) : Z :=
  match ws, fs with
  | w :: ws', f :: fs' => Z.shiftl f pos + join_fields ws' fs' (pos + w)
  | _, _ => 0
  end.

(** ** The unions *)
Record pde_t : Type := Pde {
  pde_present : Z; pde_write_disable : Z; pde_user_mode_acc : Z; pde_write_through : Z;
  pde_cache_disable : Z; pde_accessed : Z; pde_bit6 : Z; ps : Z; pde_bits11_8 : Z;
  phy_pt_addr : Z
}.

Record pte_t : Type := Pte {
  pte_present : Z; pte_write_disable : Z; pte_user_mode_acc : Z; pte_write_through : Z;
  pte_cache_disable : Z; pte_accessed : Z; dirty : Z; pat : Z; global : Z; pte_bits11_9 : Z;
  phy_page_addr : Z
}.

Definition pde_widths : list Z := [1; 1; 1; 1; 1; 1; 1; 1; 4; 20].
Definition pte_widths : list Z := [1; 1; 1; 1; 1; 1; 1; 1; 1; 3; 20].

Definition pde_of (v : Z) : pde_t :=
  Pde (bit_field v 0 1) (bit_field v 1 1) (bit_field v 2 1) (bit_field v 3 1) (bit_field v 4 1)
    (bit_field v 5 1) (bit_field v 6 1) (bit_field v 7 1) (bit_field v 8 4) (bit_field v 12 20).
Definition pte_of (v : Z) : pte_t :=
  Pte (bit_field v 0 1) (bit_field v 1 1) (bit_field v 2 1) (bit_field v 3 1) (bit_field v 4 1)
    (bit_field v 5 1) (bit_field v 6 1) (bit_field v 7 1) (bit_field v 8 1) (bit_field v 9 3)
    (bit_field v 12 20).

Definition pde_fields (e : pde_t) : list Z :=
  [pde_present e; pde_write_disable e; pde_user_mode_acc e; pde_write_through e;
   pde_cache_disable e; pde_accessed e; pde_bit6 e; ps e; pde_bits11_8 e; phy_pt_addr e].
Definition pte_fields (e : pte_t) : list Z :=
  [pte_present e; pte_write_disable e; pte_user_mode_acc e; pte_write_through e;
   pte_cache_disable e; pte_accessed e; dirty e; pat e; global e; pte_bits11_9 e;
   phy_page_addr e].

(** The member [v]. *)
Definition pde_v (e : pde_t) : Z := join_fields pde_widths (pde_fields e) 0.
Definition pte_v (e : pte_t) : Z := join_fields pte_widths (pte_fields e) 0.

(** ** Operations *)
Definition pde_index (vaddr : Z) : Z := s32 (Z.shiftr vaddr 22).
Definition pde_paddr (v : Z) : Z := u32 (Z.shiftl (phy_pt_addr (pde_of v)) 12).
Definition pte_index (vaddr : Z) : Z := Z.land (Z.shiftr vaddr 12) 1023.
Definition pte_paddr (v : Z) : Z := u32 (Z.shiftl (phy_page_addr (pte_of v)) 12).
Definition get_pte_perm (v : Z) : Z := Z.land v 511.
Definition mmu_set_page_dir (paddr : Z) : stm cpu_t unit := write_cr3 paddr.

(** ** Fields and words *)
Section fields.
Implicit Types (ws fs : list Z).

Lemma pow2_pos w : 0 ≤ w → 0 < 2 ^ w.
Proof. intros. apply Z.pow_pos_nonneg; lia. Qed.

Lemma bit_field_alt v pos w :
  0 ≤ pos → 0 ≤ w → bit_field v pos w = v / 2 ^ pos mod 2 ^ w.
Proof. intros. unfold bit_field. rewrite Z.land_ones by lia. by rewrite Z.shiftr_div_pow2 by lia. Qed.

Lemma bit_field_range v pos w : 0 ≤ w → 0 ≤ bit_field v pos w < 2 ^ w.
Proof. intros. unfold bit_field. rewrite Z.land_ones by lia. by apply Z.mod_pos_bound, pow2_pos. Qed.

Fixpoint total (ws : list Z) : Z :=
  match ws with [] => 0 | w :: ws' => w + total ws' end.

Lemma total_nonneg ws : Forall (λ w, 0 ≤ w) ws → 0 ≤ total ws.
Proof. induction 1; cbn; lia. Qed.

(** The values a structure of these widths can hold. *)
Definition fields_fit ws fs : Prop := Forall2 (λ w f, 0 ≤ f < 2 ^ w) ws fs.

Lemma split_fields_fit ws pos v : Forall (λ w, 0 ≤ w) ws → fields_fit ws (split_fields ws pos v).
Proof.
  intros Hw. revert pos. induction Hw; intros pos; constructor; [by apply bit_field_range|].
  apply IHHw.
Qed.

Lemma join_shift ws fs pos :
  Forall (λ w, 0 ≤ w) ws → 0 ≤ pos → join_fields ws fs pos = 2 ^ pos * join_fields ws fs 0.
Proof.
  intros Hw. revert fs pos. induction Hw as [|w ws Hw0 Hw IH]; intros [|f fs] pos Hp; cbn; try lia.
  rewrite (IH fs (pos + w)), Z.add_0_l, (IH fs w), Z.pow_add_r, !Z.shiftl_mul_pow2 by lia.
  rewrite Z.pow_0_r. ring.
Qed.

Lemma join_bounds ws fs :
  Forall (λ w, 0 ≤ w) ws → fields_fit ws fs → 0 ≤ join_fields ws fs 0 < 2 ^ total ws.
Proof.
  intros Hw Hf. induction Hf as [|w f ws fs Hf Hfs IH]; cbn; [lia|].
  apply Forall_cons in Hw as [Hw0 Hw]. specialize (IH Hw). pose proof (total_nonneg ws Hw).
  pose proof (pow2_pos w Hw0). pose proof (pow2_pos _ (total_nonneg ws Hw)).
  rewrite Z.add_0_l, join_shift, Z.shiftl_0_r, Z.pow_add_r by (done || lia). nia.
Qed.

(** The union is one word: its fields make up the word, and the word of fields
    that fit has those fields. *)
Lemma join_split ws pos v :
  Forall (λ w, 0 ≤ w) ws → 0 ≤ pos →
  join_fields ws (split_fields ws pos v) 0 = v / 2 ^ pos mod 2 ^ total ws.
Proof.
  intros Hw. revert pos. induction Hw as [|w ws Hw0 Hw IH]; intros pos Hp; cbn.
  - by rewrite Z.mod_1_r.
  - pose proof (total_nonneg ws Hw). pose proof (pow2_pos w Hw0). pose proof (pow2_pos pos Hp).
    pose proof (pow2_pos _ (total_nonneg ws Hw)).
    rewrite Z.add_0_l, join_shift, IH, Z.shiftl_0_r, bit_field_alt by (done || lia).
    rewrite !Z.pow_add_r, <-Z.div_div, Z.rem_mul_r by lia. done.
Qed.

Lemma split_join ws fs pos x :
  Forall (λ w, 0 ≤ w) ws → fields_fit ws fs → 0 ≤ pos →
  x / 2 ^ pos = join_fields ws fs 0 → split_fields ws pos x = fs.
Proof.
  intros Hw Hf. revert pos. induction Hf as [|w f ws fs Hf0 Hf IH]; intros pos Hp Hx; [done|].
  apply Forall_cons in Hw as [Hw0 Hw]. cbn in *.
  rewrite Z.add_0_l, join_shift, Z.shiftl_0_r in Hx by (done || lia).
  pose proof (pow2_pos w Hw0). pose proof (pow2_pos pos Hp).
  f_equal.
  - rewrite bit_field_alt, Hx, (Z.mul_comm (2 ^ w)), Z_mod_plus_full by lia. by apply Z.mod_small.
  - apply IH; [done|lia|].
    rewrite Z.pow_add_r, <-Z.div_div, Hx, (Z.mul_comm (2 ^ w)), Z.div_add, Z.div_small by lia. lia.
Qed.
End fields.

Lemma pde_of_fields v : pde_fields (pde_of v) = split_fields pde_widths 0 v.
Proof. reflexivity. Qed.
Lemma pte_of_fields v : pte_fields (pte_of v) = split_fields pte_widths 0 v.
Proof. reflexivity. Qed.

Lemma widths_ok : Forall (λ w, 0 ≤ w) pde_widths ∧ Forall (λ w, 0 ≤ w) pte_widths.
Proof. split; decide_vm. Qed.

(** The pages an entry can point to, and what its low bits keep. *)
Lemma pte_paddr_alt v : is_u32 v → pte_paddr v = v - v mod 4096 ∧ pde_paddr v = v - v mod 4096.
Proof.
  unfold is_u32, pte_paddr, pde_paddr, u32. intros Hv.
  cbn [phy_page_addr pte_of phy_pt_addr pde_of].
  rewrite bit_field_alt, Z.shiftl_mul_pow2 by lia.
  change (2 ^ 12) with 4096. change (2 ^ 20) with 1048576. change (2 ^ 32) with 4294967296 in *.
  split; Z.to_euclidean_division_equations; lia.
Qed.

(** ** Properties *)

(** The word and the bit fields of an entry are two views of the same 32 bits:
    a word is made up of its fields, a structure of fields that fit is read back
    from its word, and the address the entry holds is the word without its low
    12 bits, of which [get_pte_perm] keeps the named nine. *)
Theorem pte_union_roundtrip :
  (∀ v, is_u32 v → pte_v (pte_of v) = v ∧ pde_v (pde_of v) = v) ∧
  (∀ e, fields_fit pte_widths (pte_fields e) → is_u32 (pte_v e) ∧ pte_of (pte_v e) = e) ∧
  (∀ e, fields_fit pde_widths (pde_fields e) → is_u32 (pde_v e) ∧ pde_of (pde_v e) = e) ∧
  (∀ v, is_u32 v → pte_paddr v = v - v mod 4096 ∧ pde_paddr v = v - v mod 4096 ∧
     get_pte_perm v = join_fields pte_widths (take 9 (pte_fields (pte_of v))) 0).
Proof.
  destruct widths_ok as [Hd Ht]. unfold is_u32. split; [|split; [|split]].
  - intros v Hv. unfold pte_v, pde_v. rewrite pde_of_fields, pte_of_fields, !join_split by (done || lia).
    rewrite Z.pow_0_r, Z.div_1_r. split; by apply Z.mod_small.
  - intros e He. split; [by apply (join_bounds pte_widths)|].
    pose proof (split_join _ _ 0 (pte_v e) Ht He) as E. rewrite <-pte_of_fields in E.
    destruct (pte_of (pte_v e)), e. unfold pte_fields in E. cbn in E.
    rewrite Z.pow_0_r, Z.div_1_r in E. specialize (E ltac:(lia) eq_refl). by simplify_eq.
  - intros e He. split; [by apply (join_bounds pde_widths)|].
    pose proof (split_join _ _ 0 (pde_v e) Hd He) as E. rewrite <-pde_of_fields in E.
    destruct (pde_of (pde_v e)), e. unfold pde_fields in E. cbn in E.
    rewrite Z.pow_0_r, Z.div_1_r in E. specialize (E ltac:(lia) eq_refl). by simplify_eq.
  - intros v Hv. destruct (pte_paddr_alt v Hv) as [-> ->]. split; [done|]. split; [done|].
    change (take 9 (pte_fields (pte_of v))) with (split_fields (take 9 pte_widths) 0 v).
    change (join_fields pte_widths ?l 0) with (join_fields (take 9 pte_widths) l 0).
    rewrite (join_split (take 9 pte_widths)) by (by apply Forall_take || lia). rewrite Z.pow_0_r, Z.div_1_r.
    change (total (take 9 pte_widths)) with 9. unfold get_pte_perm. by rewrite <-Z.land_ones by lia.
Qed.

Lemma pte_union_roundtrip_witness :
  pte_paddr 1052679 = 1052672 ∧ pte_present (pte_of 1052679) = 1 ∧ get_pte_perm 1052679 = 7 ∧
  pte_v (Pte 1 1 1 0 0 0 0 0 0 0 257) = 1052679.
Proof.
  destruct pte_union_roundtrip as (Hv & He & _ & Hp).
  destruct (Hp 1052679) as (E & _ & Eg); [decide_vm|].
  destruct (He (Pte 1 1 1 0 0 0 0 0 0 0 257)) as [_ Ee]; [unfold fields_fit; decide_vm|].
  destruct (Hv 1052679) as [Ev _]; [decide_vm|].
  split; [rewrite E; reflexivity|]. split; [reflexivity|]. split; [rewrite Eg; reflexivity|].
  rewrite <-Ev, <-Ee. reflexivity.
Defined.
