(* ===== verification/Desc.v ===== *)
(** * Descriptors: the GDT and the IDT as data (kernel/include/cpu/cpu.h,
    kernel/cpu/cpu.c)

    A descriptor is a record of its bit fields; the GDT and the IDT are lists of
    descriptors, and an index outside the table is a [Fault]. *)
From S2P Require Import Prelude.

(** ** Segment descriptors *)
Record segment_desc_t : Type := SegmentDesc {
  limit15_0 : Z; base15_0 : Z; base23_16 : Z; attr : Z; base31_24 : Z
}.

Record gate_desc_t : Type := GateDesc {
  offset15_0 : Z; selector : Z; gate_attr : Z; offset31_16 : Z
}.

#[export] Instance segment_desc_t_eq_dec : EqDecision segment_desc_t.
Proof. solve_decision. Defined.
#[export] Instance gate_desc_t_eq_dec : EqDecision gate_desc_t.
Proof. solve_decision. Defined.

Definition SEG_G : Z := Z.shiftl 1 15.
Definition SEG_D : Z := Z.shiftl 1 14.
Definition SEG_P_PRESENT : Z := Z.shiftl 1 7.
Definition SEG_DPL0 : Z := Z.shiftl 0 5.
Definition SEG_S_NORMAL : Z := Z.shiftl 1 4.
Definition SEG_TYPE_CODE : Z := Z.shiftl 1 3.
Definition SEG_TYPE_DATA : Z := Z.shiftl 0 3.
Definition SEG_TYPE_RW : Z := Z.shiftl 1 1.
Definition SEG_TYPE_TSS : Z := Z.shiftl 9 0.
Definition GATE_TYPE_IDT : Z := Z.shiftl 14 8.
Definition GATE_P_PRESENT : Z := Z.shiftl 1 15.
Definition GATE_DPL0 : Z := Z.shiftl 0 13.

Definition GDT_TABLE_SIZE : Z := 256.
Definition KERNEL_SELECTOR_CS : Z := 1 * 8.
Definition KERNEL_SELECTOR_DS : Z := 2 * 8.

(** The fields stored for a base, a limit and attributes. *)
Definition segment_desc_make (base limit attr : Z) : segment_desc_t :=
  let '(attr, limit) :=
    if 1048575 <? limit then (u16 (Z.lor attr 32768), limit / 4096) else (attr, limit) in
  SegmentDesc
    (u16 (Z.land limit 65535))
    (u16 (Z.land base 65535))
    (u8 (Z.land (Z.shiftr base 16) 255))
    (u16 (Z.lor attr (Z.shiftl (Z.land (Z.shiftr limit 16) 15) 8)))
    (u8 (Z.land (Z.shiftr base 24) 255)).

Definition segment_desc_set (selector base limit attr : Z) : stm (list segment_desc_t) unit :=
  λ gdt, let i := Z.shiftr selector 3 in
  if (0 <=? i) && (i <? Z.of_nat (length gdt))
  then Ok (tt, <[Z.to_nat i := segment_desc_make base limit attr]> gdt)
  else Err (Fault selector).

(** ** Gates *)
Definition gate_desc_set (desc : gate_desc_t) (selector offset attr : Z) : gate_desc_t :=
  GateDesc (u16 (Z.land offset 65535)) (u16 selector) (u16 attr)
    (u16 (Z.land (Z.shiftr offset 16) 65535)).

(** ** Looking for a free descriptor: the loop of [gdt_alloc_desc] *)
Fixpoint gdt_search (fuel : nat) (i : Z) : stm (list segment_desc_t) Z :=
  match fuel with
  | O => mret (-1)
  | S f => λ gdt,
      match gdt !! Z.to_nat i with
      | Some desc =>
          if attr desc =? 0 then Ok (i * 8, gdt) else gdt_search f (i + 1) gdt
      | None => Err (Fault (i * 8))
      end
  end.

(** ** The GDT of [init_gdt] *)
Fixpoint clear_gdt (fuel : nat) (i : Z) : stm (list segment_desc_t) unit :=
  match fuel with
  | O => mret tt
  | S f => segment_desc_set (Z.shiftl i 3) 0 0 0;; clear_gdt f (i + 1)
  end.

Definition init_gdt_table : stm (list segment_desc_t) unit :=
  clear_gdt (Z.to_nat GDT_TABLE_SIZE) 0;;
  segment_desc_set KERNEL_SELECTOR_DS 0 4294967295
    (Z.lor SEG_P_PRESENT (Z.lor SEG_DPL0 (Z.lor SEG_S_NORMAL (Z.lor SEG_TYPE_DATA
      (Z.lor SEG_TYPE_RW (Z.lor SEG_D SEG_G))))));;
  segment_desc_set KERNEL_SELECTOR_CS 0 4294967295
    (Z.lor SEG_P_PRESENT (Z.lor SEG_DPL0 (Z.lor SEG_S_NORMAL (Z.lor SEG_TYPE_CODE
      (Z.lor SEG_TYPE_RW (Z.lor SEG_D SEG_G)))))).

(** ** What the processor reads from a descriptor *)
Definition desc_base (d : segment_desc_t) : Z :=
  base15_0 d + Z.shiftl (base23_16 d) 16 + Z.shiftl (base31_24 d) 24.
Definition desc_granular (d : segment_desc_t) : bool := Z.testbit (attr d) 15.
Definition desc_raw_limit (d : segment_desc_t) : Z :=
  limit15_0 d + Z.shiftl (Z.land (Z.shiftr (attr d) 8) 15) 16.
(** The last valid offset of the segment. *)
Definition desc_last_offset (d : segment_desc_t) : Z :=
  if desc_granular d then desc_raw_limit d * 4096 + 4095 else desc_raw_limit d.
(** Type, privilege level, present and size bits. *)
Definition desc_access (d : segment_desc_t) : Z := Z.land (attr d) 28927.

Definition gate_offset (g : gate_desc_t) : Z :=
  offset15_0 g + Z.shiftl (offset31_16 g) 16.

Section desc_lemmas.

Lemma split16 v :
  is_u32 v → u16 (Z.land v 65535) + Z.shiftl (u16 (Z.land (Z.shiftr v 16) 65535)) 16 = v.
Proof.
  intros Hv. unfold is_u32 in Hv. unfold u16.
  change 65535 with (Z.ones 16). rewrite !Z.land_ones, !Z.shiftr_div_pow2, Z.shiftl_mul_pow2 by lia.
  change (2 ^ 16) with 65536. Z.to_euclidean_division_equations. lia.
Qed.

Lemma split_base v :
  is_u32 v →
  u16 (Z.land v 65535) + Z.shiftl (u8 (Z.land (Z.shiftr v 16) 255)) 16 +
    Z.shiftl (u8 (Z.land (Z.shiftr v 24) 255)) 24 = v.
Proof.
  intros Hv. unfold is_u32 in Hv. unfold u16, u8.
  change 65535 with (Z.ones 16). change 255 with (Z.ones 8).
  rewrite !Z.land_ones, !Z.shiftr_div_pow2, !Z.shiftl_mul_pow2 by lia.
  change (2 ^ 24) with (2 ^ 16 * 2 ^ 8). rewrite <-!Z.div_div by lia.
  change (2 ^ 16) with 65536. change (2 ^ 8) with 256.
  Z.to_euclidean_division_equations. lia.
Qed.

(** The attribute word: the four limit bits do not disturb the others. *)
Lemma attr_limit_bits a n :
  is_u16 a → Z.land a 3840 = 0 → 0 ≤ n < 16 →
  let w := u16 (Z.lor a (Z.shiftl (Z.land n 15) 8)) in
  Z.land (Z.shiftr w 8) 15 = n ∧ Z.land w 61695 = Z.land a 61695.
Proof.
  intros Ha H0 Hn w.
  assert (Hw : ∀ i, 0 ≤ i → Z.testbit w i =
    bool_decide (i < 16) && (Z.testbit a i || (Z.testbit n (i - 8) && Z.testbit 15 (i - 8)))).
  { intros i Hi. unfold w, u16.
    by rewrite testbit_mod_pow2, Z.lor_spec, Z.shiftl_spec, Z.land_spec by lia. }
  assert (Hlow : ∀ i, 0 ≤ i → 4 ≤ i → Z.testbit n i = false).
  { intros i _ Hi. rewrite <-(Z.mod_small n (2 ^ 4)) by lia. by apply Z.mod_pow2_bits_high. }
  split.
  - apply Z.bits_inj'. intros i Hi. rewrite Z.land_spec, Z.shiftr_spec, Hw by lia.
    replace (i + 8 - 8) with i by lia. change 15 with (Z.ones 4).
    destruct (decide (i < 4)) as [H4|H4].
    + rewrite (Z.ones_spec_low 4) by lia. rewrite bool_decide_true by lia.
      assert (Z.testbit a (i + 8) = false) as ->.
      { assert (Z.testbit (Z.land a 3840) (i + 8) = false) as Hz by by rewrite H0, Z.bits_0.
        rewrite Z.land_spec in Hz. change 3840 with (Z.shiftl (Z.ones 4) 8) in Hz.
        rewrite Z.shiftl_spec, Z.ones_spec_low in Hz by lia.
        by rewrite andb_true_r in Hz. }
      by rewrite orb_false_l, !andb_true_r.
    + rewrite (Z.ones_spec_high 4) by lia. rewrite andb_false_r. symmetry. by apply Hlow; lia.
  - apply Z.bits_inj'. intros i Hi. rewrite !Z.land_spec, Hw by lia.
    destruct (decide (8 ≤ i < 12)) as [Hm|Hm].
    + assert (Z.testbit 61695 i = false) as ->; [|by rewrite !andb_false_r].
      assert (i = 8 ∨ i = 9 ∨ i = 10 ∨ i = 11) as [->|[->|[->| ->]]] by lia; done.
    + assert (Z.testbit n (i - 8) && Z.testbit 15 (i - 8) = false) as ->.
      { destruct (decide (i < 8)); [by rewrite !Z.testbit_neg_r by lia|].
        rewrite Hlow by lia. done. }
      rewrite orb_false_r. case_bool_decide; [done|].
      assert (Z.testbit a i = false) as ->; [|done].
      rewrite <-(Z.mod_small a (2 ^ 16)) by done. by apply Z.mod_pow2_bits_high; lia.
Qed.

Lemma segment_desc_set_ok gdt i base limit a :
  (i < length gdt)%nat →
  segment_desc_set (Z.of_nat i * 8) base limit a gdt =
    Ok (tt, <[i := segment_desc_make base limit a]> gdt).
Proof.
  intros Hi. unfold segment_desc_set. rewrite Z.shiftr_div_pow2 by lia.
  change (2 ^ 3) with 8. rewrite Z.div_mul by lia.
  replace (0 <=? Z.of_nat i) with true by lia.
  replace (Z.of_nat i <? Z.of_nat (length gdt)) with true by lia.
  cbn [andb]. by rewrite Nat2Z.id.
Qed.

(** The search returns the first descriptor, from [i] on, without attributes. *)
Lemma gdt_search_ok fuel i gdt :
  (i + fuel ≤ length gdt)%nat →
  (∃ j d, (i ≤ j < i + fuel)%nat ∧ gdt !! j = Some d ∧ attr d = 0 ∧
    (∀ k d, (i ≤ k < j)%nat → gdt !! k = Some d → attr d ≠ 0) ∧
    gdt_search fuel (Z.of_nat i) gdt = Ok (Z.of_nat j * 8, gdt)) ∨
  ((∀ k d, (i ≤ k < i + fuel)%nat → gdt !! k = Some d → attr d ≠ 0) ∧
    gdt_search fuel (Z.of_nat i) gdt = Ok (-1, gdt)).
Proof.
  revert i. induction fuel as [|f IH]; intros i Hl.
  { right. split; [lia|done]. }
  destruct (lookup_lt_is_Some_2 gdt i) as [d Hd]; [lia|].
  cbn [gdt_search]. rewrite Nat2Z.id, Hd. destruct (Z.eqb_spec (attr d) 0) as [E|E].
  - left. exists i, d. split_and!; try done; try lia.
  - replace (Z.of_nat i + 1) with (Z.of_nat (S i)) by lia.
    destruct (IH (S i)) as [(j & d' & Hj & Hd' & E' & Hb & ->)|[Hb ->]]; [lia|left|right].
    + exists j, d'. split_and!; try done; try lia. intros k dk Hk Hdk.
      destruct (decide (k = i)) as [->|]; [by simplify_eq|]. apply (Hb k); [lia|done].
    + split; [|done]. intros k dk Hk Hdk.
      destruct (decide (k = i)) as [->|]; [by simplify_eq|]. apply (Hb k); [lia|done].
Qed.

(** *** A descriptor of [segment_desc_make] *)
Lemma desc_base_make base limit a :
  is_u32 base → desc_base (segment_desc_make base limit a) = base.
Proof. intros Hb. unfold segment_desc_make. destruct (1048575 <? limit); by apply split_base. Qed.

(** Attributes without limit bits and granularity. *)
Section attributes.
Context (a : Z) (Ha : is_u16 a) (Hno : Z.land a 36608 = 0).

Lemma attr_no_limit : Z.land a 3840 = 0.
Proof. change 3840 with (Z.land 36608 3840). by rewrite Z.land_assoc, Hno, Z.land_0_l. Qed.

Lemma attr_access : Z.land a 28927 = a.
Proof.
  assert (Z.land a 65535 = a) as Hfull
    by (change 65535 with (Z.ones 16); rewrite Z.land_ones by lia; by apply Z.mod_small).
  rewrite <-Hfull at 2. change 65535 with (Z.lor 28927 36608).
  by rewrite Z.land_lor_distr_r, Hno, Z.lor_0_r.
Qed.

Lemma attr_byte_granular w : Z.land w 61695 = a → Z.testbit w 15 = false.
Proof.
  intros Hw. pose proof (f_equal (λ v, Z.testbit v 15) Hno) as Hz. cbn beta in Hz.
  rewrite <-Hw, !Z.land_spec, Z.bits_0 in Hz. change (Z.testbit 61695 15) with true in Hz.
  change (Z.testbit 36608 15) with true in Hz. by rewrite !andb_true_r in Hz.
Qed.

Lemma attr_or_g : u16 (Z.lor a 32768) = Z.lor a 32768.
Proof.
  unfold is_u16 in Ha.
  apply u16_id. split; [apply Z.lor_nonneg; lia|].
  apply Z.log2_lt_cancel. rewrite Z.log2_lor by lia.
  assert (Z.log2 a < 16).
  { destruct (decide (a = 0)) as [->|]; [done|]. apply Z.log2_lt_pow2; lia. }
  change (Z.log2 32768) with 15. change (Z.log2 65536) with 16. lia.
Qed.

Lemma limit_split v : 0 ≤ v < 1048576 →
  u16 (Z.land v 65535) + Z.shiftl (Z.shiftr v 16) 16 = v ∧ 0 ≤ Z.shiftr v 16 < 16.
Proof.
  intros Hv. unfold u16. change 65535 with (Z.ones 16).
  rewrite Z.land_ones, Z.shiftr_div_pow2, Z.shiftl_mul_pow2 by lia.
  change (2 ^ 16) with 65536. Z.to_euclidean_division_equations. lia.
Qed.

(** Below 1 MB the limit is stored as it is. *)
Lemma desc_make_bytes base limit :
  0 ≤ limit ≤ 1048575 →
  let d := segment_desc_make base limit a in desc_last_offset d = limit ∧ desc_access d = a.
Proof.
  intros Hl. destruct (limit_split limit) as [Hs Hhi]; [lia|].
  destruct (attr_limit_bits a (Z.shiftr limit 16)) as [E1 E2]; [done|apply attr_no_limit|done|].
  assert (Ea : Z.land a 61695 = a).
  { rewrite <-attr_access at 1. rewrite <-Z.land_assoc. exact attr_access. }
  unfold desc_last_offset, desc_granular, desc_raw_limit, desc_access, segment_desc_make.
  replace (1048575 <? limit) with false by lia. cbn [limit15_0 attr].
  rewrite attr_byte_granular by (by rewrite E2). rewrite E1, Hs. split; [done|].
  change 28927 with (Z.land 61695 28927). by rewrite Z.land_assoc, E2, Ea, attr_access.
Qed.

(** Above, the granularity bit makes it a number of pages. *)
Lemma desc_make_pages base limit :
  1048575 < limit < 2 ^ 32 →
  let d := segment_desc_make base limit a in
  desc_last_offset d = limit / 4096 * 4096 + 4095 ∧ desc_access d = a.
Proof.
  intros Hl. assert (0 ≤ limit / 4096 < 1048576) as Hq by (Z.to_euclidean_division_equations; lia).
  destruct (limit_split (limit / 4096) Hq) as [Hs Hhi].
  destruct (attr_limit_bits (u16 (Z.lor a 32768)) (Z.shiftr (limit / 4096) 16)) as [E1 E2];
    [apply u16_range| |done|].
  { rewrite attr_or_g, Z.land_lor_distr_l, attr_no_limit. done. }
  unfold desc_last_offset, desc_granular, desc_raw_limit, desc_access, segment_desc_make.
  replace (1048575 <? limit) with true by lia. cbn [limit15_0 attr].
  set (w := u16 (Z.lor _ (Z.shiftl _ 8))) in *. rewrite attr_or_g in E2.
  assert (Z.testbit w 15 = true) as ->.
  { pose proof (f_equal (λ v, Z.testbit v 15) E2) as E3. cbn beta in E3.
    rewrite !Z.land_spec, !andb_true_r in E3. by rewrite E3, Z.lor_spec, orb_true_r. }
  split; [by rewrite E1, Hs|].
  change 28927 with (Z.land 61695 28927). rewrite Z.land_assoc, E2, <-Z.land_assoc.
  change (Z.land 61695 28927) with 28927. rewrite Z.land_lor_distr_l, attr_access.
  by rewrite Z.lor_0_r.
Qed.
End attributes.
End desc_lemmas.

(** ** Properties *)

(** A descriptor stored for a base, a limit and attributes without limit or
    granularity bits describes exactly that segment: the processor reads back
    the base and the attributes, and the last offset is the limit itself below
    1 MB and the limit rounded up to the end of its 4 KB page above. *)
Theorem segment_desc_encodes base limit a :
  is_u32 base → is_u32 limit → is_u16 a → Z.land a 36608 = 0 →
  let d := segment_desc_make base limit a in
  desc_base d = base ∧
  desc_last_offset d = (if 1048575 <? limit then limit / 4096 * 4096 + 4095 else limit) ∧
  desc_access d = a.
Proof.
  intros Hb Hl Ha H0 d. split; [by apply desc_base_make|]. unfold is_u32 in Hl.
  destruct (Z.ltb_spec 1048575 limit); [apply desc_make_pages|apply desc_make_bytes]; done || lia.
Qed.

Lemma segment_desc_encodes_witness :
  let d := segment_desc_make 305419896 103 137 in
  desc_base d = 305419896 ∧ desc_last_offset d = 103 ∧ desc_access d = 137.
Proof.
  apply (segment_desc_encodes 305419896 103 137); by apply (bool_decide_unpack _).
Defined.
