(* ===== verification/BootInfo.v ===== *)
(** * What the loader hands to the kernel (comm/boot_info.h) *)
From S2P Require Import Prelude.

Definition BOOT_RAM_REGION_MAX : Z := 10.
Definition SECTOR_SIZE : Z := 512.
Definition SYS_KERNEL_ADDR : Z := 1024 * 1024.

(** The array [ram_region_cfg] (start and size of each region) and how many of
    its elements are valid. *)
Record boot_info_t : Type := BootInfo {
  ram_region_cfg : list (Z * Z);
  ram_region_count : Z
}.
