(* ===== verification/Loader16.v ===== *)
(** * The loader in real mode (loader/loader_16.c, loader/loader.h)

    What the loader does before protected mode: text on the BIOS screen, the
    memory map, the switch. The BIOS is not code of this repository: what its
    function 0xE820 answers is the parameter [e820], which sees the
    continuation values it was asked with. *)
From S2P Require Import Prelude Mem Klib CpuInstr Desc BootInfo.

(** ** State *)
Record loader_t : Type := Loader {
  ld_cpu : cpu_t;
  ld_mem : mem;
  ld_screen : list Z;
  ld_boot : boot_info_t
}.

Definition set_ld_cpu (c : cpu_t) (s : loader_t) : loader_t :=
  Loader c (ld_mem s) (ld_screen s) (ld_boot s).
Definition set_ld_mem (m : mem) (s : loader_t) : loader_t :=
  Loader (ld_cpu s) m (ld_screen s) (ld_boot s).
Definition add_screen (l : list Z) (s : loader_t) : loader_t :=
  Loader (ld_cpu s) (ld_mem s) (ld_screen s ++ l) (ld_boot s).
Definition set_ld_boot (b : boot_info_t) (s : loader_t) : loader_t :=
  Loader (ld_cpu s) (ld_mem s) (ld_screen s) b.

Definition on_cpu {A} (f : stm cpu_t A) : stm loader_t A := λ s,
  match f (ld_cpu s) with Ok (a, c) => Ok (a, set_ld_cpu c s) | Err e => Err e end.
Definition on_mem {A} (f : stm mem A) : stm loader_t A := λ s,
  match f (ld_mem s) with Ok (a, m) => Ok (a, set_ld_mem m s) | Err e => Err e end.

(** Where control goes when a stage ends: a far jump, or the call of the next
    stage with its arguments. *)
Inductive exit : Type :=
| FarJump (sel offset : Z)
| CallEntry (entry : Z) (args : list Z).

(** Addresses of the loader's static objects and of the local [buffer]. *)
Class LoaderImage : Type := {
  gdt_table_addr : Z; protected_mode_entry : Z; page_dir_addr : Z;
  boot_info_addr : Z; detect_buffer : Z
}.

(** ** Screen output *)

(** [int $0x10] with [ah = 0x0e]. *)
Definition bios_putc (c : Z) : stm loader_t unit := λ s, Ok (tt, add_screen [c] s).

(** A string literal, or the address of a buffer. *)
Inductive msg_t : Type := Lit (l : list Z) | Buf (a : Z).

Fixpoint show_lit (l : list Z) : stm loader_t unit :=
  match l with
  | [] => mret tt
  | c :: l' => if c =? 0 then mret tt else bios_putc c;; show_lit l'
  end.

Fixpoint show_buf (fuel : nat) (msg : Z) : stm loader_t unit :=
  match fuel with
  | O => throw OutOfFuel
  | S f =>
      c ← on_mem (load8 msg);
      if c =? 0 then mret tt else bios_putc c;; show_buf f (msg + 1)
  end.

Definition show_msg (msg : msg_t) : stm loader_t unit :=
  match msg with
  | Lit l => show_lit l
  | Buf a => s ← get; show_buf (S (size (ld_mem s))) a
  end.

(** ** Numbers as text *)
Definition int_char (i : Z) : Z := u8 (if 9 <? i then i - 10 + 97 else i + 48).

(** [do { ... } while (num)] *)
Fixpoint int_digits (fuel : nat) (num base p : Z) : stm mem Z :=
  match fuel with
  | O => throw OutOfFuel
  | S f =>
      store8 p (int_char (Z.rem num base));;
      let num := Z.quot num base in
      if negb (num =? 0) then int_digits f num base (p + 1) else mret (p + 1)
  end.

(** The reversal is the loop of [kernel_itoa], from the start of the buffer. *)
Definition int_to_str (num buffer base : Z) : stm mem unit :=
  '(p, num) ←
    (if num <? 0 then store8 buffer 45;; mret (buffer + 1, s32 (- num))
     else mret (buffer, num));
  p ← int_digits 32 num base p;
  store8 p 0;;
  reverse_loop (Z.to_nat (p - 1 - buffer)) buffer (p - 1).

(** ** The memory map *)
Record SMAP_entry_t : Type := SmapEntry {
  BaseL : Z; BaseH : Z; LengthL : Z; LengthH : Z; Type_ : Z; ACPI : Z
}.

(** What [int $0x15] leaves in [eax], [ecx], [ebx] and the buffer. *)
Record e820_answer : Type := E820Answer {
  a_signature : Z; a_bytes : Z; a_contID : Z; a_entry : SMAP_entry_t
}.

(** The continuation values of the calls so far, the newest first. *)
Class Bios : Type := e820 : list Z → e820_answer.

Definition SMAP_SIGNATURE : Z := 1397571920.
Definition CRLF : list Z := [13; 10].
Definition size_msg : list Z := bytes_of_string "BOOT_RAM_REGION_MAX size = ".
Definition signature_msg : list Z := bytes_of_string "SMAP signature error" ++ CRLF.
Definition done_msg : list Z := bytes_of_string "memory detect done" ++ CRLF.
#[global] Arguments size_msg : simpl never.
#[global] Arguments signature_msg : simpl never.
#[global] Arguments CRLF : simpl never.

Section detect.
Context `{LoaderImage, Bios}.

(** [ram_region_cfg[ram_region_count] = ...; ram_region_count++]; an index
    outside the array is an access behind it. *)
Definition add_region (start size : Z) : stm loader_t unit := λ s,
  let b := ld_boot s in
  match ram_region_cfg b !! Z.to_nat (ram_region_count b) with
  | Some _ =>
      Ok (tt, set_ld_boot (BootInfo (<[Z.to_nat (ram_region_count b) := (start, size)]>
                                       (ram_region_cfg b)) (ram_region_count b + 1)) s)
  | None => Err (Fault (boot_info_addr + 8 * ram_region_count b))
  end.

(** The [for] loop; false: the function returned at a signature error. *)
Fixpoint detect_loop (fuel : nat) (i contID : Z) (asked : list Z) : stm loader_t bool :=
  match fuel with
  | O => mret true
  | S f =>
      on_mem (int_to_str i detect_buffer 10);;
      show_msg (Lit size_msg);;
      show_msg (Buf detect_buffer);;
      show_msg (Lit CRLF);;
      let r := e820 (contID :: asked) in
      if negb (a_signature r =? SMAP_SIGNATURE)
      then show_msg (Lit signature_msg);; mret false
      else
        (if Type_ (a_entry r) =? 1
         then add_region (BaseL (a_entry r)) (LengthL (a_entry r)) else mret tt);;
        if a_contID r =? 0 then mret true
        else detect_loop f (i + 1) (a_contID r) (contID :: asked)
  end.

Definition detect_memory : stm loader_t unit :=
  show_msg (Lit (bytes_of_string "try todetect memory:"));;
  s ← get;
  put (set_ld_boot (BootInfo (ram_region_cfg (ld_boot s)) 0) s);;
  ok ← detect_loop (Z.to_nat BOOT_RAM_REGION_MAX) 0 0 [];
  if (ok : bool) then show_msg (Lit done_msg) else mret tt.
End detect.

(** ** The switch to protected mode *)
Definition gdt_table : list (list Z) :=
  [[0; 0; 0; 0]; [65535; 0; 39424; 207]; [65535; 0; 37376; 207]].

(** [sizeof (gdt_table)] *)
Definition gdt_table_size : Z := 2 * Z.of_nat (length (concat gdt_table)).

Section protected.
Context `{LoaderImage, Bios, Device}.

Definition enter_protected_mode : stm loader_t exit :=
  on_cpu cli;;
  v ← on_cpu (inb 146);
  on_cpu (outb 146 (Z.lor v 2));;
  on_cpu (lgdt gdt_table_addr gdt_table_size);;
  cr0 ← on_cpu read_cr0;
  on_cpu (write_cr0 (Z.lor cr0 1));;
  mret (FarJump 8 protected_mode_entry).

Definition loader_entry : stm loader_t exit :=
  show_msg (Lit (bytes_of_string ".....lodaDING......" ++ [10; 13]));;
  detect_memory;;
  enter_protected_mode.
End protected.

(** ** Lifted operations and screen output *)
Section lifting.
Implicit Types (s : loader_t).

Lemma on_cpu_ok {A} (f : stm cpu_t A) s a c :
  f (ld_cpu s) = Ok (a, c) → on_cpu f s = Ok (a, set_ld_cpu c s).
Proof. intros H. unfold on_cpu. by rewrite H. Qed.

Lemma on_mem_ok {A} (f : stm mem A) s a m :
  f (ld_mem s) = Ok (a, m) → on_mem f s = Ok (a, set_ld_mem m s).
Proof. intros H. unfold on_mem. by rewrite H. Qed.

Lemma add_screen_nil s : add_screen [] s = s.
Proof. unfold add_screen. rewrite app_nil_r. by destruct s. Qed.

Lemma add_screen_app l1 l2 s : add_screen l2 (add_screen l1 s) = add_screen (l1 ++ l2) s.
Proof. unfold add_screen. cbn. by rewrite app_assoc. Qed.

Lemma show_lit_ok l s : Forall (λ c, c ≠ 0) l → show_lit l s = Ok (tt, add_screen l s).
Proof.
  intros H. revert s. induction H as [|c l Hc _ IH]; intros s; cbn [show_lit].
  { by rewrite add_screen_nil. }
  rewrite (proj2 (Z.eqb_neq c 0) Hc). unfold mbind, stm_bind, bios_putc.
  by rewrite IH, add_screen_app.
Qed.

Lemma show_buf_ok fuel a l s :
  cstring (ld_mem s) a l → (length l < fuel)%nat →
  show_buf fuel a s = Ok (tt, add_screen l s).
Proof.
  revert a l s. induction fuel as [|f IH]; intros a l s Hs Hf; [lia|]. cbn [show_buf].
  destruct l as [|c l]; cbn [cstring length] in *.
  - stm_step (on_mem_ok (load8 a) s _ _ (load8_ok _ _ _ Hs)). cbn. rewrite add_screen_nil.
    by destruct s.
  - destruct Hs as (Hc & Hne & Hs).
    stm_step (on_mem_ok (load8 a) s _ _ (load8_ok _ _ _ Hc)).
    rewrite (proj2 (Z.eqb_neq c 0) Hne).
    replace (set_ld_mem (ld_mem s) s) with s by (by destruct s).
    unfold mbind, stm_bind, bios_putc. rewrite (IH (a + 1) l); [by rewrite add_screen_app|done|lia].
Qed.

Lemma show_msg_buf a l s :
  cstring (ld_mem s) a l → show_msg (Buf a) s = Ok (tt, add_screen l s).
Proof.
  intros Hs. cbn [show_msg]. unfold mbind at 1, stm_bind at 1, get.
  apply show_buf_ok; [done|]. pose proof (cstring_size _ _ _ Hs). lia.
Qed.
End lifting.

(** ** The text of a number *)
Fixpoint int_lsd (fuel : nat) (num base : Z) : list Z :=
  match fuel with
  | O => []
  | S f =>
      int_char (Z.rem num base) ::
      (if Z.quot num base =? 0 then [] else int_lsd f (Z.quot num base) base)
  end.

(** The digits, and then the sign, which the reversal moves to the end. *)
Definition int_text (num base : Z) : list Z :=
  rev (int_lsd 32 (Z.abs num) base) ++ (if num <? 0 then [45] else []).

#[global] Arguments int_text : simpl never.

Section int_to_str.
Implicit Types (m : mem).

Lemma int_char_range i : 0 ≤ i < 36 → is_u8 (int_char i) ∧ 48 ≤ int_char i.
Proof.
  intros Hi. unfold int_char, is_u8. rewrite u8_id by (case_match; lia). case_match; lia.
Qed.

Lemma int_lsd_nonempty fuel num base : (0 < fuel)%nat → (0 < length (int_lsd fuel num base))%nat.
Proof. destruct fuel; cbn [int_lsd length]; lia. Qed.

Lemma int_lsd_length fuel num base : (length (int_lsd fuel num base) ≤ fuel)%nat.
Proof.
  revert num. induction fuel as [|f IH]; intros num; cbn [int_lsd]; [done|].
  cbn [length]. case_match; cbn [length]; [lia|]. specialize (IH (num ÷ base)). lia.
Qed.

Lemma int_lsd_chars fuel num base :
  0 ≤ num → 2 ≤ base ≤ 36 → Forall (λ c, is_u8 c ∧ 48 ≤ c) (int_lsd fuel num base).
Proof.
  intros Hn Hb. revert num Hn. induction fuel as [|f IH]; intros num Hn; cbn [int_lsd]; [constructor|].
  pose proof (Z.rem_bound_pos num base). constructor; [apply int_char_range; lia|].
  case_match; [constructor|]. apply IH. apply Z.quot_pos; lia.
Qed.

Lemma int_digits_ok fuel num base p m :
  2 ≤ base ≤ 36 → 0 ≤ num < 2 ^ Z.of_nat fuel → (0 < fuel)%nat →
  mapped m p (Z.of_nat (length (int_lsd fuel num base))) →
  int_digits fuel num base p m =
    Ok (p + Z.of_nat (length (int_lsd fuel num base)), write_bytes m p (int_lsd fuel num base)).
Proof.
  intros Hb. revert num p m. induction fuel as [|f IH]; intros num p m Hn Hf Hm; [lia|].
  cbn [int_lsd int_digits length write_bytes] in *. pose proof (Z.rem_bound_pos num base) as Hr.
  destruct (int_char_range (Z.rem num base) ltac:(lia)) as [Hu _]. unfold is_u8 in Hu.
  stm_step (store8_ok m p (int_char (Z.rem num base)) (Hm p ltac:(lia))).
  rewrite (u8_id (int_char _)) by lia.
  destruct (Z.eqb_spec (num ÷ base) 0) as [E|E]; cbn [negb length write_bytes]; [done|].
  pose proof (quot_shrinks num base (Z.of_nat f) ltac:(lia) ltac:(lia)) as Hq.
  replace (Z.of_nat f + 1) with (Z.of_nat (S f)) in Hq by lia. specialize (Hq ltac:(lia)).
  pose proof (Z.quot_pos num base ltac:(lia) ltac:(lia)).
  destruct f as [|f]; [cbn in Hq; lia|].
  rewrite IH; [do 2 f_equal; lia|lia|lia|]. apply mapped_insert. intros x Hx. apply Hm. lia.
Qed.

(** The conversion of a magnitude behind what the buffer holds already. *)
Lemma int_finish_ok pre num base buffer m :
  Forall is_u8 pre → 0 ≤ num < 2 ^ 32 → 2 ≤ base ≤ 36 →
  mapped m buffer (Z.of_nat (length pre + length (int_lsd 32 num base)) + 1) →
  (p ← int_digits 32 num base (buffer + Z.of_nat (length pre));
   store8 p 0;;
   reverse_loop (Z.to_nat (p - 1 - buffer)) buffer (p - 1)) (write_bytes m buffer pre) =
  Ok (tt, write_bytes m buffer (rev (int_lsd 32 num base) ++ rev pre ++ [0])).
Proof.
  intros Hpre Hn Hb Hm.
  pose proof (int_lsd_chars 32 num base ltac:(lia) Hb) as Hch.
  pose proof (int_lsd_nonempty 32 num base ltac:(lia)) as Hne.
  pose proof (int_digits_ok 32 num base (buffer + Z.of_nat (length pre))
    (write_bytes m buffer pre) Hb Hn ltac:(lia)) as Hd.
  set (ds := int_lsd 32 num base) in *.
  specialize (Hd ltac:(apply write_bytes_mapped; intros x Hx; apply Hm; lia)). stm_step Hd.
  rewrite <-write_bytes_app, (app_assoc (rev ds)), <-rev_app_distr.
  rewrite <-Z.add_assoc, <-Nat2Z.inj_add, <-length_app.
  apply terminate_reverse_ok; [|rewrite length_app; lia|by rewrite length_app].
  apply Forall_app. split; [done|]. eapply Forall_impl; [exact Hch|]. by intros c [].
Qed.

Lemma int_to_str_ok num buffer base m :
  is_s32 num → num ≠ - 2 ^ 31 → 2 ≤ base ≤ 36 →
  mapped m buffer (Z.of_nat (length (int_text num base)) + 1) →
  int_to_str num buffer base m = Ok (tt, write_bytes m buffer (int_text num base ++ [0])).
Proof.
  intros Hn Hmin Hb Hm. unfold is_s32 in Hn. unfold int_to_str, int_text in *.
  rewrite length_app, length_rev in Hm. destruct (Z.ltb_spec num 0) as [Hs|Hs]; cbn [length] in Hm.
  - erewrite (stm_bind_ok _ _ m (buffer + 1, - num) (<[buffer := 45]> m)); last first.
    { stm_step (store8_ok m buffer 45 (Hm buffer ltac:(lia))). by rewrite s32_id by lia. }
    cbn beta iota. rewrite <-app_assoc. replace (Z.abs num) with (- num) in * by lia.
    apply (int_finish_ok [45] (- num) base buffer m); [|lia|done|].
    + repeat constructor; unfold is_u8; lia.
    + intros x Hx. apply Hm. cbn [length] in Hx. lia.
  - rewrite (stm_bind_ok _ _ m (buffer, num) m) by done. cbn beta iota.
    replace (Z.abs num) with num in * by lia. rewrite app_nil_r.
    pose proof (int_finish_ok [] num base buffer m) as E. cbn [length Z.of_nat rev app write_bytes] in E.
    rewrite Z.add_0_r in E. apply E; [constructor|lia|done|].
    intros x Hx. apply Hm. lia.
Qed.

Lemma int_text_chars num base : 2 ≤ base ≤ 36 → Forall (λ c, is_u8 c ∧ c ≠ 0) (int_text num base).
Proof.
  intros Hb. apply Forall_app. split.
  - apply Forall_rev. eapply Forall_impl; [apply int_lsd_chars; lia|]. cbn. intros c []. split; [done|lia].
  - case_match; repeat constructor; unfold is_u8; lia.
Qed.

Lemma int_lsd_decimal fuel num : 0 ≤ num → int_lsd fuel num 10 = digits_lsd fuel num 10.
Proof.
  revert num. induction fuel as [|f IH]; intros num Hn; [done|]. cbn [int_lsd digits_lsd].
  rewrite IH by (apply Z.quot_pos; lia). f_equal.
  pose proof (Z.rem_bound_pos num 10 ltac:(lia) ltac:(lia)) as Hr.
  assert (Hall : Forall (λ r, int_char r = numchar_at (r + 15)) (seqZ 0 10)).
  { apply (bool_decide_unpack _). vm_compute. exact I. }
  rewrite Forall_forall in Hall. apply Hall, elem_of_seqZ. lia.
Qed.
End int_to_str.

(** ** What the BIOS reports *)
Section report.
Context `{Bios}.

Definition answered (r : e820_answer) : bool := a_signature r =? SMAP_SIGNATURE.

(** The answers to at most [n] calls: the loop ends at a wrong signature and at
    the continuation value 0. *)
Fixpoint e820_calls (n : nat) (contID : Z) (asked : list Z) : list e820_answer :=
  match n with
  | O => []
  | S n' =>
      let r := e820 (contID :: asked) in
      r :: (if negb (answered r) || (a_contID r =? 0) then []
            else e820_calls n' (a_contID r) (contID :: asked))
  end.

(** The regions of usable memory, at the width [boot_info] has for them. *)
Definition usable (rs : list e820_answer) : list (Z * Z) :=
  (λ r, (BaseL (a_entry r), LengthL (a_entry r))) <$>
  filter (λ r, answered r = true ∧ Type_ (a_entry r) = 1) rs.

(** The line in front of each call. *)
Fixpoint call_lines (i : Z) (rs : list e820_answer) : list Z :=
  match rs with
  | [] => []
  | _ :: rs' =>
      size_msg ++ int_text i 10 ++ CRLF ++
      call_lines (i + 1) rs'
  end.

Definition call_end (rs : list e820_answer) : list Z :=
  if forallb answered rs then [] else signature_msg.

Lemma e820_calls_length n contID asked : (length (e820_calls n contID asked) ≤ n)%nat.
Proof.
  revert contID asked. induction n as [|n IH]; intros contID asked; cbn [e820_calls length]; [done|].
  case_match; cbn [length]; [lia|]. pose proof (IH (a_contID (e820 (contID :: asked))) (contID :: asked)). lia.
Qed.

Lemma usable_cons r rs :
  usable (r :: rs) =
    (if answered r && (Type_ (a_entry r) =? 1)
     then [(BaseL (a_entry r), LengthL (a_entry r))] else []) ++ usable rs.
Proof.
  unfold usable. rewrite filter_cons.
  destruct (answered r); cbn [andb]; [|rewrite decide_False by (by intros []); done].
  destruct (Z.eqb_spec (Type_ (a_entry r)) 1) as [E|E].
  - by rewrite decide_True by done.
  - rewrite decide_False by (by intros []). done.
Qed.
End report.

(** ** Detection of memory *)
Section detection.
Context `{HImage : LoaderImage, HBios : Bios}.
Implicit Types (s : loader_t).

Definition buffer_ok (m : mem) : Prop := mapped m detect_buffer 256.

(** Everything but the local buffer keeps its contents, and only bytes are written. *)
Record outside_buffer (m m' : mem) : Prop := {
  ob_same x : ¬ (detect_buffer ≤ x < detect_buffer + 256) → m' !! x = m !! x;
  ob_bytes : bytes_ok m → bytes_ok m'
}.

#[local] Instance outside_buffer_preorder : PreOrder outside_buffer.
Proof.
  split; [by split|]. intros m1 m2 m3 [Hs1 Hb1] [Hs2 Hb2].
  split; [|tauto]. intros x Hx. by rewrite Hs2, Hs1.
Qed.

Definition line (i : Z) : list Z :=
  size_msg ++ int_text i 10 ++ CRLF.

Lemma show_line_ok i s :
  0 ≤ i < 10 → buffer_ok (ld_mem s) →
  ∃ m', buffer_ok m' ∧ outside_buffer (ld_mem s) m' ∧
  ∀ A (f : stm loader_t A), (on_mem (int_to_str i detect_buffer 10);;
   show_msg (Lit size_msg);;
   show_msg (Buf detect_buffer);;
   show_msg (Lit CRLF);; f) s = f (set_ld_mem m' (add_screen (line i) s)).
Proof.
  intros Hi Hm. pose proof (int_text_chars i 10 ltac:(lia)) as Hch.
  assert (Hlen : (length (int_text i 10) ≤ 32)%nat).
  { unfold int_text. rewrite length_app, length_rev. replace (i <? 0) with false by lia.
    pose proof (int_lsd_length 32 (Z.abs i) 10). cbn [length]. lia. }
  exists (write_bytes (ld_mem s) detect_buffer (int_text i 10 ++ [0])). split_and!.
  - by apply write_bytes_mapped.
  - split; [|intros Hb; apply bytes_ok_write; [done|]].
    + intros x Hx. apply write_bytes_outside. rewrite length_app. cbn [length]. lia.
    + apply Forall_app. split; [|by repeat constructor; unfold is_u8].
      eapply Forall_impl; [exact Hch|]. by intros c [].
  - intros A f. pose proof (int_to_str_ok i detect_buffer 10 (ld_mem s)) as E.
    stm_step (on_mem_ok (int_to_str i detect_buffer 10) s tt _
      (E ltac:(unfold is_s32; lia) ltac:(lia) ltac:(lia) ltac:(intros x Hx; apply Hm; lia))).
    set (s1 := set_ld_mem _ s).
    stm_step (show_lit_ok size_msg s1
      ltac:(decide_vm)).
    assert (Hc : cstring (ld_mem (add_screen size_msg s1))
      detect_buffer (int_text i 10)).
    { apply cstring_write. eapply Forall_impl; [exact Hch|]. by intros c []. }
    stm_step (show_msg_buf detect_buffer _ _ Hc).
    stm_step (show_lit_ok CRLF (add_screen (int_text i 10) (add_screen
      size_msg s1)) ltac:(decide_vm)).
    by rewrite !add_screen_app.
Qed.

Lemma add_region_ok start size s :
  (Z.to_nat (ram_region_count (ld_boot s)) < length (ram_region_cfg (ld_boot s)))%nat →
  add_region start size s =
    Ok (tt, set_ld_boot (BootInfo
      (<[Z.to_nat (ram_region_count (ld_boot s)) := (start, size)]> (ram_region_cfg (ld_boot s)))
      (ram_region_count (ld_boot s) + 1)) s).
Proof. intros H. unfold add_region. by destruct (lookup_lt_is_Some_2 _ _ H) as [v ->]. Qed.

(** [boot_info] with the regions [us] behind the [c] it has. *)
Definition boot_add (us : list (Z * Z)) (b : boot_info_t) : boot_info_t :=
  BootInfo (list_inserts (Z.to_nat (ram_region_count b)) us (ram_region_cfg b))
    (ram_region_count b + Z.of_nat (length us)).

Lemma boot_add_cons start size us b :
  0 ≤ ram_region_count b →
  boot_add us (BootInfo (<[Z.to_nat (ram_region_count b) := (start, size)]> (ram_region_cfg b))
    (ram_region_count b + 1)) = boot_add ((start, size) :: us) b.
Proof.
  intros Hc. unfold boot_add. cbn [ram_region_cfg ram_region_count list_inserts length].
  replace (Z.to_nat (ram_region_count b + 1)) with (S (Z.to_nat (ram_region_count b))) by lia.
  rewrite list_insert_inserts_lt by lia. f_equal. lia.
Qed.

Lemma boot_add_nil b : boot_add [] b = b.
Proof. unfold boot_add. cbn. rewrite Z.add_0_r. by destruct b. Qed.

Lemma detect_loop_ok n i contID asked s :
  0 ≤ i → i + Z.of_nat n ≤ 10 → buffer_ok (ld_mem s) →
  0 ≤ ram_region_count (ld_boot s) →
  ram_region_count (ld_boot s) + Z.of_nat n ≤ Z.of_nat (length (ram_region_cfg (ld_boot s))) →
  let rs := e820_calls n contID asked in
  ∃ m', buffer_ok m' ∧ outside_buffer (ld_mem s) m' ∧
    detect_loop n i contID asked s =
      Ok (forallb answered rs,
          Loader (ld_cpu s) m' (ld_screen s ++ call_lines i rs ++ call_end rs)
            (boot_add (usable rs) (ld_boot s))).
Proof.
  revert i contID asked s.
  induction n as [|n IH]; intros i contID asked s Hi Hn Hm Hc Hl; cbn [e820_calls detect_loop].
  { exists (ld_mem s). split; [done|]. split; [reflexivity|]. unfold call_end. cbn.
    rewrite app_nil_r, boot_add_nil. by destruct s. }
  destruct (show_line_ok i s ltac:(lia) Hm) as (m1 & Hm1 & Ho1 & E0). rewrite E0. clear E0.
  set (r := e820 (contID :: asked)). set (s1 := set_ld_mem m1 (add_screen (line i) s)).
  change (a_signature r =? SMAP_SIGNATURE) with (answered r).
  destruct (answered r) eqn:Ea; cbn [negb orb].
  2: { stm_step (show_lit_ok signature_msg s1 ltac:(decide_vm)).
       exists m1. split; [done|]. split; [done|]. unfold call_end. cbn [forallb call_lines].
       rewrite usable_cons, Ea. cbn [andb app].
       change (usable []) with (@nil (Z * Z)). rewrite boot_add_nil.
       unfold mret, stm_ret, s1, line. do 2 f_equal. unfold add_screen. cbn. by rewrite <-!app_assoc. }
  set (us := if Type_ (a_entry r) =? 1 then [(BaseL (a_entry r), LengthL (a_entry r))] else []).
  set (s2 := set_ld_boot (boot_add us (ld_boot s)) s1).
  assert (E : (if Type_ (a_entry r) =? 1 then add_region (BaseL (a_entry r)) (LengthL (a_entry r))
               else mret tt) s1 = Ok (tt, s2)).
  { subst s2 us. destruct (Type_ (a_entry r) =? 1).
    - rewrite add_region_ok by (cbn; lia). by rewrite <-boot_add_cons, boot_add_nil by done.
    - rewrite boot_add_nil. by destruct s. }
  stm_step E. unfold call_end.
  assert (Hus : ∀ rs, usable (r :: rs) = us ++ usable rs).
  { intros rs. by rewrite usable_cons, Ea. }
  destruct (a_contID r =? 0); cbn [forallb call_lines]; rewrite Hus, Ea; cbn [andb forallb].
  - exists m1. split; [done|]. split; [done|].
    change (usable []) with (@nil (Z * Z)). by rewrite !app_nil_r.
  - destruct (IH (i + 1) (a_contID r) (contID :: asked) s2) as (m2 & Hm2 & Ho2 & ->).
    + lia.
    + lia.
    + done.
    + cbn. lia.
    + cbn. rewrite length_inserts. subst us. case_match; cbn [length]; lia.
    + exists m2. split; [done|]. split; [by transitivity m1|].
      unfold call_end. set (rs := e820_calls n _ _). do 2 f_equal. unfold s2, s1. cbn.
      f_equal; [unfold line; by rewrite <-!app_assoc|].
      subst us. case_match; [|by rewrite boot_add_nil].
      rewrite <-boot_add_cons, boot_add_nil by done. cbn [app]. by rewrite boot_add_cons.
Qed.
End detection.

(** ** Whole stages *)
Section stages.
Context `{HImage : LoaderImage, HBios : Bios}.
Implicit Types (s : loader_t).

Definition try_msg : list Z := bytes_of_string "try todetect memory:".
Definition hello_msg : list Z := bytes_of_string ".....lodaDING......" ++ [10; 13].

Lemma list_inserts_drop {A} (us l : list A) :
  (length us ≤ length l)%nat → list_inserts 0 us l = us ++ drop (length us) l.
Proof.
  intros Hl. apply list_eq. intros i. destruct (decide (i < length us)%nat).
  - rewrite lookup_app_l by lia. rewrite list_lookup_inserts by lia. f_equal. lia.
  - rewrite lookup_app_r, lookup_drop by lia. rewrite list_lookup_inserts_ge by lia.
    f_equal. lia.
Qed.

Lemma usable_length (rs : list e820_answer) : (length (usable rs) ≤ length rs)%nat.
Proof. unfold usable. rewrite length_fmap. apply length_filter. Qed.

(** What [detect_memory] leaves. *)
Definition detected (s : loader_t) (m' : mem) : loader_t :=
  let rs := e820_calls 10 0 [] in
  Loader (ld_cpu s) m'
    (ld_screen s ++ try_msg ++ call_lines 0 rs ++
     (if forallb answered rs then done_msg else signature_msg))
    (BootInfo (usable rs ++ drop (length (usable rs)) (ram_region_cfg (ld_boot s)))
       (Z.of_nat (length (usable rs)))).

Lemma detect_memory_ok s :
  buffer_ok (ld_mem s) → length (ram_region_cfg (ld_boot s)) = 10%nat →
  ∃ m', detect_memory s = Ok (tt, detected s m') ∧ buffer_ok m' ∧ outside_buffer (ld_mem s) m'.
Proof.
  intros Hm Hl. unfold detect_memory.
  stm_step (show_lit_ok (bytes_of_string "try todetect memory:") s ltac:(decide_vm)).
  unfold mbind at 1 2, stm_bind at 1 2, get, put.
  set (s1 := set_ld_boot _ _).
  destruct (detect_loop_ok 10 0 0 [] s1) as (m' & Hm' & Ho & E); [lia|lia|done|done|cbn; lia|].
  exists m'. split; [|done]. change (Z.to_nat BOOT_RAM_REGION_MAX) with 10%nat. stm_step E.
  pose proof (e820_calls_length 10 0 []). pose proof (usable_length (e820_calls 10 0 [])).
  unfold detected, boot_add, call_end. set (rs := e820_calls 10 0 []) in *.
  cbn [s1 ld_boot set_ld_boot ram_region_cfg ram_region_count ld_cpu ld_screen add_screen].
  change (Z.to_nat 0) with 0%nat. rewrite list_inserts_drop, Z.add_0_l by (rewrite Hl; lia).
  destruct (forallb answered rs).
  - cbn [show_msg]. rewrite show_lit_ok by decide_vm. unfold add_screen.
    cbn [ld_screen ld_cpu ld_mem ld_boot]. by rewrite app_nil_r, <-!app_assoc.
  - unfold mret, stm_ret. by rewrite <-!app_assoc.
Qed.

Context `{HDevice : Device}.

(** The processor when protected mode is entered; [v] is what port 0x92 read. *)
Definition protected_cpu (c : cpu_t) : cpu_t :=
  let v := u8 (dev_read (c_io c) 146) in
  Cpu (Z.land (c_eflags c) (Z.lnot EFLAGS_IF)) (Z.lor (u16 (c_cr0 c)) 1) (c_cr3 c) (c_cr4 c)
    (c_tr c) (table_ptr gdt_table_addr gdt_table_size) (c_idtr c)
    (PortOut 146 (u8 (Z.lor v 2)) :: PortIn 146 v :: c_io c).

Lemma enter_protected_mode_ok s :
  enter_protected_mode s =
    Ok (FarJump 8 protected_mode_entry, set_ld_cpu (protected_cpu (ld_cpu s)) s).
Proof. reflexivity. Qed.

Lemma loader_entry_ok s :
  buffer_ok (ld_mem s) → length (ram_region_cfg (ld_boot s)) = 10%nat →
  ∃ m', loader_entry s = Ok (FarJump 8 protected_mode_entry,
      set_ld_cpu (protected_cpu (ld_cpu s)) (detected (add_screen hello_msg s) m')) ∧
    buffer_ok m' ∧ outside_buffer (ld_mem s) m'.
Proof.
  intros Hm Hl. unfold loader_entry. stm_step (show_lit_ok hello_msg s ltac:(decide_vm)).
  destruct (detect_memory_ok (add_screen hello_msg s) Hm Hl) as (m' & E & Hm' & Ho).
  stm_step E. exists m'. rewrite enter_protected_mode_ok. by split.
Qed.
End stages.

(** The descriptor that the four words of a row are. *)
Definition row_desc (row : list Z) : option segment_desc_t :=
  match row with
  | [w0; w1; w2; w3] =>
      Some (SegmentDesc w0 w1 (u8 w2)
              (Z.lor (Z.shiftr w2 8) (Z.shiftl (u8 w3) 8)) (Z.shiftr w3 8))
  | _ => None
  end.

(** A present 32-bit segment of privilege 0 over the whole address space. *)
Definition flat (access : Z) (d : segment_desc_t) : Prop :=
  desc_base d = 0 ∧ desc_last_offset d = 2 ^ 32 - 1 ∧ desc_access d = access.

(** ** Properties of the real-mode stage *)

(** [detect_memory] asks the BIOS at most ten times, records exactly the
    regions of type 1 in the order of the answers (the low halves of base and
    length, the rest of the array as it was), stops at the first wrong signature
    or at the continuation value 0, reports which of the two on the screen, and
    writes nothing but [boot_info] and its own buffer. *)
Theorem detect_memory_records `{HImage : LoaderImage, HBios : Bios} (s : loader_t) :
  mapped (ld_mem s) detect_buffer 256 →
  length (ram_region_cfg (ld_boot s)) = Z.to_nat BOOT_RAM_REGION_MAX →
  let rs := e820_calls 10 0 [] in
  ∃ m', detect_memory s = Ok (tt, Loader (ld_cpu s) m'
      (ld_screen s ++ try_msg ++ call_lines 0 rs ++
       (if forallb answered rs then done_msg else signature_msg))
      (BootInfo (usable rs ++ drop (length (usable rs)) (ram_region_cfg (ld_boot s)))
         (Z.of_nat (length (usable rs))))) ∧
    (∀ x, ¬ (detect_buffer ≤ x < detect_buffer + 256) → m' !! x = ld_mem s !! x) ∧
    (length rs ≤ 10)%nat.
Proof.
  intros Hm Hl rs. destruct (detect_memory_ok s Hm Hl) as (m' & E & _ & Ho).
  exists m'. split; [exact E|]. split; [apply Ho|]. apply e820_calls_length.
Qed.

(** The real-mode stage ends in a far jump to the code segment of the
    loader's GDT at [protected_mode_entry]: memory is detected, interrupts are
    masked, the A20 gate is opened, GDTR points to the three rows of [gdt_table],
    whose second and third are flat code and data segments, and CR0 has the
    protection bit set. The upper half of CR0 is lost, since [read_cr0] returns
    16 bits. *)
Theorem loader_entry_hands_over `{HImage : LoaderImage, HBios : Bios, HDevice : Device}
    (s : loader_t) :
  mapped (ld_mem s) detect_buffer 256 →
  length (ram_region_cfg (ld_boot s)) = Z.to_nat BOOT_RAM_REGION_MAX →
  ∃ s', loader_entry s = Ok (FarJump 8 protected_mode_entry, s') ∧
    ld_boot s' = BootInfo
      (usable (e820_calls 10 0 []) ++
       drop (length (usable (e820_calls 10 0 []))) (ram_region_cfg (ld_boot s)))
      (Z.of_nat (length (usable (e820_calls 10 0 [])))) ∧
    Z.testbit (c_eflags (ld_cpu s')) 9 = false ∧
    Z.testbit (c_cr0 (ld_cpu s')) 0 = true ∧
    c_cr0 (ld_cpu s') = Z.lor (u16 (c_cr0 (ld_cpu s))) 1 ∧
    (∃ v, last_out 146 (c_io (ld_cpu s')) = Some v ∧ Z.testbit v 1 = true) ∧
    c_gdtr (ld_cpu s') = table_ptr gdt_table_addr 24 ∧
    (∃ d, (gdt_table !! 1%nat) ≫= row_desc = Some d ∧ flat 16538 d) ∧
    (∃ d, (gdt_table !! 2%nat) ≫= row_desc = Some d ∧ flat 16530 d).
Proof.
  intros Hm Hl. destruct (loader_entry_ok s Hm Hl) as (m' & E & _). eexists. split; [exact E|].
  cbn [set_ld_cpu ld_boot detected add_screen ld_cpu protected_cpu c_eflags c_cr0 c_io c_gdtr].
  split_and!; try done.
  - apply cli_masks.
  - rewrite Z.lor_spec. apply orb_true_r.
  - eexists. split; [reflexivity|]. unfold u8. rewrite Z.mod_pow2_bits_low by lia.
    rewrite Z.lor_spec. apply orb_true_r.
  - eexists. split; [reflexivity|]. by vm_compute.
  - eexists. split; [reflexivity|]. by vm_compute.
Qed.

Lemma digits_lsd_opp fuel num base :
  itoa_base base → digits_lsd fuel (- num) base = digits_lsd fuel num base.
Proof.
  intros Hb. pose proof (itoa_base_range _ Hb). revert num.
  induction fuel as [|f IH]; intros num; [done|]. cbn [digits_lsd].
  rewrite Z.rem_opp_l, Z.quot_opp_l, IH by lia. f_equal.
  - pose proof (rem_digit num _ Hb).
    assert (Hall : Forall (λ r, numchar_at (- r + 15) = numchar_at (r + 15)) (seqZ (-15) 31)).
    { decide_vm. }
    rewrite Forall_forall in Hall. apply Hall, elem_of_seqZ. lia.
  - by replace (- (num ÷ base) =? 0) with (num ÷ base =? 0) by lia.
Qed.

(** C28: in base 10, the base of every call in the loader, its [int_to_str] and the
    kernel's [kernel_itoa] write the same text for every [int] from 0 on; for a
    negative one other than [-2 ^ 31] they write the same digits, but [int_to_str]
    reverses its minus sign with them and puts it last. *)
Theorem int_to_str_equiv (m : mem) num buf :
  - 2 ^ 31 < num < 2 ^ 31 → mapped m buf 34 →
  let digits := rev (digits_lsd 32 (Z.abs num) 10) in
  let sign := if num <? 0 then [45] else [] in
  int_to_str num buf 10 m = Ok (tt, write_bytes m buf (digits ++ sign ++ [0])) ∧
  kernel_itoa num buf 10 m = Ok (tt, write_bytes m buf (sign ++ digits ++ [0])) ∧
  (0 ≤ num → int_to_str num buf 10 m = kernel_itoa num buf 10 m).
Proof.
  intros Hn Hm digits sign.
  assert (Hbase : itoa_base 10) by (apply list_elem_of_In; cbn; tauto).
  assert (Hlen : (length digits ≤ 32)%nat) by (unfold digits; rewrite length_rev; apply digits_lsd_length).
  assert (Et : int_text num 10 = digits ++ sign).
  { unfold int_text. by rewrite int_lsd_decimal by lia. }
  assert (Ek : itoa_text num 10 = sign ++ digits).
  { unfold itoa_text, sign, digits. rewrite Z.eqb_refl, andb_true_r. do 2 f_equal.
    destruct (Z.abs_eq_or_opp num) as [-> | ->]; [done|]. by rewrite digits_lsd_opp. }
  assert (Hs : (length sign ≤ 1)%nat) by (unfold sign; case_match; cbn; lia).
  assert (E1 : int_to_str num buf 10 m = Ok (tt, write_bytes m buf (digits ++ sign ++ [0]))).
  { rewrite int_to_str_ok, Et, <-app_assoc; [done|unfold is_s32; lia|lia|lia|].
    rewrite Et, length_app. intros x Hx. apply Hm. lia. }
  assert (E2 : kernel_itoa num buf 10 m = Ok (tt, write_bytes m buf (sign ++ digits ++ [0]))).
  { rewrite kernel_itoa_ok, Ek, <-app_assoc; [done|done|unfold is_s32; lia|].
    rewrite Ek, length_app. intros x Hx. apply Hm. lia. }
  split; [done|]. split; [done|]. intros Hp. rewrite E1, E2. unfold sign.
  by replace (num <? 0) with false by lia.
Qed.

(** ** Witnesses: a BIOS with two usable regions and a reserved one *)
Definition demo_bios : Bios := λ asked,
  match length asked with
  | 1%nat => E820Answer SMAP_SIGNATURE 20 1 (SmapEntry 0 0 654336 0 1 1)
  | 2%nat => E820Answer SMAP_SIGNATURE 20 2 (SmapEntry 654336 0 1024 0 2 1)
  | _ => E820Answer SMAP_SIGNATURE 24 0 (SmapEntry 1048576 0 133169152 0 1 1)
  end.

Definition demo_loader_image : LoaderImage := {|
  gdt_table_addr := 32768; protected_mode_entry := 33024; page_dir_addr := 36864;
  boot_info_addr := 34816; detect_buffer := 31744
|}.

Definition demo_a20 : Device := λ _ _, 0.

Definition demo_loader : loader_t :=
  Loader (Cpu 514 1610612752 0 0 0 (0, 0, 0) (0, 0, 0) []) (zero_mem 31744 256) []
    (BootInfo (replicate 10 (0, 0)) 0).

Lemma detect_memory_records_witness :
  ∃ m' screen, @detect_memory demo_loader_image demo_bios demo_loader =
    Ok (tt, Loader (ld_cpu demo_loader) m' screen
      (BootInfo ([(0, 654336); (1048576, 133169152)] ++ replicate 8 (0, 0)) 2)).
Proof.
  destruct (@detect_memory_records demo_loader_image demo_bios demo_loader) as (m' & E & _).
  - apply zero_mem_mapped.
  - reflexivity.
  - eexists m', _. exact E.
Defined.

Lemma loader_entry_hands_over_witness :
  ∃ s', @loader_entry demo_loader_image demo_bios demo_a20 demo_loader = Ok (FarJump 8 33024, s') ∧
    ld_boot s' = BootInfo ([(0, 654336); (1048576, 133169152)] ++ replicate 8 (0, 0)) 2 ∧
    c_cr0 (ld_cpu s') = 17.
Proof.
  destruct (@loader_entry_hands_over demo_loader_image demo_bios demo_a20 demo_loader)
    as (s' & E & Hb & _ & _ & Hc & _).
  - apply zero_mem_mapped.
  - reflexivity.
  - exists s'. split; [exact E|]. split; [exact Hb|exact Hc].
Defined.

Lemma int_to_str_equiv_witness :
  int_to_str (-12) 31744 10 (zero_mem 31744 64) =
    Ok (tt, write_bytes (zero_mem 31744 64) 31744 [49; 50; 45; 0]) ∧
  int_to_str 12 31744 10 (zero_mem 31744 64) = kernel_itoa 12 31744 10 (zero_mem 31744 64).
Proof.
  assert (Hm : mapped (zero_mem 31744 64) 31744 34).
  { apply mapped_le with 64; [apply zero_mem_mapped|lia]. }
  split.
  - apply (int_to_str_equiv (zero_mem 31744 64) (-12) 31744); [lia|exact Hm].
  - apply (int_to_str_equiv (zero_mem 31744 64) 12 31744); [lia|exact Hm|lia].
Defined.
