(* ===== verification/Loader32.v ===== *)
(** * The loader in protected mode (loader/loader_32.c, comm/elf.h)

    Reading the kernel image from disk, unpacking its ELF segments, turning
    paging on and entering the kernel. The disk controller is not code of this
    repository: its answers are the parameter [dev_read] (CpuInstr). *)
From S2P Require Import Prelude Mem Klib CpuInstr Desc BootInfo Loader16.

(** ** Disk reads *)
Section disk.
Context `{Device} (polls : nat).

(** [while ((inb(0x1f7) & 0x88) != 0x8);] *)
Fixpoint wait_drq (fuel : nat) : stm cpu_t unit :=
  match fuel with
  | O => throw OutOfFuel
  | S f =>
      v ← inb 503;
      if negb (Z.land v 136 =? 8) then wait_drq f else mret tt
  end.

(** [*data_buf++ = inw(0x1f0)], [n] times. *)
Fixpoint read_words (n : nat) (data_buf : Z) : stm loader_t Z :=
  match n with
  | O => mret data_buf
  | S n' =>
      w ← on_cpu (inw 496);
      on_mem (store16 data_buf w);;
      read_words n' (data_buf + 2)
  end.

Fixpoint read_sectors (sector_count : nat) (data_buf : Z) : stm loader_t unit :=
  match sector_count with
  | O => mret tt
  | S n =>
      on_cpu (wait_drq polls);;
      data_buf ← read_words (Z.to_nat (SECTOR_SIZE / 2)) data_buf;
      read_sectors n data_buf
  end.

(** The task file: drive, high bytes, low bytes, command. *)
Definition read_command (sector sector_count : Z) : stm cpu_t unit :=
  outb 502 224;;
  outb 498 (Z.shiftr sector_count 8);;
  outb 499 (Z.shiftr sector 24);;
  outb 500 0;;
  outb 501 0;;
  outb 498 sector_count;;
  outb 499 sector;;
  outb 500 (Z.shiftr sector 8);;
  outb 501 (Z.shiftr sector 16);;
  outb 503 36.

Definition read_disk (sector sector_count buffer : Z) : stm loader_t unit :=
  on_cpu (read_command sector sector_count);;
  read_sectors (Z.to_nat sector_count) buffer.
End disk.

(** ** ELF files (comm/elf.h)

    The structures are packed and read in place; each [e_] and [p_] definition
    reads one field of [Elf32_Ehdr] and [Elf32_Phdr], at the offset that the sizes
    of the fields before it make. *)
Definition ELF_MAGIC : Z := 127.
Definition PT_LOAD : Z := 1.
Definition EI_NIDENT : Z := 16.

(** Sizes of the field types. *)
Definition Elf32_Addr : Z := 4.
Definition Elf32_Half : Z := 2.
Definition Elf32_Off : Z := 4.
Definition Elf32_Word : Z := 4.

(** The fields of a packed structure with their sizes. *)
Definition packed : Type := list (string * Z).

Definition Elf32_Ehdr : packed :=
  [("e_ident", EI_NIDENT); ("e_type", Elf32_Half); ("e_machine", Elf32_Half);
   ("e_version", Elf32_Word); ("e_entry", Elf32_Addr); ("e_phoff", Elf32_Off);
   ("e_shoff", Elf32_Off); ("e_flags", Elf32_Word); ("e_ehsize", Elf32_Half);
   ("e_phentsize", Elf32_Half); ("e_phnum", Elf32_Half); ("e_shentsize", Elf32_Half);
   ("e_shnum", Elf32_Half); ("e_shstrndx", Elf32_Half)]%string.

Definition Elf32_Phdr : packed :=
  [("p_type", Elf32_Word); ("p_offset", Elf32_Off); ("p_vaddr", Elf32_Addr);
   ("p_paddr", Elf32_Addr); ("p_filesz", Elf32_Word); ("p_memsz", Elf32_Word);
   ("p_flags", Elf32_Word); ("p_align", Elf32_Word)]%string.

(** The offset of a field, and the size of the structure. *)
Fixpoint field_off (l : packed) (f : string) : Z :=
  match l with
  | [] => 0
  | (g, n) :: l' => if String.eqb f g then 0 else n + field_off l' f
  end.

Definition sizeof (l : packed) : Z := foldr (λ x n, x.2 + n) 0 l.

Definition sizeof_Phdr : Z := Eval vm_compute in sizeof Elf32_Phdr.

Definition e_ident (hdr i : Z) : stm mem Z := load8 (hdr + i).
Definition e_entry (hdr : Z) : stm mem Z :=
  ltac:(let o := eval vm_compute in (field_off Elf32_Ehdr "e_entry") in exact (load32 (hdr + o))).
Definition e_phoff (hdr : Z) : stm mem Z :=
  ltac:(let o := eval vm_compute in (field_off Elf32_Ehdr "e_phoff") in exact (load32 (hdr + o))).
Definition e_phnum (hdr : Z) : stm mem Z :=
  ltac:(let o := eval vm_compute in (field_off Elf32_Ehdr "e_phnum") in exact (load16 (hdr + o))).
Definition p_type (phdr : Z) : stm mem Z := load32 phdr.
Definition p_offset (phdr : Z) : stm mem Z :=
  ltac:(let o := eval vm_compute in (field_off Elf32_Phdr "p_offset") in exact (load32 (phdr + o))).
Definition p_paddr (phdr : Z) : stm mem Z :=
  ltac:(let o := eval vm_compute in (field_off Elf32_Phdr "p_paddr") in exact (load32 (phdr + o))).
Definition p_filesz (phdr : Z) : stm mem Z :=
  ltac:(let o := eval vm_compute in (field_off Elf32_Phdr "p_filesz") in exact (load32 (phdr + o))).
Definition p_memsz (phdr : Z) : stm mem Z :=
  ltac:(let o := eval vm_compute in (field_off Elf32_Phdr "p_memsz") in exact (load32 (phdr + o))).

(** [for (int j = 0; j < phdr->p_filesz; j++) *dest++ = *src++;]: the
    comparison is unsigned and reads the header again each time. *)
Fixpoint elf_copy (fuel : nat) (phdr j dest src : Z) : stm mem unit :=
  match fuel with
  | O => throw OutOfFuel
  | S f =>
      filesz ← p_filesz phdr;
      if u32 j <? filesz
      then c ← load8 src; store8 dest c;; elf_copy f phdr (s32 (j + 1)) (dest + 1) (src + 1)
      else mret tt
  end.

(** [for (int j = 0; j < phdr->p_memsz - phdr->p_filesz; j++) *dest++ = 0;] *)
Fixpoint elf_zero (fuel : nat) (phdr j dest : Z) : stm mem unit :=
  match fuel with
  | O => throw OutOfFuel
  | S f =>
      memsz ← p_memsz phdr;
      filesz ← p_filesz phdr;
      if u32 j <? u32 (memsz - filesz)
      then store8 dest 0;; elf_zero f phdr (s32 (j + 1)) (dest + 1)
      else mret tt
  end.

Definition load_segment (file_buffer phdr : Z) : stm mem unit :=
  type ← p_type phdr;
  if negb (type =? PT_LOAD) then mret tt else
  offset ← p_offset phdr;
  paddr ← p_paddr phdr;
  m ← get;
  elf_copy (S (size m)) phdr 0 paddr (file_buffer + offset);;
  paddr ← p_paddr phdr;
  filesz ← p_filesz phdr;
  m ← get;
  elf_zero (S (size m)) phdr 0 (paddr + filesz).

(** The loop over the program headers; [e_phnum] has 16 bits. *)
Fixpoint load_segments (fuel : nat) (file_buffer i : Z) : stm mem unit :=
  match fuel with
  | O => throw OutOfFuel
  | S f =>
      phnum ← e_phnum file_buffer;
      if i <? phnum
      then
        phoff ← e_phoff file_buffer;
        load_segment file_buffer (file_buffer + phoff + i * sizeof_Phdr);;
        load_segments f file_buffer (i + 1)
      else mret tt
  end.

Definition reload_elf_file (file_buffer : Z) : stm mem Z :=
  c0 ← e_ident file_buffer 0;
  if negb (c0 =? ELF_MAGIC) then mret 0 else
  c1 ← e_ident file_buffer 1;
  if negb (c1 =? 69) then mret 0 else
  c2 ← e_ident file_buffer 2;
  if negb (c2 =? 76) then mret 0 else
  c3 ← e_ident file_buffer 3;
  if negb (c3 =? 70) then mret 0 else
  load_segments (Z.to_nat (2 ^ 16)) file_buffer 0;;
  e_entry file_buffer.

(** ** Paging *)
Definition PDE_P : Z := Z.shiftl 1 0.
Definition PDE_W : Z := Z.shiftl 1 1.
Definition PDE_PS : Z := Z.shiftl 1 7.
Definition CR4_PSE : Z := Z.shiftl 1 4.
(** [1 << 31] of the type [int]. *)
Definition CR0_PG : Z := s32 (Z.shiftl 1 31).

(** The static table: entry 0 is given, the other 1023 are 0. *)
Definition page_dir (i : Z) : Z :=
  if i =? 0 then Z.lor PDE_P (Z.lor PDE_W (Z.lor PDE_PS 0)) else 0.

Section kernel.
Context `{LoaderImage, Device} (polls : nat).

Definition enable_page_mode : stm loader_t unit :=
  cr4 ← on_cpu read_cr4;
  on_cpu (write_cr4 (Z.lor cr4 CR4_PSE));;
  on_cpu (write_cr3 page_dir_addr);;
  cr0 ← on_cpu read_cr0;
  on_cpu (write_cr0 (u32 (Z.lor cr0 CR0_PG))).

Definition dile_error : stm loader_t unit := throw Halted.

Definition load_kernel : stm loader_t exit :=
  read_disk polls 100 500 SYS_KERNEL_ADDR;;
  kernel_entry ← on_mem (reload_elf_file SYS_KERNEL_ADDR);
  (if kernel_entry =? 0 then dile_error else mret tt);;
  enable_page_mode;;
  mret (CallEntry kernel_entry [boot_info_addr]).
End kernel.

(** ** The disk controller as the loader sees it

    A controller in 48-bit mode keeps the last two bytes written to each
    register of the task file; a read command then delivers the sectors word by
    word, each one after the status register has shown a request for data. *)

(** The values written to a port, the newest first. *)
Fixpoint outs (port : Z) (io : list io_event) : list Z :=
  match io with
  | [] => []
  | PortOut p v :: io' => if p =? port then v :: outs port io' else outs port io'
  | PortIn _ _ :: io' => outs port io'
  end.

Definition ata_lba (io : list io_event) : Z :=
  match outs 499 io, outs 500 io, outs 501 io with
  | lo :: lo' :: _, mid :: mid' :: _, hi :: hi' :: _ =>
      lo + Z.shiftl mid 8 + Z.shiftl hi 16 +
      Z.shiftl lo' 24 + Z.shiftl mid' 32 + Z.shiftl hi' 40
  | _, _, _ => -1
  end.

Definition ata_count (io : list io_event) : Z :=
  match outs 498 io with
  | c :: c' :: _ => c + Z.shiftl c' 8
  | _ => 0
  end.

(** The words read from the data register since the last command. *)
Fixpoint data_reads (io : list io_event) : Z :=
  match io with
  | [] => 0
  | PortOut p _ :: io' => if p =? 503 then 0 else data_reads io'
  | PortIn p _ :: io' => (if p =? 496 then 1 else 0) + data_reads io'
  end.

(** The last access saw a request for data. *)
Definition saw_drq (io : list io_event) : Prop :=
  match io with
  | PortIn p v :: _ => p = 503 ∧ Z.land v 136 = 8
  | _ => False
  end.

Definition transferring (io : list io_event) : Prop :=
  last_out 503 io = Some 36 ∧ 0 ≤ data_reads io < 256 * ata_count io.

(** Word [i] of the disk is [disk i]. While a transfer is under way the drive
    requests data within [polls] reads of the status register at each sector;
    it delivers the next word within a sector and after a request. *)
Class AtaDisk `{HDevice : Device} (polls : nat) (disk : Z → Z) : Prop := {
  ata_ready io :
    transferring io → data_reads io mod 256 = 0 →
    ∃ k, (k < polls)%nat ∧ Z.land (u8 (dev_read (polled 503 k io) 503)) 136 = 8;
  ata_data io :
    transferring io → data_reads io mod 256 ≠ 0 ∨ saw_drq io →
    dev_read io 496 = disk (256 * ata_lba io + data_reads io)
}.

(** The bytes of [n] words of the disk. *)
Fixpoint disk_bytes (disk : Z → Z) (w : Z) (n : nat) : list Z :=
  match n with
  | O => []
  | S n' => le16 (u16 (disk w)) ++ disk_bytes disk (w + 1) n'
  end.

Section disk_reads.
Context `{HAta : AtaDisk polls disk} (lba count : Z).
Implicit Types (s : loader_t) (c : cpu_t) (io : list io_event).

(** [k] words of the transfer have been read. *)
Definition reading (k : Z) (io : list io_event) : Prop :=
  last_out 503 io = Some 36 ∧ ata_lba io = lba ∧ ata_count io = count ∧ data_reads io = k.

Lemma reading_status k v io : reading k io → reading k (PortIn 503 v :: io).
Proof. intros (? & ? & ? & ?). by repeat split. Qed.

Lemma reading_word k v io : reading k io → reading (k + 1) (PortIn 496 v :: io).
Proof.
  intros (? & ? & ? & ?). repeat split; try done. cbn [data_reads]. rewrite Z.eqb_refl. lia.
Qed.

Lemma reading_transferring k io : reading k io → 0 ≤ k < 256 * count → transferring io.
Proof. intros (? & ? & Hc & Hk) ?. split; [done|]. rewrite Hc, Hk. lia. Qed.

Lemma length_disk_bytes d w n : length (disk_bytes d w n) = (2 * n)%nat.
Proof.
  revert w. induction n as [|n IH]; intros w; cbn [disk_bytes]; [done|].
  rewrite length_app, IH. cbn [length le16]. lia.
Qed.

Lemma disk_bytes_app d w n1 n2 :
  disk_bytes d w (n1 + n2) = disk_bytes d w n1 ++ disk_bytes d (w + Z.of_nat n1) n2.
Proof.
  revert w. induction n1 as [|n1 IH]; intros w; cbn [disk_bytes Nat.add app].
  - by rewrite Z.add_0_r.
  - rewrite IH, <-app_assoc. do 3 f_equal. lia.
Qed.

Lemma disk_bytes_u8 d w n : Forall is_u8 (disk_bytes d w n).
Proof.
  revert w. induction n as [|n IH]; intros w; cbn [disk_bytes]; [constructor|].
  apply Forall_app. split; [|apply IH]. repeat constructor; apply u8_range.
Qed.

Lemma wait_drq_ok fuel k c :
  reading k (c_io c) →
  (∃ j, (j < fuel)%nat ∧ Z.land (u8 (dev_read (polled 503 j (c_io c)) 503)) 136 = 8) →
  ∃ ev, wait_drq fuel c = Ok (tt, add_io ev c) ∧
    reading k (ev ++ c_io c) ∧ saw_drq (ev ++ c_io c).
Proof.
  revert c. induction fuel as [|f IH]; intros c Hr (j & Hj & Hb); [lia|]. cbn [wait_drq].
  stm_step (inb_ok 503 c). change (u16 503) with 503.
  set (v := u8 (dev_read (c_io c) 503)). set (c1 := add_io [PortIn 503 v] c).
  destruct (Z.eqb_spec (Z.land v 136) 8) as [E|E]; cbn [negb].
  - exists [PortIn 503 v]. split; [done|]. by split; [apply reading_status|].
  - destruct j as [|j]; [done|]. cbn [polled] in Hb.
    destruct (IH c1) as (ev & -> & Hr' & Hs).
    + by apply reading_status.
    + exists j. split; [lia|done].
    + exists (ev ++ [PortIn 503 v]). unfold c1. rewrite add_io_app, <-app_assoc. done.
Qed.

(** The words left in a sector. *)
Lemma read_words_ok n q k buf s :
  reading k (c_io (ld_cpu s)) → 0 ≤ k → k + Z.of_nat n = 256 * q → (n ≤ 256)%nat →
  q ≤ count → (n = 256%nat → saw_drq (c_io (ld_cpu s))) →
  mapped (ld_mem s) buf (2 * Z.of_nat n) →
  ∃ ev, read_words n buf s = Ok (buf + 2 * Z.of_nat n,
      set_ld_mem (write_bytes (ld_mem s) buf (disk_bytes disk (256 * lba + k) n))
        (set_ld_cpu (add_io ev (ld_cpu s)) s)) ∧
    reading (256 * q) (ev ++ c_io (ld_cpu s)).
Proof.
  revert k buf s. induction n as [|n IH]; intros k buf s Hr Hk Hq Hn Hc Hd Hm; cbn [read_words].
  { exists []. replace (256 * q) with k by lia. split; [|done]. cbn.
    rewrite Z.add_0_r. by destruct s as [[]]. }
  set (w := u16 (dev_read (c_io (ld_cpu s)) 496)).
  stm_step (on_cpu_ok (inw 496) s _ _ (inw_ok 496 (ld_cpu s))). fold w.
  set (s1 := set_ld_cpu _ s).
  stm_step (on_mem_ok (store16 buf w) s1 tt _ (store16_ok (ld_mem s1) buf w
    ltac:(intros x Hx; apply Hm; lia))).
  set (s2 := set_ld_mem _ s1).
  assert (Hw : w = u16 (disk (256 * lba + k))).
  { unfold w. f_equal. rewrite (ata_data (c_io (ld_cpu s))).
    - by destruct Hr as (_ & -> & _ & ->).
    - apply reading_transferring with k; [done|lia].
    - destruct (decide (S n = 256%nat)) as [E|E]; [right; by apply Hd|left].
      destruct Hr as (_ & _ & _ & ->). Z.to_euclidean_division_equations. lia. }
  destruct (IH (k + 1) (buf + 2) s2) as (ev & -> & Hr').
  - by apply reading_word.
  - lia.
  - lia.
  - lia.
  - done.
  - lia.
  - apply write_bytes_mapped. intros x Hx. apply Hm. lia.
  - exists (ev ++ [PortIn 496 w]). rewrite <-app_assoc. split; [|exact Hr'].
    cbn [disk_bytes]. rewrite write_bytes_app, <-Hw, Z.add_assoc. unfold s2, s1.
    do 2 f_equal; [lia|]. unfold set_ld_mem, set_ld_cpu. cbn. by rewrite add_io_app.
Qed.

Lemma read_sectors_ok n k buf s :
  reading (256 * k) (c_io (ld_cpu s)) → 0 ≤ k → k + Z.of_nat n ≤ count →
  mapped (ld_mem s) buf (512 * Z.of_nat n) →
  ∃ ev, read_sectors polls n buf s = Ok (tt,
      set_ld_mem (write_bytes (ld_mem s) buf (disk_bytes disk (256 * (lba + k)) (256 * n)))
        (set_ld_cpu (add_io ev (ld_cpu s)) s)).
Proof.
  revert k buf s. induction n as [|n IH]; intros k buf s Hr Hk Hc Hm; cbn [read_sectors].
  { exists []. rewrite Nat.mul_0_r. cbn. by destruct s as [[]]. }
  destruct (wait_drq_ok polls (256 * k) (ld_cpu s) Hr) as (ev1 & Hw & Hr1 & Hs).
  { apply ata_ready; [apply reading_transferring with (256 * k); [done|lia]|].
    destruct Hr as (_ & _ & _ & ->). Z.to_euclidean_division_equations. lia. }
  stm_step (on_cpu_ok (wait_drq polls) s tt _ Hw). set (s1 := set_ld_cpu _ s).
  change (Z.to_nat (SECTOR_SIZE / 2)) with 256%nat.
  destruct (read_words_ok 256 (k + 1) (256 * k) buf s1) as (ev2 & Hrd & Hr2); [done|lia|lia|lia|lia|done| |].
  { intros x Hx. apply Hm. lia. }
  stm_step Hrd. set (s2 := set_ld_mem _ _).
  destruct (IH (k + 1) (buf + 2 * Z.of_nat 256) s2) as (ev & ->).
  - exact Hr2.
  - lia.
  - lia.
  - apply write_bytes_mapped. intros x Hx. apply Hm. lia.
  - exists (ev ++ ev2 ++ ev1). replace (256 * S n)%nat with (256 + 256 * n)%nat by lia.
    rewrite disk_bytes_app, write_bytes_app, length_disk_bytes. unfold s2, s1.
    replace (buf + Z.of_nat (2 * 256)) with (buf + 2 * Z.of_nat 256) by lia.
    replace (256 * (lba + k) + Z.of_nat 256) with (256 * (lba + (k + 1))) by lia.
    replace (256 * lba + 256 * k) with (256 * (lba + k)) by lia.
    unfold set_ld_mem, set_ld_cpu. cbn [ld_cpu ld_mem ld_screen ld_boot].
    by rewrite !add_io_app, app_assoc.
Qed.
End disk_reads.

(** The command the loader sends. *)
Definition command_events (sector count : Z) : list io_event :=
  [PortOut 503 36; PortOut 501 (u8 (Z.shiftr sector 16)); PortOut 500 (u8 (Z.shiftr sector 8));
   PortOut 499 (u8 sector); PortOut 498 (u8 count); PortOut 501 0; PortOut 500 0;
   PortOut 499 (u8 (Z.shiftr sector 24)); PortOut 498 (u8 (Z.shiftr count 8)); PortOut 502 224].

Section disk_command.

Lemma read_command_ok sector count c :
  read_command sector count c = Ok (tt, add_io (command_events sector count) c).
Proof. reflexivity. Qed.

Lemma command_reading sector count io :
  is_u32 sector → is_u16 count →
  reading sector count 0 (command_events sector count ++ io).
Proof.
  intros Hs Hc. unfold reading, command_events, ata_lba, ata_count. cbn [app last_out outs data_reads Z.eqb Pos.eqb].
  split; [done|]. split.
  - rewrite !Z.shiftl_0_l, !Z.add_0_r. by apply le32_value.
  - split; [|done]. unfold is_u16 in Hc. unfold u8. rewrite Z.shiftr_div_pow2, Z.shiftl_mul_pow2 by lia.
    change (2 ^ 8) with 256 in *. change (2 ^ 16) with 65536 in *.
    Z.to_euclidean_division_equations. lia.
Qed.

Lemma read_disk_ok `{HAta : AtaDisk polls disk} sector count buffer s :
  is_u32 sector → is_u16 count → mapped (ld_mem s) buffer (512 * count) →
  ∃ ev, read_disk polls sector count buffer s = Ok (tt,
      set_ld_mem (write_bytes (ld_mem s) buffer
          (disk_bytes disk (256 * sector) (256 * Z.to_nat count)))
        (set_ld_cpu (add_io ev (ld_cpu s)) s)).
Proof.
  intros Hs Hc Hm. unfold is_u16 in Hc. unfold read_disk.
  stm_step (on_cpu_ok _ s tt _ (read_command_ok sector count (ld_cpu s))).
  set (s1 := set_ld_cpu _ s).
  destruct (read_sectors_ok sector count (Z.to_nat count) 0 buffer s1) as (ev & ->).
  - apply command_reading; done.
  - lia.
  - lia.
  - intros x Hx. apply Hm. lia.
  - exists (ev ++ command_events sector count). unfold s1, set_ld_mem, set_ld_cpu. cbn [ld_cpu ld_mem ld_screen ld_boot].
    by rewrite add_io_app, Z.add_0_r.
Qed.
End disk_command.

(** ** ELF images *)

(** A program header, the fields that the loader reads. *)
Record elf_phdr : Type := Phdr {
  ph_type : Z; ph_offset : Z; ph_paddr : Z; ph_filesz : Z; ph_memsz : Z
}.

Definition phdr_at (m : mem) (a : Z) (p : elf_phdr) : Prop :=
  word_at m a (ph_type p) ∧ word_at m (a + 4) (ph_offset p) ∧ word_at m (a + 12) (ph_paddr p) ∧
  word_at m (a + 16) (ph_filesz p) ∧ word_at m (a + 20) (ph_memsz p).

(** The bytes at [fb] are an ELF file with this entry point, this program
    header offset and these program headers. *)
Record elf_at (m : mem) (fb entry phoff : Z) (ps : list elf_phdr) : Prop := {
  elf_magic : bytes_at m fb [127; 69; 76; 70];
  elf_entry : word_at m (fb + 24) entry;
  elf_phoff : word_at m (fb + 28) phoff;
  elf_phnum : half_at m (fb + 44) (Z.of_nat (length ps));
  elf_phdrs i p : ps !! i = Some p → phdr_at m (fb + phoff + Z.of_nat i * sizeof_Phdr) p
}.

Definition loaded (p : elf_phdr) : Prop := ph_type p = PT_LOAD.
#[export] Instance loaded_dec p : Decision (loaded p).
Proof. unfold loaded. apply _. Defined.

(** A file of [len] bytes at [fb] contains its headers and what they refer to,
    and the memory the segments go to is mapped and apart from it. *)
Record elf_fits (m : mem) (fb len phoff : Z) (ps : list elf_phdr) : Prop := {
  fits_header : 52 ≤ len;
  fits_phdrs : 0 ≤ phoff ∧ phoff + sizeof_Phdr * Z.of_nat (length ps) ≤ len;
  fits_file : mapped m fb len;
  fits_source p : p ∈ ps → loaded p → ph_offset p + ph_filesz p ≤ len;
  fits_size p : p ∈ ps → loaded p → ph_filesz p ≤ ph_memsz p;
  fits_target p : p ∈ ps → loaded p → mapped m (ph_paddr p) (ph_memsz p);
  fits_apart p : p ∈ ps → loaded p →
    ph_paddr p + ph_memsz p ≤ fb ∨ fb + len ≤ ph_paddr p
}.

(** What a loaded segment holds: its bytes in the file [m0] and zeros. *)
Definition segment_bytes (m0 : mem) (fb : Z) (p : elf_phdr) : list Z :=
  bytes_from m0 (fb + ph_offset p) (Z.to_nat (ph_filesz p)) ++
  replicate (Z.to_nat (ph_memsz p - ph_filesz p)) 0.

Definition place (m0 : mem) (fb : Z) (m : mem) (p : elf_phdr) : mem :=
  if decide (loaded p) then write_bytes m (ph_paddr p) (segment_bytes m0 fb p) else m.

Section copying.
Implicit Types (m : mem).

Lemma u32_s32 j : 0 ≤ j < 2 ^ 32 → u32 (s32 j) = j.
Proof. intros Hj. unfold u32, s32. Z.to_euclidean_division_equations. lia. Qed.

Lemma s32_succ j : s32 (s32 j + 1) = s32 (j + 1).
Proof. unfold s32. Z.to_euclidean_division_equations. lia. Qed.

(** Two ranges of addresses have none in common. *)
Definition apart (a n b k : Z) : Prop := a + n ≤ b ∨ b + k ≤ a.

Lemma elf_copy_ok fuel phdr j dest src l m :
  0 ≤ j → word_at m (phdr + 16) (j + Z.of_nat (length l)) →
  bytes_at m src l → Forall is_u8 l → mapped m dest (Z.of_nat (length l)) →
  apart dest (Z.of_nat (length l)) (phdr + 16) 4 →
  apart dest (Z.of_nat (length l)) src (Z.of_nat (length l)) →
  (length l < fuel)%nat →
  elf_copy fuel phdr (s32 j) dest src m = Ok (tt, write_bytes m dest l).
Proof.
  revert j dest src l m. induction fuel as [|f IH]; intros j dest src l m Hj Hw Hb Hu Hm Hp Ha Hf; [lia|].
  cbn [elf_copy]. pose proof (proj1 Hw) as Hr. unfold is_u32 in Hr.
  stm_step (word_load m (phdr + 16) _ Hw). rewrite u32_s32 by lia.
  destruct l as [|c l]; cbn [length] in *.
  { replace (j <? j + Z.of_nat 0) with false by lia. done. }
  replace (j <? j + Z.of_nat (S (length l))) with true by lia.
  apply Forall_cons in Hu as [Hc Hu]. destruct Hb as [Hb0 Hb]. unfold is_u8 in Hc.
  stm_step (load8_ok _ _ _ Hb0). stm_step (store8_ok m dest c (Hm dest ltac:(lia))).
  rewrite u8_id by lia. cbn [write_bytes]. rewrite s32_succ. unfold apart in *.
  change (<[dest := c]> m) with (write_bytes m dest [c]).
  apply IH; [lia| | |done| |lia|lia|lia].
  - replace (j + 1 + Z.of_nat (length l)) with (j + Z.of_nat (S (length l))) by lia.
    apply word_outside; [done|]. cbn [length]. lia.
  - apply bytes_at_agree with m; [done|]. apply agree_write. cbn [length]. lia.
  - apply write_bytes_mapped. intros x Hx. apply Hm. lia.
Qed.

Lemma elf_zero_ok fuel phdr filesz j dest n m :
  0 ≤ j → word_at m (phdr + 16) filesz → word_at m (phdr + 20) (filesz + j + Z.of_nat n) →
  mapped m dest (Z.of_nat n) → apart dest (Z.of_nat n) (phdr + 16) 8 → (n < fuel)%nat →
  elf_zero fuel phdr (s32 j) dest m = Ok (tt, write_bytes m dest (replicate n 0)).
Proof.
  revert j dest n m. induction fuel as [|f IH]; intros j dest n m Hj Hw Hz Hm Hp Hf; [lia|].
  cbn [elf_zero]. pose proof (proj1 Hw) as Hr. pose proof (proj1 Hz) as Hr'. unfold is_u32 in Hr, Hr'.
  stm_step (word_load m (phdr + 20) _ Hz). stm_step (word_load m (phdr + 16) _ Hw).
  rewrite u32_s32, u32_id by lia.
  destruct n as [|n].
  { replace (j <? filesz + j + Z.of_nat 0 - filesz) with false by lia. done. }
  replace (j <? filesz + j + Z.of_nat (S n) - filesz) with true by lia.
  stm_step (store8_ok m dest 0 (Hm dest ltac:(lia))). change (u8 0) with 0.
  cbn [replicate write_bytes]. rewrite s32_succ. unfold apart in *.
  change (<[dest := 0]> m) with (write_bytes m dest [0]).
  apply IH; [lia| | | |lia|lia].
  - apply word_outside; [done|]. cbn [length]. lia.
  - replace (filesz + (j + 1) + Z.of_nat n) with (filesz + j + Z.of_nat (S n)) by lia.
    apply word_outside; [done|]. cbn [length]. lia.
  - apply write_bytes_mapped. intros x Hx. apply Hm. lia.
Qed.
End copying.

(** ** Loading the segments *)
Section loading.
Context (m0 : mem) (fb len entry phoff : Z) (ps : list elf_phdr).
Context (Helf : elf_at m0 fb entry phoff ps) (Hfits : elf_fits m0 fb len phoff ps).
Context (Hbytes : bytes_ok m0).
Implicit Types (m : mem) (p : elf_phdr).

(** The states between segments: the file is untouched, nothing is unmapped. *)
Definition between (m : mem) : Prop := agree m0 m fb len ∧ dom m = dom m0.

Lemma between_start : between m0.
Proof. by split. Qed.

Lemma between_mapped m a n : between m → mapped m0 a n → mapped m a n.
Proof. intros [_ Hd] Hm x Hx. apply elem_of_dom. rewrite Hd. by apply elem_of_dom, Hm. Qed.

Lemma phdr_range i p : ps !! i = Some p →
  fb ≤ fb + phoff + Z.of_nat i * sizeof_Phdr ∧
  fb + phoff + Z.of_nat i * sizeof_Phdr + 32 ≤ fb + len.
Proof.
  intros Hi%lookup_lt_Some. pose proof (fits_phdrs _ _ _ _ _ Hfits). unfold sizeof_Phdr in *. lia.
Qed.

Lemma phdr_between m i p : between m → ps !! i = Some p →
  phdr_at m (fb + phoff + Z.of_nat i * sizeof_Phdr) p.
Proof.
  intros [Ha _] Hi. pose proof (phdr_range i p Hi).
  destruct (elf_phdrs _ _ _ _ _ Helf i p Hi) as (H1 & H2 & H3 & H4 & H5).
  split_and!; (eapply word_at_agree; [eassumption|]); apply (agree_sub _ _ fb len); done || lia.
Qed.

Lemma length_segment_bytes p : p ∈ ps → loaded p → 0 ≤ ph_filesz p →
  Z.of_nat (length (segment_bytes m0 fb p)) = ph_memsz p.
Proof.
  intros Hp Hl Hf. pose proof (fits_size _ _ _ _ _ Hfits p Hp Hl). unfold segment_bytes.
  rewrite length_app, length_bytes_from, length_replicate. lia.
Qed.

Lemma between_place m p : p ∈ ps → 0 ≤ ph_filesz p → between m → between (place m0 fb m p).
Proof.
  intros Hp Hf [Ha Hd]. unfold place. destruct (decide (loaded p)) as [Hl|]; [|done].
  pose proof (length_segment_bytes p Hp Hl Hf) as El.
  pose proof (fits_apart _ _ _ _ _ Hfits p Hp Hl). split.
  - apply agree_trans with m; [done|]. apply agree_write. lia.
  - rewrite <-Hd. apply set_eq. intros x. rewrite !elem_of_dom.
    pose proof (fits_target _ _ _ _ _ Hfits p Hp Hl) as Ht.
    rewrite write_bytes_lookup. case_decide as Hx; [|done]. split; intros _.
    + apply (between_mapped m (ph_paddr p) (ph_memsz p)); [done|done|lia].
    + apply lookup_lt_is_Some. lia.
Qed.

(** The copy of the file part of a segment. *)
Lemma segment_copied m p ph :
  let l := bytes_from m0 (fb + ph_offset p) (Z.to_nat (ph_filesz p)) in
  between m → p ∈ ps → loaded p → fb ≤ ph → ph + 32 ≤ fb + len →
  is_u32 (ph_offset p) → word_at m (ph + 16) (ph_filesz p) → mapped m (ph_paddr p) (ph_filesz p) →
  elf_copy (S (size m)) ph 0 (ph_paddr p) (fb + ph_offset p) m = Ok (tt, write_bytes m (ph_paddr p) l).
Proof.
  intros l Hm Hp Hl Hlo Hhi R2 H4 Ht. pose proof (proj1 H4) as R4. unfold is_u32 in R2, R4.
  pose proof (fits_source _ _ _ _ _ Hfits p Hp Hl) as Hsrc.
  pose proof (fits_apart _ _ _ _ _ Hfits p Hp Hl) as Hap.
  pose proof (fits_size _ _ _ _ _ Hfits p Hp Hl) as Hsz.
  assert (Ell : Z.of_nat (length l) = ph_filesz p) by (unfold l; rewrite length_bytes_from; lia).
  apply (elf_copy_ok _ ph 0); unfold apart; rewrite ?Ell, ?Z.add_0_l; try done; try lia.
  - apply bytes_at_agree with m0; [apply bytes_from_at|].
    + intros x Hx. apply (fits_file _ _ _ _ _ Hfits). lia.
    + apply (agree_sub _ _ fb len); [apply Hm|lia|lia].
  - by apply bytes_from_u8.
  - apply mapped_size in Ht; lia.
Qed.

Lemma load_segment_ok m i p : between m → ps !! i = Some p →
  load_segment fb (fb + phoff + Z.of_nat i * sizeof_Phdr) m = Ok (tt, place m0 fb m p).
Proof.
  intros Hm Hi. pose proof (list_elem_of_lookup_2 _ _ _ Hi) as Hp.
  pose proof (phdr_range i p Hi) as Hrange.
  destruct (phdr_between m i p Hm Hi) as (H1 & H2 & H3 & H4 & H5).
  set (ph := fb + phoff + Z.of_nat i * sizeof_Phdr) in *. unfold load_segment.
  stm_step (word_load m ph _ H1). unfold place.
  destruct (decide (loaded p)) as [Hl|Hl]; [rewrite (proj2 (Z.eqb_eq _ _) Hl)
    |rewrite (proj2 (Z.eqb_neq _ _) Hl)]; cbn [negb]; [|done].
  stm_step (word_load m (ph + 4) _ H2). stm_step (word_load m (ph + 12) _ H3).
  pose proof (proj1 H2) as R2. pose proof (proj1 H4) as R4. pose proof (proj1 H5) as R5.
  unfold is_u32 in R2, R4, R5.
  pose proof (fits_size _ _ _ _ _ Hfits p Hp Hl) as Hsz.
  pose proof (fits_source _ _ _ _ _ Hfits p Hp Hl) as Hsrc.
  pose proof (fits_apart _ _ _ _ _ Hfits p Hp Hl) as Hap.
  pose proof (between_mapped m _ _ Hm (fits_target _ _ _ _ _ Hfits p Hp Hl)) as Ht.
  unfold segment_bytes. set (l := bytes_from m0 (fb + ph_offset p) (Z.to_nat (ph_filesz p))).
  assert (Ell : Z.of_nat (length l) = ph_filesz p) by (unfold l; rewrite length_bytes_from; lia).
  set (m1 := write_bytes m (ph_paddr p) l).
  assert (Ht1 : mapped m (ph_paddr p) (Z.of_nat (length l))) by (intros x Hx; apply Ht; lia).
  assert (Hcopy : elf_copy (S (size m)) ph 0 (ph_paddr p) (fb + ph_offset p) m = Ok (tt, m1)).
  { apply segment_copied; try done; [lia..|]. by rewrite <-Ell. }
  unfold mbind at 1, stm_bind at 1, get. stm_step Hcopy.
  assert (Hw : ∀ b v, word_at m b v → ph ≤ b → b + 4 ≤ ph + 32 → word_at m1 b v).
  { intros b v Hb ? ?. apply word_outside; [done|]. lia. }
  stm_step (word_load m1 (ph + 12) _ (Hw _ _ H3 ltac:(lia) ltac:(lia))).
  stm_step (word_load m1 (ph + 16) _ (Hw _ _ H4 ltac:(lia) ltac:(lia))).
  unfold mbind at 1, stm_bind at 1.
  set (k := Z.to_nat (ph_memsz p - ph_filesz p)).
  assert (Hmz : mapped m1 (ph_paddr p + ph_filesz p) (Z.of_nat k)).
  { apply write_bytes_mapped. intros x Hx. apply Ht. lia. }
  rewrite (elf_zero_ok _ ph (ph_filesz p) 0 (ph_paddr p + ph_filesz p) k m1).
  - unfold m1. by rewrite <-Ell, <-write_bytes_app.
  - lia.
  - apply Hw; done || lia.
  - replace (ph_filesz p + 0 + Z.of_nat k) with (ph_memsz p) by lia. apply Hw; done || lia.
  - exact Hmz.
  - unfold apart. lia.
  - apply mapped_size in Hmz; lia.
Qed.

Lemma load_segments_ok fuel prefix rest m :
  between m → ps = prefix ++ rest → (length rest < fuel)%nat →
  load_segments fuel fb (Z.of_nat (length prefix)) m = Ok (tt, foldl (place m0 fb) m rest) ∧
  between (foldl (place m0 fb) m rest).
Proof.
  revert prefix rest m. induction fuel as [|f IH]; intros prefix rest m Hm Hps Hf; [lia|].
  pose proof (elf_phnum _ _ _ _ _ Helf) as Hn. pose proof (elf_phoff _ _ _ _ _ Helf) as Ho.
  pose proof (fits_header _ _ _ _ _ Hfits) as Hh. cbn [load_segments].
  assert (Hn' : half_at m (fb + 44) (Z.of_nat (length ps))).
  { apply half_at_agree with m0; [done|]. apply (agree_sub _ _ fb len); [apply Hm|lia|lia]. }
  assert (Ho' : word_at m (fb + 28) phoff).
  { apply word_at_agree with m0; [done|]. apply (agree_sub _ _ fb len); [apply Hm|lia|lia]. }
  stm_step (half_load m (fb + 44) _ Hn').
  assert (El : length ps = (length prefix + length rest)%nat) by (by rewrite Hps, length_app).
  destruct rest as [|p rest]; cbn [foldl length] in *.
  { replace (Z.of_nat (length prefix) <? Z.of_nat (length ps)) with false by lia. done. }
  replace (Z.of_nat (length prefix) <? Z.of_nat (length ps)) with true by lia.
  stm_step (word_load m (fb + 28) _ Ho').
  assert (Hi : ps !! length prefix = Some p) by (by rewrite Hps, list_lookup_middle).
  stm_step (load_segment_ok m (length prefix) p Hm Hi).
  replace (Z.of_nat (length prefix) + 1) with (Z.of_nat (length (prefix ++ [p])))
    by (rewrite length_app; cbn [length]; lia).
  apply IH; [|by rewrite <-app_assoc|lia].
  apply between_place; [by apply list_elem_of_lookup_2 in Hi| |done].
  destruct (elf_phdrs _ _ _ _ _ Helf _ _ Hi) as (_ & _ & _ & [Hfz _] & _).
  unfold is_u32 in Hfz. lia.
Qed.

Definition elf_memory : mem := foldl (place m0 fb) m0 ps.

Lemma reload_elf_file_ok :
  reload_elf_file fb m0 = Ok (entry, elf_memory) ∧ between elf_memory.
Proof.
  destruct (elf_magic _ _ _ _ _ Helf) as (M0 & M1 & M2 & M3 & _). rewrite <-!Z.add_assoc in *.
  unfold reload_elf_file, e_ident. rewrite Z.add_0_r.
  stm_step (load8_ok _ _ _ M0). change (negb (127 =? ELF_MAGIC)) with false. cbn iota.
  stm_step (load8_ok _ _ _ M1). change (negb (69 =? 69)) with false. cbn iota.
  stm_step (load8_ok _ _ _ M2). change (negb (76 =? 76)) with false. cbn iota.
  stm_step (load8_ok _ _ _ M3). change (negb (70 =? 70)) with false. cbn iota.
  destruct (load_segments_ok (Z.to_nat (2 ^ 16)) [] ps m0 between_start eq_refl) as [E Hb].
  { pose proof (proj1 (elf_phnum _ _ _ _ _ Helf)) as Hn. unfold is_u16 in Hn. lia. }
  split; [|done]. cbn [length Z.of_nat] in E. stm_step E. fold elf_memory in *.
  apply word_load. apply word_at_agree with m0; [apply Helf|].
  pose proof (fits_header _ _ _ _ _ Hfits). apply (agree_sub _ _ fb len); [apply Hb|lia|lia].
Qed.

(** *** What the fold of the segments means *)
Definition in_segment (p : elf_phdr) (x : Z) : Prop := ph_paddr p ≤ x < ph_paddr p + ph_memsz p.

Lemma filesz_range p : p ∈ ps → 0 ≤ ph_filesz p.
Proof.
  intros [i Hi]%list_elem_of_lookup.
  destruct (elf_phdrs _ _ _ _ _ Helf i p Hi) as (_ & _ & _ & [Hfz _] & _).
  unfold is_u32 in Hfz. lia.
Qed.

Lemma place_outside m p x : p ∈ ps → (loaded p → ¬ in_segment p x) → place m0 fb m p !! x = m !! x.
Proof.
  intros Hp Hx. unfold place. destruct (decide (loaded p)) as [Hl|]; [|done].
  apply write_bytes_outside. rewrite (length_segment_bytes p Hp Hl (filesz_range p Hp)). by apply Hx.
Qed.

Lemma foldl_place_outside qs m x :
  qs ⊆ ps → (∀ q, q ∈ qs → loaded q → ¬ in_segment q x) →
  foldl (place m0 fb) m qs !! x = m !! x.
Proof.
  revert m. induction qs as [|q qs IH]; intros m Hs Hx; cbn [foldl]; [done|].
  rewrite IH.
  - apply place_outside; [apply Hs; left|]. apply Hx. left.
  - intros y Hy. apply Hs. by right.
  - intros y Hy. apply Hx. by right.
Qed.

Lemma elf_memory_outside x :
  (∀ q, q ∈ ps → loaded q → ¬ in_segment q x) → elf_memory !! x = m0 !! x.
Proof. by apply foldl_place_outside. Qed.

(** A segment is intact when no later one overlaps it. *)
Lemma elf_memory_segment i p :
  ps !! i = Some p → loaded p →
  (∀ j q, ps !! j = Some q → (i < j)%nat → loaded q →
    apart (ph_paddr p) (ph_memsz p) (ph_paddr q) (ph_memsz q)) →
  bytes_at elf_memory (ph_paddr p) (segment_bytes m0 fb p).
Proof.
  intros Hi Hl Hap. pose proof (list_elem_of_lookup_2 _ _ _ Hi) as Hp.
  pose proof (take_drop_middle ps i p Hi) as Hsplit. unfold elf_memory.
  rewrite <-Hsplit at 1. rewrite foldl_app. cbn [foldl].
  set (m := foldl (place m0 fb) m0 (take i ps)).
  apply bytes_at_agree with (place m0 fb m p).
  - unfold place. rewrite decide_True by done. apply bytes_at_write.
  - intros x Hx. rewrite (length_segment_bytes p Hp Hl (filesz_range p Hp)) in Hx.
    apply foldl_place_outside.
    + intros q Hq. apply list_elem_of_lookup in Hq as [j Hj]. rewrite lookup_drop in Hj.
      by apply list_elem_of_lookup_2 in Hj.
    + intros q Hq Hlq. apply list_elem_of_lookup in Hq as [j Hj]. rewrite lookup_drop in Hj.
      specialize (Hap _ _ Hj ltac:(lia) Hlq). unfold apart, in_segment in *. lia.
Qed.
End loading.

(** *** The same file in another memory *)
Section moved.
Context (m m' : mem) (fb len entry phoff : Z) (ps : list elf_phdr).
Context (Helf : elf_at m fb entry phoff ps) (Hfits : elf_fits m fb len phoff ps).
Context (Hsame : agree m m' fb len).

Lemma elf_at_agree : elf_at m' fb entry phoff ps.
Proof.
  pose proof (fits_header _ _ _ _ _ Hfits) as Hh. destruct Helf as [Em Ee Ep En Eps]. split.
  - apply bytes_at_agree with m; [done|]. apply (agree_sub _ _ fb len); [done|lia|cbn; lia].
  - apply word_at_agree with m; [done|]. apply (agree_sub _ _ fb len); [done|lia|lia].
  - apply word_at_agree with m; [done|]. apply (agree_sub _ _ fb len); [done|lia|lia].
  - apply half_at_agree with m; [done|]. apply (agree_sub _ _ fb len); [done|lia|lia].
  - intros i p Hi. pose proof (phdr_range m fb len phoff ps Hfits i p Hi).
    destruct (Eps i p Hi) as (H1 & H2 & H3 & H4 & H5).
    split_and!; (eapply word_at_agree; [eassumption|]); apply (agree_sub _ _ fb len); done || lia.
Qed.

Lemma elf_fits_mapped : (∀ a n, mapped m a n → mapped m' a n) → elf_fits m' fb len phoff ps.
Proof. intros Hmap. destruct Hfits. split; auto. Qed.

Lemma segment_bytes_agree p :
  p ∈ ps → loaded p → segment_bytes m' fb p = segment_bytes m fb p.
Proof.
  intros Hp Hl. unfold segment_bytes. f_equal. apply bytes_from_agree.
  pose proof (fits_source _ _ _ _ _ Hfits p Hp Hl).
  apply list_elem_of_lookup in Hp as [i Hi].
  destruct (elf_phdrs _ _ _ _ _ Helf i p Hi) as (_ & [Ho _] & _ & [Hf _] & _).
  unfold is_u32 in *. apply (agree_sub _ _ fb len); [done|lia|lia].
Qed.
End moved.

(** ** Enabling paging *)

(** The translation of an address through a directory of 4 MB pages. *)
Definition translate (dir : Z → Z) (vaddr : Z) : option Z :=
  let pde := dir (Z.shiftr vaddr 22) in
  if Z.testbit pde 0 && Z.testbit pde 7
  then Some (Z.lor (Z.land pde (Z.lnot (2 ^ 22 - 1))) (Z.land vaddr (2 ^ 22 - 1))) else None.

Section paging.
Context `{HImage : LoaderImage, HDevice : Device}.

Lemma page_dir_identity vaddr : 0 ≤ vaddr < 2 ^ 22 → translate page_dir vaddr = Some vaddr.
Proof.
  intros Hv. unfold translate. rewrite Z.shiftr_div_pow2, Z.div_small by lia. cbn [Z.eqb page_dir].
  change (Z.testbit _ 0 && Z.testbit _ 7) with true. cbn iota. f_equal.
  change (Z.land _ (Z.lnot _)) with 0. rewrite Z.lor_0_l. change (2 ^ 22 - 1) with (Z.ones 22).
  rewrite Z.land_ones, Z.mod_small by lia. done.
Qed.

Lemma page_dir_rest vaddr : 2 ^ 22 ≤ vaddr < 2 ^ 32 → translate page_dir vaddr = None.
Proof.
  intros Hv. unfold translate, page_dir. rewrite Z.shiftr_div_pow2 by lia.
  assert (1 ≤ vaddr / 2 ^ 22) by (apply Z.div_le_lower_bound; lia).
  by replace (vaddr / 2 ^ 22 =? 0) with false by lia.
Qed.

(** The registers after [enable_page_mode]. *)
Definition paging_cpu (c : cpu_t) : cpu_t :=
  Cpu (c_eflags c) (u32 (Z.lor (u16 (c_cr0 c)) CR0_PG)) page_dir_addr
    (Z.lor (u16 (c_cr4 c)) CR4_PSE) (c_tr c) (c_gdtr c) (c_idtr c) (c_io c).

Lemma enable_page_mode_ok s :
  enable_page_mode s = Ok (tt, set_ld_cpu (paging_cpu (ld_cpu s)) s).
Proof. reflexivity. Qed.

Lemma paging_cr0 c : Z.testbit (c_cr0 (paging_cpu c)) 31 = true ∧
  ∀ i, 0 ≤ i < 31 → Z.testbit (c_cr0 (paging_cpu c)) i = bool_decide (i < 16) && Z.testbit (c_cr0 c) i.
Proof.
  cbn [paging_cpu c_cr0]. unfold u32, u16. change CR0_PG with (Z.lnot (2 ^ 31 - 1)). split.
  - rewrite Z.mod_pow2_bits_low, Z.lor_spec, Z.lnot_spec by lia.
    change (2 ^ 31 - 1) with (Z.ones 31). rewrite Z.ones_spec_high by lia. apply orb_true_r.
  - intros i Hi. rewrite Z.mod_pow2_bits_low, Z.lor_spec, Z.lnot_spec, testbit_mod_pow2 by lia.
    change (2 ^ 31 - 1) with (Z.ones 31). rewrite Z.ones_spec_low by lia. apply orb_false_r.
Qed.

Lemma paging_cr4 c : Z.testbit (c_cr4 (paging_cpu c)) 4 = true.
Proof. cbn [paging_cpu c_cr4]. rewrite Z.lor_spec. apply orb_true_r. Qed.
End paging.

(** ** Any bytes: termination and rejection *)

(** Operations on memory that end in a value or a fault, and keep it a memory of
    bytes over the same addresses. *)
Definition orderly {A} (f : stm mem A) : Prop :=
  ∀ m, bytes_ok m →
    match f m with
    | Ok (_, m') => bytes_ok m' ∧ dom m' = dom m
    | Err e => ∃ a, e = Fault a
    end.

Section orderly.
Context {A B : Type}.

Lemma orderly_bind (f : stm mem A) (g : A → stm mem B) :
  orderly f → (∀ a, orderly (g a)) → orderly (f ≫= g).
Proof.
  intros Hf Hg m Hm. specialize (Hf m Hm). unfold mbind, stm_bind.
  destruct (f m) as [[a m1]|e]; [|done]. destruct Hf as [Hm1 Hd]. specialize (Hg a m1 Hm1).
  destruct (g a m1) as [[b m2]|e]; [|done]. destruct Hg as [? Hd2]. by rewrite Hd2.
Qed.

(** The same with a property of the intermediate result. *)
Lemma orderly_bind_value (P : A → Prop) (f : stm mem A) (g : A → stm mem B) :
  orderly f → (∀ m a m', bytes_ok m → f m = Ok (a, m') → P a) →
  (∀ a, P a → orderly (g a)) → orderly (f ≫= g).
Proof.
  intros Hf HP Hg m Hm. specialize (Hf m Hm). unfold mbind, stm_bind.
  destruct (f m) as [[a m1]|e] eqn:E; [|done]. destruct Hf as [Hm1 Hd].
  specialize (Hg a (HP m a m1 Hm E) m1 Hm1).
  destruct (g a m1) as [[b m2]|e]; [|done]. destruct Hg as [? Hd2]. by rewrite Hd2.
Qed.

Lemma orderly_ret (a : A) : orderly (mret a).
Proof. by intros m Hm. Qed.

End orderly.

Section orderly_accesses.
Lemma orderly_load8 a : orderly (load8 a).
Proof. intros m Hm. unfold load8. destruct (m !! a); eauto. Qed.

Lemma orderly_store8 a v : orderly (store8 a v).
Proof.
  intros m Hm. pose proof (keeps_dom_store8 a v m) as Hk. unfold store8 in *.
  destruct (m !! a); [|by eauto]. split; [|by eapply Hk].
  apply (bytes_ok_write m a [u8 v]); [done|]. repeat constructor; apply u8_range.
Qed.

Lemma orderly_load32 a : orderly (load32 a).
Proof. unfold load32. do 4 (apply orderly_bind; [apply orderly_load8|intros ?]). apply orderly_ret. Qed.

Lemma orderly_load16 a : orderly (load16 a).
Proof. unfold load16. do 2 (apply orderly_bind; [apply orderly_load8|intros ?]). apply orderly_ret. Qed.
End orderly_accesses.

(** Loops whose fuel is the size of memory: enough addresses cannot be mapped. *)
Section fuelled.
Implicit Types (m : mem).

(** As [orderly], unless [n] addresses from [dest] on are mapped. *)
Definition orderly_upto {A} (f : stm mem A) (dest n : Z) : Prop :=
  ∀ m, bytes_ok m →
    match f m with
    | Ok (_, m') => bytes_ok m' ∧ dom m' = dom m
    | Err e => (∃ a, e = Fault a) ∨ mapped m dest n
    end.

Lemma mapped_dom m m' a n : dom m' = dom m → mapped m' a n → mapped m a n.
Proof. intros Hd H x Hx. apply elem_of_dom. rewrite <-Hd. by apply elem_of_dom, H. Qed.

Lemma upto_bind {A B} (f : stm mem A) (g : A → stm mem B) dest n :
  orderly f → (∀ a, orderly_upto (g a) dest n) → orderly_upto (f ≫= g) dest n.
Proof.
  intros Hf Hg m Hm. specialize (Hf m Hm). unfold mbind, stm_bind.
  destruct (f m) as [[a m1]|e]; [|by left]. destruct Hf as [Hm1 Hd]. specialize (Hg a m1 Hm1).
  destruct (g a m1) as [[b m2]|e].
  - destruct Hg as [? Hd2]. by rewrite Hd2.
  - destruct Hg as [|Hmap]; [by left|]. right. by apply mapped_dom with m1.
Qed.

Lemma upto_store {A} (f : stm mem A) dest v n :
  orderly_upto f (dest + 1) (Z.of_nat n) →
  orderly_upto (store8 dest v;; f) dest (Z.of_nat (S n)).
Proof.
  intros Hf m Hm. pose proof (orderly_store8 dest v m Hm) as Hs. unfold mbind, stm_bind, store8 in *.
  destruct (m !! dest) as [w|] eqn:Ew; [|by left]. destruct Hs as [Hm1 Hd]. specialize (Hf _ Hm1).
  destruct (f _) as [[a m2]|e].
  - destruct Hf as [? Hd2]. by rewrite Hd2.
  - destruct Hf as [|Hmap]; [by left|]. right. apply mapped_cons; [by eexists|].
    by apply (mapped_dom _ _ _ _ Hd).
Qed.

Lemma upto_zero {A} (f : stm mem A) dest n : n ≤ 0 → (∀ m, f m = Err OutOfFuel) → orderly_upto f dest n.
Proof. intros Hn Hf m Hm. rewrite Hf. right. intros x Hx. lia. Qed.

Lemma upto_ret {A} (a : A) dest n : orderly_upto (mret a) dest n.
Proof. by intros m Hm. Qed.

Lemma elf_copy_upto fuel phdr j dest src :
  orderly_upto (elf_copy fuel phdr j dest src) dest (Z.of_nat fuel).
Proof.
  revert j dest src. induction fuel as [|f IH]; intros j dest src; cbn [elf_copy]; [by apply upto_zero|].
  apply upto_bind; [apply orderly_load32|]. intros n. case_match; [|apply upto_ret].
  apply upto_bind; [apply orderly_load8|]. intros c. apply upto_store, IH.
Qed.

Lemma elf_zero_upto fuel phdr j dest :
  orderly_upto (elf_zero fuel phdr j dest) dest (Z.of_nat fuel).
Proof.
  revert j dest. induction fuel as [|f IH]; intros j dest; cbn [elf_zero]; [by apply upto_zero|].
  do 2 (apply upto_bind; [apply orderly_load32|]; intros ?).
  case_match; [|apply upto_ret]. apply upto_store, IH.
Qed.

(** A loop with the size of memory as fuel is orderly. *)
Lemma orderly_sized {A} (f : nat → stm mem A) dest :
  (∀ n, orderly_upto (f n) dest (Z.of_nat n)) →
  orderly (m ← get; f (S (size m))).
Proof.
  intros Hf m Hm. unfold mbind, stm_bind, get. specialize (Hf (S (size m)) m Hm).
  destruct (f (S (size m)) m) as [[a m']|e]; [done|].
  destruct Hf as [|Hmap]; [done|]. by apply scan_fuel in Hmap.
Qed.

Lemma load_segment_orderly fb phdr : orderly (load_segment fb phdr).
Proof.
  unfold load_segment. apply orderly_bind; [apply orderly_load32|]. intros type.
  destruct (negb (type =? PT_LOAD)); [apply orderly_ret|].
  apply orderly_bind; [apply orderly_load32|]. intros offset.
  apply orderly_bind; [apply orderly_load32|]. intros paddr.
  intros m Hm. rewrite <-stm_bind_assoc. revert m Hm.
  apply (orderly_bind (m ← get; elf_copy (S (size m)) phdr 0 paddr (fb + offset))).
  { apply (orderly_sized (λ n, elf_copy n phdr 0 paddr (fb + offset)) paddr).
    intros n. apply elf_copy_upto. }
  intros _. apply orderly_bind; [apply orderly_load32|]. intros paddr'.
  apply orderly_bind; [apply orderly_load32|]. intros filesz.
  apply (orderly_sized (λ n, elf_zero n phdr 0 (paddr' + filesz)) (paddr' + filesz)).
  intros n. apply elf_zero_upto.
Qed.

Lemma load_segments_orderly fuel fb i :
  0 ≤ i → 65536 ≤ i + Z.of_nat fuel → (0 < fuel)%nat → orderly (load_segments fuel fb i).
Proof.
  revert i. induction fuel as [|f IH]; intros i Hi Hf Hp; [lia|]. cbn [load_segments].
  apply (orderly_bind_value is_u16); [apply orderly_load16| |].
  { intros m n m' Hm E. by apply (load16_range _ _ _ _ Hm) in E as [? _]. }
  intros n Hn. unfold is_u16 in Hn. destruct (Z.ltb_spec i n); [|apply orderly_ret].
  apply orderly_bind; [apply orderly_load32|]. intros phoff.
  apply orderly_bind; [apply load_segment_orderly|]. intros _. apply IH; lia.
Qed.

Lemma reload_elf_file_orderly fb : orderly (reload_elf_file fb).
Proof.
  unfold reload_elf_file, e_ident.
  do 4 (apply orderly_bind; [apply orderly_load8|]; intros ?; case_match; [apply orderly_ret|]).
  apply orderly_bind; [apply load_segments_orderly; lia|]. intros _. apply orderly_load32.
Qed.

(** A file without the magic number is rejected and nothing is loaded. *)
Lemma reload_elf_file_rejects fb b0 b1 b2 b3 m :
  bytes_at m fb [b0; b1; b2; b3] → [b0; b1; b2; b3] ≠ [127; 69; 76; 70] →
  reload_elf_file fb m = Ok (0, m).
Proof.
  intros (M0 & M1 & M2 & M3 & _) Hne. rewrite <-!Z.add_assoc in *.
  unfold reload_elf_file, e_ident, ELF_MAGIC. rewrite Z.add_0_r.
  stm_step (load8_ok _ _ _ M0). destruct (Z.eqb_spec b0 127) as [->|]; cbn [negb]; [|done].
  stm_step (load8_ok _ _ _ M1). destruct (Z.eqb_spec b1 69) as [->|]; cbn [negb]; [|done].
  stm_step (load8_ok _ _ _ M2). destruct (Z.eqb_spec b2 76) as [->|]; cbn [negb]; [|done].
  stm_step (load8_ok _ _ _ M3). destruct (Z.eqb_spec b3 70) as [->|]; cbn [negb]; done.
Qed.
End fuelled.

(** ** The whole stage *)
Section stage.
Context `{HImage : LoaderImage, HAta : AtaDisk polls disk}.
Implicit Types (s : loader_t).

(** Memory once the 500 sectors of the kernel file have been read. *)
Definition kernel_file (m : mem) : mem :=
  write_bytes m SYS_KERNEL_ADDR (disk_bytes disk (256 * 100) (256 * Z.to_nat 500)).

Lemma kernel_file_bytes m : bytes_ok m → bytes_ok (kernel_file m).
Proof.
  intros Hm. unfold kernel_file. apply bytes_ok_write; [exact Hm|apply disk_bytes_u8].
Qed.

Lemma read_kernel_ok s :
  mapped (ld_mem s) SYS_KERNEL_ADDR (512 * 500) →
  ∃ ev, read_disk polls 100 500 SYS_KERNEL_ADDR s =
    Ok (tt, set_ld_mem (kernel_file (ld_mem s)) (set_ld_cpu (add_io ev (ld_cpu s)) s)).
Proof.
  intros Hm. unfold kernel_file.
  apply (read_disk_ok 100 500 SYS_KERNEL_ADDR s); [unfold is_u32; lia|unfold is_u16; lia|exact Hm].
Qed.

Lemma load_kernel_ok s entry phoff ps :
  mapped (ld_mem s) SYS_KERNEL_ADDR (512 * 500) → bytes_ok (ld_mem s) →
  elf_at (kernel_file (ld_mem s)) SYS_KERNEL_ADDR entry phoff ps →
  elf_fits (kernel_file (ld_mem s)) SYS_KERNEL_ADDR (512 * 500) phoff ps → entry ≠ 0 →
  ∃ ev, load_kernel polls s = Ok (CallEntry entry [boot_info_addr],
    Loader (paging_cpu (add_io ev (ld_cpu s)))
      (elf_memory (kernel_file (ld_mem s)) SYS_KERNEL_ADDR ps) (ld_screen s) (ld_boot s)).
Proof.
  intros Hm Hb He Hf Hne. unfold load_kernel. destruct (read_kernel_ok s Hm) as (ev & Hd).
  stm_step Hd. set (s1 := set_ld_mem (kernel_file _) _).
  destruct (reload_elf_file_ok _ _ _ _ _ _ He Hf (kernel_file_bytes _ Hb)) as [E _].
  stm_step (on_mem_ok (reload_elf_file SYS_KERNEL_ADDR) s1 _ _ E).
  rewrite (proj2 (Z.eqb_neq entry 0) Hne). unfold mbind at 1, stm_bind at 1, mret at 1, stm_ret at 1.
  rewrite (stm_bind_ok _ _ _ _ _ (enable_page_mode_ok _)). exists ev. reflexivity.
Qed.

Lemma kernel_file_eq m :
  kernel_file m = write_bytes m SYS_KERNEL_ADDR (disk_bytes disk (256 * 100) (256 * Z.to_nat 500)).
Proof. reflexivity. Qed.
End stage.

#[global] Arguments kernel_file disk m : clear implicits.
#[global] Opaque kernel_file.

(** ** Properties of the protected-mode stage *)

(** [read_disk] asks a 48-bit drive for exactly the sectors it is given and
    stores their words, little-endian, in order from [buffer] on: it waits for
    the drive at every sector, and changes nothing else but the port history. *)
Theorem read_disk_reads `{HAta : AtaDisk polls disk} sector count buffer (s : loader_t) :
  is_u32 sector → is_u16 count → mapped (ld_mem s) buffer (512 * count) →
  ∃ ev, read_disk polls sector count buffer s = Ok (tt,
      set_ld_mem (write_bytes (ld_mem s) buffer
          (disk_bytes disk (256 * sector) (256 * Z.to_nat count)))
        (set_ld_cpu (add_io ev (ld_cpu s)) s)).
Proof. intros Hs Hc Hm. by apply read_disk_ok. Qed.

(** C26: given a well-formed ELF file at [fb] whose segments go to mapped memory
    apart from it, [reload_elf_file] returns the entry point; every [PT_LOAD]
    segment that no later one overlaps holds its bytes of the file followed by
    zeros up to its size in memory; the file and everything outside the segments
    is unchanged. *)
Theorem reload_elf_loads m fb len entry phoff ps :
  elf_at m fb entry phoff ps → elf_fits m fb len phoff ps → bytes_ok m →
  ∃ m', reload_elf_file fb m = Ok (entry, m') ∧
    (∀ i p, ps !! i = Some p → loaded p →
      (∀ j q, ps !! j = Some q → (i < j)%nat → loaded q →
        apart (ph_paddr p) (ph_memsz p) (ph_paddr q) (ph_memsz q)) →
      bytes_at m' (ph_paddr p) (segment_bytes m fb p)) ∧
    agree m m' fb len ∧
    (∀ x, (∀ q, q ∈ ps → loaded q → ¬ in_segment q x) → m' !! x = m !! x).
Proof.
  intros He Hf Hb. destruct (reload_elf_file_ok m fb len entry phoff ps He Hf Hb) as [E [Ha _]].
  eexists. split; [exact E|]. split; [|split; [exact Ha|]].
  - intros i p. by apply (elf_memory_segment m fb len entry phoff ps He Hf).
  - intros x. by apply (elf_memory_outside m fb len entry phoff ps He Hf).
Qed.

(** C27: on any memory of bytes, whatever the headers say, [reload_elf_file]
    ends: it returns a value and leaves a memory of bytes over the same
    addresses, or it stops at an access outside memory. A file without the magic
    number gives 0 and nothing is written. *)
Theorem reload_elf_total m fb :
  bytes_ok m →
  match reload_elf_file fb m with
  | Ok (_, m') => bytes_ok m' ∧ dom m' = dom m
  | Err e => ∃ a, e = Fault a
  end ∧
  (∀ b0 b1 b2 b3, bytes_at m fb [b0; b1; b2; b3] → [b0; b1; b2; b3] ≠ [127; 69; 76; 70] →
    reload_elf_file fb m = Ok (0, m)).
Proof.
  intros Hm. split; [by apply reload_elf_file_orderly|].
  intros b0 b1 b2 b3. apply reload_elf_file_rejects.
Qed.

(** C25: with an ELF file in the 500 sectors from sector 100 on, [load_kernel]
    reads it, loads its segments, turns paging on with the first 4 MB mapped to
    themselves and the rest unmapped, and calls the entry point with the address
    of [boot_info], which still holds what real mode put there. Turning paging
    on keeps only the low half of CR0, protection enabled included. *)
Theorem load_kernel_boots `{HImage : LoaderImage, HAta : AtaDisk polls disk}
    (s : loader_t) entry phoff ps :
  mapped (ld_mem s) SYS_KERNEL_ADDR (512 * 500) → bytes_ok (ld_mem s) →
  let file := kernel_file disk (ld_mem s) in
  elf_at file SYS_KERNEL_ADDR entry phoff ps →
  elf_fits file SYS_KERNEL_ADDR (512 * 500) phoff ps → entry ≠ 0 →
  ∃ s', load_kernel polls s = Ok (CallEntry entry [boot_info_addr], s') ∧
    ld_boot s' = ld_boot s ∧
    (∀ i p, ps !! i = Some p → loaded p →
      (∀ j q, ps !! j = Some q → (i < j)%nat → loaded q →
        apart (ph_paddr p) (ph_memsz p) (ph_paddr q) (ph_memsz q)) →
      bytes_at (ld_mem s') (ph_paddr p) (segment_bytes file SYS_KERNEL_ADDR p)) ∧
    Z.testbit (c_cr0 (ld_cpu s')) 31 = true ∧
    Z.testbit (c_cr0 (ld_cpu s')) 0 = Z.testbit (c_cr0 (ld_cpu s)) 0 ∧
    (∀ i, 16 ≤ i < 31 → Z.testbit (c_cr0 (ld_cpu s')) i = false) ∧
    Z.testbit (c_cr4 (ld_cpu s')) 4 = true ∧ c_cr3 (ld_cpu s') = page_dir_addr ∧
    (∀ vaddr, 0 ≤ vaddr < 2 ^ 22 → translate page_dir vaddr = Some vaddr) ∧
    (∀ vaddr, 2 ^ 22 ≤ vaddr < 2 ^ 32 → translate page_dir vaddr = None).
Proof.
  intros Hm Hb file. subst file. intros He Hf Hne.
  destruct (load_kernel_ok s entry phoff ps Hm Hb He Hf Hne) as (ev & E).
  eexists. split; [exact E|]. cbn [ld_boot ld_mem ld_cpu].
  destruct (paging_cr0 (add_io ev (ld_cpu s))) as [P31 Plow].
  split; [reflexivity|]. split; [|split; [exact P31|]].
  - intros i p. by apply (elf_memory_segment _ _ _ _ _ _ He Hf).
  - split; [by rewrite Plow by lia|]. split.
    { intros i Hi. rewrite Plow by lia. by rewrite bool_decide_false by lia. }
    split; [apply paging_cr4|]. split; [done|].
    split; [apply page_dir_identity|apply page_dir_rest].
Qed.

(** When the sectors read do not start with the ELF magic number,
    [load_kernel] stops in [dile_error] and never enters a kernel. *)
Theorem load_kernel_rejects `{HImage : LoaderImage, HAta : AtaDisk polls disk}
    (s : loader_t) b0 b1 b2 b3 :
  mapped (ld_mem s) SYS_KERNEL_ADDR (512 * 500) →
  bytes_at (kernel_file disk (ld_mem s)) SYS_KERNEL_ADDR [b0; b1; b2; b3] →
  [b0; b1; b2; b3] ≠ [127; 69; 76; 70] →
  load_kernel polls s = Err Halted.
Proof.
  intros Hm Hb Hne. unfold load_kernel. destruct (read_kernel_ok s Hm) as (ev & Hd).
  stm_step Hd. set (s1 := set_ld_mem _ _).
  by stm_step (on_mem_ok (reload_elf_file SYS_KERNEL_ADDR) s1 _ _
    (reload_elf_file_rejects SYS_KERNEL_ADDR b0 b1 b2 b3 (ld_mem s1) Hb Hne)).
Qed.

(** ** Witnesses: a small kernel on a disk that is busy at every other poll *)
Definition demo_elf_words : list Z :=
  [17791; 17996; 257; 1; 0; 0; 0; 0; 2; 3; 1; 0; 0; 1; 52; 0; 0; 0; 0; 0; 52; 32; 1; 0; 0; 0;
   1; 0; 84; 0; 0; 1; 0; 1; 4; 0; 12; 0; 7; 0; 4096; 0; 64234; 61680].

Definition demo_disk (i : Z) : Z := default 0 (demo_elf_words !! Z.to_nat (i - 25600)).

Definition demo_drive : Device := λ io port,
  if port =? 496 then demo_disk (256 * ata_lba io + data_reads io)
  else match io with PortIn 503 _ :: _ => 8 | _ => 128 end.

Lemma demo_drive_ata : @AtaDisk demo_drive 2 demo_disk.
Proof.
  split.
  - intros io _ _. exists 1%nat. split; [lia|]. reflexivity.
  - intros io _ _. reflexivity.
Qed.

(** From 64 KB to the end of the file, with the header and 12 bytes at 64 KB. *)
Definition demo_phdr : elf_phdr := Phdr PT_LOAD 84 65536 4 12.
Definition demo_ram : mem := zero_mem 65536 1239040.
Definition demo_loader32 : loader_t :=
  Loader (Cpu 2 17 0 0 0 (0, 0, 0) (0, 0, 0) []) demo_ram [] (BootInfo [] 0).
#[local] Abbreviation demo_file := (kernel_file demo_disk (ld_mem demo_loader32)).

Lemma demo_ram_mapped a n : 65536 ≤ a → a + n ≤ 1304576 → mapped demo_ram a n.
Proof. intros Ha Hn x Hx. unfold demo_ram. rewrite zero_mem_lookup, decide_True by lia. eauto. Qed.

Lemma demo_ram_zero x : 65536 ≤ x < 1304576 → demo_ram !! x = Some 0.
Proof. intros Hx. unfold demo_ram. by rewrite zero_mem_lookup, decide_True by lia. Qed.

Lemma demo_ram_bytes : bytes_ok demo_ram.
Proof.
  intros x v. unfold demo_ram. rewrite zero_mem_lookup. case_decide; [|done].
  intros [= <-]. unfold is_u8. lia.
Qed.

Lemma write_prefix m a l1 l2 : bytes_at (write_bytes m a (l1 ++ l2)) a l1.
Proof. exact (proj1 (proj1 (bytes_at_app _ _ l1 l2) (bytes_at_write m a (l1 ++ l2)))). Qed.

Lemma demo_file_prefix : bytes_at demo_file SYS_KERNEL_ADDR (disk_bytes demo_disk 25600 44).
Proof.
  rewrite kernel_file_eq. replace (256 * Z.to_nat 500)%nat with (44 + (256 * Z.to_nat 500 - 44))%nat by lia.
  rewrite disk_bytes_app. apply write_prefix.
Qed.

(** Part of a stored list, at a concrete offset. *)
Lemma bytes_at_part m a l k l' :
  bytes_at m a l → take (length l') (drop k l) = l' → bytes_at m (a + Z.of_nat k) l'.
Proof.
  intros H E. apply bytes_at_lookup. intros i v Hi. rewrite <-E in Hi.
  apply lookup_lt_Some in Hi as Hl. rewrite length_take in Hl.
  rewrite lookup_take_lt, lookup_drop in Hi by lia.
  rewrite bytes_at_lookup in H. rewrite <-(H _ _ Hi). f_equal. lia.
Qed.

Ltac demo_word k :=
  split; [vm_compute; split; [discriminate|reflexivity]|];
  apply (bytes_at_part _ _ _ k _ demo_file_prefix); vm_compute; reflexivity.

Lemma demo_file_elf : elf_at demo_file SYS_KERNEL_ADDR 65536 52 [demo_phdr].
Proof.
  split.
  - apply (bytes_at_part _ SYS_KERNEL_ADDR _ 0 _ demo_file_prefix). vm_compute. reflexivity.
  - demo_word 24%nat.
  - demo_word 28%nat.
  - demo_word 44%nat.
  - intros [|i] p; [|done]. intros [= <-]. unfold phdr_at, sizeof_Phdr. rewrite Z.mul_0_l, Z.add_0_r, <-!Z.add_assoc.
    split_and!; [demo_word 52%nat|demo_word 56%nat|demo_word 64%nat|demo_word 68%nat|demo_word 72%nat].
Qed.

Lemma demo_file_fits : elf_fits demo_file SYS_KERNEL_ADDR (512 * 500) 52 [demo_phdr].
Proof.
  assert (Hm : ∀ a n, 65536 ≤ a → a + n ≤ 1304576 → mapped demo_file a n).
  { intros a n Ha Hn. rewrite kernel_file_eq. apply write_bytes_mapped. by apply demo_ram_mapped. }
  assert (Hp : ∀ p, p ∈ [demo_phdr] → p = demo_phdr) by (intros p Hp; by apply list_elem_of_singleton in Hp).
  split; try (intros p ->%Hp _; cbn; unfold SYS_KERNEL_ADDR; lia).
  - lia.
  - cbn [length Z.of_nat]. unfold sizeof_Phdr. lia.
  - apply Hm; unfold SYS_KERNEL_ADDR; lia.
  - intros p ->%Hp _. apply Hm; cbn; lia.
Qed.

Lemma demo_file_bytes : bytes_ok demo_file.
Proof. apply kernel_file_bytes, demo_ram_bytes. Qed.

Lemma demo_segment : segment_bytes demo_file SYS_KERNEL_ADDR demo_phdr =
  [234; 250; 240; 240; 0; 0; 0; 0; 0; 0; 0; 0].
Proof.
  unfold segment_bytes. cbn [ph_offset ph_filesz ph_memsz demo_phdr].
  change (Z.to_nat 4) with (length [234; 250; 240; 240]).
  rewrite (bytes_at_from _ _ [234; 250; 240; 240]); [reflexivity|].
  apply (bytes_at_part _ _ _ 84 _ demo_file_prefix). vm_compute. reflexivity.
Qed.

Lemma read_disk_reads_witness :
  ∃ ev, @read_disk demo_drive 2 100 1 65536 demo_loader32 = Ok (tt,
    set_ld_mem (write_bytes (ld_mem demo_loader32) 65536
        (disk_bytes demo_disk (256 * 100) (256 * Z.to_nat 1)))
      (set_ld_cpu (add_io ev (ld_cpu demo_loader32)) demo_loader32)).
Proof.
  apply (@read_disk_reads demo_drive 2 demo_disk demo_drive_ata 100 1 65536 demo_loader32).
  - vm_compute. split; [discriminate|reflexivity].
  - vm_compute. split; [discriminate|reflexivity].
  - apply demo_ram_mapped; lia.
Defined.

Lemma reload_elf_loads_witness :
  ∃ m', reload_elf_file SYS_KERNEL_ADDR demo_file = Ok (65536, m') ∧
    bytes_at m' 65536 [234; 250; 240; 240; 0; 0; 0; 0; 0; 0; 0; 0].
Proof.
  destruct (reload_elf_loads demo_file SYS_KERNEL_ADDR (512 * 500) 65536 52 [demo_phdr]
    demo_file_elf demo_file_fits demo_file_bytes) as (m' & E & Hs & _).
  exists m'. split; [exact E|]. rewrite <-demo_segment.
  apply (Hs 0%nat demo_phdr); [reflexivity|reflexivity|].
  intros [|j] q Hq Hj; [lia|done].
Defined.

Lemma reload_elf_total_witness :
  reload_elf_file 65536 demo_ram = Ok (0, demo_ram).
Proof.
  destruct (reload_elf_total demo_ram 65536 demo_ram_bytes) as [_ Hr].
  apply (Hr 0 0 0 0); [|discriminate].
  do 4 (split; [apply demo_ram_zero; lia|]). exact I.
Defined.

Lemma load_kernel_boots_witness :
  ∃ s', @load_kernel demo_loader_image demo_drive 2 demo_loader32 = Ok (CallEntry 65536 [34816], s') ∧
    bytes_at (ld_mem s') 65536 [234; 250; 240; 240; 0; 0; 0; 0; 0; 0; 0; 0].
Proof.
  destruct (@load_kernel_boots demo_loader_image demo_drive 2 demo_disk demo_drive_ata
    demo_loader32 65536 52 [demo_phdr]) as (s' & E & _ & Hs & _).
  - apply demo_ram_mapped; unfold SYS_KERNEL_ADDR; lia.
  - exact demo_ram_bytes.
  - exact demo_file_elf.
  - exact demo_file_fits.
  - discriminate.
  - exists s'. split; [exact E|]. rewrite <-demo_segment.
    apply (Hs 0%nat demo_phdr); [reflexivity|reflexivity|].
    intros [|j] q Hq Hj; [lia|done].
Defined.

(** A blank disk. *)
Definition blank_drive : Device := λ io port, if port =? 496 then 0 else 8.

Lemma blank_drive_ata : @AtaDisk blank_drive 1 (λ _, 0).
Proof.
  split.
  - intros io _ _. exists 0%nat. split; [lia|]. reflexivity.
  - intros io _ _. reflexivity.
Qed.

Lemma load_kernel_rejects_witness :
  @load_kernel demo_loader_image blank_drive 1 demo_loader32 = Err Halted.
Proof.
  apply (@load_kernel_rejects demo_loader_image blank_drive 1 (λ _, 0) blank_drive_ata
    demo_loader32 0 0 0 0).
  - apply demo_ram_mapped; unfold SYS_KERNEL_ADDR; lia.
  - rewrite kernel_file_eq. replace (256 * Z.to_nat 500)%nat with (2 + (256 * Z.to_nat 500 - 2))%nat by lia.
    rewrite disk_bytes_app. apply write_prefix.
  - discriminate.
Defined.
