(* ===== verification/Kernel.v ===== *)
(** * The kernel state and the monad of kernel code

    [kstate] gathers what the kernel's C files keep in static variables and in
    the structures they point to. Kernel code is a function [K A]: from a state
    to a result that is a value, an error, or a hardware task switch. At a task
    switch ([far_jump] to a TSS selector) the processor leaves the caller in the
    middle of its code, so the result [KJump] carries the state at that moment
    and the code still to be run when some task switches back. *)
From S2P Require Import Prelude Mem Klib DList CpuInstr Desc.

(** ** Data *)

Inductive task_state : Type :=
| TASK_CREATED | TASK_RUNNING | TASK_SLEEP | TASK_READY | TASK_WAITTING.

#[export] Instance task_state_eq_dec : EqDecision task_state.
Proof. solve_decision. Defined.

Record tss_t : Type := Tss {
  pre_link : Z;
  esp0 : Z; ss0 : Z; esp1 : Z; ss1 : Z; esp2 : Z; ss2 : Z;
  cr3 : Z;
  eip : Z; eflags : Z; eax : Z; ecx : Z; edx : Z; ebx : Z; esp : Z; ebp : Z;
  esi : Z; edi : Z;
  es : Z; cs : Z; ss : Z; ds : Z; fs : Z; gs : Z;
  ldt : Z; iomap : Z
}.

Definition tss_zero : tss_t :=
  Tss 0 0 0 0 0 0 0 0 0 0 0 0 0 0 0 0 0 0 0 0 0 0 0 0 0 0.

(** The list nodes of a task live in the node heap, at fixed offsets from the
    task's address; the other fields are here. *)
Record task_t : Type := Task {
  state : task_state;
  sleep_ticks : Z;
  time_ticks : Z;
  slice_ticks : Z;
  name : list Z;
  tss : tss_t;
  tss_sel : Z
}.

Definition TASK_NAME_SIZE : Z := 32.
Definition TASK_TIME_SLICE_DEFAULT : Z := 10.
Definition OS_TICKS_MS : Z := 10.

(** [offsetof (task_t, run_node)] and so on: four [int] fields and the name
    precede the nodes. *)
Definition run_node_off : Z := 48.
Definition all_node_off : Z := 56.
Definition wait_node_off : Z := 64.
Definition tss_off : Z := 72.
Definition task_size : Z := 180.

Definition run_node (t : Z) : Z := t + run_node_off.
Definition all_node (t : Z) : Z := t + all_node_off.
Definition wait_node (t : Z) : Z := t + wait_node_off.

Record task_manager_t : Type := TaskManager {
  curr_task : Z;
  ready_list : list_t;
  task_list : list_t;
  sleep_list : list_t
}.

Record mutex_t : Type := Mutex { owner : Z; locked_count : Z; mutex_wait_list : list_t }.
Record sem_t : Type := Sem { sem_value : Z; sem_wait_list : list_t }.

(** A bitmap over bytes in memory, and the allocator of physical pages; its mutex
    is the mutex object at [paddr_mutex]. *)
Record bitmap_t : Type := Bitmap { bitcount : Z; bits : Z }.
Record addr_alloc_t : Type := AddrAlloc {
  aa_bitmap : bitmap_t; aa_start : Z; aa_size : Z; aa_page_size : Z
}.

(** Where the linker puts the static objects; [first_task] and [idle_task] are
    members of [task_manager]. *)
Class Layout : Type := {
  task_manager : Z;
  log_mutex : Z;
  gdt_mutex : Z;
  paddr_mutex : Z;
  gdt_table : Z;
  idt_table : Z;
  kernel_page_dir : Z
}.

Definition first_task `{Layout} : Z := task_manager + 40.
Definition idle_task `{Layout} : Z := task_manager + 220.

Record kstate : Type := KState {
  k_cpu : cpu_t;
  k_nodes : nodes;
  k_tasks : gmap Z task_t;
  k_tm : task_manager_t;
  k_mutex : gmap Z mutex_t;
  k_sem : gmap Z sem_t;
  k_gdt : list segment_desc_t;
  k_idt : list gate_desc_t;
  k_sys_tick : Z;
  k_mem : mem;
  k_search_idx : Z;
  k_paddr : addr_alloc_t
}.

(** ** Field updates *)
Definition set_cpu (x : cpu_t) (s : kstate) : kstate :=
  KState x (k_nodes s) (k_tasks s) (k_tm s) (k_mutex s) (k_sem s) (k_gdt s)
    (k_idt s) (k_sys_tick s) (k_mem s) (k_search_idx s) (k_paddr s).
Definition set_nodes (x : nodes) (s : kstate) : kstate :=
  KState (k_cpu s) x (k_tasks s) (k_tm s) (k_mutex s) (k_sem s) (k_gdt s)
    (k_idt s) (k_sys_tick s) (k_mem s) (k_search_idx s) (k_paddr s).
Definition set_tasks (x : gmap Z task_t) (s : kstate) : kstate :=
  KState (k_cpu s) (k_nodes s) x (k_tm s) (k_mutex s) (k_sem s) (k_gdt s)
    (k_idt s) (k_sys_tick s) (k_mem s) (k_search_idx s) (k_paddr s).
Definition set_tm (x : task_manager_t) (s : kstate) : kstate :=
  KState (k_cpu s) (k_nodes s) (k_tasks s) x (k_mutex s) (k_sem s) (k_gdt s)
    (k_idt s) (k_sys_tick s) (k_mem s) (k_search_idx s) (k_paddr s).
Definition set_mutexes (x : gmap Z mutex_t) (s : kstate) : kstate :=
  KState (k_cpu s) (k_nodes s) (k_tasks s) (k_tm s) x (k_sem s) (k_gdt s)
    (k_idt s) (k_sys_tick s) (k_mem s) (k_search_idx s) (k_paddr s).
Definition set_sems (x : gmap Z sem_t) (s : kstate) : kstate :=
  KState (k_cpu s) (k_nodes s) (k_tasks s) (k_tm s) (k_mutex s) x (k_gdt s)
    (k_idt s) (k_sys_tick s) (k_mem s) (k_search_idx s) (k_paddr s).
Definition set_gdt (x : list segment_desc_t) (s : kstate) : kstate :=
  KState (k_cpu s) (k_nodes s) (k_tasks s) (k_tm s) (k_mutex s) (k_sem s) x
    (k_idt s) (k_sys_tick s) (k_mem s) (k_search_idx s) (k_paddr s).
Definition set_idt (x : list gate_desc_t) (s : kstate) : kstate :=
  KState (k_cpu s) (k_nodes s) (k_tasks s) (k_tm s) (k_mutex s) (k_sem s) (k_gdt s)
    x (k_sys_tick s) (k_mem s) (k_search_idx s) (k_paddr s).
Definition set_sys_tick (x : Z) (s : kstate) : kstate :=
  KState (k_cpu s) (k_nodes s) (k_tasks s) (k_tm s) (k_mutex s) (k_sem s) (k_gdt s)
    (k_idt s) x (k_mem s) (k_search_idx s) (k_paddr s).
Definition set_mem (x : mem) (s : kstate) : kstate :=
  KState (k_cpu s) (k_nodes s) (k_tasks s) (k_tm s) (k_mutex s) (k_sem s) (k_gdt s)
    (k_idt s) (k_sys_tick s) x (k_search_idx s) (k_paddr s).
Definition set_search_idx (x : Z) (s : kstate) : kstate :=
  KState (k_cpu s) (k_nodes s) (k_tasks s) (k_tm s) (k_mutex s) (k_sem s) (k_gdt s)
    (k_idt s) (k_sys_tick s) (k_mem s) x (k_paddr s).
Definition set_paddr (x : addr_alloc_t) (s : kstate) : kstate :=
  KState (k_cpu s) (k_nodes s) (k_tasks s) (k_tm s) (k_mutex s) (k_sem s) (k_gdt s)
    (k_idt s) (k_sys_tick s) (k_mem s) (k_search_idx s) x.

(** ** The monad *)
Inductive kres (A : Type) : Type :=
| KRet (a : A) (s : kstate)
| KErr (e : err)
| KJump (sel : Z) (s : kstate) (k : kstate → kres A).
Arguments KRet {A} _ _.
Arguments KErr {A} _.
Arguments KJump {A} _ _ _.

Definition K (A : Type) : Type := kstate → kres A.

Fixpoint kbind {A B} (r : kres A) (f : A → K B) : kres B :=
  match r with
  | KRet a s => f a s
  | KErr e => KErr e
  | KJump sel s k => KJump sel s (λ s', kbind (k s') f)
  end.

#[global] Instance K_ret : MRet K := λ A a s, KRet a s.
#[global] Instance K_bind : MBind K := λ A B f m s, kbind (m s) f.

Definition kthrow {A} (e : err) : K A := λ _, KErr e.
Definition kget : K kstate := λ s, KRet s s.
Definition kmodify (f : kstate → kstate) : K unit := λ s, KRet tt (f s).

(** Running a component's code on its part of the state. *)
Definition with_cpu {A} (m : stm cpu_t A) : K A := λ s,
  match m (k_cpu s) with Ok (a, c) => KRet a (set_cpu c s) | Err e => KErr e end.
Definition with_nodes {A} (m : stm nodes A) : K A := λ s,
  match m (k_nodes s) with Ok (a, h) => KRet a (set_nodes h s) | Err e => KErr e end.
Definition with_gdt {A} (m : stm (list segment_desc_t) A) : K A := λ s,
  match m (k_gdt s) with Ok (a, g) => KRet a (set_gdt g s) | Err e => KErr e end.
Definition with_idt {A} (m : stm (list gate_desc_t) A) : K A := λ s,
  match m (k_idt s) with Ok (a, g) => KRet a (set_idt g s) | Err e => KErr e end.

Definition with_mem {A} (m : stm mem A) : K A := λ s,
  match m (k_mem s) with Ok (a, h) => KRet a (set_mem h s) | Err e => KErr e end.

(** Objects behind pointers. *)
Definition task_get (t : Z) : K task_t := λ s,
  match k_tasks s !! t with Some x => KRet x s | None => KErr (Fault t) end.
Definition task_set (t : Z) (x : task_t) : K unit := λ s,
  match k_tasks s !! t with
  | Some _ => KRet tt (set_tasks (<[t := x]> (k_tasks s)) s)
  | None => KErr (Fault t)
  end.
Definition task_modify (t : Z) (f : task_t → task_t) : K unit :=
  x ← task_get t; task_set t (f x).
Definition mutex_get (m : Z) : K mutex_t := λ s,
  match k_mutex s !! m with Some x => KRet x s | None => KErr (Fault m) end.
Definition mutex_set (m : Z) (x : mutex_t) : K unit := λ s,
  match k_mutex s !! m with
  | Some _ => KRet tt (set_mutexes (<[m := x]> (k_mutex s)) s)
  | None => KErr (Fault m)
  end.
Definition sem_get (m : Z) : K sem_t := λ s,
  match k_sem s !! m with Some x => KRet x s | None => KErr (Fault m) end.
Definition sem_set (m : Z) (x : sem_t) : K unit := λ s,
  match k_sem s !! m with
  | Some _ => KRet tt (set_sems (<[m := x]> (k_sem s)) s)
  | None => KErr (Fault m)
  end.

(** Task fields. *)
Definition task_set_state (st : task_state) (x : task_t) : task_t :=
  Task st (sleep_ticks x) (time_ticks x) (slice_ticks x) (name x) (tss x) (tss_sel x).
Definition task_set_sleep_ticks (n : Z) (x : task_t) : task_t :=
  Task (state x) n (time_ticks x) (slice_ticks x) (name x) (tss x) (tss_sel x).
Definition task_set_time_ticks (n : Z) (x : task_t) : task_t :=
  Task (state x) (sleep_ticks x) n (slice_ticks x) (name x) (tss x) (tss_sel x).
Definition task_set_slice_ticks (n : Z) (x : task_t) : task_t :=
  Task (state x) (sleep_ticks x) (time_ticks x) n (name x) (tss x) (tss_sel x).
Definition task_set_name (l : list Z) (x : task_t) : task_t :=
  Task (state x) (sleep_ticks x) (time_ticks x) (slice_ticks x) l (tss x) (tss_sel x).
Definition task_set_tss (v : tss_t) (x : task_t) : task_t :=
  Task (state x) (sleep_ticks x) (time_ticks x) (slice_ticks x) (name x) v (tss_sel x).
Definition task_set_tss_sel (n : Z) (x : task_t) : task_t :=
  Task (state x) (sleep_ticks x) (time_ticks x) (slice_ticks x) (name x) (tss x) n.

(** Task manager fields. *)
Definition tm_set_curr (t : Z) (tm : task_manager_t) : task_manager_t :=
  TaskManager t (ready_list tm) (task_list tm) (sleep_list tm).
Definition tm_set_ready (l : list_t) (tm : task_manager_t) : task_manager_t :=
  TaskManager (curr_task tm) l (task_list tm) (sleep_list tm).
Definition tm_set_all (l : list_t) (tm : task_manager_t) : task_manager_t :=
  TaskManager (curr_task tm) (ready_list tm) l (sleep_list tm).
Definition tm_set_sleep (l : list_t) (tm : task_manager_t) : task_manager_t :=
  TaskManager (curr_task tm) (ready_list tm) (task_list tm) l.

Definition tm_get : K task_manager_t := λ s, KRet (k_tm s) s.
Definition tm_modify (f : task_manager_t → task_manager_t) : K unit :=
  kmodify (λ s, set_tm (f (k_tm s)) s).

(** [far_jump (sel, 0)] with a TSS selector: the hardware task switch. *)
Definition far_jump (sel : Z) : K unit := λ s, KJump (u16 sel) s (λ s', KRet tt s').

(** Interrupt protection (kernel/cpu/irq.c). *)
Definition irq_disable_global : stm cpu_t unit := cli.
Definition irq_enable_global : stm cpu_t unit := sti.
Definition irq_enter_protection : stm cpu_t Z :=
  state ← read_eflags; irq_disable_global;; mret state.
Definition irq_leave_protection (state : Z) : stm cpu_t unit := write_eflags state.

(** Logging, for the code that calls it: [log_printf (fmt, args)]. *)
Class Logger : Type := log_printf : string → list fmt_arg → K unit.

(** The log mutex is free and nobody waits for it. *)
Definition log_free `{Layout} (s : kstate) : Prop :=
  ∃ l, k_mutex s !! log_mutex = Some (Mutex 0 0 l) ∧ l_count l = 0.

(** What the rest of the kernel relies on: with the log mutex free, a log call
    whose text fits the buffer only adds port accesses. *)
Class LoggerLaws `{HLayout : Layout, HLogger : Logger} : Prop := {
  log_printf_quiet fmt args out s :
    log_free s → format (bytes_of_string fmt) args = Some out →
    Z.of_nat (length out) ≤ 127 →
    ∃ ev, log_printf fmt args s = KRet tt (set_cpu (add_io ev (k_cpu s)) s)
}.

(** ** Laws *)
Section kmonad_laws.
Context {A B C : Type}.

Lemma kbind_ret (m : K A) (f : A → K B) s a s' :
  m s = KRet a s' → (m ≫= f) s = f a s'.
Proof. intros H. unfold mbind, K_bind. by rewrite H. Qed.

Lemma kbind_err (m : K A) (f : A → K B) s e :
  m s = KErr e → (m ≫= f) s = KErr e.
Proof. intros H. unfold mbind, K_bind. by rewrite H. Qed.

Lemma kbind_jump (m : K A) (f : A → K B) s sel s' k :
  m s = KJump sel s' k → (m ≫= f) s = KJump sel s' (λ s'', kbind (k s'') f).
Proof. intros H. unfold mbind, K_bind. by rewrite H. Qed.
End kmonad_laws.

(** The state in which an operation returns or gives up the processor. *)
Definition kstop {A} (r : kres A) : option kstate :=
  match r with
  | KRet _ s => Some s
  | KErr _ => None
  | KJump _ s _ => Some s
  end.

Lemma kstop_bind_ret {A B} (r : kres A) (f : A → K B) s :
  kstop r = Some s → (∀ a s, ∃ b, f a s = KRet b s) → kstop (kbind r f) = Some s.
Proof.
  intros Hr Hf. destruct r as [a s'|e|sel s' k]; cbn in *; simplify_eq; [|done].
  destruct (Hf a s) as [b ->]. done.
Qed.

Ltac kstep H := rewrite (kbind_ret _ _ _ _ _ H); cbn beta.

Section primitives.

Lemma with_nodes_ok {A} (m : stm nodes A) s a h :
  m (k_nodes s) = Ok (a, h) → with_nodes m s = KRet a (set_nodes h s).
Proof. intros H. unfold with_nodes. by rewrite H. Qed.

Lemma with_cpu_ok {A} (m : stm cpu_t A) s a c :
  m (k_cpu s) = Ok (a, c) → with_cpu m s = KRet a (set_cpu c s).
Proof. intros H. unfold with_cpu. by rewrite H. Qed.

Lemma with_gdt_ok {A} (m : stm _ A) s a g :
  m (k_gdt s) = Ok (a, g) → with_gdt m s = KRet a (set_gdt g s).
Proof. intros H. unfold with_gdt. by rewrite H. Qed.

Lemma with_mem_ok {A} (m : stm mem A) s a h :
  m (k_mem s) = Ok (a, h) → with_mem m s = KRet a (set_mem h s).
Proof. intros H. unfold with_mem. by rewrite H. Qed.

Lemma task_get_ok t x s : k_tasks s !! t = Some x → task_get t s = KRet x s.
Proof. intros H. unfold task_get. by rewrite H. Qed.

Lemma task_modify_ok t f x s :
  k_tasks s !! t = Some x →
  task_modify t f s = KRet tt (set_tasks (<[t := f x]> (k_tasks s)) s).
Proof.
  intros H. unfold task_modify. kstep (task_get_ok _ _ _ H). unfold task_set. by rewrite H.
Qed.

Lemma mutex_get_ok m x s : k_mutex s !! m = Some x → mutex_get m s = KRet x s.
Proof. intros H. unfold mutex_get. by rewrite H. Qed.

Lemma mutex_set_ok m x y s :
  k_mutex s !! m = Some y → mutex_set m x s = KRet tt (set_mutexes (<[m := x]> (k_mutex s)) s).
Proof. intros H. unfold mutex_set. by rewrite H. Qed.

Lemma sem_get_ok m x s : k_sem s !! m = Some x → sem_get m s = KRet x s.
Proof. intros H. unfold sem_get. by rewrite H. Qed.

Lemma sem_set_ok m x y s :
  k_sem s !! m = Some y → sem_set m x s = KRet tt (set_sems (<[m := x]> (k_sem s)) s).
Proof. intros H. unfold sem_set. by rewrite H. Qed.
End primitives.

(** One log call and what follows it. *)
Lemma log_then `{LoggerLaws} fmt args s {B} (f : K B) :
  log_free s →
  (∃ out, format (bytes_of_string fmt) args = Some out ∧ Z.of_nat (length out) ≤ 127) →
  ∃ c, (log_printf fmt args;; f) s = f (set_cpu c s).
Proof.
  intros Hl (out & Hf & Hlen). destruct (log_printf_quiet fmt args out s Hl Hf Hlen) as [ev He].
  eexists. by kstep He.
Qed.

(** A line with literal text and at most two numbers fits the buffer. *)
Ltac line_fits :=
  repeat match goal with
  | |- context [AInt ?z] => tryif is_var z then fail else (generalize z; intro)
  end;
  eexists; split; [lazy -[itoa_text app]; reflexivity|];
  repeat (rewrite length_app || cbn [length]);
  repeat match goal with
  | |- context [itoa_text ?a ?b] =>
      let H := fresh in pose proof (itoa_text_length a b) as H;
      generalize dependent (length (itoa_text a b)); intros
  end; lia.
