(* ===== verification/Queues.v ===== *)
(** * The abstract kernel: tasks in queues

    What the linked lists of the scheduler, the mutexes and the semaphores stand
    for: every task waits in at most one place, the ready queue, the sleep queue
    or the wait queue of one mutex or semaphore. [krel] relates a kernel state to
    these queues; the lemmas here show that one list operation on a kernel list
    is one sequence operation on a queue and preserves the relation. *)
From S2P Require Import Prelude Klib DList CpuInstr Desc Kernel.

(** ** Abstract state *)
Inductive place : Type := PReady | PSleep | PAll | PWait (o : Z).

#[export] Instance place_eq_dec : EqDecision place.
Proof. solve_decision. Defined.

Record kabs : Type := KAbs {
  a_curr : Z;
  a_ready : list Z;
  a_sleep : list Z;
  a_all : list Z;
  a_wait : gmap Z (list Z)
}.

Definition queue_at (a : kabs) (p : place) : list Z :=
  match p with
  | PReady => a_ready a
  | PSleep => a_sleep a
  | PAll => a_all a
  | PWait o => match a_wait a !! o with Some q => q | None => [] end
  end.

Definition set_queue (p : place) (q : list Z) (a : kabs) : kabs :=
  match p with
  | PReady => KAbs (a_curr a) q (a_sleep a) (a_all a) (a_wait a)
  | PSleep => KAbs (a_curr a) (a_ready a) q (a_all a) (a_wait a)
  | PAll => KAbs (a_curr a) (a_ready a) (a_sleep a) q (a_wait a)
  | PWait o => KAbs (a_curr a) (a_ready a) (a_sleep a) (a_all a) (<[o := q]> (a_wait a))
  end.

Definition set_curr (t : Z) (a : kabs) : kabs :=
  KAbs t (a_ready a) (a_sleep a) (a_all a) (a_wait a).

(** ** Concrete lists *)
Definition node_off (p : place) : Z :=
  match p with
  | PReady | PSleep => run_node_off
  | PAll => all_node_off
  | PWait _ => wait_node_off
  end.

Definition node_at (p : place) (t : Z) : Z := t + node_off p.

Definition list_at (s : kstate) (p : place) : option list_t :=
  match p with
  | PReady => Some (ready_list (k_tm s))
  | PSleep => Some (sleep_list (k_tm s))
  | PAll => Some (task_list (k_tm s))
  | PWait o =>
      match k_mutex s !! o with
      | Some m => Some (mutex_wait_list m)
      | None => sem_wait_list <$> k_sem s !! o
      end
  end.

(** ** Well-formedness and the relation *)
Record kabs_ok `{Layout} (a : kabs) : Prop := {
  ao_nodup : ∀ p, NoDup (queue_at a p);
  ao_unique : ∀ p q t, t ∈ queue_at a p → t ∈ queue_at a q → p ≠ PAll → q ≠ PAll → p = q;
  ao_idle : ∀ p, p ≠ PAll → idle_task ∉ queue_at a p
}.

(** The task structures: apart from each other, inside the address space, their
    nodes mapped. *)
Record tasks_ok (tasks : gmap Z task_t) (h : nodes) : Prop := {
  to_addr : ∀ t, is_Some (tasks !! t) → 0 < t ∧ t + task_size ≤ 2 ^ 32;
  to_nodes : ∀ t p, is_Some (tasks !! t) → is_Some (h !! node_at p t);
  to_apart : ∀ t u, is_Some (tasks !! t) → is_Some (tasks !! u) →
    t = u ∨ task_size ≤ Z.abs (t - u);
  to_size : Z.of_nat (size tasks) < 2 ^ 31 - 1
}.

Record krel `{Layout} (s : kstate) (a : kabs) : Prop := {
  kr_curr : curr_task (k_tm s) = a_curr a;
  kr_lists : ∀ p l, list_at s p = Some l →
    dlist (k_nodes s) l (node_at p <$> queue_at a p);
  kr_ok : kabs_ok a;
  kr_in : ∀ p t, t ∈ queue_at a p → is_Some (k_tasks s !! t);
  kr_tasks : tasks_ok (k_tasks s) (k_nodes s);
  kr_idle : is_Some (k_tasks s !! idle_task)
}.

(** ** Lemmas *)
Section queues.
Context `{Layout}.
Implicit Types (s : kstate) (a : kabs) (p : place) (t : Z).

Lemma queue_at_set p l a q :
  queue_at (set_queue p l a) q = if decide (p = q) then l else queue_at a q.
Proof.
  destruct p as [| | |o], q as [| | |o']; try done; cbn [queue_at set_queue a_wait].
  destruct (decide (o = o')) as [->|].
  - by rewrite lookup_insert_eq, decide_True.
  - rewrite lookup_insert_ne by done. by rewrite decide_False by congruence.
Qed.

Lemma a_curr_set_queue p l a : a_curr (set_queue p l a) = a_curr a.
Proof. by destruct p. Qed.

Lemma queue_at_set_curr t a q : queue_at (set_curr t a) q = queue_at a q.
Proof. by destruct q. Qed.

#[export] Instance node_at_inj p : Inj (=) (=) (node_at p).
Proof. intros t u. unfold node_at. lia. Qed.

Lemma node_off_pall p q : node_off p = node_off q → p = PAll → q = PAll.
Proof. intros E ->. by destruct q. Qed.

(** Nodes of different queues are different addresses. *)
Lemma nodes_apart s a p q :
  krel s a → p ≠ q →
  ∀ x, x ∈ node_at q <$> queue_at a q → x ∉ node_at p <$> queue_at a p.
Proof.
  intros Hr Hpq x (t & -> & Ht)%list_elem_of_fmap (u & E & Hu)%list_elem_of_fmap.
  unfold node_at in E.
  destruct (to_apart _ _ (kr_tasks _ _ Hr) t u) as [->|Hap]; [by eapply kr_in..| |].
  - assert (node_off p = node_off q) as Eo by lia. apply Hpq.
    destruct (decide (p = PAll)) as [Ep|Ep]; [by rewrite Ep, (node_off_pall _ _ Eo Ep)|].
    eapply ao_unique; [by eapply kr_ok|done|done|done|].
    intros Eq. apply Ep. symmetry in Eo. by apply (node_off_pall _ _ Eo).
  - unfold task_size in Hap. destruct p, q; cbn in E;
      unfold run_node_off, all_node_off, wait_node_off in E; lia.
Qed.

(** A task that is in no queue of a kind has its node outside every list. *)
Lemma node_free s a p q t :
  krel s a → is_Some (k_tasks s !! t) →
  (∀ r, r ≠ PAll → p ≠ PAll → t ∉ queue_at a r) → (p = PAll → t ∉ queue_at a PAll) →
  node_at p t ∉ node_at q <$> queue_at a q.
Proof.
  intros Hr Ht Hfree Hall (u & E & Hu)%list_elem_of_fmap. unfold node_at in E.
  destruct (to_apart _ _ (kr_tasks _ _ Hr) t u) as [->|Hap]; [done|by eapply kr_in| |].
  - assert (node_off p = node_off q) as Eo by lia. destruct (decide (p = PAll)) as [Ep|Ep].
    + rewrite (node_off_pall _ _ Eo Ep) in Hu. by apply Hall.
    + apply (Hfree q); [|done|done]. intros Eq. apply Ep. symmetry in Eo.
      by apply (node_off_pall _ _ Eo).
  - unfold task_size in Hap. destruct p, q; cbn in E;
      unfold run_node_off, all_node_off, wait_node_off in E; lia.
Qed.

Lemma queue_length s a p :
  krel s a → Z.of_nat (length (queue_at a p)) ≤ Z.of_nat (size (k_tasks s)).
Proof.
  intros Hr. apply Nat2Z.inj_le. rewrite <-size_dom.
  rewrite <-(size_list_to_set (C := gset Z)) by apply (ao_nodup _ (kr_ok _ _ Hr)).
  apply subseteq_size. intros t Ht%elem_of_list_to_set.
  apply elem_of_dom. by eapply kr_in.
Qed.

Lemma frame_mapped h h' ys :
  nodes_frame h h' ys → (∀ y, y ∈ ys → is_Some (h' !! y)) →
  ∀ y, is_Some (h !! y) → is_Some (h' !! y).
Proof.
  intros Hf Hy y Hm. destruct (decide (y ∈ ys)) as [Hin|Hin]; [by apply Hy|by rewrite Hf].
Qed.

Lemma tasks_ok_update tasks tasks' h h' :
  tasks_ok tasks h → dom tasks' = dom tasks →
  (∀ y, is_Some (h !! y) → is_Some (h' !! y)) → tasks_ok tasks' h'.
Proof.
  intros [Ha Hn Hp Hs] Hd Hm.
  assert (E : ∀ t, is_Some (tasks' !! t) → is_Some (tasks !! t)).
  { intros t Ht. apply elem_of_dom. rewrite <-Hd. by apply elem_of_dom. }
  split; [by eauto..|]. rewrite <-size_dom, Hd, size_dom. done.
Qed.

(** The states after an update of the list at [p]. *)
Record relisted (s s' : kstate) (p : place) (l : list_t) : Prop := {
  rl_list : list_at s' p = Some l;
  rl_other : ∀ q, q ≠ p → list_at s' q = list_at s q;
  rl_curr : curr_task (k_tm s') = curr_task (k_tm s);
  rl_dom : dom (k_tasks s') = dom (k_tasks s)
}.

(** The relation after the queue at [p] became [q'], its nodes being among [ys]. *)
Lemma krel_update s a s' p l' q' ys :
  krel s a → relisted s s' p l' →
  dlist (k_nodes s') l' (node_at p <$> q') →
  nodes_frame (k_nodes s) (k_nodes s') ys →
  (∀ y, y ∈ ys → is_Some (k_nodes s' !! y)) →
  (∀ q x, q ≠ p → x ∈ node_at q <$> queue_at a q → x ∉ ys) →
  kabs_ok (set_queue p q' a) →
  (∀ t, t ∈ q' → is_Some (k_tasks s !! t)) →
  krel s' (set_queue p q' a).
Proof.
  intros Hr [Hl Ho Hc Hd] Hdl Hf Hys Hdis Hok Hin. split.
  - rewrite a_curr_set_queue, Hc. by apply kr_curr.
  - intros q l. rewrite queue_at_set. destruct (decide (p = q)) as [<-|Hpq].
    + rewrite Hl. by intros [= <-].
    + rewrite Ho by done. intros Hq. eapply dlist_frame_disjoint; [by eapply kr_lists|done|].
      intros x Hx. by eapply Hdis.
  - done.
  - intros q t. rewrite queue_at_set. intros Ht.
    apply elem_of_dom. rewrite Hd. apply elem_of_dom.
    destruct (decide (p = q)); [by apply Hin|by eapply kr_in].
  - eapply tasks_ok_update; [by eapply kr_tasks|done|]. by eapply frame_mapped.
  - apply elem_of_dom. rewrite Hd. apply elem_of_dom. by eapply kr_idle.
Qed.

Lemma kabs_ok_insert a p t :
  kabs_ok a → (p ≠ PAll → t ≠ idle_task) →
  (∀ r, r ≠ PAll → p ≠ PAll → t ∉ queue_at a r) → (p = PAll → t ∉ queue_at a PAll) →
  kabs_ok (set_queue p (queue_at a p ++ [t]) a).
Proof.
  intros [Hnd Hu Hi] Hidle Hfree Hall. split.
  - intros q. rewrite queue_at_set. destruct (decide (p = q)) as [->|]; [|done].
    apply NoDup_app. split; [done|]. split; [|apply NoDup_singleton].
    intros x Hx ->%list_elem_of_singleton. destruct (decide (q = PAll)) as [->|].
    + by apply Hall.
    + by apply (Hfree q).
  - intros q r u. rewrite !queue_at_set. intros Hq Hr Hqn Hrn.
    destruct (decide (p = q)) as [<-|], (decide (p = r)) as [<-|]; try done.
    + apply elem_of_app in Hq as [Hq| ->%list_elem_of_singleton]; [by eapply Hu|].
      by apply Hfree in Hr.
    + apply elem_of_app in Hr as [Hr| ->%list_elem_of_singleton]; [by eapply Hu|].
      by apply Hfree in Hq.
    + by eapply Hu.
  - intros q Hq. rewrite queue_at_set. destruct (decide (p = q)) as [->|]; [|by apply Hi].
    apply not_elem_of_app. split; [by apply Hi|]. apply not_elem_of_cons.
    split; [|apply not_elem_of_nil]. intros E. by apply Hidle.
Qed.

Lemma kabs_ok_shrink a p q' :
  kabs_ok a → NoDup q' → (∀ t, t ∈ q' → t ∈ queue_at a p) →
  kabs_ok (set_queue p q' a).
Proof.
  intros [Hnd Hu Hi] Hnd' Hsub. split.
  - intros q. rewrite queue_at_set. by destruct (decide (p = q)).
  - intros q r u. rewrite !queue_at_set. intros Hq Hr Hqn Hrn.
    destruct (decide (p = q)) as [<-|], (decide (p = r)) as [<-|]; try done; eauto.
  - intros q Hq. rewrite queue_at_set. destruct (decide (p = q)) as [->|]; [|by apply Hi].
    intros Hin. by apply (Hi q), Hsub.
Qed.

(** ** List operations on kernel lists *)

Lemma krel_insert_last s a p t l :
  krel s a → list_at s p = Some l → is_Some (k_tasks s !! t) →
  (p ≠ PAll → t ≠ idle_task) →
  (∀ r, r ≠ PAll → p ≠ PAll → t ∉ queue_at a r) → (p = PAll → t ∉ queue_at a PAll) →
  ∃ l' h', list_insert_last l (node_at p t) (k_nodes s) = Ok (l', h') ∧
    ∀ s', k_nodes s' = h' → relisted s s' p l' →
      krel s' (set_queue p (queue_at a p ++ [t]) a).
Proof.
  intros Hr Hl Ht Hidle Hfree Hall.
  pose proof (kr_tasks _ _ Hr) as Hto. pose proof (to_addr _ _ Hto t Ht) as Haddr.
  pose proof (queue_length s a p Hr) as Hlen. pose proof (to_size _ _ Hto) as Hsz.
  destruct (list_insert_last_ok (k_nodes s) l (node_at p <$> queue_at a p) (node_at p t))
    as (l' & h' & Hop & Hd & Hf).
  - by apply kr_lists.
  - by apply (to_nodes _ _ Hto).
  - unfold node_at. destruct p; cbn; unfold run_node_off, all_node_off, wait_node_off; lia.
  - by apply (node_free s).
  - rewrite length_fmap. lia.
  - exists l', h'. split; [done|]. intros s' <- Hrl.
    eapply (krel_update _ _ _ _ _ _ _ Hr Hrl); [|exact Hf| | | |].
    + by rewrite fmap_app.
    + intros y Hy. eapply dlist_in; [exact Hd|]. apply elem_of_app.
      apply elem_of_cons in Hy as [->|Hy]; [right; by left|by left].
    + intros q x Hq Hx. apply not_elem_of_cons. split.
      * intros ->. by apply (node_free s a p q t) in Hx.
      * by eapply nodes_apart.
    + by apply kabs_ok_insert; [eapply kr_ok|..].
    + intros u [Hu| ->%list_elem_of_singleton]%elem_of_app; [by eapply kr_in|done].
Qed.

Lemma krel_remove s a p t l :
  krel s a → list_at s p = Some l → t ∈ queue_at a p →
  ∃ l' h' q1 q2, list_remove l (node_at p t) (k_nodes s) = Ok ((node_at p t, l'), h') ∧
    queue_at a p = q1 ++ t :: q2 ∧
    ∀ s', k_nodes s' = h' → relisted s s' p l' →
      krel s' (set_queue p (q1 ++ q2) a).
Proof.
  intros Hr Hl (q1 & q2 & Eq)%list_elem_of_split.
  pose proof (kr_lists _ _ Hr _ _ Hl) as Hd. rewrite Eq, fmap_app in Hd. cbn in Hd.
  pose proof (ao_nodup _ (kr_ok _ _ Hr) p) as Hnd. rewrite Eq in Hnd.
  destruct (list_remove_ok _ _ _ _ _ Hd) as (l' & h' & Hop & Hd' & Hn & Hf).
  exists l', h', q1, q2. split; [done|]. split; [done|]. intros s' <- Hrl.
  assert (Hsub : ∀ u, u ∈ q1 ++ q2 → u ∈ queue_at a p).
  { intros u. rewrite Eq, !elem_of_app, elem_of_cons. tauto. }
  eapply (krel_update _ _ _ _ _ _ _ Hr Hrl); [|exact Hf| | | |].
  - by rewrite fmap_app.
  - intros y Hy. destruct (decide (y = node_at p t)) as [->|Hne]; [by eauto|].
    eapply dlist_in; [exact Hd'|]. rewrite elem_of_app in *. rewrite elem_of_cons in Hy. tauto.
  - intros q x Hq Hx. pose proof (nodes_apart s a p q Hr (not_eq_sym Hq) x Hx) as Hna.
    by rewrite Eq, fmap_app in Hna.
  - apply kabs_ok_shrink; [by eapply kr_ok| |done].
    apply NoDup_app in Hnd as (? & Hx & [? ?]%NoDup_cons). apply NoDup_app. split; [done|].
    split; [|done]. intros u Hu. specialize (Hx u Hu). by apply not_elem_of_cons in Hx as [].
  - intros u Hu. by eapply kr_in, Hsub.
Qed.

Lemma krel_remove_first s a p t q l :
  krel s a → list_at s p = Some l → queue_at a p = t :: q →
  ∃ l' h', list_remove_first l (k_nodes s) = Ok ((node_at p t, l'), h') ∧
    ∀ s', k_nodes s' = h' → relisted s s' p l' → krel s' (set_queue p q a).
Proof.
  intros Hr Hl Eq.
  pose proof (kr_lists _ _ Hr _ _ Hl) as Hd. rewrite Eq in Hd. cbn in Hd.
  pose proof (ao_nodup _ (kr_ok _ _ Hr) p) as Hnd. rewrite Eq in Hnd.
  destruct (list_remove_first_cons _ _ _ _ Hd) as (l' & h' & Hop & Hd' & Hn & Hf).
  exists l', h'. split; [done|]. intros s' <- Hrl.
  eapply (krel_update _ _ _ _ _ _ _ Hr Hrl); [done|exact Hf| | | |].
  - intros y [->|Hy]%elem_of_cons; [by eauto|]. by eapply dlist_in.
  - intros r x Hq Hx. pose proof (nodes_apart s a p r Hr (not_eq_sym Hq) x Hx) as Hna.
    by rewrite Eq in Hna.
  - apply kabs_ok_shrink; [by eapply kr_ok|by apply NoDup_cons in Hnd as []|].
    intros u Hu. rewrite Eq. by right.
  - intros u Hu. eapply kr_in; [exact Hr|]. rewrite Eq. by right.
Qed.

(** Reading the head of a list. *)
Lemma krel_list_count s a p l :
  krel s a → list_at s p = Some l → list_count l = Z.of_nat (length (queue_at a p)).
Proof. intros Hr Hl. unfold list_count. by rewrite (dl_count _ _ _ (kr_lists _ _ Hr _ _ Hl)), length_fmap. Qed.

Lemma krel_list_first s a p l t q :
  krel s a → list_at s p = Some l → queue_at a p = t :: q → list_first l = node_at p t.
Proof.
  intros Hr Hl Eq. unfold list_first.
  by rewrite (dl_first _ _ _ (kr_lists _ _ Hr _ _ Hl)), Eq.
Qed.

Lemma krel_node_next s a p l t (q1 q2 : list Z) :
  krel s a → list_at s p = Some l → queue_at a p = q1 ++ t :: q2 →
  list_node_next (node_at p t) (k_nodes s) = Ok (hd_or 0 (node_at p <$> q2), k_nodes s).
Proof.
  intros Hr Hl Eq. pose proof (dl_seg _ _ _ (kr_lists _ _ Hr _ _ Hl)) as Hs.
  rewrite Eq, fmap_app in Hs. apply dseg_app in Hs as [_ [Hn _]].
  by rewrite (list_node_next_ok _ _ _ Hn).
Qed.

Lemma node_at_nonzero s a p t :
  krel s a → is_Some (k_tasks s !! t) → node_at p t ≠ 0.
Proof.
  intros Hr Ht. destruct (to_addr _ _ (kr_tasks _ _ Hr) t Ht) as [H1 _].
  unfold node_at. destruct p; cbn; unfold run_node_off, all_node_off, wait_node_off; lia.
Qed.

Lemma queue_length_nodes s a p l :
  krel s a → list_at s p = Some l → (length (queue_at a p) ≤ size (k_nodes s))%nat.
Proof.
  intros Hr Hl. rewrite <-size_dom, <-(length_fmap (node_at p)).
  rewrite <-(size_list_to_set (C := gset Z)) by apply (dl_nodup _ _ _ (kr_lists _ _ Hr _ _ Hl)).
  apply subseteq_size. intros x Hx%elem_of_list_to_set. apply elem_of_dom.
  eapply dlist_in; [by eapply kr_lists|done].
Qed.

Lemma krel_parent s a p t :
  krel s a → is_Some (k_tasks s !! t) → list_node_parent (node_at p t) (node_off p) = t.
Proof.
  intros Hr Ht. destruct (to_addr _ _ (kr_tasks _ _ Hr) t Ht) as [H1 H2].
  unfold task_size in H2. apply list_node_parent_ok; [done| |];
    destruct p; cbn; unfold run_node_off, all_node_off, wait_node_off; lia.
Qed.

(** The relation does not look at the processor, the descriptor tables, the time
    or the scalar fields of tasks. *)
Lemma krel_ext s s' a :
  krel s a → k_nodes s' = k_nodes s → (∀ p, list_at s' p = list_at s p) →
  curr_task (k_tm s') = curr_task (k_tm s) → dom (k_tasks s') = dom (k_tasks s) →
  krel s' a.
Proof.
  intros [Hc Hl Hok Hin Hto Hid] En El Ec Ed. split; try done.
  - by rewrite Ec.
  - intros p l. rewrite El, En. apply Hl.
  - intros p t Ht. apply elem_of_dom. rewrite Ed. apply elem_of_dom. by eapply Hin.
  - rewrite En. by eapply tasks_ok_update.
  - apply elem_of_dom. rewrite Ed. by apply elem_of_dom.
Qed.

Lemma krel_set_curr s a t :
  krel s a → krel (set_tm (tm_set_curr t (k_tm s)) s) (set_curr t a).
Proof.
  intros [Hc Hl Hok Hin Hto Hid]. split; try done. by destruct Hok.
Qed.

(** *** Facts about the abstract queues *)
Lemma set_queue_twice p (l1 l2 : list Z) a :
  set_queue p l2 (set_queue p l1 a) = set_queue p l2 a.
Proof. destruct p; try done. cbn. by rewrite insert_insert_eq. Qed.

Lemma set_curr_set_queue p l t a : set_curr t (set_queue p l a) = set_queue p l (set_curr t a).
Proof. by destruct p. Qed.

(** Deleting one element of a duplicate-free queue. *)
Lemma filter_delete t (q1 q2 : list Z) :
  NoDup (q1 ++ t :: q2) → filter (λ u, u ≠ t) (q1 ++ t :: q2) = q1 ++ q2.
Proof.
  intros (_ & Hd & [Ht _]%NoDup_cons)%NoDup_app.
  assert (E : ∀ q : list Z, t ∉ q → filter (λ u, u ≠ t) q = q).
  { induction q as [|u q IH]; [done|]. intros [Hu Hq]%not_elem_of_cons.
    rewrite filter_cons_True by congruence. by rewrite IH. }
  rewrite filter_app, filter_cons_False by tauto. rewrite !E; [done|done|].
  intros Hin. apply (Hd t Hin). left.
Qed.

(** Once deleted from its queue a task is in no queue. *)
Lemma free_after_delete a p t (q1 q2 : list Z) :
  kabs_ok a → p ≠ PAll → queue_at a p = q1 ++ t :: q2 →
  ∀ r, r ≠ PAll → t ∉ queue_at (set_queue p (q1 ++ q2) a) r.
Proof.
  intros [Hnd Hu _] Hp Eq r Hr. rewrite queue_at_set. specialize (Hnd p). rewrite Eq in Hnd.
  destruct (decide (p = r)) as [<-|Hne].
  - apply NoDup_app in Hnd as (_ & Hd & [Ht _]%NoDup_cons).
    apply not_elem_of_app. split; [|done]. intros Hin. apply (Hd t Hin). left.
  - intros Hin. apply Hne. apply (Hu p r t); [|done|done|done].
    rewrite Eq. apply elem_of_app. right. left.
Qed.
End queues.
