(* ===== verification/ListRef.v ===== *)
(** * List operations through a pointer

    [list_ref] is a pointer to a [list_t] inside another object, such as
    [&mutex->wait_list]; [refers] states which place of the abstract kernel it
    points to, and the lemmas lift the queue lemmas of [Queues] to it. *)
From S2P Require Import Prelude DList Kernel Queues.

(** ** Pointers to lists *)
Record list_ref : Type := ListRef { lr_get : K list_t; lr_set : list_t → K unit }.

Definition klist_count (r : list_ref) : K Z := l ← lr_get r; mret (list_count l).

Definition klist_insert_last (r : list_ref) (node : Z) : K unit :=
  l ← lr_get r; l' ← with_nodes (list_insert_last l node); lr_set r l'.

Definition klist_remove_first (r : list_ref) : K Z :=
  l ← lr_get r; '(node, l') ← with_nodes (list_remove_first l); lr_set r l';; mret node.

(** [r] points to the list of place [p] in the states of [P]; [upd] is the state
    after a store through it. *)
Record refers `{Layout} (P : kstate → Prop) (r : list_ref) (p : place)
    (upd : list_t → kstate → kstate) : Prop := {
  rf_get s : P s → ∃ l, list_at s p = Some l ∧ lr_get r s = KRet l s;
  rf_set s l : P s → lr_set r l s = KRet tt (upd l s) ∧ list_at (upd l s) p = Some l ∧
    (∀ q, q ≠ p → list_at (upd l s) q = list_at s q);
  rf_nodes s l : k_nodes (upd l s) = k_nodes s;
  rf_tasks s l : k_tasks (upd l s) = k_tasks s;
  rf_tm s l : k_tm (upd l s) = k_tm s;
  rf_cpu s l : k_cpu (upd l s) = k_cpu s;
  rf_stable s s' : P s → k_mutex s' = k_mutex s → k_sem s' = k_sem s → P s'
}.

Section list_refs.
Context `{Layout}.
Context {P : kstate → Prop} {r : list_ref} {p : place} {upd : list_t → kstate → kstate}.
Context (Href : refers P r p upd).
Implicit Types (s : kstate) (a : kabs) (t : Z).

Lemma upd_relisted s l h : P s → relisted s (upd l (set_nodes h s)) p l.
Proof.
  intros HP. assert (HP' : P (set_nodes h s)) by by eapply (rf_stable _ _ _ _ Href).
  destruct (rf_set _ _ _ _ Href (set_nodes h s) l HP') as (_ & Hl & Ho).
  split; [done| | |].
  - intros q Hq. by rewrite Ho.
  - by rewrite (rf_tm _ _ _ _ Href).
  - by rewrite (rf_tasks _ _ _ _ Href).
Qed.

Lemma klist_count_ok s a :
  krel s a → P s → klist_count r s = KRet (Z.of_nat (length (queue_at a p))) s.
Proof.
  intros Hr HP. destruct (rf_get _ _ _ _ Href s HP) as (l & Hl & Hg). unfold klist_count.
  kstep Hg. by rewrite (krel_list_count _ _ _ _ Hr Hl).
Qed.

Lemma klist_insert_last_ok s a t :
  krel s a → P s → p ≠ PAll → is_Some (k_tasks s !! t) → t ≠ idle_task →
  (∀ q, q ≠ PAll → t ∉ queue_at a q) →
  ∃ l h, klist_insert_last r (node_at p t) s = KRet tt (upd l (set_nodes h s)) ∧
    krel (upd l (set_nodes h s)) (set_queue p (queue_at a p ++ [t]) a).
Proof.
  intros Hr HP Hp Ht Hidle Hfree. destruct (rf_get _ _ _ _ Href s HP) as (l0 & Hl & Hg).
  destruct (krel_insert_last s a p t l0) as (l & h & Hop & Hk); try done; [by intros; apply Hfree|].
  exists l, h. split; [|apply Hk; [by rewrite (rf_nodes _ _ _ _ Href)|by apply upd_relisted]].
  unfold klist_insert_last. kstep Hg. kstep (with_nodes_ok _ _ _ _ Hop).
  apply (rf_set _ _ _ _ Href). by eapply (rf_stable _ _ _ _ Href).
Qed.

Lemma klist_remove_first_ok s a t q :
  krel s a → P s → queue_at a p = t :: q →
  ∃ l h, klist_remove_first r s = KRet (node_at p t) (upd l (set_nodes h s)) ∧
    krel (upd l (set_nodes h s)) (set_queue p q a).
Proof.
  intros Hr HP Eq. destruct (rf_get _ _ _ _ Href s HP) as (l0 & Hl & Hg).
  destruct (krel_remove_first s a p t q l0) as (l & h & Hop & Hk); try done.
  exists l, h. split; [|apply Hk; [by rewrite (rf_nodes _ _ _ _ Href)|by apply upd_relisted]].
  unfold klist_remove_first. kstep Hg. kstep (with_nodes_ok _ _ _ _ Hop).
  assert (HP' : P (set_nodes h s)) by by eapply (rf_stable _ _ _ _ Href).
  by kstep (proj1 (rf_set _ _ _ _ Href (set_nodes h s) l HP')).
Qed.
End list_refs.

