(* ===== verification/Demo.v ===== *)
(** * Concrete kernel states

    A state built from given queues, and a decision procedure for [krel]: the
    witnesses of the kernel's theorems evaluate it on small kernels. *)
From S2P Require Import Prelude Mem Klib DList CpuInstr Desc Kernel Queues.

(** ** Linking nodes into lists *)
Fixpoint link_nodes (h : nodes) (p : Z) (xs : list Z) : nodes :=
  match xs with
  | [] => h
  | x :: xs' => <[x := ListNode p (hd_or 0 xs')]> (link_nodes h x xs')
  end.

Definition linked_list (xs : list Z) : list_t :=
  List (hd_or 0 xs) (last_or 0 xs) (Z.of_nat (length xs)).

(** ** Deciding the relation *)
#[export] Instance node_eq_dec : EqDecision list_node_t.
Proof. solve_decision. Defined.

#[export] Instance dseg_dec h p xs nx : Decision (dseg h p xs nx).
Proof. revert p. induction xs as [|x xs IH]; intros p; cbn; apply _. Defined.

Definition dlist_checked (h : nodes) (l : list_t) (xs : list Z) : Prop :=
  dseg h 0 xs 0 ∧ l_first l = hd_or 0 xs ∧ l_last l = last_or 0 xs ∧
  l_count l = Z.of_nat (length xs) ∧ NoDup xs ∧ (0 ∉ xs) ∧ Z.of_nat (length xs) < 2 ^ 31.

Section deciding.
Context `{Layout}.

(** The places a state mentions: the others are empty. *)
Definition wait_places (s : kstate) (a : kabs) : list place :=
  ((λ x, PWait x.1) <$> map_to_list (k_mutex s)) ++
  ((λ x, PWait x.1) <$> map_to_list (k_sem s)) ++ ((λ x, PWait x.1) <$> map_to_list (a_wait a)).
Definition run_places (s : kstate) (a : kabs) : list place := PReady :: PSleep :: wait_places s a.

Definition list_checked (s : kstate) (a : kabs) (p : place) : Prop :=
  match list_at s p with
  | Some l => dlist_checked (k_nodes s) l (node_at p <$> queue_at a p)
  | None => True
  end.

Definition task_checked (h : nodes) (t : Z) : Prop :=
  0 < t ∧ t + task_size ≤ 2 ^ 32 ∧
  is_Some (h !! run_node t) ∧ is_Some (h !! all_node t) ∧ is_Some (h !! wait_node t).

Definition krel_checked (s : kstate) (a : kabs) : Prop :=
  curr_task (k_tm s) = a_curr a ∧
  Forall (list_checked s a) (PAll :: run_places s a) ∧
  Forall (λ p, NoDup (queue_at a p)) (PAll :: run_places s a) ∧
  Forall (λ p, Forall (λ q, Forall (λ t, t ∈ queue_at a q → p = q) (queue_at a p))
                 (run_places s a)) (run_places s a) ∧
  Forall (λ p, idle_task ∉ queue_at a p) (run_places s a) ∧
  Forall (λ p, Forall (λ t, is_Some (k_tasks s !! t)) (queue_at a p)) (PAll :: run_places s a) ∧
  Forall (task_checked (k_nodes s)) (fst <$> map_to_list (k_tasks s)) ∧
  Forall (λ t, Forall (λ u, t = u ∨ task_size ≤ Z.abs (t - u)) (fst <$> map_to_list (k_tasks s)))
    (fst <$> map_to_list (k_tasks s)) ∧
  Z.of_nat (size (k_tasks s)) < 2 ^ 31 - 1 ∧
  is_Some (k_tasks s !! idle_task).

#[export] Instance list_checked_dec s a p : Decision (list_checked s a p).
Proof. unfold list_checked, dlist_checked. destruct (list_at s p); apply _. Defined.

#[export] Instance task_checked_dec h t : Decision (task_checked h t).
Proof. unfold task_checked. apply _. Defined.

#[export] Instance krel_checked_dec s a : Decision (krel_checked s a).
Proof. unfold krel_checked. repeat apply and_dec; apply _. Defined.

(** *** The procedure is sound *)
Lemma place_cases s a p :
  p = PAll ∨ p ∈ run_places s a ∨ (list_at s p = None ∧ queue_at a p = []).
Proof.
  destruct p as [| | |o]; [right; left; left|right; left; right; left|by left|].
  assert (Hin : ∀ A (m : gmap Z A) x, m !! o = Some x →
    PWait o ∈ (λ x, PWait x.1) <$> map_to_list m).
  { intros A m x Hm. apply list_elem_of_fmap. exists (o, x). split; [done|].
    by apply elem_of_map_to_list. }
  destruct (k_mutex s !! o) eqn:Em; [|destruct (k_sem s !! o) eqn:Es;
    [|destruct (a_wait a !! o) eqn:Ew]].
  1-3: right; left; do 2 right; unfold wait_places; rewrite !elem_of_app; eauto 6.
  right. right. cbn. by rewrite Em, Es, Ew.
Qed.

Lemma run_place s a p t : p ≠ PAll → t ∈ queue_at a p → p ∈ run_places s a.
Proof.
  intros Hp Ht. destruct (place_cases s a p) as [?|[?|[_ Eq]]]; [done|done|].
  rewrite Eq in Ht. by apply not_elem_of_nil in Ht.
Qed.

Lemma krel_checked_tasks s a : krel_checked s a → tasks_ok (k_tasks s) (k_nodes s).
Proof.
  intros (_ & _ & _ & _ & _ & _ & Ht & Hap & Hsz & _).
  assert (Hin : ∀ t, is_Some (k_tasks s !! t) → t ∈ fst <$> map_to_list (k_tasks s)).
  { intros t [x Hx]. apply list_elem_of_fmap. exists (t, x). split; [done|].
    by apply elem_of_map_to_list. }
  rewrite !Forall_forall in Ht, Hap. split; [..|done].
  - intros t Hs%Hin. by destruct (Ht t Hs) as (? & ? & _).
  - intros t p Hs%Hin. destruct (Ht t Hs) as (_ & _ & ? & ? & ?). by destruct p.
  - intros t u Hs%Hin Hu%Hin. specialize (Hap t Hs). rewrite Forall_forall in Hap. by apply Hap.
Qed.

Lemma krel_checked_ok s a : krel_checked s a → krel s a.
Proof.
  intros Hc. pose proof (krel_checked_tasks s a Hc) as Hto.
  destruct Hc as (Hcur & Hl & Hnd & Hu & Hi & Hin & _ & _ & _ & Hid).
  rewrite !Forall_forall in Hl, Hnd, Hu, Hi, Hin.
  assert (Hp : ∀ p, p ∈ PAll :: run_places s a ∨ (list_at s p = None ∧ queue_at a p = [])).
  { intros p. destruct (place_cases s a p) as [->|[?|?]]; [left; left|left; by right|by right]. }
  split; [done| | | |done|done].
  - intros p l El. destruct (Hp p) as [Hpin|[En _]]; [|congruence].
    specialize (Hl p Hpin). unfold list_checked in Hl. rewrite El in Hl.
    by destruct Hl as (? & ? & ? & ? & ? & ? & ?).
  - split.
    + intros p. destruct (Hp p) as [Hpin|[_ ->]]; [by apply Hnd|apply NoDup_nil_2].
    + intros p q t Htp Htq Hpa Hqa.
      specialize (Hu p (run_place s a p t Hpa Htp)). rewrite Forall_forall in Hu.
      specialize (Hu q (run_place s a q t Hqa Htq)). rewrite Forall_forall in Hu. by apply (Hu t).
    + intros p Hpa Hip. by apply (Hi p (run_place s a p idle_task Hpa Hip)).
  - intros p t Ht. destruct (Hp p) as [Hpin|[_ Eq]].
    + specialize (Hin p Hpin). rewrite Forall_forall in Hin. by apply Hin.
    + rewrite Eq in Ht. by apply not_elem_of_nil in Ht.
Qed.
End deciding.

Ltac decide_krel := apply krel_checked_ok; decide_vm.

(** ** A small kernel *)
Definition demo_layout : Layout := {|
  task_manager := 4096; log_mutex := 8192; gdt_mutex := 8224; paddr_mutex := 8288;
  gdt_table := 16384; idt_table := 20480; kernel_page_dir := 24576
|}.

Definition demo_task (st : task_state) (nm : string) (sleep slice sel : Z) : task_t :=
  Task st sleep TASK_TIME_SLICE_DEFAULT slice (bytes_of_string nm) tss_zero sel.

#[local] Existing Instance demo_layout.

(** Three tasks beside the first and the idle task. *)
Definition task_a : Z := 12288.
Definition task_b : Z := 12544.
Definition task_c : Z := 12800.

Definition demo_tasks : gmap Z task_t :=
  {[ first_task := demo_task TASK_RUNNING "first task" 0 10 32;
     idle_task := demo_task TASK_CREATED "idle task" 0 10 24;
     task_a := demo_task TASK_READY "a" 0 1 40;
     task_b := demo_task TASK_READY "b" 0 10 48;
     task_c := demo_task TASK_SLEEP "c" 2 10 56 ]}.

Definition demo_cpu : cpu_t :=
  Cpu 514 17 0 0 24 (0, 0, 0) (0, 0, 0) [].

(** The nodes of every task, detached, then linked as the queues say. *)
Definition task_nodes (ts : list Z) : nodes :=
  list_to_map (concat ((λ t, [(run_node t, ListNode 0 0); (all_node t, ListNode 0 0);
                              (wait_node t, ListNode 0 0)]) <$> ts)).

Definition link_place (a : kabs) (p : place) (h : nodes) : nodes :=
  link_nodes h 0 (node_at p <$> queue_at a p).

(** The kernel with the queues of [a]; [mx] gives owner and count of each mutex,
    [sm] the value of each semaphore. *)
Definition demo_kernel (a : kabs) (tasks : gmap Z task_t) (mx : list (Z * (Z * Z)))
    (sm : list (Z * Z)) : kstate :=
  let wl o := linked_list (wait_node <$> queue_at a (PWait o)) in
  let ps := PReady :: PSleep :: PAll :: ((λ x, PWait x.1) <$> map_to_list (a_wait a)) in
  KState demo_cpu
    (foldr (link_place a) (task_nodes (fst <$> map_to_list tasks)) ps) tasks
    (TaskManager (a_curr a) (linked_list (run_node <$> a_ready a))
       (linked_list (all_node <$> a_all a)) (linked_list (run_node <$> a_sleep a)))
    (list_to_map ((λ x, (x.1, Mutex x.2.1 x.2.2 (wl x.1))) <$> mx))
    (list_to_map ((λ x, (x.1, Sem x.2 (wl x.1))) <$> sm))
    [] [] 0 ∅ 0 (AddrAlloc (Bitmap 0 0) 0 0 0).

Definition free_mutexes : list (Z * (Z * Z)) := [(log_mutex, (0, 0)); (gdt_mutex, (0, 0)); (paddr_mutex, (0, 0))].

Definition demo_abs : kabs :=
  KAbs first_task [first_task; task_a; task_b] [task_c] [first_task; idle_task; task_a; task_b; task_c] ∅.

Example demo_krel : krel (demo_kernel demo_abs demo_tasks free_mutexes []) demo_abs.
Proof. decide_krel. Qed.

Definition demo_state : kstate := demo_kernel demo_abs demo_tasks free_mutexes [].

(** A logger that prints nothing. *)
Definition quiet_logger : Logger := λ _ _, mret tt.

Lemma quiet_logger_laws : LoggerLaws (HLogger := quiet_logger).
Proof.
  split. intros fmt args out s _ _ _. exists []. change (add_io [] (k_cpu s)) with
    (Cpu (c_eflags (k_cpu s)) (c_cr0 (k_cpu s)) (c_cr3 (k_cpu s)) (c_cr4 (k_cpu s))
       (c_tr (k_cpu s)) (c_gdtr (k_cpu s)) (c_idtr (k_cpu s)) (c_io (k_cpu s))).
  by destruct s as [[]].
Qed.
