(* ===== verification/Sched.v ===== *)
(** * The scheduler (kernel/core/task.c)

    The ready, sleep and all-task lists, dispatching, time slices and sleeping.
    [task_dispatch] and [task_time_tick] print log lines; [log_printf] is an
    instance argument here and is tied to its implementation in [Log]. *)
From S2P Require Import Prelude Mem Klib DList CpuInstr Desc Kernel Queues Demo.

(** ** Operations *)
Section operations.
Context `{Layout, Logger}.

Definition task_current : K Z := tm ← tm_get; mret (curr_task tm).

Definition task_set_ready (task : Z) : K unit :=
  if task =? idle_task then mret tt else
  tm ← tm_get;
  l ← with_nodes (list_insert_last (ready_list tm) (run_node task));
  tm_modify (tm_set_ready l);;
  task_modify task (task_set_state TASK_READY).

Definition task_set_block (task : Z) : K unit :=
  if task =? idle_task then mret tt else
  tm ← tm_get;
  '(_, l) ← with_nodes (list_remove (ready_list tm) (run_node task));
  tm_modify (tm_set_ready l).

Definition task_next_run : K Z :=
  tm ← tm_get;
  if list_count (ready_list tm) =? 0 then mret idle_task else
  let task_node := list_first (ready_list tm) in
  mret (list_node_parent task_node run_node_off).

Definition switch_to_tss (tss_sel : Z) : K unit := far_jump tss_sel.

Definition task_switch (from to : Z) : K unit :=
  x ← task_get to; switch_to_tss (tss_sel x).

Definition task_dispatch : K unit :=
  state ← with_cpu irq_enter_protection;
  to ← task_next_run;
  tm ← tm_get;
  (if negb (to =? curr_task tm) then
     from ← task_current;
     tm_modify (tm_set_curr to);;
     task_modify to (task_set_state TASK_RUNNING);;
     task_switch from to;;
     x ← task_get to;
     log_printf "Dispatching task: %s" [AStr (name x)]
   else mret tt);;
  with_cpu (irq_leave_protection state).

Definition sys_sched_yield : K Z :=
  state ← with_cpu irq_enter_protection;
  tm ← tm_get;
  (if 1 <? list_count (ready_list tm) then
     current_task ← task_current;
     task_set_block current_task;;
     task_set_ready current_task;;
     task_dispatch
   else mret tt);;
  with_cpu (irq_leave_protection state);;
  mret 0.

Definition task_set_wakeup (task : Z) : K unit :=
  tm ← tm_get;
  '(_, l) ← with_nodes (list_remove (sleep_list tm) (run_node task));
  tm_modify (tm_set_sleep l).

(** The body of the walk over the sleep list, for one sleeping task. *)
Definition tick_one (task : Z) : K unit :=
  x ← task_get task;
  let n := s32 (sleep_ticks x - 1) in
  task_set task (task_set_sleep_ticks n x);;
  (if n =? 0 then task_set_wakeup task;; task_set_ready task else mret tt).

(** The walk: [curr] is a [run_node]. *)
Fixpoint tick_sleepers (fuel : nat) (curr : Z) : K unit :=
  if curr =? 0 then mret tt else
  match fuel with
  | O => kthrow OutOfFuel
  | S f =>
      next ← with_nodes (list_node_next curr);
      tick_one (list_node_parent curr run_node_off);;
      tick_sleepers f next
  end.

Definition task_time_tick : K unit :=
  curr ← task_current;
  x ← task_get curr;
  let n := s32 (slice_ticks x - 1) in
  task_set curr (task_set_slice_ticks n x);;
  (if n =? 0 then
     log_printf " ******************time slice end*************************** " [];;
     task_modify curr (λ x, task_set_slice_ticks (time_ticks x) x);;
     task_set_block curr;;
     task_set_ready curr;;
     task_dispatch
   else mret tt);;
  tm ← tm_get;
  s ← kget;
  tick_sleepers (S (size (k_nodes s))) (list_first (sleep_list tm));;
  task_dispatch.

Definition task_set_sleep (task ticks : Z) : K unit :=
  if ticks =? 0 then mret tt else
  task_modify task (λ x, task_set_state TASK_SLEEP (task_set_sleep_ticks (s32 ticks) x));;
  tm ← tm_get;
  l ← with_nodes (list_insert_last (sleep_list tm) (run_node task));
  tm_modify (tm_set_sleep l).

(** [(ms + (OS_TICKS_MS - 1)) / OS_TICKS_MS] in [uint32_t]. *)
Definition ms_to_ticks (ms : Z) : Z := u32 (ms + (OS_TICKS_MS - 1)) / OS_TICKS_MS.

Definition sys_sleep (ms : Z) : K unit :=
  state ← with_cpu irq_enter_protection;
  tm ← tm_get;
  task_set_block (curr_task tm);;
  tm ← tm_get;
  task_set_sleep (curr_task tm) (ms_to_ticks ms);;
  task_dispatch;;
  with_cpu (irq_leave_protection state).
End operations.

(** What memory management keeps; no scheduler code touches it. *)
Definition pages_of (s : kstate) : mem * Z * addr_alloc_t :=
  (k_mem s, k_search_idx s, k_paddr s).

(** ** What scheduler operations leave alone *)
Record sched_frame (s s' : kstate) : Prop := {
  sf_mutex : k_mutex s' = k_mutex s;
  sf_sem : k_sem s' = k_sem s;
  sf_gdt : k_gdt s' = k_gdt s;
  sf_idt : k_idt s' = k_idt s;
  sf_tick : k_sys_tick s' = k_sys_tick s;
  sf_pages : pages_of s' = pages_of s;
  (** every field of every task, its state apart *)
  sf_tasks : ∀ t, task_set_state TASK_CREATED <$> k_tasks s' !! t =
                  task_set_state TASK_CREATED <$> k_tasks s !! t
}.

#[export] Instance sched_frame_preorder : PreOrder sched_frame.
Proof.
  split; [by intros s; split|].
  intros s1 s2 s3 [] []. split; congruence.
Qed.

Definition sleep_ticks_of (s : kstate) (t : Z) : Z :=
  match k_tasks s !! t with Some x => sleep_ticks x | None => 0 end.
Definition slice_ticks_of (s : kstate) (t : Z) : Z :=
  match k_tasks s !! t with Some x => slice_ticks x | None => 0 end.
Definition state_of (s : kstate) (t : Z) : option task_state := state <$> k_tasks s !! t.

(** ** The specification: operations on queues *)
Section spec.
Context `{Layout}.

(** The task at the head of the ready queue, the idle task without one. *)
Definition next_task (a : kabs) : Z := hd_or idle_task (a_ready a).

Definition spec_dispatch (a : kabs) : kabs := set_curr (next_task a) a.

Definition spec_block (t : Z) (a : kabs) : kabs :=
  set_queue PReady (filter (λ u, u ≠ t) (a_ready a)) a.

Definition spec_ready (t : Z) (a : kabs) : kabs :=
  set_queue PReady (a_ready a ++ [t]) a.

(** The current task moves behind the other ready tasks. *)
Definition spec_rotate (a : kabs) : kabs := spec_ready (a_curr a) (spec_block (a_curr a) a).

Definition spec_yield (a : kabs) : kabs :=
  if bool_decide (1 < length (a_ready a))%nat then spec_dispatch (spec_rotate a) else a.

Definition spec_sleep (ms : Z) (a : kabs) : kabs :=
  let a1 := spec_block (a_curr a) a in
  spec_dispatch
    (if ms_to_ticks ms =? 0 then a1
     else set_queue PSleep (a_sleep a1 ++ [a_curr a]) a1).

(** The sleeping tasks whose counter runs out are made ready in queue order. *)
Definition spec_wake (ticks : Z → Z) (a : kabs) : kabs :=
  set_queue PReady (a_ready a ++ filter (λ t, s32 (ticks t - 1) = 0) (a_sleep a))
    (set_queue PSleep (filter (λ t, s32 (ticks t - 1) ≠ 0) (a_sleep a)) a).
End spec.

(** ** How a kernel call ends *)
Section call_ends.
Context `{Layout}.

(** Every task name fits its array. *)
Definition names_ok (s : kstate) : Prop :=
  ∀ t x, k_tasks s !! t = Some x → Z.of_nat (length (name x)) < TASK_NAME_SIZE.

(** The registers [c'] are [c] with the flags [e], after some port accesses. *)
Definition restored (e : Z) (c c' : cpu_t) : Prop := ∃ ev, c' = set_eflags e (add_io ev c).

Lemma restored_refl c : restored (c_eflags c) c c.
Proof. exists []. by destruct c. Qed.

Lemma restored_trans e e' c1 c2 c3 :
  restored e c1 c2 → restored e' c2 c3 → restored e' c1 c3.
Proof.
  intros [ev ->] [ev' ->]. exists (ev' ++ ev). unfold set_eflags, add_io. cbn.
  by rewrite app_assoc.
Qed.

Lemma restored_set e c1 c2 e' : restored e c1 c2 → restored e' c1 (set_eflags e' c2).
Proof. intros [ev ->]. by exists ev. Qed.

(** Code left behind at a task switch that has nothing to do but print a log line
    and restore the flags [e], whatever the state it is resumed in. *)
Definition quiet {A} (e : Z) (ts : gset Z) (k : K A) : Prop :=
  ∀ s, log_free s → names_ok s → dom (k_tasks s) = ts →
    ∃ x c, k s = KRet x (set_cpu c s) ∧ restored e (k_cpu s) c.

(** Code of task [t] entered with the registers [c0] returns in state [s'], [t] still
    current, with the registers it was entered with; or it gives up the processor
    there to the TSS of the task that is then current, quiet code left behind. *)
Definition stops {A} (c0 : cpu_t) (t : Z) (r : kres A) (s' : kstate) : Prop :=
  match r with
  | KRet _ s1 => s1 = s' ∧ curr_task (k_tm s') = t ∧ restored (c_eflags c0) c0 (k_cpu s')
  | KErr _ => False
  | KJump sel s1 k => s1 = s' ∧ curr_task (k_tm s') ≠ t ∧ (∃ e, restored e c0 (k_cpu s')) ∧
      (∃ x, k_tasks s' !! curr_task (k_tm s') = Some x ∧ sel = u16 (tss_sel x)) ∧
      quiet (c_eflags c0) (dom (k_tasks s')) k
  end.

(** The kernel call [m] made in state [s] runs up to [s'], where it returns to the
    caller or gives up the processor. *)
Definition call_ends {A} (m : K A) (s s' : kstate) : Prop :=
  stops (k_cpu s) (curr_task (k_tm s)) (m s) s'.

Lemma call_ends_ret {A} (m : K A) s s' x :
  m s = KRet x s' → k_cpu s' = k_cpu s → curr_task (k_tm s') = curr_task (k_tm s) →
  call_ends m s s'.
Proof.
  unfold call_ends. intros -> Ec Et. split; [done|]. split; [done|]. rewrite Ec.
  apply restored_refl.
Qed.

(** What follows changes nothing but the value. *)
Lemma stops_value {A B} c0 t (r : kres A) (y : B) s' :
  stops c0 t r s' → stops c0 t (kbind r (λ _, mret y)) s'.
Proof.
  destruct r as [x s1|?|sel s1 k]; cbn; [done|done|].
  intros (-> & Ht & He & Hsel & Hk). split_and!; try done. intros s2 Hl Hn Hd.
  destruct (Hk s2 Hl Hn Hd) as (x & c & -> & Hc). cbn. eauto.
Qed.

Lemma stops_kstop {A} c0 t (r : kres A) s' : stops c0 t r s' → kstop r = Some s'.
Proof. destruct r; cbn; [intros [-> _]|done|intros [-> _]]; done. Qed.

(** What follows restores the flags the protected code was entered with. *)
Lemma stops_bind {A B} c0 c1 e1 t (r : kres A) (f : A → K B) s' y :
  stops c1 t r s' → restored e1 c0 c1 →
  (∀ x s, f x s = KRet y (set_cpu (set_eflags (c_eflags c0) (k_cpu s)) s)) →
  ∃ c, stops c0 t (kbind r f) (set_cpu c s').
Proof.
  intros Hr Hc Hf. destruct r as [x s1|?|sel s1 k]; cbn in *; [|done|].
  - destruct Hr as (-> & Ht & Hc'). rewrite Hf. eexists. split; [done|]. split; [done|].
    by eapply restored_set, restored_trans.
  - destruct Hr as (-> & Ht & [e' He'] & Hsel & Hk). exists (k_cpu s').
    replace (set_cpu (k_cpu s') s') with s' by by destruct s'.
    split; [done|]. split; [done|]. split; [by exists e'; eapply restored_trans|].
    split; [done|].
    intros s2 Hl Hn Hd. destruct (Hk s2 Hl Hn Hd) as (x & c & -> & Hc2). cbn. rewrite Hf.
    exists y, (set_eflags (c_eflags c0) c). split; [done|]. by eapply restored_set.
Qed.

(** The state inside a protected region entered in [s]. *)
Definition cli_state (s : kstate) : kstate :=
  set_cpu (set_eflags (Z.land (c_eflags (k_cpu s)) (Z.lnot EFLAGS_IF)) (k_cpu s)) s.

Lemma cli_restored s :
  restored (Z.land (c_eflags (k_cpu s)) (Z.lnot EFLAGS_IF)) (k_cpu s) (k_cpu (cli_state s)).
Proof. by exists []. Qed.

(** A protected region: [m] ends as code that runs from [s1] does, with the
    registers and the current task of the region entered in [s]. *)
Lemma stops_leave {A} s s0 s1 s' (m : K A) :
  stops (k_cpu s1) (curr_task (k_tm s1)) (m s0) s' →
  k_cpu s1 = k_cpu (cli_state s) → curr_task (k_tm s1) = curr_task (k_tm s) →
  ∃ c, stops (k_cpu s) (curr_task (k_tm s))
    ((m;; with_cpu (irq_leave_protection (c_eflags (k_cpu s)))) s0) (set_cpu c s').
Proof.
  intros Hm Ec <-. rewrite Ec in Hm.
  by apply (stops_bind (k_cpu s) _ _ _ _ _ s' tt Hm (cli_restored s)).
Qed.

Lemma stops_leave_ret {A} s s0 s1 s' (m : K unit) (x : A) :
  stops (k_cpu s1) (curr_task (k_tm s1)) (m s0) s' →
  k_cpu s1 = k_cpu (cli_state s) → curr_task (k_tm s1) = curr_task (k_tm s) →
  ∃ c, stops (k_cpu s) (curr_task (k_tm s))
    ((m;; with_cpu (irq_leave_protection (c_eflags (k_cpu s)));; mret x) s0) (set_cpu c s').
Proof.
  intros Hm Ec <-. rewrite Ec in Hm.
  by apply (stops_bind (k_cpu s) _ _ _ _ _ s' x Hm (cli_restored s)).
Qed.
End call_ends.

(** ** Each operation implements its specification *)
Section refinement.
Context `{LoggerLaws}.
Implicit Types (s : kstate) (a : kabs) (t : Z).

Lemma frame_dom s s' : sched_frame s s' → dom (k_tasks s') = dom (k_tasks s).
Proof.
  intros [_ _ _ _ _ _ Ht]. apply set_eq. intros t. specialize (Ht t).
  rewrite !elem_of_dom, <-(fmap_is_Some (task_set_state TASK_CREATED) (k_tasks s' !! t)), Ht.
  by rewrite fmap_is_Some.
Qed.

Lemma frame_lists s s' o : sched_frame s s' → list_at s' (PWait o) = list_at s (PWait o).
Proof. intros [Em Es _ _ _ _]. cbn. by rewrite Em, Es. Qed.

Lemma frame_sleep_ticks s s' t : sched_frame s s' → sleep_ticks_of s' t = sleep_ticks_of s t.
Proof.
  intros [_ _ _ _ _ _ Ht]. specialize (Ht t). unfold sleep_ticks_of.
  destruct (k_tasks s' !! t), (k_tasks s !! t); by simplify_eq/=.
Qed.

Lemma frame_slice_ticks s s' t : sched_frame s s' → slice_ticks_of s' t = slice_ticks_of s t.
Proof.
  intros [_ _ _ _ _ _ Ht]. specialize (Ht t). unfold slice_ticks_of.
  destruct (k_tasks s' !! t), (k_tasks s !! t); by simplify_eq/=.
Qed.

Lemma frame_task_state s t x st :
  k_tasks s !! t = Some x →
  sched_frame s (set_tasks (<[t := task_set_state st x]> (k_tasks s)) s).
Proof.
  intros Hx. split; try done. intros u. cbn. destruct (decide (t = u)) as [->|].
  - by rewrite lookup_insert_eq, Hx.
  - by rewrite lookup_insert_ne.
Qed.

Lemma dom_insert_same (tasks : gmap Z task_t) t x y :
  tasks !! t = Some x → dom (<[t := y]> tasks) = dom tasks.
Proof. intros Hx. apply dom_insert_lookup_L. eauto. Qed.

Lemma task_set_ready_ok s a t :
  krel s a → is_Some (k_tasks s !! t) → t ≠ idle_task →
  (∀ r, r ≠ PAll → t ∉ queue_at a r) →
  ∃ s', task_set_ready t s = KRet tt s' ∧ krel s' (spec_ready t a) ∧ sched_frame s s' ∧
    state_of s' t = Some TASK_READY ∧ k_cpu s' = k_cpu s ∧
    (∀ u, u ≠ t → k_tasks s' !! u = k_tasks s !! u).
Proof.
  intros Hr [x Hx] Hidle Hfree. unfold task_set_ready. rewrite (proj2 (Z.eqb_neq _ _) Hidle).
  destruct (krel_insert_last s a PReady t (ready_list (k_tm s))) as (l & h & Hop & Hk);
    [done|done|by eauto|done|by intros; apply Hfree|done|].
  rewrite (kbind_ret tm_get _ s (k_tm s) s) by done.
  kstep (with_nodes_ok _ _ _ _ Hop).
  set (s1 := set_tm (tm_set_ready l (k_tm s)) (set_nodes h s)).
  rewrite (kbind_ret (tm_modify _) _ _ tt s1) by done.
  assert (Hx1 : k_tasks s1 !! t = Some x) by done.
  rewrite (task_modify_ok _ _ _ _ Hx1).
  eexists. split; [done|]. split; [|split; [|split; [|split]]].
  - apply Hk; [done|]. split; try done.
    + intros q Hq. by destruct q.
    + cbn. by eapply dom_insert_same.
  - etrans; [|by apply frame_task_state]. by split.
  - unfold state_of. cbn. by rewrite lookup_insert_eq.
  - done.
  - intros u Hu. cbn. by rewrite lookup_insert_ne.
Qed.

Lemma task_set_ready_idle s : task_set_ready idle_task s = KRet tt s.
Proof. unfold task_set_ready. by rewrite Z.eqb_refl. Qed.

Lemma task_set_block_ok s a t :
  krel s a → t ∈ a_ready a →
  ∃ s', task_set_block t s = KRet tt s' ∧ krel s' (spec_block t a) ∧ sched_frame s s' ∧
    k_tasks s' = k_tasks s ∧ k_cpu s' = k_cpu s ∧
    (∀ r, r ≠ PAll → t ∉ queue_at (spec_block t a) r).
Proof.
  intros Hr Ht. pose proof (kr_ok _ _ Hr) as Hok.
  assert (t ≠ idle_task) as Hidle by (intros ->; by apply (ao_idle _ Hok PReady)).
  unfold task_set_block. rewrite (proj2 (Z.eqb_neq _ _) Hidle).
  destruct (krel_remove s a PReady t (ready_list (k_tm s))) as (l & h & q1 & q2 & Hop & Eq & Hk);
    [done..|].
  rewrite (kbind_ret tm_get _ s (k_tm s) s) by done.
  kstep (with_nodes_ok _ _ _ _ Hop).
  eexists. split; [done|].
  assert (E : spec_block t a = set_queue PReady (q1 ++ q2) a).
  { unfold spec_block. pose proof (ao_nodup _ Hok PReady) as Hnd. cbn [queue_at] in Eq, Hnd.
    rewrite Eq in *. by rewrite filter_delete. }
  rewrite E. split; [|split; [by split|split; [done|split; [done|]]]].
  - apply Hk; [done|]. split; try done. intros q Hq. by destruct q.
  - by apply free_after_delete.
Qed.

(** The task blocked in front of the ready queue and put back at its end. *)
Lemma rotate_ok s a t :
  krel s a → t ∈ a_ready a →
  ∃ s', (∀ B (f : K B), (task_set_block t;; task_set_ready t;; f) s = f s') ∧
    krel s' (spec_ready t (spec_block t a)) ∧ sched_frame s s' ∧
    state_of s' t = Some TASK_READY ∧ k_cpu s' = k_cpu s ∧
    (∀ u, u ≠ t → k_tasks s' !! u = k_tasks s !! u).
Proof.
  intros Hr Ht.
  destruct (task_set_block_ok s a t Hr Ht) as (s1 & H1 & Hr1 & Hf1 & Et1 & Ec1 & Hfree).
  assert (t ≠ idle_task) as Hidle.
  { intros ->. by apply (ao_idle _ (kr_ok _ _ Hr) PReady). }
  destruct (task_set_ready_ok s1 (spec_block t a) t) as (s2 & H2 & Hr2 & Hf2 & Hs2 & Ec2 & Ht2);
    [done| |done|done|].
  { rewrite Et1. by apply (kr_in _ _ Hr PReady). }
  exists s2. split; [|split; [done|split; [by etrans|split; [done|]]]].
  - intros B f. kstep H1. by kstep H2.
  - rewrite Ec2, Ec1. split; [done|]. intros u Hu. by rewrite Ht2, Et1.
Qed.

Lemma task_next_run_ok s a : krel s a → task_next_run s = KRet (next_task a) s.
Proof.
  intros Hr. unfold task_next_run. rewrite (kbind_ret tm_get _ s (k_tm s) s) by done.
  pose proof (krel_list_count s a PReady _ Hr eq_refl) as Hc. cbn [queue_at] in Hc.
  rewrite Hc. unfold next_task. destruct (a_ready a) as [|t q] eqn:E; [done|].
  cbn [length]. replace (Z.of_nat (S (length q)) =? 0) with false by lia.
  rewrite (krel_list_first s a PReady _ t q Hr eq_refl E).
  change run_node_off with (node_off PReady). rewrite (krel_parent s a PReady t Hr); [done|].
  apply (kr_in _ _ Hr PReady). cbn. rewrite E. left.
Qed.

Lemma next_task_valid s a : krel s a → is_Some (k_tasks s !! next_task a).
Proof.
  intros Hr. unfold next_task. destruct (a_ready a) as [|t q] eqn:E; [by eapply kr_idle|].
  apply (kr_in _ _ Hr PReady). cbn. rewrite E. left.
Qed.

(** The code of [task_dispatch] that runs when the task is switched to again. *)
Definition dispatch_rest (to state : Z) : K unit :=
  (x ← task_get to; log_printf "Dispatching task: %s" [AStr (name x)]);;
  with_cpu (irq_leave_protection state).

Lemma enter_ok {B} (f : Z → K B) s :
  (with_cpu irq_enter_protection ≫= f) s = f (c_eflags (k_cpu s)) (cli_state s).
Proof. done. Qed.

Lemma leave_ok s s' :
  k_cpu s' = k_cpu (cli_state s) →
  with_cpu (irq_leave_protection (c_eflags (k_cpu s))) s' = KRet tt (set_cpu (k_cpu s) s').
Proof.
  intros E. unfold with_cpu, irq_leave_protection, write_eflags. rewrite E.
  unfold cli_state. cbn. by destruct (k_cpu s).
Qed.

Lemma krel_set_cpu s a c : krel s a → krel (set_cpu c s) a.
Proof. intros Hr. by eapply krel_ext. Qed.

Lemma set_cpu_same s : set_cpu (k_cpu s) s = s.
Proof. by destruct s. Qed.

Lemma set_cpu_cli s : set_cpu (k_cpu s) (cli_state s) = s.
Proof. by destruct s as [[]]. Qed.

Lemma sched_frame_set_cpu s c : sched_frame s (set_cpu c s).
Proof. by split. Qed.

Lemma task_dispatch_stay s a :
  krel s a → next_task a = a_curr a → task_dispatch s = KRet tt s.
Proof.
  intros Hr E. unfold task_dispatch. rewrite enter_ok.
  kstep (task_next_run_ok (cli_state s) a (krel_set_cpu _ _ _ Hr)).
  rewrite (kbind_ret tm_get _ _ (k_tm s) (cli_state s)) by done.
  rewrite (kr_curr _ _ Hr), E, Z.eqb_refl.
  rewrite (kbind_ret _ _ _ tt (cli_state s)) by done.
  rewrite (leave_ok s (cli_state s)) by done. by rewrite set_cpu_cli.
Qed.

(** The state at the moment of the switch to task [to]. *)
Definition switched (to : Z) (x : task_t) (s : kstate) : kstate :=
  set_tasks (<[to := task_set_state TASK_RUNNING x]> (k_tasks s))
    (set_tm (tm_set_curr to (k_tm s)) (cli_state s)).

Lemma task_dispatch_switch s a :
  krel s a → next_task a ≠ a_curr a →
  ∃ x, k_tasks s !! next_task a = Some x ∧
    task_dispatch s = KJump (u16 (tss_sel x)) (switched (next_task a) x s)
      (dispatch_rest (next_task a) (c_eflags (k_cpu s))).
Proof.
  intros Hr E. destruct (next_task_valid s a Hr) as [x Hx]. exists x. split; [done|].
  unfold task_dispatch. rewrite enter_ok.
  kstep (task_next_run_ok (cli_state s) a (krel_set_cpu _ _ _ Hr)).
  rewrite (kbind_ret tm_get _ _ (k_tm s) (cli_state s)) by done.
  rewrite (kr_curr _ _ Hr), (proj2 (Z.eqb_neq _ _) E). cbn [negb].
  erewrite kbind_jump; [reflexivity|].
  rewrite (kbind_ret task_current _ _ (curr_task (k_tm s)) (cli_state s)) by done.
  rewrite (kbind_ret (tm_modify _) _ _ tt
    (set_tm (tm_set_curr (next_task a) (k_tm s)) (cli_state s))) by done.
  kstep (task_modify_ok (next_task a) (task_set_state TASK_RUNNING) x
    (set_tm (tm_set_curr (next_task a) (k_tm s)) (cli_state s)) Hx).
  rewrite (kbind_jump (task_switch _ _) _ _ (u16 (tss_sel x)) (switched (next_task a) x s)
    (λ s', KRet tt s')); [reflexivity|].
  unfold task_switch. by kstep (task_get_ok (next_task a) (task_set_state TASK_RUNNING x)
    (switched (next_task a) x s) (lookup_insert_eq _ _ _)).
Qed.

Lemma krel_switched s a x :
  krel s a → k_tasks s !! next_task a = Some x →
  krel (switched (next_task a) x s) (spec_dispatch a).
Proof.
  intros Hr Hx.
  apply (krel_ext (set_tm (tm_set_curr (next_task a) (k_tm s)) (cli_state s))); try done.
  - by apply (krel_set_curr (cli_state s) a (next_task a)), krel_set_cpu.
  - cbn. by eapply dom_insert_same.
Qed.

Lemma switched_frame s to x : k_tasks s !! to = Some x → sched_frame s (switched to x s).
Proof.
  intros Hx. transitivity (set_tm (tm_set_curr to (k_tm s)) (cli_state s)); [by split|].
  by apply (frame_task_state (set_tm (tm_set_curr to (k_tm s)) (cli_state s))).
Qed.

Lemma dispatch_text (l : list Z) :
  format (bytes_of_string "Dispatching task: %s") [AStr l] =
  Some (bytes_of_string "Dispatching task: " ++ l).
Proof. rewrite <-(app_nil_r l) at 2. vm_compute. reflexivity. Qed.

(** When a task is switched back to, the rest of [task_dispatch] logs the
    task's name and restores the interrupt flag it saved. *)
Lemma dispatch_rest_ok s to e y :
  log_free s → names_ok s → k_tasks s !! to = Some y →
  ∃ c, dispatch_rest to e s = KRet tt (set_cpu c s) ∧ restored e (k_cpu s) c.
Proof.
  intros Hl Hn Hy. pose proof (Hn _ _ Hy) as Hlen. unfold TASK_NAME_SIZE in Hlen.
  destruct (log_printf_quiet _ _ _ s Hl (dispatch_text (name y))) as [ev Hlog].
  { rewrite length_app. change (length (bytes_of_string "Dispatching task: ")) with 18%nat. lia. }
  exists (set_eflags e (add_io ev (k_cpu s))). split; [|by exists ev]. unfold dispatch_rest.
  rewrite (kbind_ret _ _ s tt (set_cpu (add_io ev (k_cpu s)) s)); [done|].
  by kstep (task_get_ok _ _ _ Hy).
Qed.

Lemma dispatch_rest_quiet to e ts : to ∈ ts → quiet e ts (dispatch_rest to e).
Proof.
  intros Hto s Hl Hn Hd. rewrite <-Hd in Hto. apply elem_of_dom in Hto as [y Hy].
  destruct (dispatch_rest_ok s to e y Hl Hn Hy) as (c & Hk & He). eauto.
Qed.

(** [task_dispatch], whether or not it switches. *)
Lemma task_dispatch_ok s a :
  krel s a →
  ∃ s', call_ends task_dispatch s s' ∧ krel s' (spec_dispatch a) ∧ sched_frame s s' ∧
    (∀ u, u ≠ next_task a → k_tasks s' !! u = k_tasks s !! u).
Proof.
  intros Hr. destruct (decide (next_task a = a_curr a)) as [E|E].
  - exists s. split; [by apply (call_ends_ret _ _ _ tt); [eapply task_dispatch_stay|..]|].
    split; [|done]. unfold spec_dispatch. rewrite E. by destruct a.
  - destruct (task_dispatch_switch s a Hr E) as (x & Hx & Hd).
    exists (switched (next_task a) x s). split.
    { unfold call_ends. rewrite Hd, (kr_curr _ _ Hr). split; [done|]. split; [done|].
      split; [eexists; apply cli_restored|]. split.
      - exists (task_set_state TASK_RUNNING x). by cbn; rewrite lookup_insert_eq.
      - apply dispatch_rest_quiet. cbn. rewrite (dom_insert_same _ _ _ _ Hx).
        by apply elem_of_dom. }
    split; [by apply krel_switched|]. split; [by apply switched_frame|].
    intros u Hu. cbn. by rewrite lookup_insert_ne.
Qed.

Lemma curr_same s s' a a' :
  krel s a → krel s' a' → a_curr a' = a_curr a → curr_task (k_tm s) = curr_task (k_tm s').
Proof. intros Hr Hr' E. by rewrite (kr_curr _ _ Hr), (kr_curr _ _ Hr'). Qed.

(** *** Yielding *)
Lemma yield_single s a :
  krel s a → (length (a_ready a) ≤ 1)%nat → sys_sched_yield s = KRet 0 s.
Proof.
  intros Hr Hl. unfold sys_sched_yield. rewrite enter_ok.
  rewrite (kbind_ret tm_get _ _ (k_tm s) (cli_state s)) by done.
  pose proof (krel_list_count s a PReady _ Hr eq_refl) as Hc. cbn [queue_at] in Hc. rewrite Hc.
  replace (1 <? Z.of_nat (length (a_ready a))) with false by lia.
  rewrite (kbind_ret _ _ _ tt (cli_state s)) by done.
  kstep (leave_ok s (cli_state s) eq_refl). by rewrite set_cpu_cli.
Qed.

Lemma yield_ok s a :
  krel s a → (1 < length (a_ready a))%nat → a_curr a ∈ a_ready a →
  ∃ s', call_ends sys_sched_yield s s' ∧
    krel s' (spec_dispatch (spec_rotate a)) ∧ sched_frame s s'.
Proof.
  intros Hr Hl Hc. unfold call_ends, sys_sched_yield. rewrite enter_ok.
  rewrite (kbind_ret tm_get _ _ (k_tm s) (cli_state s)) by done.
  pose proof (krel_list_count s a PReady _ Hr eq_refl) as Hn. cbn [queue_at] in Hn. rewrite Hn.
  replace (1 <? Z.of_nat (length (a_ready a))) with true by lia.
  pose proof (krel_set_cpu s a (k_cpu (cli_state s)) Hr) as Hr0.
  destruct (rotate_ok (cli_state s) a (a_curr a) Hr0 Hc) as (s1 & Hs1 & Hr1 & Hf1 & _ & Ec & _).
  destruct (task_dispatch_ok s1 _ Hr1) as (s2 & H2 & Hr2 & Hf2 & _).
  destruct (stops_leave_ret s (cli_state s) s1 s2
    (current_task ← task_current;
     task_set_block current_task;; task_set_ready current_task;; task_dispatch)
    0) as (c & Hs);
    [|done|by eapply (curr_same s1 s)|].
  { rewrite (kbind_ret task_current _ _ (a_curr a) (cli_state s)); [by rewrite Hs1|].
    unfold task_current. rewrite <-(kr_curr _ _ Hr). done. }
  exists (set_cpu c s2). split; [exact Hs|]. split; [by apply krel_set_cpu|].
  etrans; [|by apply sched_frame_set_cpu]. etrans; [|done]. etrans; [|done].
  by apply sched_frame_set_cpu.
Qed.

Lemma sys_sched_yield_ok s a :
  krel s a → ((1 < length (a_ready a))%nat → a_curr a ∈ a_ready a) →
  ∃ s', call_ends sys_sched_yield s s' ∧ krel s' (spec_yield a) ∧ sched_frame s s'.
Proof.
  intros Hr Hc. unfold spec_yield. case_bool_decide as Hl.
  - by apply yield_ok; [|lia|auto].
  - exists s. split; [|done].
    by apply (call_ends_ret _ _ _ 0); [apply (yield_single s a); [|lia]|..].
Qed.

(** *** Sleeping *)
Definition static_of (x : task_t) : list Z * Z * tss_t * Z :=
  (name x, time_ticks x, tss x, tss_sel x).

(** A clock tick leaves these alone. *)
Record tick_frame (s s' : kstate) : Prop := {
  of_mutex : k_mutex s' = k_mutex s;
  of_sem : k_sem s' = k_sem s;
  of_gdt : k_gdt s' = k_gdt s;
  of_idt : k_idt s' = k_idt s;
  of_tick : k_sys_tick s' = k_sys_tick s;
  of_pages : pages_of s' = pages_of s;
  (** what [task_init] sets for good *)
  of_static : ∀ t, static_of <$> k_tasks s' !! t = static_of <$> k_tasks s !! t
}.

#[export] Instance tick_frame_preorder : PreOrder tick_frame.
Proof. split; [by intros s; split|]. intros s1 s2 s3 [] []. split; congruence. Qed.

(** Other operations on tasks leave the time slices alone too. *)
Record obj_frame (s s' : kstate) : Prop := {
  of_frame :> tick_frame s s';
  of_slice : ∀ t, slice_ticks_of s' t = slice_ticks_of s t
}.

#[export] Instance obj_frame_preorder : PreOrder obj_frame.
Proof.
  split; [by intros s|]. intros s1 s2 s3 [F1 S1] [F2 S2]. split; [by etrans|].
  intros t. by rewrite S2.
Qed.

(** The same but for the node, list and register parts of the state. *)
Lemma obj_frame_ext s s' :
  k_mutex s' = k_mutex s → k_sem s' = k_sem s → k_gdt s' = k_gdt s → k_idt s' = k_idt s →
  k_sys_tick s' = k_sys_tick s → pages_of s' = pages_of s → k_tasks s' = k_tasks s →
  obj_frame s s'.
Proof.
  intros ? ? ? ? ? ? E. split; [split; try done; by rewrite E|]. intros t.
  unfold slice_ticks_of. by rewrite E.
Qed.

Lemma sched_obj_frame s s' : sched_frame s s' → obj_frame s s'.
Proof.
  intros Hf. split; [|intros t; by apply frame_slice_ticks].
  destruct Hf as [? ? ? ? ? ? Ht]. split; try done. intros t. specialize (Ht t).
  destruct (k_tasks s' !! t) as [[]|], (k_tasks s !! t) as [[]|]; by simplify_eq/=.
Qed.

Lemma task_set_tick_frame s t x y :
  k_tasks s !! t = Some x → static_of y = static_of x →
  tick_frame s (set_tasks (<[t := y]> (k_tasks s)) s).
Proof.
  intros Hx E. split; try done. intros u. cbn [k_tasks set_tasks].
  destruct (decide (t = u)) as [<-|].
  - rewrite lookup_insert_eq, Hx. exact (f_equal Some E).
  - by rewrite lookup_insert_ne.
Qed.

Lemma slice_ticks_set s t u y :
  slice_ticks_of (set_tasks (<[t := y]> (k_tasks s)) s) u =
  if decide (u = t) then slice_ticks y else slice_ticks_of s u.
Proof.
  unfold slice_ticks_of. cbn. case_decide as E; [by rewrite E, lookup_insert_eq|].
  by rewrite lookup_insert_ne.
Qed.

Lemma task_set_obj_frame s t x y :
  k_tasks s !! t = Some x → static_of y = static_of x → slice_ticks y = slice_ticks x →
  obj_frame s (set_tasks (<[t := y]> (k_tasks s)) s).
Proof.
  intros Hx E Es. split; [by eapply task_set_tick_frame|]. intros u. rewrite slice_ticks_set.
  case_decide as Eu; [|done]. unfold slice_ticks_of. by rewrite Eu, Hx, Es.
Qed.

Lemma task_set_sleep_ok s a t ticks :
  krel s a → is_Some (k_tasks s !! t) → t ≠ idle_task →
  (∀ r, r ≠ PAll → t ∉ queue_at a r) → ticks ≠ 0 →
  ∃ s', task_set_sleep t ticks s = KRet tt s' ∧
    krel s' (set_queue PSleep (a_sleep a ++ [t]) a) ∧ obj_frame s s' ∧
    sleep_ticks_of s' t = s32 ticks ∧ state_of s' t = Some TASK_SLEEP ∧
    k_cpu s' = k_cpu s ∧ (∀ u, u ≠ t → k_tasks s' !! u = k_tasks s !! u).
Proof.
  intros Hr [x Hx] Hidle Hfree Hn. unfold task_set_sleep.
  rewrite (proj2 (Z.eqb_neq _ _) Hn). kstep (task_modify_ok t
    (λ x, task_set_state TASK_SLEEP (task_set_sleep_ticks (s32 ticks) x)) x s Hx).
  set (s1 := set_tasks _ s).
  assert (Hr1 : krel s1 a).
  { eapply krel_ext; [exact Hr|done..|]. cbn. by eapply dom_insert_same. }
  destruct (krel_insert_last s1 a PSleep t (sleep_list (k_tm s1))) as (l & h & Hop & Hk);
    [done|done| |done|by intros; apply Hfree|done|].
  { exists (task_set_state TASK_SLEEP (task_set_sleep_ticks (s32 ticks) x)).
    apply lookup_insert_eq. }
  rewrite (kbind_ret tm_get _ s1 (k_tm s1) s1) by done.
  kstep (with_nodes_ok _ _ _ _ Hop).
  eexists. split; [done|]. split; [|split; [|split; [|split; [|split]]]].
  - apply Hk; [done|]. split; try done. intros q Hq. by destruct q.
  - transitivity s1; [by apply (task_set_obj_frame s t x)|by apply obj_frame_ext].
  - unfold sleep_ticks_of. cbn. by rewrite lookup_insert_eq.
  - unfold state_of. cbn. by rewrite lookup_insert_eq.
  - done.
  - intros u Hu. cbn. by rewrite lookup_insert_ne.
Qed.

Lemma sys_sleep_ok s a ms :
  krel s a → a_curr a ∈ a_ready a →
  ∃ s', call_ends (sys_sleep ms) s s' ∧ krel s' (spec_sleep ms a) ∧ obj_frame s s' ∧
    (ms_to_ticks ms ≠ 0 → sleep_ticks_of s' (a_curr a) = s32 (ms_to_ticks ms) ∧
       state_of s' (a_curr a) = Some TASK_SLEEP ∧
       ∀ u, u ≠ a_curr a → sleep_ticks_of s' u = sleep_ticks_of s u).
Proof.
  intros Hr Hc. unfold call_ends, sys_sleep. rewrite enter_ok.
  pose proof (krel_set_cpu s a (k_cpu (cli_state s)) Hr) as Hr0. fold (cli_state s) in Hr0.
  rewrite (kbind_ret tm_get _ _ (k_tm s) (cli_state s)) by done. rewrite (kr_curr _ _ Hr).
  destruct (task_set_block_ok (cli_state s) a (a_curr a) Hr0 Hc)
    as (s1 & H1 & Hr1 & Hf1 & Et1 & Ec1 & Hfree).
  kstep H1. rewrite (kbind_ret tm_get _ s1 (k_tm s1) s1) by done.
  rewrite (kr_curr _ _ Hr1 : curr_task (k_tm s1) = a_curr a). unfold spec_sleep.
  assert (Hidle : a_curr a ≠ idle_task).
  { intros E. apply (ao_idle _ (kr_ok _ _ Hr) PReady); [done|]. by rewrite <-E. }
  assert (Hsome : is_Some (k_tasks s1 !! a_curr a)).
  { rewrite Et1. by apply (kr_in _ _ Hr PReady). }
  destruct (Z.eqb_spec (ms_to_ticks ms) 0) as [E|E].
  - rewrite E. rewrite (kbind_ret (task_set_sleep _ 0) _ s1 tt s1) by done.
    destruct (task_dispatch_ok s1 _ Hr1) as (s2 & H2 & Hr2 & Hf2 & _).
    destruct (stops_leave s s1 s1 s2 task_dispatch H2) as (c & Hs);
      [done|by eapply (curr_same s1 s)|]. rewrite (kr_curr _ _ Hr) in Hs.
    exists (set_cpu c s2). split; [exact Hs|]. split; [by apply krel_set_cpu|].
    split; [|done]. apply sched_obj_frame.
    etrans; [|by apply sched_frame_set_cpu]. etrans; [|done]. etrans; [|done].
    by apply sched_frame_set_cpu.
  - destruct (task_set_sleep_ok s1 _ (a_curr a) (ms_to_ticks ms) Hr1 Hsome Hidle Hfree E)
      as (s2 & H2 & Hr2 & Hf2 & Htk & Hst & Ec2 & Ht2).
    kstep H2. destruct (task_dispatch_ok s2 _ Hr2) as (s3 & H3 & Hr3 & Hf3 & Ht3).
    destruct (stops_leave s s2 s2 s3 task_dispatch H3) as (c & Hs);
      [by rewrite Ec2|by eapply (curr_same s2 s)|]. rewrite (kr_curr _ _ Hr) in Hs.
    exists (set_cpu c s3). split; [exact Hs|]. split; [by apply krel_set_cpu|]. split.
    { etrans; [|by apply sched_obj_frame, sched_frame_set_cpu].
      etrans; [|by apply sched_obj_frame]. etrans; [|done]. etrans; [|by apply sched_obj_frame].
      by apply sched_obj_frame, sched_frame_set_cpu. }
    intros _. split; [|split].
    + rewrite (frame_sleep_ticks s3) by apply sched_frame_set_cpu.
      by rewrite (frame_sleep_ticks s2).
    + unfold state_of in *. cbn. rewrite Ht3; [done|]. unfold next_task. cbn.
      destruct (filter _ _) as [|u q] eqn:Eq; [by apply not_eq_sym|].
      cbn. intros E'. assert (u ∈ filter (λ v, v ≠ a_curr a) (a_ready a)) as Hin
        by (rewrite Eq; left). by apply list_elem_of_filter in Hin as [].
    + intros u Hu. rewrite (frame_sleep_ticks s3) by apply sched_frame_set_cpu.
      rewrite (frame_sleep_ticks s2) by done. unfold sleep_ticks_of at 1. rewrite Ht2 by done.
      fold (sleep_ticks_of s1 u). rewrite (frame_sleep_ticks (cli_state s)); done.
Qed.

(** *** The clock tick *)
Lemma task_set_ok t x y s :
  k_tasks s !! t = Some x → task_set t y s = KRet tt (set_tasks (<[t := y]> (k_tasks s)) s).
Proof. intros Hx. unfold task_set. by rewrite Hx. Qed.

Lemma task_set_wakeup_ok s a t (q1 q2 : list Z) :
  krel s a → a_sleep a = q1 ++ t :: q2 →
  ∃ s', task_set_wakeup t s = KRet tt s' ∧ krel s' (set_queue PSleep (q1 ++ q2) a) ∧
    obj_frame s s' ∧ k_tasks s' = k_tasks s ∧ k_cpu s' = k_cpu s.
Proof.
  intros Hr Eq. pose proof (kr_ok _ _ Hr) as Hok. unfold task_set_wakeup.
  destruct (krel_remove s a PSleep t (sleep_list (k_tm s)))
    as (l & h & p1 & p2 & Hop & Ep & Hk); [done|done| |].
  { cbn. rewrite Eq. apply elem_of_app. right. left. }
  rewrite (kbind_ret tm_get _ s (k_tm s) s) by done. kstep (with_nodes_ok _ _ _ _ Hop).
  eexists. split; [done|].
  assert (E : q1 ++ q2 = p1 ++ p2).
  { pose proof (ao_nodup _ Hok PSleep) as Hnd. cbn [queue_at] in Ep, Hnd.
    rewrite <-(filter_delete t q1 q2), <-(filter_delete t p1 p2) by congruence. congruence. }
  rewrite E. split; [|split; [by apply obj_frame_ext|done]]. apply Hk; [done|]. split; try done. intros q Hq. by destruct q.
Qed.

(** Everything a task keeps besides its counters and state. *)
Lemma krel_task_set s a t x y :
  krel s a → k_tasks s !! t = Some x → krel (set_tasks (<[t := y]> (k_tasks s)) s) a.
Proof.
  intros Hr Hx. eapply krel_ext; [exact Hr|done..|]. cbn. by eapply dom_insert_same.
Qed.

Lemma tick_step_wake s a t (q1 q2 : list Z) :
  krel s a → a_sleep a = q1 ++ t :: q2 →
  ∃ s', (task_set_wakeup t;; task_set_ready t) s = KRet tt s' ∧
    krel s' (set_queue PReady (a_ready a ++ [t]) (set_queue PSleep (q1 ++ q2) a)) ∧
    obj_frame s s' ∧ k_cpu s' = k_cpu s ∧ state_of s' t = Some TASK_READY ∧
    sleep_ticks_of s' t = sleep_ticks_of s t ∧
    (∀ u, u ≠ t → k_tasks s' !! u = k_tasks s !! u).
Proof.
  intros Hr Eq. pose proof (kr_ok _ _ Hr) as Hok.
  assert (Hin : t ∈ queue_at a PSleep) by (cbn; rewrite Eq; apply elem_of_app; right; left).
  destruct (task_set_wakeup_ok s a t q1 q2 Hr Eq) as (s1 & H1 & Hr1 & Hf1 & Et1 & Ec1).
  destruct (task_set_ready_ok s1 (set_queue PSleep (q1 ++ q2) a) t)
    as (s2 & H2 & Hr2 & Hf2 & Hs2 & Ec2 & Ht2); [done| | |by apply (free_after_delete a PSleep)|].
  { rewrite Et1. by apply (kr_in _ _ Hr PSleep). }
  { intros ->. by apply (ao_idle _ Hok PSleep). }
  exists s2. split; [by kstep H1|]. split; [exact Hr2|].
  split; [etrans; [exact Hf1|by apply sched_obj_frame]|]. split; [congruence|].
  split; [done|]. split.
  - rewrite (frame_sleep_ticks _ _ _ Hf2). unfold sleep_ticks_of. by rewrite Et1.
  - intros u Hu. by rewrite Ht2, Et1.
Qed.

Lemma tick_one_ok s a t (q1 q2 : list Z) tk :
  krel s a → a_sleep a = q1 ++ t :: q2 → sleep_ticks_of s t = tk →
  ∃ s', tick_one t s = KRet tt s' ∧
    krel s' (if decide (s32 (tk - 1) = 0)
             then set_queue PReady (a_ready a ++ [t]) (set_queue PSleep (q1 ++ q2) a) else a) ∧
    obj_frame s s' ∧ k_cpu s' = k_cpu s ∧ sleep_ticks_of s' t = s32 (tk - 1) ∧
    (s32 (tk - 1) = 0 → state_of s' t = Some TASK_READY) ∧
    (∀ u, u ≠ t → k_tasks s' !! u = k_tasks s !! u).
Proof.
  intros Hr Eq Htk.
  assert (Hin : t ∈ queue_at a PSleep) by (cbn; rewrite Eq; apply elem_of_app; right; left).
  destruct (kr_in _ _ Hr PSleep t Hin) as [x Hx].
  unfold sleep_ticks_of in Htk. rewrite Hx in Htk. unfold tick_one.
  kstep (task_get_ok _ _ _ Hx). rewrite Htk.
  kstep (task_set_ok t x (task_set_sleep_ticks (s32 (tk - 1)) x) s Hx).
  set (s1 := set_tasks _ s).
  assert (Hr1 : krel s1 a) by by eapply krel_task_set.
  assert (Ht1 : sleep_ticks_of s1 t = s32 (tk - 1)).
  { unfold sleep_ticks_of. cbn. by rewrite lookup_insert_eq. }
  assert (Hu1 : ∀ u, u ≠ t → k_tasks s1 !! u = k_tasks s !! u).
  { intros u Hu. cbn. by rewrite lookup_insert_ne. }
  case_decide as E.
  - rewrite E, Z.eqb_refl.
    destruct (tick_step_wake s1 a t q1 q2 Hr1 Eq) as (s2 & H2 & Hr2 & Hf2 & Ec2 & Hs2 & Htk2 & Ht2).
    exists s2. split; [exact H2|]. split; [exact Hr2|].
    split; [etrans; [|exact Hf2]; by apply (task_set_obj_frame s t x)|].
    split; [by rewrite Ec2|]. split; [|split; [by intros _|]].
    + congruence.
    + intros u Hu. by rewrite Ht2, Hu1.
  - rewrite (proj2 (Z.eqb_neq _ _) E). exists s1. split_and!; try done.
    by apply (task_set_obj_frame s t x).
Qed.

(** The queues after the walk has dealt with the sleepers [R] behind [kept]. *)
Definition woken (tk : Z → Z) (kept R : list Z) (a : kabs) : kabs :=
  set_queue PReady (a_ready a ++ filter (λ t, s32 (tk t - 1) = 0) R)
    (set_queue PSleep (kept ++ filter (λ t, s32 (tk t - 1) ≠ 0) R) a).

Lemma tick_sleepers_ok (R : list Z) : ∀ fuel s a (kept : list Z) tk,
  krel s a → a_sleep a = kept ++ R → (length R < fuel)%nat →
  (∀ t, t ∈ R → sleep_ticks_of s t = tk t) →
  ∃ s', tick_sleepers fuel (hd_or 0 (node_at PSleep <$> R)) s = KRet tt s' ∧
    krel s' (woken tk kept R a) ∧ obj_frame s s' ∧ k_cpu s' = k_cpu s ∧
    (∀ t, t ∈ R → sleep_ticks_of s' t = s32 (tk t - 1)) ∧
    (∀ t, t ∈ R → s32 (tk t - 1) = 0 → state_of s' t = Some TASK_READY) ∧
    (∀ u, u ∉ R → k_tasks s' !! u = k_tasks s !! u).
Proof.
  induction R as [|t R IH]; intros [|fuel] s a kept tk Hr Eq Hlen Htk; cbn in Hlen; try lia.
  - exists s. split; [done|]. split; [|split_and!; try done; intros t Ht; by apply not_elem_of_nil in Ht].
    unfold woken. cbn. rewrite !app_nil_r. rewrite app_nil_r in Eq. rewrite <-Eq.
    by destruct a.
  - pose proof (ao_nodup _ (kr_ok _ _ Hr) PSleep) as Hnd. cbn [queue_at] in Hnd. rewrite Eq in Hnd.
    apply NoDup_app in Hnd as (_ & _ & [HtR _]%NoDup_cons).
    assert (Hin : is_Some (k_tasks s !! t)).
    { apply (kr_in _ _ Hr PSleep). cbn. rewrite Eq. apply elem_of_app. right. left. }
    cbn [fmap list_fmap hd_or tick_sleepers].
    rewrite (proj2 (Z.eqb_neq _ _) (node_at_nonzero s a PSleep t Hr Hin)).
    kstep (with_nodes_ok _ _ _ _ (krel_node_next s a PSleep _ t kept R Hr eq_refl Eq)).
    rewrite (krel_parent s a PSleep t Hr Hin : list_node_parent _ run_node_off = t).
    replace (set_nodes (k_nodes s) s) with s by by destruct s.
    destruct (tick_one_ok s a t kept R (tk t) Hr Eq) as (s1 & H1 & Hr1 & Hf1 & Ec1 & Ht1 & Hs1 & Hu1).
    { apply Htk. left. }
    kstep H1.
    assert (Hne : ∀ u, u ∈ R → u ≠ t) by (intros u Hu ->; done).
    assert (Htk1 : ∀ u, u ∈ R → sleep_ticks_of s1 u = tk u).
    { intros u Hu. unfold sleep_ticks_of. rewrite Hu1 by auto. apply Htk. by right. }
    set (kept' := if decide (s32 (tk t - 1) = 0) then kept else kept ++ [t]).
    destruct (IH fuel s1 _ kept' tk Hr1) as (s2 & H2 & Hr2 & Hf2 & Ec2 & Ht2 & Hs2 & Hu2);
      [|lia|done|].
    { subst kept'. case_decide; [done|]. by rewrite <-app_assoc. }
    exists s2. split; [done|]. split; [|split; [by etrans|split; [congruence|]]].
    + enough (woken tk kept' R (if decide (s32 (tk t - 1) = 0)
        then set_queue PReady (a_ready a ++ [t]) (set_queue PSleep (kept ++ R) a) else a)
        = woken tk kept (t :: R) a) as <- by done.
      unfold woken. rewrite !filter_cons. subst kept'. destruct (decide (s32 (tk t - 1) = 0)).
      * rewrite decide_False by tauto. cbn. by rewrite <-app_assoc.
      * rewrite decide_True by done. by rewrite <-app_assoc.
    + assert (Eu : ∀ u, u ∉ R → k_tasks s2 !! u = k_tasks s1 !! u) by done.
      split; [|split].
      * intros u [->|Hu]%elem_of_cons; [|by apply Ht2].
        unfold sleep_ticks_of in *. by rewrite Eu.
      * intros u [->|Hu]%elem_of_cons; [|by apply Hs2].
        unfold state_of in *. rewrite Eu by done. apply Hs1.
      * intros u [Hu HuR]%not_elem_of_cons. by rewrite Eu, Hu1.
Qed.

(** The part of [task_time_tick] behind the time-slice test. *)
Definition tick_rest : K unit :=
  tm ← tm_get;
  s ← kget;
  tick_sleepers (S (size (k_nodes s))) (list_first (sleep_list tm));;
  task_dispatch.

Lemma spec_wake_woken tk a : woken tk [] (a_sleep a) a = spec_wake tk a.
Proof. done. Qed.

Lemma spec_wake_ext tk tk' a :
  (∀ t, t ∈ a_sleep a → tk t = tk' t) → spec_wake tk a = spec_wake tk' a.
Proof.
  intros E. unfold spec_wake.
  rewrite (filter_ext_in (λ t, s32 (tk t - 1) = 0) (λ t, s32 (tk' t - 1) = 0)) by
    (intros t Ht; by rewrite E).
  by rewrite (filter_ext_in (λ t, s32 (tk t - 1) ≠ 0) (λ t, s32 (tk' t - 1) ≠ 0)) by
    (intros t Ht; by rewrite E).
Qed.

Lemma tick_rest_ok s a :
  krel s a →
  ∃ s', call_ends tick_rest s s' ∧
    krel s' (spec_dispatch (spec_wake (sleep_ticks_of s) a)) ∧ obj_frame s s' ∧
    (∀ t, t ∈ a_sleep a → sleep_ticks_of s' t = s32 (sleep_ticks_of s t - 1)).
Proof.
  intros Hr. unfold call_ends, tick_rest. rewrite (kbind_ret tm_get _ s (k_tm s) s) by done.
  rewrite (kbind_ret kget _ s s s) by done.
  destruct (tick_sleepers_ok (a_sleep a) (S (size (k_nodes s))) s a [] (sleep_ticks_of s))
    as (s1 & H1 & Hr1 & Hf1 & Ec1 & Ht1 & Hs1 & Hu1); [done|done| |done|].
  { pose proof (queue_length_nodes s a PSleep _ Hr eq_refl) as Hl. cbn in Hl. lia. }
  assert (E : list_first (sleep_list (k_tm s)) = hd_or 0 (node_at PSleep <$> a_sleep a)).
  { apply (dl_first _ _ _ (kr_lists _ _ Hr PSleep _ eq_refl)). }
  rewrite E. kstep H1. rewrite spec_wake_woken in Hr1.
  destruct (task_dispatch_ok s1 _ Hr1) as (s2 & H2 & Hr2 & Hf2 & _).
  unfold call_ends in H2. rewrite Ec1, <-(curr_same s s1 a _ Hr Hr1) in H2 by done.
  exists s2. split; [done|]. split; [done|]. split; [etrans; [done|by apply sched_obj_frame]|].
  intros t Ht. rewrite (frame_sleep_ticks _ _ _ Hf2). by apply Ht1.
Qed.

Lemma tick_decrement s t x n :
  k_tasks s !! t = Some x →
  ∀ u, sleep_ticks_of (set_tasks (<[t := task_set_slice_ticks n x]> (k_tasks s)) s) u =
       sleep_ticks_of s u.
Proof.
  intros Hx u. unfold sleep_ticks_of. cbn. destruct (decide (t = u)) as [->|].
  - by rewrite lookup_insert_eq, Hx.
  - by rewrite lookup_insert_ne.
Qed.

(** The first statements of [task_time_tick]. *)
Lemma time_tick_step s a x :
  krel s a → k_tasks s !! a_curr a = Some x →
  let n := s32 (slice_ticks x - 1) in
  let s1 := set_tasks (<[a_curr a := task_set_slice_ticks n x]> (k_tasks s)) s in
  krel s1 a ∧ tick_frame s s1 ∧ k_tasks s1 !! a_curr a = Some (task_set_slice_ticks n x) ∧
  task_time_tick s =
    ((if n =? 0 then
        log_printf " ******************time slice end*************************** " [];;
        task_modify (a_curr a) (λ x, task_set_slice_ticks (time_ticks x) x);;
        task_set_block (a_curr a);;
        task_set_ready (a_curr a);;
        task_dispatch
      else mret tt);; tick_rest) s1.
Proof.
  intros Hr Hx n s1. split; [by eapply krel_task_set|].
  split; [by apply (task_set_tick_frame s _ x)|].
  split; [apply lookup_insert_eq|]. unfold task_time_tick.
  rewrite (kbind_ret task_current _ s (a_curr a) s)
    by (unfold task_current; by rewrite <-(kr_curr _ _ Hr)).
  kstep (task_get_ok _ _ _ Hx). fold n. by kstep (task_set_ok _ x (task_set_slice_ticks n x) s Hx).
Qed.

Lemma time_tick_running s a x :
  krel s a → k_tasks s !! a_curr a = Some x → s32 (slice_ticks x - 1) ≠ 0 →
  ∃ s', call_ends task_time_tick s s' ∧
    krel s' (spec_dispatch (spec_wake (sleep_ticks_of s) a)) ∧ tick_frame s s' ∧
    (∀ t, t ∈ a_sleep a → sleep_ticks_of s' t = s32 (sleep_ticks_of s t - 1)) ∧
    (∀ t, slice_ticks_of s' t =
       if decide (t = a_curr a) then s32 (slice_ticks x - 1) else slice_ticks_of s t).
Proof.
  intros Hr Hx Hn. unfold call_ends. destruct (time_tick_step s a x Hr Hx) as (Hr1 & Hf1 & Hx1 & ->).
  rewrite (proj2 (Z.eqb_neq _ _) Hn). set (s1 := set_tasks _ s) in *.
  pose proof (tick_decrement s (a_curr a) x (s32 (slice_ticks x - 1)) Hx) as Hsl.
  rewrite (kbind_ret (mret tt) _ s1 tt s1) by done.
  destruct (tick_rest_ok s1 a Hr1) as (s2 & H2 & Hr2 & Hf2 & Hsl2).
  exists s2. split; [done|]. split; [|split; [etrans; [exact Hf1|apply Hf2]|split]].
  - rewrite (spec_wake_ext (sleep_ticks_of s) (sleep_ticks_of s1)); [done|].
    intros t Ht. symmetry. apply Hsl.
  - intros t Ht. rewrite Hsl2 by done. by rewrite (Hsl t : sleep_ticks_of s1 t = _).
  - intros t. rewrite (of_slice _ _ Hf2). subst s1. by rewrite slice_ticks_set.
Qed.
End refinement.

(** *** The end of a time slice and the resumption after a switch *)
Section slice_end.
Context `{LoggerLaws}.
Implicit Types (s : kstate) (a : kabs) (t : Z).

Lemma slice_text_fits :
  ∃ out, format (bytes_of_string " ******************time slice end*************************** ") []
    = Some out ∧ Z.of_nat (length out) ≤ 127.
Proof. eexists. split; [reflexivity|]. vm_compute. discriminate. Qed.

Lemma log_free_set_cpu s c : log_free s → log_free (set_cpu c s).
Proof. done. Qed.

(** The current task behind the others; the idle task is in no queue. *)
Definition spec_expire a : kabs := if decide (a_curr a = idle_task) then a else spec_rotate a.

Lemma expire_ok s a :
  krel s a → a_curr a ∈ a_ready a ∨ a_curr a = idle_task →
  ∃ s', (∀ B (f : K B), (task_set_block (a_curr a);; task_set_ready (a_curr a);; f) s = f s') ∧
    krel s' (spec_expire a) ∧ sched_frame s s' ∧ k_cpu s' = k_cpu s.
Proof.
  intros Hr Hc. unfold spec_expire. case_decide as E.
  - exists s. split; [|done]. intros B f. rewrite E. unfold task_set_block, task_set_ready.
    by rewrite Z.eqb_refl.
  - destruct Hc as [Hc|]; [|done].
    destruct (rotate_ok s a (a_curr a) Hr Hc) as (s' & Hs & Hr' & Hf & _ & Ec & _). eauto 6.
Qed.

(** The statements run at the end of a slice, up to [task_dispatch]. *)
Lemma slice_end_step s a x :
  krel s a → k_tasks s !! a_curr a = Some x → s32 (slice_ticks x - 1) = 0 →
  log_free s → a_curr a ∈ a_ready a ∨ a_curr a = idle_task →
  ∃ s', task_time_tick s = kbind (task_dispatch s') (λ _, tick_rest) ∧
    krel s' (spec_expire a) ∧ tick_frame s s' ∧
    (∀ t, sleep_ticks_of s' t = sleep_ticks_of s t) ∧
    (∀ t, slice_ticks_of s' t = if decide (t = a_curr a) then time_ticks x else slice_ticks_of s t) ∧
    restored (c_eflags (k_cpu s)) (k_cpu s) (k_cpu s').
Proof.
  intros Hr Hx Hn Hl Hc. destruct (time_tick_step s a x Hr Hx) as (Hr1 & Hf1 & Hx1 & ->).
  rewrite Hn in *. cbn [Z.eqb]. set (s1 := set_tasks _ s) in *.
  destruct slice_text_fits as (out & Hout & Hlen).
  destruct (log_printf_quiet _ _ out s1 Hl Hout Hlen) as [ev Hlog].
  set (s2 := set_cpu (add_io ev (k_cpu s1)) s1) in *.
  assert (Hx2 : k_tasks s2 !! a_curr a = Some (task_set_slice_ticks 0 x)) by done.
  set (s3 := set_tasks (<[a_curr a := task_set_slice_ticks (time_ticks x) x]> (k_tasks s2)) s2).
  assert (Hr3 : krel s3 a).
  { eapply krel_task_set; [|exact Hx2]. by apply krel_set_cpu. }
  destruct (expire_ok s3 a Hr3 Hc) as (s4 & H4 & Hr4 & Hf4 & Ec4).
  exists s4. split; [|split; [done|split; [|split; [|split]]]].
  - match goal with |- (?m ≫= ?f) _ = ?r => change (kbind (m s1) f = r) end. f_equal.
    rewrite (kbind_ret _ _ s1 tt s2 Hlog).
    kstep (task_modify_ok _ (λ x, task_set_slice_ticks (time_ticks x) x) _ _ Hx2). apply H4.
  - etrans; [|by apply sched_obj_frame]. etrans; [exact Hf1|]. transitivity s2; [by split|].
    by apply (task_set_tick_frame s2 _ (task_set_slice_ticks 0 x)).
  - intros t. rewrite (frame_sleep_ticks _ _ _ Hf4). unfold sleep_ticks_of. cbn.
    destruct (decide (a_curr a = t)) as [<-|].
    + by rewrite lookup_insert_eq, Hx.
    + by rewrite !lookup_insert_ne.
  - intros t. rewrite (frame_slice_ticks _ _ _ Hf4). subst s3. rewrite slice_ticks_set.
    case_decide as E; [done|]. change (slice_ticks_of s2 t) with (slice_ticks_of s1 t).
    subst s1. by rewrite slice_ticks_set, decide_False.
  - rewrite Ec4. by exists ev.
Qed.
End slice_end.

(** ** Turns

    A turn is one kernel call of the running task, up to its return or to the
    task switch; the registers of the task that runs next are its own. *)
Section turns.
Context `{LoggerLaws}.

Definition turn {A} (m : K A) (s s' : kstate) : Prop :=
  ∃ s1 c, call_ends m s s1 ∧ s' = set_cpu c s1.

Definition yield_turn : kstate → kstate → Prop := turn sys_sched_yield.
Definition tick_turn : kstate → kstate → Prop := turn task_time_tick.

Lemma filter_not_head t (q : list Z) : NoDup (t :: q) → filter (λ u, u ≠ t) (t :: q) = q.
Proof. apply (filter_delete t [] q). Qed.

(** A yield of the head of the ready queue rotates the queue by one. *)
Lemma yield_turn_ok s a t u (q : list Z) :
  krel s a → a_curr a = t → a_ready a = t :: u :: q →
  ∃ s', yield_turn s s' ∧ krel s' (set_curr u (set_queue PReady (u :: q ++ [t]) a)).
Proof.
  intros Hr Hc Eq. destruct (yield_ok s a Hr) as (s1 & Hs & Hr1 & _).
  { rewrite Eq. cbn. lia. }
  { rewrite Eq, Hc. left. }
  exists (set_cpu (k_cpu s1) s1). split; [by exists s1, (k_cpu s1)|].
  apply krel_set_cpu. enough (spec_dispatch (spec_rotate a) =
    set_curr u (set_queue PReady (u :: q ++ [t]) a)) as <- by done.
  unfold spec_rotate, spec_ready, spec_block, spec_dispatch, next_task.
  rewrite set_queue_twice, Hc. cbn [a_ready set_queue queue_at].
  pose proof (ao_nodup _ (kr_ok _ _ Hr) PReady) as Hnd. cbn [queue_at] in Hnd. rewrite Eq in *.
  by rewrite filter_not_head.
Qed.

Lemma round_robin_ok u (q1 q2 : list Z) : ∀ s a,
  krel s a → a_ready a = q1 ++ u :: q2 → a_curr a = hd_or u q1 →
  ∃ s', nsteps yield_turn (length q1) s s' ∧
    krel s' (set_curr u (set_queue PReady (u :: q2 ++ q1) a)).
Proof.
  revert q2. induction q1 as [|t q1 IH]; intros q2 s a Hr Eq Hc.
  - exists s. split; [constructor|]. cbn in *. rewrite app_nil_r, <-Eq, <-Hc. by destruct a.
  - destruct (yield_turn_ok s a t (hd_or u q1) (tail (q1 ++ u :: q2))) as (s1 & Hs1 & Hr1);
      [done|done|rewrite Eq; by destruct q1|].
    destruct (IH (q2 ++ [t]) s1 _ Hr1) as (s2 & Hs2 & Hr2); [by destruct q1; cbn; rewrite <-?app_assoc|done|].
    exists s2. split; [by econstructor|]. revert Hr2.
    cbn. by rewrite <-app_assoc.
Qed.

(** *** Sleeping for a number of ticks *)
Lemma tick_turn_ok s a x t q :
  krel s a → a_ready a = t :: q → a_curr a = t → k_tasks s !! t = Some x →
  1 < slice_ticks x < 2 ^ 31 →
  ∃ s' y, tick_turn s s' ∧ krel s' (spec_wake (sleep_ticks_of s) a) ∧
    (∀ u, u ∈ a_sleep a → sleep_ticks_of s' u = s32 (sleep_ticks_of s u - 1)) ∧
    k_tasks s' !! t = Some y ∧ slice_ticks y = slice_ticks x - 1.
Proof.
  intros Hr Eq Hc Hx Hn. rewrite <-Hc in Hx.
  destruct (time_tick_running s a x Hr Hx) as (s1 & Hs & Hr1 & _ & Hsl & Hsc).
  { rewrite s32_id; lia. }
  exists (set_cpu (k_cpu s1) s1).
  specialize (Hsc (a_curr a)). rewrite decide_True, s32_id in Hsc by (done || lia).
  unfold slice_ticks_of in Hsc. destruct (k_tasks s1 !! a_curr a) as [y|] eqn:Ey.
  - exists y. split; [by eexists _, _|]. split.
    + apply krel_set_cpu. enough (spec_dispatch (spec_wake (sleep_ticks_of s) a) =
        spec_wake (sleep_ticks_of s) a) as <- by done.
      unfold spec_dispatch, next_task, spec_wake. cbn. rewrite Eq. cbn. by rewrite <-Hc.
    + split; [done|]. by rewrite <-Hc.
  - lia.
Qed.

Lemma sleep_countdown n : ∀ s a x t q w,
  krel s a → a_ready a = t :: q → a_curr a = t → k_tasks s !! t = Some x →
  Z.of_nat n < slice_ticks x < 2 ^ 31 →
  w ∈ a_sleep a → Z.of_nat n < sleep_ticks_of s w < 2 ^ 31 →
  ∃ s' a' y q', nsteps tick_turn n s s' ∧ krel s' a' ∧ a_ready a' = t :: q' ∧
    a_curr a' = t ∧ k_tasks s' !! t = Some y ∧ slice_ticks y = slice_ticks x - Z.of_nat n ∧
    w ∈ a_sleep a' ∧ sleep_ticks_of s' w = sleep_ticks_of s w - Z.of_nat n.
Proof.
  induction n as [|n IH]; intros s a x t q w Hr Eq Hc Hx Hn Hw Hm.
  - exists s, a, x, q. split; [constructor|]. split_and!; done || lia.
  - destruct (tick_turn_ok s a x t q Hr Eq Hc Hx) as (s1 & y & Hs1 & Hr1 & Hsl & Hy & Esl); [lia|].
    assert (Ew : sleep_ticks_of s1 w = sleep_ticks_of s w - 1).
    { rewrite Hsl by done. rewrite s32_id; lia. }
    destruct (IH s1 (spec_wake (sleep_ticks_of s) a) y t
      (q ++ filter (λ u, s32 (sleep_ticks_of s u - 1) = 0) (a_sleep a)) w)
      as (s2 & a2 & z & q2 & Hs2 & ? & ? & ? & ? & ? & ? & ?); try done; [..|].
    + cbn. by rewrite Eq.
    + lia.
    + cbn. apply list_elem_of_filter. split; [|done]. rewrite s32_id; lia.
    + lia.
    + exists s2, a2, z, q2. split; [by econstructor|]. split_and!; try done; lia.
Qed.
End turns.

(** ** Properties of the scheduler *)
Section properties.
Context `{LoggerLaws}.
Implicit Types (s : kstate) (a : kabs) (t : Z).

(** [task_dispatch] runs the head of the ready queue, or the idle task when
    the queue is empty. When that is the current task it returns with the state
    (the interrupt flag included) as it was; otherwise it makes the task current
    and RUNNING with interrupts masked and jumps to its TSS selector, and the
    code left behind restores the saved flags when the old task resumes. *)
Theorem task_dispatch_selects s a :
  krel s a →
  (next_task a = a_curr a → task_dispatch s = KRet tt s) ∧
  (next_task a ≠ a_curr a →
   ∃ x s' k, k_tasks s !! next_task a = Some x ∧
     task_dispatch s = KJump (u16 (tss_sel x)) s' k ∧
     krel s' (spec_dispatch a) ∧ sched_frame s s' ∧
     state_of s' (next_task a) = Some TASK_RUNNING ∧
     Z.testbit (c_eflags (k_cpu s')) 9 = false ∧
     (∀ s2, log_free s2 → names_ok s2 → is_Some (k_tasks s2 !! next_task a) →
        ∃ c, k s2 = KRet tt (set_cpu c s2) ∧ restored (c_eflags (k_cpu s)) (k_cpu s2) c)).
Proof.
  intros Hr. split; [by apply task_dispatch_stay|]. intros E.
  destruct (task_dispatch_switch s a Hr E) as (x & Hx & Hd).
  exists x, (switched (next_task a) x s), (dispatch_rest (next_task a) (c_eflags (k_cpu s))).
  split; [done|]. split; [done|]. split; [by apply krel_switched|].
  split; [by apply switched_frame|]. split; [|split; [apply cli_masks|]].
  - unfold state_of. cbn. by rewrite lookup_insert_eq.
  - intros s2 Hl Hn [y Hy]. by eapply dispatch_rest_ok.
Qed.

(** [sys_sched_yield] implements its specification on the queues: with more
    than one ready task the caller goes behind the others and the new head is
    dispatched; otherwise nothing changes. *)
Theorem sys_sched_yield_refines s a :
  krel s a → ((1 < length (a_ready a))%nat → a_curr a ∈ a_ready a) →
  ∃ s', call_ends sys_sched_yield s s' ∧ krel s' (spec_yield a) ∧ sched_frame s s'.
Proof. apply sys_sched_yield_ok. Qed.

(** Yielding is round robin: when the head of the ready queue runs, a task
    with [n] tasks before it runs after exactly [n] yields, and those tasks then
    stand behind the others in their order. *)
Theorem yield_round_robin s a u (q1 q2 : list Z) :
  krel s a → a_ready a = q1 ++ u :: q2 → a_curr a = hd_or u q1 →
  ∃ s', nsteps yield_turn (length q1) s s' ∧
    krel s' (set_curr u (set_queue PReady (u :: q2 ++ q1) a)).
Proof. apply round_robin_ok. Qed.

(** C22: [sys_sleep (ms)] takes the caller out of the ready queue, puts it at the
    end of the sleep queue for the least number of ticks that lasts [ms]
    milliseconds, and dispatches the next task. *)
Theorem sys_sleep_refines s a ms :
  krel s a → a_curr a ∈ a_ready a → 0 < ms → ms < 2 ^ 31 →
  ∃ s' n, call_ends (sys_sleep ms) s s' ∧ krel s' (spec_sleep ms a) ∧
    sleep_ticks_of s' (a_curr a) = n ∧ (n - 1) * OS_TICKS_MS < ms ≤ n * OS_TICKS_MS ∧
    state_of s' (a_curr a) = Some TASK_SLEEP ∧
    a_sleep (spec_sleep ms a) = a_sleep a ++ [a_curr a] ∧
    a_curr a ∉ a_ready (spec_sleep ms a).
Proof.
  intros Hr Hc Hms Hms2. destruct (sys_sleep_ok s a ms Hr Hc) as (s' & Hs & Hr' & _ & Hn).
  assert (E : ms_to_ticks ms = (ms + 9) / 10).
  { unfold ms_to_ticks, OS_TICKS_MS. by rewrite u32_id by lia. }
  pose proof (Z.div_mod (ms + 9) 10) as Hdm. pose proof (Z.mod_pos_bound (ms + 9) 10) as Hmb.
  destruct Hn as (Hn & Hst & _); [lia|]. rewrite s32_id in Hn by lia.
  exists s', (ms_to_ticks ms). unfold OS_TICKS_MS.
  split; [done|]. split; [done|]. split; [done|]. split; [lia|]. split; [done|].
  unfold spec_sleep. rewrite (proj2 (Z.eqb_neq (ms_to_ticks ms) 0)) by lia.
  split; [done|]. cbn. intros Hin%list_elem_of_filter. by destruct Hin.
Qed.

(** [sys_sleep (0)] takes the caller out of the ready queue and puts it in no
    other: it is in neither the ready queue, nor the sleep queue, nor any wait
    queue, and no longer current, so nothing will schedule it again. *)
Theorem sys_sleep_zero_strands s a :
  krel s a → a_curr a ∈ a_ready a →
  ∃ s' a', call_ends (sys_sleep 0) s s' ∧ krel s' a' ∧
    (∀ p, p ≠ PAll → a_curr a ∉ queue_at a' p) ∧ a_curr a' ≠ a_curr a.
Proof.
  intros Hr Hc. destruct (sys_sleep_ok s a 0 Hr Hc) as (s' & Hs & Hr' & _).
  exists s', (spec_sleep 0 a). split; [done|]. split; [done|].
  destruct (task_set_block_ok s a (a_curr a) Hr Hc) as (s1 & _ & _ & _ & _ & _ & Hfree).
  split; [intros p Hp; destruct p; exact (Hfree _ Hp)|].
  change (next_task (spec_block (a_curr a) a) ≠ a_curr a).
  unfold next_task. specialize (Hfree PReady ltac:(done)). cbn [queue_at] in Hfree.
  destruct (a_ready (spec_block (a_curr a) a)) as [|u q].
  - cbn. intros E. apply (ao_idle _ (kr_ok _ _ Hr) PReady); [done|]. by rewrite E.
  - cbn. intros E. apply Hfree. rewrite <-E. left.
Qed.

(** A clock tick that does not end the running task's slice decrements that
    slice and the counter of every sleeper, and moves exactly the sleepers whose
    counter reaches 0, in order, to the end of the ready queue. *)
Theorem time_tick_wakes s a x :
  krel s a → k_tasks s !! a_curr a = Some x → s32 (slice_ticks x - 1) ≠ 0 →
  ∃ s', call_ends task_time_tick s s' ∧
    krel s' (spec_dispatch (spec_wake (sleep_ticks_of s) a)) ∧ tick_frame s s' ∧
    (∀ t, t ∈ a_sleep a → sleep_ticks_of s' t = s32 (sleep_ticks_of s t - 1)) ∧
    (∀ t, slice_ticks_of s' t =
       if decide (t = a_curr a) then s32 (slice_ticks x - 1) else slice_ticks_of s t).
Proof. apply time_tick_running. Qed.

(** A sleeper whose counter is [n] is still asleep after every [k < n] ticks
    and is in the ready queue after [n], while the running head of the ready
    queue has more than [n] ticks left in its slice. *)
Theorem sleeper_wakes_on_time s a x t q w n :
  krel s a → a_ready a = t :: q → a_curr a = t → k_tasks s !! t = Some x →
  Z.of_nat n < slice_ticks x < 2 ^ 31 → w ∈ a_sleep a →
  (0 < n)%nat → sleep_ticks_of s w = Z.of_nat n →
  (∀ k, (k < n)%nat → ∃ s' a', nsteps tick_turn k s s' ∧ krel s' a' ∧ w ∈ a_sleep a' ∧
     sleep_ticks_of s' w = Z.of_nat (n - k)) ∧
  (∃ s' a', nsteps tick_turn n s s' ∧ krel s' a' ∧ w ∈ a_ready a').
Proof.
  intros Hr Eq Hc Hx Hsl Hw Hn Hm. split.
  - intros k Hk. destruct (sleep_countdown k s a x t q w) as
      (s1 & a1 & y & q1 & Hs1 & Hr1 & _ & _ & _ & _ & Hw1 & Hm1); try done; [lia..|].
    exists s1, a1. split_and!; try done. lia.
  - destruct n as [|n]; [lia|].
    destruct (sleep_countdown n s a x t q w) as
      (s1 & a1 & y & q1 & Hs1 & Hr1 & Eq1 & Hc1 & Hy & Hsy & Hw1 & Hm1); try done; [lia..|].
    destruct (tick_turn_ok s1 a1 y t q1 Hr1 Eq1 Hc1 Hy) as (s2 & z & Hs2 & Hr2 & _); [lia|].
    exists s2, (spec_wake (sleep_ticks_of s1) a1).
    split; [by eapply nsteps_r|]. split; [done|]. cbn. apply elem_of_app. right.
    apply list_elem_of_filter. split; [|done]. rewrite Hm1, Hm.
    replace (Z.of_nat (S n) - Z.of_nat n - 1) with 0 by lia. done.
Qed.

(** C19: when the tick ends the running task's slice, the slice is refilled and
    the task goes behind the other ready tasks. If another task is then first,
    the processor leaves the tick there: the sleepers' counters are untouched,
    and they are processed only when the preempted task resumes. *)
Theorem time_tick_preempts s a x :
  krel s a → k_tasks s !! a_curr a = Some x → s32 (slice_ticks x - 1) = 0 →
  log_free s → a_curr a ∈ a_ready a ∨ a_curr a = idle_task →
  next_task (spec_expire a) ≠ a_curr a →
  ∃ sel s' k, task_time_tick s = KJump sel s' k ∧
    krel s' (spec_dispatch (spec_expire a)) ∧
    slice_ticks_of s' (a_curr a) = time_ticks x ∧
    (∀ t, sleep_ticks_of s' t = sleep_ticks_of s t) ∧
    (∀ s2 b, krel s2 b → log_free s2 → names_ok s2 →
       is_Some (k_tasks s2 !! next_task (spec_expire a)) →
       ∃ c s3, restored (c_eflags (k_cpu s)) (k_cpu s2) c ∧
         stops c (curr_task (k_tm s2)) (k s2) s3 ∧
         krel s3 (spec_dispatch (spec_wake (sleep_ticks_of s2) b))).
Proof.
  intros Hr Hx Hn Hl Hc Hne.
  destruct (slice_end_step s a x Hr Hx Hn Hl Hc) as (s1 & E & Hr1 & Hf1 & Hsl1 & Hti1 & Ee).
  assert (Hcur : a_curr (spec_expire a) = a_curr a) by (unfold spec_expire; by case_decide).
  destruct (task_dispatch_switch s1 (spec_expire a) Hr1) as (y & Hy & Ed); [by rewrite Hcur|].
  rewrite E, Ed. cbn [kbind]. eexists _, _, _. split; [done|].
  pose proof (switched_frame s1 _ y Hy) as Hfs.
  split; [by apply krel_switched|]. split; [by rewrite (frame_slice_ticks _ _ _ Hfs), Hti1, decide_True|].
  split; [intros t; by rewrite (frame_sleep_ticks _ _ _ Hfs)|].
  intros s2 b Hr2 Hl2 Hn2 [z Hz].
  destruct (dispatch_rest_ok s2 _ (c_eflags (k_cpu s1)) z Hl2 Hn2 Hz) as (c & -> & Ec). cbn [kbind].
  destruct (tick_rest_ok (set_cpu c s2) b) as (s3 & Hs3 & Hr3 & _); [by apply krel_set_cpu|].
  assert (Ee' : c_eflags (k_cpu s1) = c_eflags (k_cpu s)) by by destruct Ee as [ev ->].
  exists c, s3. split; [by rewrite <-Ee'|]. split; [done|]. by rewrite (spec_wake_ext (sleep_ticks_of s2)
    (sleep_ticks_of (set_cpu c s2))).
Qed.
End properties.

(** *** Witnesses: the small kernel of [Demo] *)
Section witnesses.
#[local] Existing Instance demo_layout.
#[local] Existing Instance quiet_logger.
#[local] Existing Instance quiet_logger_laws.

(** The demo kernel with task [t] running, its queues being [ready] and [sleep]. *)
Definition demo_abs_of (t : Z) (ready sleep : list Z) : kabs :=
  KAbs t ready sleep (a_all demo_abs) ∅.
Definition demo_state_of (t : Z) (ready sleep : list Z) : kstate :=
  demo_kernel (demo_abs_of t ready sleep) demo_tasks free_mutexes [].

Lemma task_dispatch_selects_witness :
  ∃ s' k, task_dispatch (demo_state_of first_task [task_b; first_task] [task_c]) = KJump 48 s' k.
Proof.
  destruct (task_dispatch_selects (demo_state_of first_task [task_b; first_task] [task_c])
    (demo_abs_of first_task [task_b; first_task] [task_c])) as [_ Hsw]; [decide_krel|].
  destruct Hsw as (x & s' & k & Hx & Hd & _); [vm_compute; discriminate|].
  vm_compute in Hx. injection Hx as <-. exists s', k. exact Hd.
Defined.

Lemma sys_sched_yield_refines_witness :
  ∃ s', call_ends sys_sched_yield demo_state s' ∧
    krel s' (demo_abs_of task_a [task_a; task_b; first_task] [task_c]).
Proof.
  destruct (sys_sched_yield_refines demo_state demo_abs) as (s' & Hs & Hr & _).
  - decide_krel.
  - intros _. apply (bool_decide_unpack _). reflexivity.
  - exists s'. split; [exact Hs|exact Hr].
Defined.

Lemma yield_round_robin_witness :
  ∃ s', nsteps yield_turn 2 demo_state s' ∧
    krel s' (demo_abs_of task_b [task_b; first_task; task_a] [task_c]).
Proof.
  destruct (yield_round_robin demo_state demo_abs task_b [first_task; task_a] [])
    as (s' & Hs & Hr); [decide_krel|reflexivity..|].
  exists s'. split; [exact Hs|exact Hr].
Defined.

Lemma sys_sleep_refines_witness :
  ∃ s', call_ends (sys_sleep 25) demo_state s' ∧
    krel s' (demo_abs_of task_a [task_a; task_b] [task_c; first_task]) ∧
    sleep_ticks_of s' first_task = 3.
Proof.
  destruct (sys_sleep_refines demo_state demo_abs 25) as (s' & n & Hs & Hr & Hn & Hb & _).
  - decide_krel.
  - apply (bool_decide_unpack _). reflexivity.
  - lia.
  - lia.
  - exists s'. split; [exact Hs|]. split; [exact Hr|]. unfold OS_TICKS_MS in Hb.
    replace 3 with n by lia. exact Hn.
Defined.

Lemma sys_sleep_zero_strands_witness :
  ∃ s' a', call_ends (sys_sleep 0) demo_state s' ∧ krel s' a' ∧
    ∀ p, p ≠ PAll → first_task ∉ queue_at a' p.
Proof.
  destruct (sys_sleep_zero_strands demo_state demo_abs) as (s' & a' & Hs & Hr & Hq & _).
  - decide_krel.
  - apply (bool_decide_unpack _). reflexivity.
  - exists s', a'. split; [exact Hs|]. split; [exact Hr|exact Hq].
Defined.

Lemma time_tick_wakes_witness :
  ∃ s', call_ends task_time_tick demo_state s' ∧
    krel s' (demo_abs_of first_task [first_task; task_a; task_b] [task_c]) ∧
    sleep_ticks_of s' task_c = 1.
Proof.
  destruct (time_tick_wakes demo_state demo_abs (demo_task TASK_RUNNING "first task" 0 10 32))
    as (s' & Hs & Hr & _ & Hsl & _); [decide_krel|reflexivity|vm_compute; discriminate|].
  exists s'. split; [exact Hs|]. split; [exact Hr|]. apply (Hsl task_c). vm_compute. left.
Defined.

Lemma sleeper_wakes_on_time_witness :
  ∃ s' a', nsteps tick_turn 2 demo_state s' ∧ krel s' a' ∧ task_c ∈ a_ready a'.
Proof.
  apply (sleeper_wakes_on_time demo_state demo_abs
    (demo_task TASK_RUNNING "first task" 0 10 32) first_task [task_a; task_b] task_c 2).
  - decide_krel.
  - reflexivity.
  - reflexivity.
  - reflexivity.
  - cbn. lia.
  - vm_compute. left.
  - lia.
  - reflexivity.
Defined.

Lemma time_tick_preempts_witness :
  ∃ sel s' k, task_time_tick (demo_state_of task_a [task_a; task_b] [task_c]) = KJump sel s' k ∧
    krel s' (demo_abs_of task_b [task_b; task_a] [task_c]) ∧ slice_ticks_of s' task_a = 10 ∧
    sleep_ticks_of s' task_c = 2.
Proof.
  destruct (time_tick_preempts (demo_state_of task_a [task_a; task_b] [task_c])
    (demo_abs_of task_a [task_a; task_b] [task_c]) (demo_task TASK_READY "a" 0 1 40))
    as (sel & s' & k & Hs & Hr & Hsl & Htk & _).
  - decide_krel.
  - reflexivity.
  - reflexivity.
  - exists list_init. split; reflexivity.
  - left. left.
  - vm_compute. discriminate.
  - exists sel, s', k. split; [exact Hs|]. split; [exact Hr|]. split; [exact Hsl|].
    exact (Htk task_c).
Defined.
End witnesses.
