(* ===== verification/Mutex.v ===== *)
(** * Mutexes (kernel/ipc/mutex.c)

    The recursive mutex whose unlock hands the lock to the first waiter. *)
From S2P Require Import Prelude Klib DList CpuInstr Desc Kernel Queues ListRef Demo Sched.

(** ** Operations *)
Section operations.
Context `{Layout, Logger}.

(** [&mutex->wait_list] *)
Definition mutex_wait (m : Z) : list_ref :=
  ListRef (x ← mutex_get m; mret (mutex_wait_list x))
    (λ l, x ← mutex_get m; mutex_set m (Mutex (owner x) (locked_count x) l)).

Definition mutex_init (m : Z) : K unit := mutex_set m (Mutex 0 0 list_init).

Definition mutex_lock (m : Z) : K unit :=
  state ← with_cpu irq_enter_protection;
  curr ← task_current;
  x ← mutex_get m;
  (if locked_count x =? 0 then
     mutex_set m (Mutex curr (s32 (locked_count x + 1)) (mutex_wait_list x))
   else if owner x =? curr then
     mutex_set m (Mutex (owner x) (s32 (locked_count x + 1)) (mutex_wait_list x))
   else
     task_set_block curr;;
     klist_insert_last (mutex_wait m) (wait_node curr);;
     task_dispatch);;
  with_cpu (irq_leave_protection state).

Definition mutex_unlock (m : Z) : K unit :=
  state ← with_cpu irq_enter_protection;
  curr ← task_current;
  x ← mutex_get m;
  (if owner x =? curr then
     let n := s32 (locked_count x - 1) in
     mutex_set m (Mutex (owner x) n (mutex_wait_list x));;
     if n =? 0 then
       mutex_set m (Mutex 0 n (mutex_wait_list x));;
       c ← klist_count (mutex_wait m);
       if negb (c =? 0) then
         node ← klist_remove_first (mutex_wait m);
         let task := list_node_parent node wait_node_off in
         task_set_ready task;;
         y ← mutex_get m;
         mutex_set m (Mutex task 1 (mutex_wait_list y));;
         task_dispatch
       else mret tt
     else mret tt
   else mret tt);;
  with_cpu (irq_leave_protection state).
End operations.

(** ** Lemmas *)
Section lemmas.
Context `{LoggerLaws}.
Implicit Types (s : kstate) (a : kabs) (t m : Z).

Definition mutex_at (m : Z) (x : mutex_t) (s : kstate) : kstate :=
  set_mutexes (<[m := x]> (k_mutex s)) s.

Lemma mutex_refers m c n :
  refers (λ s, ∃ l, k_mutex s !! m = Some (Mutex c n l)) (mutex_wait m) (PWait m)
    (λ l, mutex_at m (Mutex c n l)).
Proof.
  split; try done.
  - intros s [l Hm]. exists l. cbn. rewrite Hm. split; [done|]. by kstep (mutex_get_ok _ _ _ Hm).
  - intros s l [l0 Hm]. split; [|split].
    + cbn. kstep (mutex_get_ok _ _ _ Hm). by apply (mutex_set_ok _ _ _ _ Hm).
    + cbn. by rewrite lookup_insert_eq.
    + intros q Hq. destruct q as [| | |o]; try done. cbn.
      rewrite lookup_insert_ne by congruence. done.
  - intros s s' [l Hm] E _. exists l. by rewrite E.
Qed.

(** Storing scalar fields keeps the queues. *)
Lemma krel_mutex_scalar s a m c n x :
  krel s a → k_mutex s !! m = Some x →
  krel (mutex_at m (Mutex c n (mutex_wait_list x)) s) a.
Proof.
  intros Hr Hm. eapply krel_ext; [exact Hr|done| |done|done].
  intros [| | |o]; try done. cbn. destruct (decide (m = o)) as [<-|].
  - by rewrite lookup_insert_eq, Hm.
  - by rewrite lookup_insert_ne.
Qed.

Lemma task_current_ok s a : krel s a → task_current s = KRet (a_curr a) s.
Proof. intros Hr. unfold task_current. by rewrite <-(kr_curr _ _ Hr). Qed.

(** The protected region: whatever the body does, the flags are restored when it
    returns. *)
Lemma protected_ret (f : K unit) s s1 :
  f (cli_state s) = KRet tt s1 →
  (state ← with_cpu irq_enter_protection; f;; with_cpu (irq_leave_protection state)) s =
    KRet tt (set_cpu (set_eflags (c_eflags (k_cpu s)) (k_cpu s1)) s1).
Proof. intros Hf. rewrite enter_ok. by kstep Hf. Qed.

(** Waiting: from the ready queue to the end of the wait queue of [o]. *)
Definition spec_wait (o t : Z) (a : kabs) : kabs :=
  set_queue (PWait o) (queue_at a (PWait o) ++ [t]) (spec_block t a).

(** Waking: from the head of the wait queue of [o] to the end of the ready queue. *)
Definition spec_handoff (o t : Z) (q : list Z) (a : kabs) : kabs :=
  spec_ready t (set_queue (PWait o) q a).

(** What a wait or a wake leaves alone: the other objects, the descriptor tables,
    the time, and everything of every task but its state. *)
Record ipc_frame (s s' : kstate) : Prop := {
  if_gdt : k_gdt s' = k_gdt s;
  if_idt : k_idt s' = k_idt s;
  if_tick : k_sys_tick s' = k_sys_tick s;
  if_tasks : ∀ t, task_set_state TASK_CREATED <$> k_tasks s' !! t =
                  task_set_state TASK_CREATED <$> k_tasks s !! t
}.

#[export] Instance ipc_frame_preorder : PreOrder ipc_frame.
Proof. split; [by intros s; split|]. intros s1 s2 s3 [] []. split; congruence. Qed.

Lemma sched_ipc_frame s s' : sched_frame s s' → ipc_frame s s'.
Proof. intros []. by split. Qed.

(** The two statements that put the current task on a wait list. *)
Lemma wait_on_ok P r o upd s a :
  refers P r (PWait o) upd → krel s a → P s → a_curr a ∈ a_ready a →
  ∃ l s1, (∀ B (f : K B), (task_set_block (a_curr a);;
       klist_insert_last r (wait_node (a_curr a));; f) s = f (upd l s1)) ∧
    krel (upd l s1) (spec_wait o (a_curr a) a) ∧
    k_mutex s1 = k_mutex s ∧ k_sem s1 = k_sem s ∧ sched_frame s s1 ∧ k_cpu s1 = k_cpu s.
Proof.
  intros Href Hr HP Hc.
  destruct (task_set_block_ok s a (a_curr a) Hr Hc) as (s1 & Hs1 & Hr1 & Hf1 & Et1 & Ec1 & Hfree).
  assert (HP1 : P s1) by (eapply (rf_stable _ _ _ _ Href); [exact HP|apply Hf1..]).
  destruct (klist_insert_last_ok Href s1 (spec_block (a_curr a) a) (a_curr a))
    as (l & h & Hop & Hr2); try done.
  - rewrite Et1. by apply (kr_in _ _ Hr PReady).
  - intros E. apply (ao_idle _ (kr_ok _ _ Hr) PReady); [done|]. by rewrite <-E.
  - exists l, (set_nodes h s1). split; [intros B f; kstep Hs1; by kstep Hop|].
    split; [exact Hr2|]. destruct Hf1. by split_and!.
Qed.

(** The statements that take the first waiter off a wait list and make it ready. *)
Lemma wake_first_ok P r o upd s a t q :
  refers P r (PWait o) upd → krel s a → P s → queue_at a (PWait o) = t :: q →
  ∃ l s1 s2, s1 = upd l s2 ∧ k_mutex s2 = k_mutex s ∧ k_sem s2 = k_sem s ∧
    sched_frame s s2 ∧ k_cpu s2 = k_cpu s ∧
    ∃ s3, (∀ B (f : Z → K B), (node ← klist_remove_first r;
        let task := list_node_parent node wait_node_off in task_set_ready task;; f task) s =
        f t s3) ∧
      krel s3 (spec_handoff o t q a) ∧ sched_frame s1 s3 ∧ k_cpu s3 = k_cpu s ∧
      state_of s3 t = Some TASK_READY.
Proof.
  intros Href Hr HP Eq.
  destruct (klist_remove_first_ok Href s a t q Hr HP Eq) as (l & h & Hop & Hr1).
  assert (Hin : t ∈ queue_at a (PWait o)) by (rewrite Eq; left).
  destruct (kr_in _ _ Hr _ _ Hin) as [x Hx].
  exists l, (upd l (set_nodes h s)), (set_nodes h s). do 5 (split; [done|]).
  destruct (task_set_ready_ok (upd l (set_nodes h s)) (set_queue (PWait o) q a) t)
    as (s3 & Hs3 & Hr3 & Hf3 & Hst & Ec & _); [done| | | |].
  - rewrite (rf_tasks _ _ _ _ Href). by exists x.
  - intros ->. by apply (ao_idle _ (kr_ok _ _ Hr) (PWait o)).
  - intros p Hp. apply (free_after_delete a (PWait o) t [] q (kr_ok _ _ Hr)); done.
  - exists s3. split; [|split; [exact Hr3|split; [done|split; [|done]]]].
    + intros B f. kstep Hop.
      rewrite (krel_parent s a (PWait o) t Hr (mk_is_Some _ _ Hx) :
        list_node_parent _ wait_node_off = t). by kstep Hs3.
    + by rewrite Ec, (rf_cpu _ _ _ _ Href).
Qed.

Lemma restore_cli s s1 :
  k_cpu s1 = k_cpu (cli_state s) →
  set_cpu (set_eflags (c_eflags (k_cpu s)) (k_cpu s1)) s1 = set_cpu (k_cpu s) s1.
Proof. intros ->. cbn. unfold set_eflags. by destruct (k_cpu s). Qed.

Lemma mutex_at_cli m x s : set_cpu (k_cpu s) (mutex_at m x (cli_state s)) = mutex_at m x s.
Proof. by destruct s. Qed.

(** A mutex nobody holds or waits for is taken and released without the
    scheduler; the relation to the queues is not needed. *)
Lemma mutex_lock_idle m s l :
  k_mutex s !! m = Some (Mutex 0 0 l) →
  mutex_lock m s = KRet tt (mutex_at m (Mutex (curr_task (k_tm s)) 1 l) s).
Proof.
  intros Hm. unfold mutex_lock. rewrite enter_ok.
  rewrite (kbind_ret task_current _ _ (curr_task (k_tm s)) (cli_state s)) by done.
  kstep (mutex_get_ok m _ (cli_state s) Hm). cbn [locked_count Z.eqb].
  kstep (mutex_set_ok m (Mutex (curr_task (k_tm s)) (s32 (0 + 1)) l) _ (cli_state s) Hm).
  rewrite (leave_ok s) by done. exact (f_equal (KRet tt) (mutex_at_cli _ _ s)).
Qed.

Lemma mutex_unlock_idle m s l :
  k_mutex s !! m = Some (Mutex (curr_task (k_tm s)) 1 l) → l_count l = 0 →
  mutex_unlock m s = KRet tt (mutex_at m (Mutex 0 0 l) s).
Proof.
  intros Hm Hl. unfold mutex_unlock. rewrite enter_ok.
  rewrite (kbind_ret task_current _ _ (curr_task (k_tm s)) (cli_state s)) by done.
  kstep (mutex_get_ok m _ (cli_state s) Hm).
  cbn [owner locked_count mutex_wait_list]. rewrite Z.eqb_refl.
  change (s32 (1 - 1)) with 0. cbv zeta. cbn [Z.eqb].
  set (s1 := mutex_at m (Mutex 0 0 l) (cli_state s)).
  set (s0 := mutex_at m (Mutex (curr_task (k_tm s)) 0 l) (cli_state s)).
  rewrite (kbind_ret _ _ (cli_state s) tt s1).
  - rewrite (leave_ok s) by done. exact (f_equal (KRet tt) (mutex_at_cli _ _ s)).
  - rewrite (kbind_ret (mutex_set _ _) _ _ tt s0) by by apply (mutex_set_ok _ _ _ (cli_state s) Hm).
    assert (Hm0 : k_mutex s0 !! m = Some (Mutex (curr_task (k_tm s)) 0 l)).
    { cbn. by rewrite lookup_insert_eq. }
    rewrite (kbind_ret (mutex_set _ _) _ _ tt s1).
    2:{ rewrite (mutex_set_ok _ _ _ _ Hm0). subst s0 s1. unfold mutex_at. cbn.
        by rewrite insert_insert_eq. }
    rewrite (kbind_ret (klist_count _) _ _ 0 s1); [done|].
    assert (Hm1 : k_mutex s1 !! m = Some (Mutex 0 0 l)).
    { cbn. by rewrite lookup_insert_eq. }
    unfold klist_count. cbn [lr_get mutex_wait].
    rewrite (kbind_ret _ _ _ l s1) by by kstep (mutex_get_ok _ _ _ Hm1).
    unfold list_count. by rewrite Hl.
Qed.

(** *** Locking *)
Section lock.
Context (s : kstate) (a : kabs) (m : Z) (x : mutex_t).
Context (Hr : krel s a) (Hm : k_mutex s !! m = Some x).

Lemma mutex_lock_free :
  locked_count x = 0 →
  mutex_lock m s = KRet tt (mutex_at m (Mutex (a_curr a) 1 (mutex_wait_list x)) s).
Proof.
  intros Hc. unfold mutex_lock. rewrite enter_ok.
  kstep (task_current_ok (cli_state s) a (krel_set_cpu _ _ _ Hr)).
  kstep (mutex_get_ok m x (cli_state s) Hm). rewrite Hc. cbn [Z.eqb].
  kstep (mutex_set_ok m (Mutex (a_curr a) (s32 (0 + 1)) (mutex_wait_list x)) x (cli_state s) Hm).
  rewrite (leave_ok s) by done. exact (f_equal (KRet tt) (mutex_at_cli _ _ s)).
Qed.

Lemma mutex_lock_again :
  locked_count x ≠ 0 → owner x = a_curr a →
  mutex_lock m s = KRet tt
    (mutex_at m (Mutex (owner x) (s32 (locked_count x + 1)) (mutex_wait_list x)) s).
Proof.
  intros Hc Ho. unfold mutex_lock. rewrite enter_ok.
  kstep (task_current_ok (cli_state s) a (krel_set_cpu _ _ _ Hr)).
  kstep (mutex_get_ok m x (cli_state s) Hm).
  rewrite (proj2 (Z.eqb_neq _ _) Hc), Ho, Z.eqb_refl, <-Ho.
  kstep (mutex_set_ok m (Mutex (owner x) (s32 (locked_count x + 1)) (mutex_wait_list x)) x
    (cli_state s) Hm).
  rewrite (leave_ok s) by done. exact (f_equal (KRet tt) (mutex_at_cli _ _ s)).
Qed.

Lemma mutex_lock_contended :
  locked_count x ≠ 0 → owner x ≠ a_curr a → a_curr a ∈ a_ready a →
  ∃ s' l, call_ends (mutex_lock m) s s' ∧
    krel s' (spec_dispatch (spec_wait m (a_curr a) a)) ∧
    k_mutex s' = <[m := Mutex (owner x) (locked_count x) l]> (k_mutex s) ∧
    k_sem s' = k_sem s ∧ ipc_frame s s'.
Proof.
  intros Hc Ho Hin. unfold call_ends, mutex_lock. rewrite enter_ok.
  pose proof (krel_set_cpu s a (k_cpu (cli_state s)) Hr) as Hr0. fold (cli_state s) in Hr0.
  kstep (task_current_ok (cli_state s) a Hr0). kstep (mutex_get_ok m x (cli_state s) Hm).
  rewrite (proj2 (Z.eqb_neq _ _) Hc), (proj2 (Z.eqb_neq _ _) Ho).
  destruct (wait_on_ok _ _ m _ (cli_state s) a (mutex_refers m (owner x) (locked_count x)) Hr0)
    as (l & s1 & Hw & Hr1 & Em & Es & Hf1 & Ec1); [|done|].
  { exists (mutex_wait_list x). cbn. by destruct x. }
  destruct (task_dispatch_ok _ _ Hr1) as (s2 & Hd & Hr2 & Hf2 & _).
  unfold call_ends in Hd. rewrite <-(Hw unit task_dispatch) in Hd.
  destruct (stops_leave s _ _ _ _ Hd) as (c & Hs); [exact Ec1|by eapply (curr_same _ s)|].
  exists (set_cpu c s2), l. split; [exact Hs|]. split; [by apply krel_set_cpu|].
  split; [|split].
  - cbn. rewrite (sf_mutex _ _ Hf2). cbn. by rewrite Em.
  - cbn. rewrite (sf_sem _ _ Hf2). cbn. by rewrite Es.
  - etrans; [|by apply sched_ipc_frame, sched_frame_set_cpu].
    etrans; [|by apply sched_ipc_frame]. transitivity s1; [|by split].
    etrans; [|by apply sched_ipc_frame]. by split.
Qed.
End lock.

(** *** Unlocking *)
Section unlock.
Context (s : kstate) (a : kabs) (m : Z) (x : mutex_t).
Context (Hr : krel s a) (Hm : k_mutex s !! m = Some x).

Lemma mutex_unlock_other : owner x ≠ a_curr a → mutex_unlock m s = KRet tt s.
Proof.
  intros Ho. unfold mutex_unlock. rewrite enter_ok.
  kstep (task_current_ok (cli_state s) a (krel_set_cpu _ _ _ Hr)).
  kstep (mutex_get_ok m x (cli_state s) Hm). rewrite (proj2 (Z.eqb_neq _ _) Ho).
  rewrite (kbind_ret (mret tt) _ _ tt (cli_state s)) by done.
  rewrite (leave_ok s) by done. by rewrite set_cpu_cli.
Qed.

Lemma mutex_unlock_nested :
  owner x = a_curr a → s32 (locked_count x - 1) ≠ 0 →
  mutex_unlock m s = KRet tt
    (mutex_at m (Mutex (owner x) (s32 (locked_count x - 1)) (mutex_wait_list x)) s).
Proof.
  intros Ho Hn. unfold mutex_unlock. rewrite enter_ok.
  kstep (task_current_ok (cli_state s) a (krel_set_cpu _ _ _ Hr)).
  kstep (mutex_get_ok m x (cli_state s) Hm). rewrite Ho, Z.eqb_refl, <-Ho.
  set (n := s32 (locked_count x - 1)) in *.
  set (s1 := mutex_at m (Mutex (owner x) n (mutex_wait_list x)) (cli_state s)).
  rewrite (kbind_ret _ _ (cli_state s) tt s1).
  - rewrite (leave_ok s) by done. subst s1. by rewrite mutex_at_cli.
  - rewrite (kbind_ret (mutex_set _ _) _ _ tt s1) by by apply (mutex_set_ok _ _ x).
    by rewrite (proj2 (Z.eqb_neq _ _) Hn).
Qed.

(** The statements of [mutex_unlock] up to the test of the wait list. *)
Lemma mutex_unlock_last :
  owner x = a_curr a → locked_count x = 1 →
  let s1 := mutex_at m (Mutex 0 0 (mutex_wait_list x)) (cli_state s) in
  krel s1 a ∧ k_mutex s1 !! m = Some (Mutex 0 0 (mutex_wait_list x)) ∧
  mutex_unlock m s =
    ((if negb (Z.of_nat (length (queue_at a (PWait m))) =? 0) then
        node ← klist_remove_first (mutex_wait m);
        let task := list_node_parent node wait_node_off in
        task_set_ready task;;
        y ← mutex_get m;
        mutex_set m (Mutex task 1 (mutex_wait_list y));;
        task_dispatch
      else mret tt);; with_cpu (irq_leave_protection (c_eflags (k_cpu s)))) s1.
Proof.
  intros Ho Hn s1.
  assert (Hm1 : k_mutex s1 !! m = Some (Mutex 0 0 (mutex_wait_list x))).
  { cbn. by rewrite lookup_insert_eq. }
  assert (Hr1 : krel s1 a).
  { apply (krel_mutex_scalar (cli_state s) a m 0 0 x); [by apply krel_set_cpu|done]. }
  split; [done|]. split; [done|].
  unfold mutex_unlock. rewrite enter_ok.
  kstep (task_current_ok (cli_state s) a (krel_set_cpu _ _ _ Hr)).
  kstep (mutex_get_ok m x (cli_state s) Hm). rewrite Ho, Z.eqb_refl, Hn, <-Ho.
  change (s32 (1 - 1)) with 0. cbv zeta. cbn [Z.eqb].
  match goal with |- (?f ≫= ?g) _ = (?f' ≫= _) _ =>
    change (kbind (f (cli_state s)) g = kbind (f' s1) g) end. f_equal.
  set (s0 := mutex_at m (Mutex (owner x) 0 (mutex_wait_list x)) (cli_state s)).
  rewrite (kbind_ret (mutex_set _ _) _ _ tt s0) by by apply (mutex_set_ok _ _ x).
  assert (Hm0 : k_mutex s0 !! m = Some (Mutex (owner x) 0 (mutex_wait_list x))).
  { cbn. by rewrite lookup_insert_eq. }
  rewrite (kbind_ret (mutex_set _ _) _ _ tt s1).
  2:{ rewrite (mutex_set_ok _ _ _ _ Hm0). subst s0 s1. unfold mutex_at. cbn.
      by rewrite insert_insert_eq. }
  by kstep (klist_count_ok (mutex_refers m 0 0) s1 a Hr1 (ex_intro _ _ Hm1)).
Qed.

Lemma mutex_unlock_free :
  owner x = a_curr a → locked_count x = 1 → queue_at a (PWait m) = [] →
  mutex_unlock m s = KRet tt (mutex_at m (Mutex 0 0 (mutex_wait_list x)) s).
Proof.
  intros Ho Hn Eq. destruct (mutex_unlock_last Ho Hn) as (Hr1 & Hm1 & ->).
  rewrite Eq.
  rewrite (kbind_ret _ _ _ tt (mutex_at m (Mutex 0 0 (mutex_wait_list x)) (cli_state s))) by done.
  rewrite (leave_ok s) by done. exact (f_equal (KRet tt) (mutex_at_cli _ _ s)).
Qed.

Lemma mutex_unlock_handoff t q :
  owner x = a_curr a → locked_count x = 1 → queue_at a (PWait m) = t :: q →
  ∃ s' l, call_ends (mutex_unlock m) s s' ∧
    krel s' (spec_dispatch (spec_handoff m t q a)) ∧
    k_mutex s' = <[m := Mutex t 1 l]> (k_mutex s) ∧ k_sem s' = k_sem s ∧ ipc_frame s s'.
Proof.
  intros Ho Hn Eq. unfold call_ends. destruct (mutex_unlock_last Ho Hn) as (Hr1 & Hm1 & ->).
  set (s1 := mutex_at m (Mutex 0 0 (mutex_wait_list x)) (cli_state s)) in *.
  rewrite Eq. change (negb (Z.of_nat (length (t :: q)) =? 0)) with true. cbv iota.
  destruct (wake_first_ok _ _ m _ s1 a t q (mutex_refers m 0 0) Hr1 (ex_intro _ _ Hm1) Eq)
    as (l & s2 & s2' & Es2 & Em & Es & Hf2 & Ec2 & s3 & Hw & Hr3 & Hf3 & Ec3 & Hst).
  assert (Hm3 : k_mutex s3 !! m = Some (Mutex 0 0 l)).
  { rewrite (sf_mutex _ _ Hf3), Es2. cbn. by rewrite lookup_insert_eq. }
  set (s4 := mutex_at m (Mutex t 1 l) s3).
  assert (Hr4 : krel s4 (spec_handoff m t q a)) by exact (krel_mutex_scalar s3 _ m t 1 _ Hr3 Hm3).
  destruct (task_dispatch_ok s4 _ Hr4) as (s5 & Hd & Hr5 & Hf5 & _).
  specialize (Hw unit (λ task,
    y ← mutex_get m; mutex_set m (Mutex task 1 (mutex_wait_list y));; task_dispatch)).
  assert (Hk : (y ← mutex_get m; mutex_set m (Mutex t 1 (mutex_wait_list y));; task_dispatch) s3
    = task_dispatch s4).
  { kstep (mutex_get_ok _ _ _ Hm3). by kstep (mutex_set_ok m (Mutex t 1 l) _ s3 Hm3). }
  unfold call_ends in Hd. rewrite <-Hk, <-Hw in Hd.
  destruct (stops_leave s _ _ _ _ Hd) as (c & Hs); [exact Ec3|by eapply (curr_same _ s)|].
  exists (set_cpu c s5), l. split; [exact Hs|]. split; [by apply krel_set_cpu|].
  assert (Emx : k_mutex s3 = <[m := Mutex 0 0 l]> (k_mutex s)).
  { rewrite (sf_mutex _ _ Hf3), Es2. cbn. rewrite Em. cbn. by rewrite insert_insert_eq. }
  split; [|split].
  - cbn. rewrite (sf_mutex _ _ Hf5). cbn. by rewrite Emx, insert_insert_eq.
  - cbn. rewrite (sf_sem _ _ Hf5). cbn. rewrite (sf_sem _ _ Hf3), Es2. cbn. by rewrite Es.
  - etrans; [|by apply sched_ipc_frame, sched_frame_set_cpu].
    etrans; [|by apply sched_ipc_frame]. transitivity s3; [|by split].
    etrans; [|by apply sched_ipc_frame]. rewrite Es2. transitivity s2'; [|by split].
    etrans; [|by apply sched_ipc_frame]. by split.
Qed.
End unlock.
End lemmas.

(** ** Specification *)
Section spec.
Context `{Layout}.

(** Owner and count after the call, and the queues. *)
Definition spec_lock (m : Z) (x : mutex_t) (a : kabs) : Z * Z * kabs :=
  if locked_count x =? 0 then (a_curr a, 1, a)
  else if owner x =? a_curr a then (owner x, s32 (locked_count x + 1), a)
  else (owner x, locked_count x, spec_dispatch (spec_wait m (a_curr a) a)).

Definition spec_unlock (m : Z) (x : mutex_t) (a : kabs) : Z * Z * kabs :=
  if negb (owner x =? a_curr a) then (owner x, locked_count x, a)
  else if negb (locked_count x =? 1) then (owner x, s32 (locked_count x - 1), a)
  else match queue_at a (PWait m) with
       | [] => (0, 0, a)
       | t :: q => (t, 1, spec_dispatch (spec_handoff m t q a))
       end.
End spec.

Section refinement.
Context `{LoggerLaws}.
Implicit Types (s : kstate) (a : kabs) (t m : Z).

Lemma mutex_at_frame m x s : ipc_frame s (mutex_at m x s).
Proof. by split. Qed.

Lemma mutex_same m x (ms : gmap Z mutex_t) :
  ms !! m = Some x → ms = <[m := Mutex (owner x) (locked_count x) (mutex_wait_list x)]> ms.
Proof. intros Hm. symmetry. apply insert_id. by destruct x. Qed.

Lemma mutex_lock_ok s a m x :
  krel s a → k_mutex s !! m = Some x → a_curr a ∈ a_ready a →
  let '(o, n, a') := spec_lock m x a in
  ∃ s' l, call_ends (mutex_lock m) s s' ∧ krel s' a' ∧
    k_mutex s' = <[m := Mutex o n l]> (k_mutex s) ∧ k_sem s' = k_sem s ∧ ipc_frame s s'.
Proof.
  intros Hr Hm Hc. unfold spec_lock. destruct (Z.eqb_spec (locked_count x) 0) as [E0|E0].
  - eexists _, _. split; [by eapply call_ends_ret; [apply (mutex_lock_free s a)|..]|].
    by split; [eapply krel_mutex_scalar|].
  - destruct (Z.eqb_spec (owner x) (a_curr a)) as [Eo|Eo].
    + eexists _, _. split; [by eapply call_ends_ret; [apply (mutex_lock_again s a)|..]|].
    by split; [eapply krel_mutex_scalar|].
    + by apply mutex_lock_contended.
Qed.

Lemma mutex_unlock_ok s a m x :
  krel s a → k_mutex s !! m = Some x → is_s32 (locked_count x) →
  let '(o, n, a') := spec_unlock m x a in
  ∃ s' l, call_ends (mutex_unlock m) s s' ∧ krel s' a' ∧
    k_mutex s' = <[m := Mutex o n l]> (k_mutex s) ∧ k_sem s' = k_sem s ∧ ipc_frame s s'.
Proof.
  intros Hr Hm Hn. unfold spec_unlock. destruct (Z.eqb_spec (owner x) (a_curr a)) as [Eo|Eo]; cbn [negb].
  - destruct (Z.eqb_spec (locked_count x) 1) as [E1|E1]; cbn [negb].
    + destruct (queue_at a (PWait m)) as [|t q] eqn:Eq; [|by eapply mutex_unlock_handoff].
      eexists _, _. split; [by eapply call_ends_ret; [apply (mutex_unlock_free s a)|..]|].
    by split; [eapply krel_mutex_scalar|].
    + assert (s32 (locked_count x - 1) ≠ 0) as E0.
      { unfold s32. unfold is_s32 in Hn. intros E.
        destruct (decide (locked_count x = - 2 ^ 31)) as [E2|]; [by rewrite E2 in E|].
        rewrite Z.mod_small in E; lia. }
      eexists _, _. split; [by eapply call_ends_ret; [apply (mutex_unlock_nested s a)|..]|].
    by split; [eapply krel_mutex_scalar|].
  - exists s, (mutex_wait_list x).
    split; [by eapply call_ends_ret; [apply (mutex_unlock_other s a m x)|..]|]. split; [done|]. by split; [apply mutex_same|].
Qed.

(** *** Nested locking *)
Fixpoint repeat_call (n : nat) (f : K unit) : K unit :=
  match n with O => mret tt | S n => f;; repeat_call n f end.

Lemma repeat_lock s a m l c n :
  krel s a → k_mutex s !! m = Some (Mutex (a_curr a) c l) → 0 < c →
  c + Z.of_nat n < 2 ^ 31 →
  repeat_call n (mutex_lock m) s = KRet tt (mutex_at m (Mutex (a_curr a) (c + Z.of_nat n) l) s).
Proof.
  revert s c. induction n as [|n IH]; intros s c Hr Hm Hc Hn; cbn [repeat_call].
  - rewrite Z.add_0_r. unfold mutex_at. rewrite insert_id by done. by destruct s.
  - assert (E : mutex_lock m s = KRet tt (mutex_at m (Mutex (a_curr a) (c + 1) l) s)).
    { rewrite (mutex_lock_again s a m (Mutex (a_curr a) c l)) by (done || cbn; lia).
      cbn. by rewrite s32_id by lia. }
    kstep E. rewrite (IH _ (c + 1)); [|exact (krel_mutex_scalar s a m _ _ _ Hr Hm)
      |cbn; by rewrite lookup_insert_eq|lia|lia].
    unfold mutex_at. cbn [k_mutex set_mutexes]. rewrite insert_insert_eq.
    by replace (c + 1 + Z.of_nat n) with (c + Z.of_nat (S n)) by lia.
Qed.

Lemma repeat_unlock s a m l n :
  krel s a → k_mutex s !! m = Some (Mutex (a_curr a) (Z.of_nat (S n)) l) →
  queue_at a (PWait m) = [] → Z.of_nat (S n) < 2 ^ 31 →
  repeat_call (S n) (mutex_unlock m) s = KRet tt (mutex_at m (Mutex 0 0 l) s).
Proof.
  revert s. induction n as [|n IH]; intros s Hr Hm Hq Hn; cbn [repeat_call].
  - by kstep (mutex_unlock_free s a m _ Hr Hm eq_refl eq_refl Hq).
  - assert (E : mutex_unlock m s =
      KRet tt (mutex_at m (Mutex (a_curr a) (Z.of_nat (S n)) l) s)).
    { assert (Es : s32 (Z.of_nat (S (S n)) - 1) = Z.of_nat (S n)) by (rewrite s32_id; lia).
      rewrite (mutex_unlock_nested s a m _ Hr Hm eq_refl); cbn [locked_count owner mutex_wait_list];
        rewrite Es; [done|lia]. }
    kstep E. etrans; [apply IH|].
    + exact (krel_mutex_scalar s a m _ _ _ Hr Hm).
    + cbn. by rewrite lookup_insert_eq.
    + done.
    + lia.
    + unfold mutex_at. cbn. by rewrite insert_insert_eq.
Qed.
End refinement.

(** ** Properties of mutexes *)
Section properties.
Context `{LoggerLaws}.
Implicit Types (s : kstate) (a : kabs) (t m : Z).

(** C17: [mutex_lock] implements its specification: a free mutex is taken, the
    owner's count goes up, and any other caller moves from the ready queue to the
    end of the wait queue, the next ready task being dispatched; no other mutex,
    semaphore or task field changes. *)
Theorem mutex_lock_refines s a m x :
  krel s a → k_mutex s !! m = Some x → a_curr a ∈ a_ready a →
  let '(o, n, a') := spec_lock m x a in
  ∃ s' l, call_ends (mutex_lock m) s s' ∧ krel s' a' ∧
    k_mutex s' = <[m := Mutex o n l]> (k_mutex s) ∧ k_sem s' = k_sem s ∧ ipc_frame s s'.
Proof. apply mutex_lock_ok. Qed.

(** C18: [mutex_unlock] implements its specification: by a task that is not the
    owner it does nothing, a nested unlock lowers the count, and the last unlock
    frees the mutex or hands it, with count 1, to the first waiter, which moves
    to the end of the ready queue; the order of the other waiters is kept. *)
Theorem mutex_unlock_refines s a m x :
  krel s a → k_mutex s !! m = Some x → is_s32 (locked_count x) →
  let '(o, n, a') := spec_unlock m x a in
  ∃ s' l, call_ends (mutex_unlock m) s s' ∧ krel s' a' ∧
    k_mutex s' = <[m := Mutex o n l]> (k_mutex s) ∧ k_sem s' = k_sem s ∧ ipc_frame s s'.
Proof. apply mutex_unlock_ok. Qed.

(** Locking is recursive: [n + 1] locks of a free mutex by one task followed
    by [n + 1] unlocks never block and restore the state exactly, registers and
    queues included. *)
Theorem mutex_nesting s a m l n :
  krel s a → k_mutex s !! m = Some (Mutex 0 0 l) →
  queue_at a (PWait m) = [] → Z.of_nat (S n) < 2 ^ 31 →
  (repeat_call (S n) (mutex_lock m);; repeat_call (S n) (mutex_unlock m)) s = KRet tt s.
Proof.
  intros Hr Hm Hq Hn.
  assert (E1 : mutex_lock m s = KRet tt (mutex_at m (Mutex (a_curr a) 1 l) s)).
  { by rewrite (mutex_lock_free s a m _ Hr Hm eq_refl). }
  assert (Hr1 : krel (mutex_at m (Mutex (a_curr a) 1 l) s) a).
  { exact (krel_mutex_scalar s a m _ _ _ Hr Hm). }
  assert (Hm1 : ∀ y, k_mutex (mutex_at m y s) !! m = Some y).
  { intros y. cbn. by rewrite lookup_insert_eq. }
  assert (E2 : repeat_call (S n) (mutex_lock m) s =
    KRet tt (mutex_at m (Mutex (a_curr a) (Z.of_nat (S n)) l) s)).
  { cbn [repeat_call]. kstep E1. rewrite (repeat_lock _ a m l 1 n) by (done || lia).
    unfold mutex_at. cbn [k_mutex set_mutexes]. rewrite insert_insert_eq.
    by replace (1 + Z.of_nat n) with (Z.of_nat (S n)) by lia. }
  kstep E2. rewrite (repeat_unlock _ a m l n); [|exact (krel_mutex_scalar s a m _ _ _ Hr Hm)
    |by rewrite Hm1|done|done].
  unfold mutex_at. cbn [k_mutex set_mutexes]. rewrite insert_insert_eq, insert_id by done.
  by destruct s.
Qed.
End properties.

(** *** Witnesses *)
Section witnesses.
#[local] Existing Instance demo_layout.
#[local] Existing Instance quiet_logger.
#[local] Existing Instance quiet_logger_laws.

Definition user_mutex : Z := 8256.

(** [first_task] runs; [task_a] owns the mutex, [task_b] waits for it. *)
Definition held_abs (t : Z) (ready wait : list Z) : kabs :=
  KAbs t ready [] (a_all demo_abs) {[ user_mutex := wait ]}.
Definition held_state (o n : Z) (a : kabs) : kstate :=
  demo_kernel a demo_tasks ((user_mutex, (o, n)) :: free_mutexes) [].

Lemma mutex_lock_refines_witness :
  ∃ s', call_ends (mutex_lock user_mutex)
      (held_state task_a 1 (held_abs first_task [first_task; task_a] [task_b])) s' ∧
    krel s' (held_abs task_a [task_a] [task_b; first_task]).
Proof.
  pose proof (mutex_lock_refines
    (held_state task_a 1 (held_abs first_task [first_task; task_a] [task_b]))
    (held_abs first_task [first_task; task_a] [task_b]) user_mutex
    (Mutex task_a 1 (linked_list [wait_node task_b]))) as Hl.
  destruct Hl as (s' & l & Hs & Hr & _).
  - decide_krel.
  - vm_compute. reflexivity.
  - left.
  - exists s'. split; [exact Hs|exact Hr].
Defined.

Lemma mutex_unlock_refines_witness :
  ∃ s' l, call_ends (mutex_unlock user_mutex)
      (held_state task_a 1 (held_abs task_a [task_a; first_task] [task_b; task_c])) s' ∧
    krel s' (held_abs task_a [task_a; first_task; task_b] [task_c]) ∧
    k_mutex s' !! user_mutex = Some (Mutex task_b 1 l).
Proof.
  pose proof (mutex_unlock_refines
    (held_state task_a 1 (held_abs task_a [task_a; first_task] [task_b; task_c]))
    (held_abs task_a [task_a; first_task] [task_b; task_c]) user_mutex
    (Mutex task_a 1 (linked_list [wait_node task_b; wait_node task_c]))) as Hl.
  destruct Hl as (s' & l & Hs & Hr & Em & _).
  - decide_krel.
  - vm_compute. reflexivity.
  - cbv. split; [discriminate|reflexivity].
  - exists s', l. split; [exact Hs|]. split; [exact Hr|]. rewrite Em. apply lookup_insert_eq.
Defined.

Lemma mutex_nesting_witness :
  (repeat_call 3 (mutex_lock user_mutex);; repeat_call 3 (mutex_unlock user_mutex))
    (held_state 0 0 (held_abs task_a [task_a; first_task] [])) =
  KRet tt (held_state 0 0 (held_abs task_a [task_a; first_task] [])).
Proof.
  apply (mutex_nesting _ (held_abs task_a [task_a; first_task] []) user_mutex list_init 2).
  - decide_krel.
  - vm_compute. reflexivity.
  - reflexivity.
  - lia.
Defined.
End witnesses.
