(* ===== verification/Sem.v ===== *)
(** * Semaphores (kernel/ipc/sem.c)

    Counting semaphores with a FIFO wait list; a notify hands the unit directly
    to the first waiter instead of raising the count. *)
From S2P Require Import Prelude Klib DList CpuInstr Desc Kernel Queues ListRef Demo Sched Mutex.

(** ** Operations *)
Section operations.
Context `{Layout, Logger}.

(** [&sem->wait_list] *)
Definition sem_wait_ref (o : Z) : list_ref :=
  ListRef (x ← sem_get o; mret (sem_wait_list x))
    (λ l, x ← sem_get o; sem_set o (Sem (sem_value x) l)).

Definition sem_init (o init_count : Z) : K unit := sem_set o (Sem init_count list_init).

Definition sem_wait (o : Z) : K unit :=
  state ← with_cpu irq_enter_protection;
  x ← sem_get o;
  (if 0 <? sem_value x then
     sem_set o (Sem (s32 (sem_value x - 1)) (sem_wait_list x))
   else
     curr ← task_current;
     task_set_block curr;;
     klist_insert_last (sem_wait_ref o) (wait_node curr);;
     task_dispatch);;
  with_cpu (irq_leave_protection state).

Definition sem_notify (o : Z) : K unit :=
  state ← with_cpu irq_enter_protection;
  c ← klist_count (sem_wait_ref o);
  (if negb (c =? 0) then
     node ← klist_remove_first (sem_wait_ref o);
     let task := list_node_parent node wait_node_off in
     task_set_ready task;;
     task_dispatch
   else
     x ← sem_get o;
     sem_set o (Sem (s32 (sem_value x + 1)) (sem_wait_list x)));;
  with_cpu (irq_leave_protection state).

(** Declared [void] but returning [count]: the value the body returns. *)
Definition sem_count (o : Z) : K Z :=
  state ← with_cpu irq_enter_protection;
  x ← sem_get o;
  let count := sem_value x in
  with_cpu (irq_leave_protection state);;
  mret count.
End operations.

(** ** Specification *)
Section spec.
Context `{Layout}.

Definition spec_sem_wait (o v : Z) (a : kabs) : Z * kabs :=
  if 0 <? v then (v - 1, a) else (v, spec_dispatch (spec_wait o (a_curr a) a)).

Definition spec_sem_notify (o v : Z) (a : kabs) : Z * kabs :=
  match queue_at a (PWait o) with
  | [] => (s32 (v + 1), a)
  | t :: q => (v, spec_dispatch (spec_handoff o t q a))
  end.
End spec.

(** ** Lemmas *)
Section lemmas.
Context `{LoggerLaws}.
Implicit Types (s : kstate) (a : kabs) (t o : Z).

Definition sem_at (o : Z) (x : sem_t) (s : kstate) : kstate :=
  set_sems (<[o := x]> (k_sem s)) s.

(** Address [o] holds a semaphore, and no mutex. *)
Definition is_sem (o v : Z) (s : kstate) : Prop :=
  k_mutex s !! o = None ∧ ∃ l, k_sem s !! o = Some (Sem v l).

Lemma sem_refers o v :
  refers (is_sem o v) (sem_wait_ref o) (PWait o) (λ l, sem_at o (Sem v l)).
Proof.
  split; try done.
  - intros s [Hm [l Hs]]. exists l. cbn. rewrite Hm, Hs. split; [done|].
    by kstep (sem_get_ok _ _ _ Hs).
  - intros s l [Hm [l0 Hs]]. split; [|split].
    + cbn. kstep (sem_get_ok _ _ _ Hs). by apply (sem_set_ok _ _ _ _ Hs).
    + cbn. by rewrite Hm, lookup_insert_eq.
    + intros q Hq. destruct q as [| | |o']; try done. cbn.
      rewrite lookup_insert_ne by congruence. done.
  - intros s s' [Hm [l Hs]] Em Es. split; [by rewrite Em|]. exists l. by rewrite Es.
Qed.

Lemma krel_sem_scalar s a o v v' l :
  krel s a → k_mutex s !! o = None → k_sem s !! o = Some (Sem v l) →
  krel (sem_at o (Sem v' l) s) a.
Proof.
  intros Hr Hm Hs. eapply krel_ext; [exact Hr|done| |done|done].
  intros [| | |o']; try done. cbn. destruct (decide (o = o')) as [<-|].
  - by rewrite Hm, lookup_insert_eq, Hs.
  - by rewrite lookup_insert_ne.
Qed.

Lemma sem_at_cli o x s : set_cpu (k_cpu s) (sem_at o x (cli_state s)) = sem_at o x s.
Proof. by destruct s. Qed.

Lemma sem_wait_ok s a o v :
  krel s a → is_sem o v s → is_s32 v → a_curr a ∈ a_ready a →
  let '(v', a') := spec_sem_wait o v a in
  ∃ s' l, call_ends (sem_wait o) s s' ∧ krel s' a' ∧ k_mutex s' = k_mutex s ∧
    k_sem s' = <[o := Sem v' l]> (k_sem s) ∧ ipc_frame s s'.
Proof.
  intros Hr [Hm [l Hs]] Hv Hc. unfold spec_sem_wait, is_s32 in *. unfold call_ends, sem_wait. rewrite enter_ok.
  pose proof (krel_set_cpu s a (k_cpu (cli_state s)) Hr) as Hr0. fold (cli_state s) in Hr0.
  kstep (sem_get_ok o _ (cli_state s) Hs). cbn [sem_value sem_wait_list].
  destruct (Z.ltb_spec 0 v) as [Hp|Hp].
  - kstep (sem_set_ok o (Sem (s32 (v - 1)) l) _ (cli_state s) Hs).
    rewrite (leave_ok s) by done. rewrite s32_id by lia.
    exists (sem_at o (Sem (v - 1) l) s), l.
    split; [split; [exact (sem_at_cli _ _ s)|split; [done|apply restored_refl]]|].
    split; [by eapply krel_sem_scalar|]. done.
  - destruct (wait_on_ok _ _ o _ (cli_state s) a (sem_refers o v) Hr0)
      as (l1 & s1 & Hw & Hr1 & Em & Es & Hf1 & Ec1); [by split; [|exists l]|done|].
    destruct (task_dispatch_ok _ _ Hr1) as (s2 & Hd & Hr2 & Hf2 & _).
    unfold call_ends in Hd. rewrite <-(Hw unit task_dispatch) in Hd.
    destruct (stops_leave s (cli_state s) (sem_at o (Sem v l1) s1) s2 (curr ← task_current; task_set_block curr;;
      klist_insert_last (sem_wait_ref o) (wait_node curr);; task_dispatch))
      as (c & Hst); [by kstep (task_current_ok (cli_state s) a Hr0)|exact Ec1|by eapply (curr_same _ s)|].
    exists (set_cpu c s2), l1. split; [exact Hst|]. split; [by apply krel_set_cpu|].
    split; [|split].
    + cbn. rewrite (sf_mutex _ _ Hf2). cbn. by rewrite Em.
    + cbn. rewrite (sf_sem _ _ Hf2). cbn. by rewrite Es.
    + etrans; [|by apply sched_ipc_frame, sched_frame_set_cpu].
      etrans; [|by apply sched_ipc_frame]. transitivity s1; [|by split].
      etrans; [|by apply sched_ipc_frame]. by split.
Qed.

Lemma sem_notify_ok s a o v :
  krel s a → is_sem o v s →
  let '(v', a') := spec_sem_notify o v a in
  ∃ s' l, call_ends (sem_notify o) s s' ∧ krel s' a' ∧ k_mutex s' = k_mutex s ∧
    k_sem s' = <[o := Sem v' l]> (k_sem s) ∧ ipc_frame s s'.
Proof.
  intros Hr [Hm [l Hs]]. unfold call_ends, spec_sem_notify, sem_notify. rewrite enter_ok.
  pose proof (krel_set_cpu s a (k_cpu (cli_state s)) Hr) as Hr0. fold (cli_state s) in Hr0.
  assert (His : is_sem o v (cli_state s)) by (split; [done|by exists l]).
  kstep (klist_count_ok (sem_refers o v) (cli_state s) a Hr0 His).
  destruct (queue_at a (PWait o)) as [|t q] eqn:Eq.
  - change (negb (Z.of_nat (@length Z []) =? 0)) with false. cbv iota.
    rewrite (kbind_ret _ _ _ tt (sem_at o (Sem (s32 (v + 1)) l) (cli_state s))).
    2:{ kstep (sem_get_ok o _ (cli_state s) Hs). by apply (sem_set_ok o _ _ (cli_state s) Hs). }
    rewrite (leave_ok s) by done. exists (sem_at o (Sem (s32 (v + 1)) l) s), l.
    split; [split; [exact (sem_at_cli _ _ s)|split; [done|apply restored_refl]]|].
    split; [by eapply krel_sem_scalar|]. done.
  - change (negb (Z.of_nat (length (t :: q)) =? 0)) with true. cbv iota.
    destruct (wake_first_ok _ _ o _ (cli_state s) a t q (sem_refers o v) Hr0 His Eq)
      as (l1 & s1 & s1' & Es1 & Em & Es & Hf1 & Ec1 & s3 & Hw & Hr3 & Hf3 & Ec3 & Hst).
    destruct (task_dispatch_ok _ _ Hr3) as (s4 & Hd & Hr4 & Hf4 & _).
    unfold call_ends in Hd. rewrite <-(Hw unit (λ _, task_dispatch)) in Hd.
    destruct (stops_leave s _ _ _ _ Hd) as (c & Hsp); [exact Ec3|by eapply (curr_same _ s)|].
    exists (set_cpu c s4), l1. split; [exact Hsp|]. split; [by apply krel_set_cpu|].
    split; [|split].
    + cbn. rewrite (sf_mutex _ _ Hf4), (sf_mutex _ _ Hf3), Es1. cbn. by rewrite Em.
    + cbn. rewrite (sf_sem _ _ Hf4), (sf_sem _ _ Hf3), Es1. cbn. by rewrite Es.
    + etrans; [|by apply sched_ipc_frame, sched_frame_set_cpu].
      etrans; [|by apply sched_ipc_frame]. etrans; [|by apply sched_ipc_frame].
      rewrite Es1. transitivity s1'; [|by split]. etrans; [|by apply sched_ipc_frame]. by split.
Qed.
End lemmas.

(** ** Properties of semaphores *)
Section properties.
Context `{LoggerLaws}.
Implicit Types (s : kstate) (a : kabs) (t o : Z).

(** C23: [sem_wait] implements its specification: a positive count is lowered
    and nothing else changes; otherwise the caller moves from the ready queue to
    the end of the semaphore's wait queue and the next ready task is dispatched. *)
Theorem sem_wait_refines s a o v :
  krel s a → is_sem o v s → is_s32 v → a_curr a ∈ a_ready a →
  let '(v', a') := spec_sem_wait o v a in
  ∃ s' l, call_ends (sem_wait o) s s' ∧ krel s' a' ∧ k_mutex s' = k_mutex s ∧
    k_sem s' = <[o := Sem v' l]> (k_sem s) ∧ ipc_frame s s'.
Proof. apply sem_wait_ok. Qed.

(** C24: [sem_notify] implements its specification: with a task waiting, the
    first one moves to the end of the ready queue and the count stays as it is;
    with none, the count is raised by one. *)
Theorem sem_notify_refines s a o v :
  krel s a → is_sem o v s →
  let '(v', a') := spec_sem_notify o v a in
  ∃ s' l, call_ends (sem_notify o) s s' ∧ krel s' a' ∧ k_mutex s' = k_mutex s ∧
    k_sem s' = <[o := Sem v' l]> (k_sem s) ∧ ipc_frame s s'.
Proof. apply sem_notify_ok. Qed.

(** A fresh semaphore counts [n], and counting changes nothing. *)
Lemma sem_init_count o n x s :
  k_sem s !! o = Some x →
  (sem_init o n;; sem_count o) s = KRet n (sem_at o (Sem n list_init) s).
Proof.
  intros Hs. unfold sem_init. kstep (sem_set_ok o (Sem n list_init) x s Hs).
  unfold sem_count. rewrite enter_ok.
  kstep (sem_get_ok o (Sem n list_init) (cli_state (sem_at o (Sem n list_init) s))
    (lookup_insert_eq _ _ _)).
  rewrite (kbind_ret _ _ _ _ _ (leave_ok (sem_at o (Sem n list_init) s) _ eq_refl)).
  by rewrite set_cpu_cli.
Qed.
End properties.

(** *** Witnesses *)
Section witnesses.
#[local] Existing Instance demo_layout.
#[local] Existing Instance quiet_logger.
#[local] Existing Instance quiet_logger_laws.

Definition user_sem : Z := 8320.
Definition sem_abs (t : Z) (ready wait : list Z) : kabs :=
  KAbs t ready [] (a_all demo_abs) {[ user_sem := wait ]}.
Definition sem_state (v : Z) (a : kabs) : kstate :=
  demo_kernel a demo_tasks free_mutexes [(user_sem, v)].

Lemma sem_wait_refines_witness :
  ∃ s', call_ends (sem_wait user_sem)
      (sem_state 0 (sem_abs first_task [first_task; task_a] [task_b])) s' ∧
    krel s' (sem_abs task_a [task_a] [task_b; first_task]).
Proof.
  pose proof (sem_wait_refines (sem_state 0 (sem_abs first_task [first_task; task_a] [task_b]))
    (sem_abs first_task [first_task; task_a] [task_b]) user_sem 0) as Hw.
  destruct Hw as (s' & l & Hs & Hr & _).
  - decide_krel.
  - split; [reflexivity|]. by eexists.
  - cbv. split; [discriminate|reflexivity].
  - left.
  - exists s'. split; [exact Hs|exact Hr].
Defined.

Lemma sem_notify_refines_witness :
  ∃ s', call_ends (sem_notify user_sem)
      (sem_state 0 (sem_abs first_task [first_task; task_a] [task_b; task_c])) s' ∧
    krel s' (sem_abs first_task [first_task; task_a; task_b] [task_c]).
Proof.
  pose proof (sem_notify_refines
    (sem_state 0 (sem_abs first_task [first_task; task_a] [task_b; task_c]))
    (sem_abs first_task [first_task; task_a] [task_b; task_c]) user_sem 0) as Hn.
  destruct Hn as (s' & l & Hs & Hr & _).
  - decide_krel.
  - split; [reflexivity|]. by eexists.
  - exists s'. split; [exact Hs|exact Hr].
Defined.
End witnesses.
