(* ===== verification/Log.v ===== *)
(** * Kernel log output (kernel/tools/log.c, panic of kernel/tools/klib.c)

    [log_printf] formats into a 128-byte local buffer, takes the log mutex and
    sends the text over the serial port COM1. Taking the mutex can dispatch
    another task, and dispatching logs: the recursion is cut by fuel, and one
    level is enough while the log mutex is free. *)
From S2P Require Import Prelude Klib DList CpuInstr Desc Kernel Queues ListRef Demo Sched Mutex.

Definition COM1_PORT : Z := 1016.
Definition LOG_BUF_SIZE : Z := 128.

(** ** The serial port *)
Section serial.
Context `{Device}.

(** [while ((inb (COM1_PORT + 5) & 0x20) == 0);] *)
Fixpoint wait_ready (fuel : nat) : stm cpu_t unit :=
  match fuel with
  | O => throw OutOfFuel
  | S f =>
      v ← inb (COM1_PORT + 5);
      if Z.land v 32 =? 0 then wait_ready f else mret tt
  end.

(** The loop over the characters of the buffer. *)
Fixpoint put_chars (polls : nat) (text : list Z) : stm cpu_t unit :=
  match text with
  | [] => mret tt
  | c :: text' =>
      if c =? 0 then mret tt else
      wait_ready polls;;
      outb COM1_PORT c;;
      put_chars polls text'
  end.

Definition log_send (polls : nat) (text : list Z) : stm cpu_t unit :=
  put_chars polls text;;
  outb COM1_PORT 13;;
  outb COM1_PORT 10.
End serial.

(** ** Operations *)
Section operations.
Context `{Layout, Device} (polls : nat).

Definition log_init : K unit :=
  mutex_init log_mutex;;
  with_cpu (
    outb (COM1_PORT + 1) 0;;
    outb (COM1_PORT + 3) 128;;
    outb (COM1_PORT + 0) 3;;
    outb (COM1_PORT + 1) 0;;
    outb (COM1_PORT + 3) 3;;
    outb (COM1_PORT + 2) 199;;
    outb (COM1_PORT + 4) 15).

(** [log_printf]: the text [kernel_vsprintf] stores is [format] (Klib). *)
Fixpoint log_at (depth : nat) (fmt : string) (args : list fmt_arg) : K unit :=
  match depth with
  | O => kthrow OutOfFuel
  | S depth' =>
      match format (bytes_of_string fmt) args with
      | None => kthrow VaArg
      | Some text =>
          if LOG_BUF_SIZE <=? Z.of_nat (length text)
          then kthrow (Overrun (Z.of_nat (length text)))
          else
            @mutex_lock _ (log_at depth') log_mutex;;
            with_cpu (log_send polls text);;
            @mutex_unlock _ (log_at depth') log_mutex
      end
  end.

Definition panic `{Logger} (file : list Z) (line : Z) (func cond : list Z) : K unit :=
  log_printf "assert failed! %s" [AStr cond];;
  log_printf "file:%s
,line:%d
,func:%s" [AStr file; AInt line; AStr func];;
  kthrow Halted.
End operations.

(** ** Sending *)
Section sending.
Context `{Device} (polls : nat).

(** The transmitter becomes ready within [polls] reads of the register. *)
Definition uart_ready : Prop :=
  ∀ io, ∃ k, (k < polls)%nat ∧
    Z.testbit (dev_read (polled (COM1_PORT + 5) k io) (COM1_PORT + 5)) 5 = true.

(** What was written to COM1, oldest first. *)
Fixpoint serial_out (io : list io_event) : list Z :=
  match io with
  | [] => []
  | PortOut p v :: io' => if p =? COM1_PORT then serial_out io' ++ [v] else serial_out io'
  | PortIn _ _ :: io' => serial_out io'
  end.

(** A C string ends at its first NUL. *)
Fixpoint until_nul (l : list Z) : list Z :=
  match l with [] => [] | c :: l' => if c =? 0 then [] else c :: until_nul l' end.

Lemma until_nul_id l : Forall (λ c, c ≠ 0) l → until_nul l = l.
Proof.
  induction 1 as [|c l Hc _ IH]; [done|]. cbn. by rewrite (proj2 (Z.eqb_neq c 0) Hc), IH.
Qed.

Lemma poll_bit v : (Z.land (u8 v) 32 =? 0) = negb (Z.testbit v 5).
Proof.
  replace (Z.testbit v 5) with (Z.testbit (u8 v) 5).
  - change 32 with (2 ^ 5). destruct (Z.testbit (u8 v) 5) eqn:E; cbn [negb].
    + apply Z.eqb_neq. intros E0. apply (f_equal (λ z, Z.testbit z 5)) in E0.
      rewrite Z.land_spec, E in E0. done.
    + apply Z.eqb_eq, Z.bits_inj'. intros i Hi. rewrite Z.land_spec, Z.bits_0.
      rewrite Z.pow2_bits_eqb by lia. destruct (Z.eqb_spec 5 i) as [<-|]; [by rewrite E|].
      apply andb_false_r.
  - unfold u8. by rewrite Z.mod_pow2_bits_low by lia.
Qed.

Lemma wait_ready_ok fuel c :
  (∃ k, (k < fuel)%nat ∧ Z.testbit (dev_read (polled (COM1_PORT + 5) k (c_io c)) (COM1_PORT + 5)) 5 = true) →
  ∃ ev, wait_ready fuel c = Ok (tt, add_io ev c) ∧ serial_out (ev ++ c_io c) = serial_out (c_io c).
Proof.
  revert c. induction fuel as [|fuel IH]; intros c (k & Hk & Hb); [lia|].
  set (v := u8 (dev_read (c_io c) (COM1_PORT + 5))).
  assert (E : inb (COM1_PORT + 5) c = Ok (v, add_io [PortIn (COM1_PORT + 5) v] c)) by done.
  cbn [wait_ready]. stm_step E. subst v. rewrite poll_bit.
  destruct (Z.testbit (dev_read (c_io c) (COM1_PORT + 5)) 5) eqn:E5; cbn [negb].
  - by eexists.
  - destruct k as [|k]; [by rewrite (E5 : Z.testbit (dev_read (polled (COM1_PORT + 5) 0 (c_io c)) (COM1_PORT + 5)) 5 = false) in Hb|].
    cbn [polled] in Hb.
    destruct (IH (add_io [PortIn (COM1_PORT + 5) (u8 (dev_read (c_io c) (COM1_PORT + 5)))] c))
      as (ev & -> & Hs); [exists k; split; [lia|done]|].
    rewrite add_io_app. eexists. split; [done|]. rewrite <-app_assoc. exact Hs.
Qed.

Lemma put_chars_ok text c :
  uart_ready →
  ∃ ev, put_chars polls text c = Ok (tt, add_io ev c) ∧
    serial_out (ev ++ c_io c) = serial_out (c_io c) ++ (u8 <$> until_nul text).
Proof.
  intros Hu. revert c. induction text as [|b text IH]; intros c; cbn [put_chars until_nul].
  - exists []. split; [by destruct c|]. by rewrite app_nil_r.
  - destruct (b =? 0); [exists []; split; [by destruct c|by rewrite app_nil_r]|].
    destruct (wait_ready_ok polls c (Hu (c_io c))) as (ev1 & H1 & E1). stm_step H1.
    stm_step (outb_ok COM1_PORT b (add_io ev1 c)). rewrite add_io_app.
    destruct (IH (add_io ([PortOut (u16 COM1_PORT) (u8 b)] ++ ev1) c)) as (ev & -> & Es).
    rewrite add_io_app. eexists. split; [done|]. rewrite <-app_assoc.
    rewrite add_io_io in Es. rewrite Es.
    change (u16 COM1_PORT) with COM1_PORT. cbn [serial_out app fmap list_fmap].
    by rewrite Z.eqb_refl, E1, <-app_assoc.
Qed.

Lemma log_send_ok text c :
  uart_ready →
  ∃ ev, log_send polls text c = Ok (tt, add_io ev c) ∧
    serial_out (ev ++ c_io c) = serial_out (c_io c) ++ (u8 <$> until_nul text) ++ [13; 10].
Proof.
  intros Hu. destruct (put_chars_ok text c Hu) as (ev & H1 & E1).
  unfold log_send. stm_step H1. stm_step (outb_ok COM1_PORT 13 (add_io ev c)).
  rewrite outb_ok, !add_io_app. eexists. split; [done|].
  change (u16 COM1_PORT) with COM1_PORT. cbn [serial_out app]. rewrite Z.eqb_refl, E1.
  change (u8 13) with 13. change (u8 10) with 10. by rewrite <-!app_assoc.
Qed.
End sending.

(** ** Logging with the mutex free *)
Section quiet.
Context `{HLayout : Layout, HDevice : Device} (polls : nat).
Implicit Types (s : kstate).

Lemma log_at_ok depth fmt args out s :
  uart_ready polls → log_free s → format (bytes_of_string fmt) args = Some out →
  Z.of_nat (length out) ≤ 127 →
  ∃ ev, log_at polls (S depth) fmt args s = KRet tt (set_cpu (add_io ev (k_cpu s)) s) ∧
    serial_out (ev ++ c_io (k_cpu s)) =
      serial_out (c_io (k_cpu s)) ++ (u8 <$> until_nul out) ++ [13; 10].
Proof.
  intros Hu (l & Hm & Hl) Hf Hlen. cbn [log_at]. rewrite Hf.
  unfold LOG_BUF_SIZE. replace (128 <=? Z.of_nat (length out)) with false by lia.
  destruct (log_send_ok polls out (k_cpu s) Hu) as (ev & Hsend & Hout). exists ev. split; [|done].
  kstep (mutex_lock_idle (HLogger := log_at polls depth) log_mutex s l Hm).
  set (s1 := mutex_at log_mutex (Mutex (curr_task (k_tm s)) 1 l) s).
  kstep (with_cpu_ok (log_send polls out) s1 tt _ Hsend).
  set (s2 := set_cpu (add_io ev (k_cpu s)) s1).
  rewrite (mutex_unlock_idle log_mutex s2 l); [|cbn; by rewrite lookup_insert_eq|done].
  f_equal. unfold s2, s1, mutex_at. cbn. rewrite insert_insert_eq, insert_id by done.
  by destruct s.
Qed.

(** The real logger keeps what its callers rely on. *)
Lemma log_laws depth :
  uart_ready polls → LoggerLaws (HLogger := log_at polls (S depth)).
Proof.
  intros Hu. split. intros fmt args out s Hl Hf Hlen.
  destruct (log_at_ok depth fmt args out s Hu Hl Hf Hlen) as (ev & He & _). by exists ev.
Qed.
End quiet.

(** ** Properties of the logger *)

(** C40: with the log mutex free and a text of at most 127 bytes, [log_printf]
    sends exactly the formatted text and a line end over COM1 and changes nothing
    but the port history: the mutex is free again and no task is switched, for a
    device that becomes ready within the polls allowed. *)
Theorem log_printf_sends `{HLayout : Layout, HDevice : Device} polls depth fmt args out s :
  uart_ready polls → log_free s → format (bytes_of_string fmt) args = Some out →
  Z.of_nat (length out) ≤ 127 → Forall is_u8 out → Forall (λ b, b ≠ 0) out →
  ∃ ev, log_at polls (S depth) fmt args s = KRet tt (set_cpu (add_io ev (k_cpu s)) s) ∧
    serial_out (ev ++ c_io (k_cpu s)) = serial_out (c_io (k_cpu s)) ++ out ++ [13; 10].
Proof.
  intros Hu Hl Hf Hlen Hb Hn.
  destruct (log_at_ok polls depth fmt args out s Hu Hl Hf Hlen) as (ev & He & Hs).
  exists ev. split; [done|]. rewrite Hs, until_nul_id by done. f_equal. f_equal.
  clear -Hb. induction Hb as [|b l Hb _ IH]; [done|]. cbn. rewrite IH.
  by rewrite u8_id by (unfold is_u8 in Hb; lia).
Qed.

(** *** Witness: a port that is ready at every other poll *)
Definition demo_uart : Device := λ io port,
  match io with PortIn 1021 _ :: _ => 32 | _ => 0 end.

Lemma demo_uart_ready : uart_ready (H := demo_uart) 2.
Proof.
  intros io. exists 1%nat. split; [lia|]. reflexivity.
Qed.

Lemma log_printf_sends_witness :
  ∃ ev, log_at (H0 := demo_uart) (H := demo_layout) 2 1 "v%d" [AInt 12] demo_state =
      KRet tt (set_cpu (add_io ev demo_cpu) demo_state) ∧
    serial_out (ev ++ []) = [118; 49; 50; 13; 10].
Proof.
  apply (log_printf_sends (HLayout := demo_layout) (HDevice := demo_uart) 2 0 "v%d" [AInt 12]
    [118; 49; 50] demo_state).
  - exact demo_uart_ready.
  - exists list_init. split; reflexivity.
  - vm_compute. reflexivity.
  - cbn. lia.
  - by apply (bool_decide_unpack _).
  - by apply (bool_decide_unpack _).
Defined.
