(* ===== verification/Tasks.v ===== *)
(** * Creating tasks (the rest of kernel/core/task.c, kernel/cpu/cpu.c)

    Allocating and filling GDT descriptors, building a task's TSS, [task_init],
    and the boot of the task manager. *)
From S2P Require Import Prelude Mem Klib DList CpuInstr Desc Kernel Queues ListRef Demo Sched Mutex.

(** [ASSERT (condition)]: [panic] logs and halts. *)
Definition ASSERT (condition : bool) (text : string) : K unit :=
  if condition then mret tt else kthrow (Panic text).

(** ** Operations *)
Section operations.
Context `{Layout, Logger}.

Definition gdt_alloc_desc : K Z :=
  mutex_lock gdt_mutex;;
  sel ← with_gdt (gdt_search 255 1);
  mutex_unlock gdt_mutex;;
  mret sel.

Definition init_gdt : K unit :=
  with_gdt init_gdt_table;;
  with_cpu (lgdt gdt_table (GDT_TABLE_SIZE * 8)).

Definition cpu_init : K unit := mutex_init gdt_mutex;; init_gdt.

Definition tss_size : Z := 104.

(** The TSS that starts a task at [entry] with stack [esp]. *)
Definition tss_make (entry esp : Z) : tss_t :=
  Tss 0 esp KERNEL_SELECTOR_DS 0 0 0 0 0 entry (Z.lor EFLAGS_DEFAULT EFLAGS_IF)
    0 0 0 0 esp 0 0 0
    KERNEL_SELECTOR_DS KERNEL_SELECTOR_CS KERNEL_SELECTOR_DS
    KERNEL_SELECTOR_DS KERNEL_SELECTOR_DS KERNEL_SELECTOR_DS 0 0.

Definition tss_attr : Z := Z.lor SEG_P_PRESENT (Z.lor SEG_DPL0 SEG_TYPE_TSS).

Definition tss_init (task entry esp : Z) : K Z :=
  sel ← gdt_alloc_desc;
  if sel <? 0 then
    log_printf "alloc tss failed
" [];;
    mret (-1)
  else
    with_gdt (segment_desc_set sel (u32 (task + tss_off)) tss_size tss_attr);;
    task_modify task (task_set_tss (tss_make entry esp));;
    task_modify task (task_set_tss_sel sel);;
    mret 0.

(** The name array after [kernel_strncpy (task->name, name, TASK_NAME_SIZE)], as
    a string; a name of 32 characters or more is written past the array. *)
Definition task_name_of (nm : list Z) : list Z :=
  if Z.of_nat (length nm) <? TASK_NAME_SIZE - 1 then nm
  else take (Z.to_nat (TASK_NAME_SIZE - 2)) nm.

Definition task_copy_name (task : Z) (nm : list Z) : K unit :=
  if TASK_NAME_SIZE <=? Z.of_nat (length nm) then kthrow (Overrun (Z.of_nat (length nm)))
  else task_modify task (task_set_name (task_name_of nm)).

Definition task_init (task entry esp : Z) (nm : list Z) : K Z :=
  ASSERT (negb (task =? 0)) "task != (task_t *)0";;
  tss_init task entry esp;;
  task_copy_name task nm;;
  task_modify task (task_set_state TASK_CREATED);;
  task_modify task (task_set_sleep_ticks 0);;
  task_modify task (task_set_time_ticks TASK_TIME_SLICE_DEFAULT);;
  task_modify task (λ x, task_set_slice_ticks (time_ticks x) x);;
  with_nodes (list_node_init (all_node task));;
  with_nodes (list_node_init (run_node task));;
  with_nodes (list_node_init (wait_node task));;
  state ← with_cpu irq_enter_protection;
  task_set_ready task;;
  tm ← tm_get;
  l ← with_nodes (list_insert_last (task_list tm) (all_node task));
  tm_modify (tm_set_all l);;
  with_cpu (irq_leave_protection state);;
  mret 0.

(** [tss_init] and [task_init] from the return of [gdt_alloc_desc] with [sel] on. *)
Definition tss_fill (task entry esp sel : Z) : K Z :=
  if sel <? 0 then
    log_printf "alloc tss failed
" [];;
    mret (-1)
  else
    with_gdt (segment_desc_set sel (u32 (task + tss_off)) tss_size tss_attr);;
    task_modify task (task_set_tss (tss_make entry esp));;
    task_modify task (task_set_tss_sel sel);;
    mret 0.

Definition task_init_from (task entry esp : Z) (nm : list Z) (sel : Z) : K Z :=
  tss_fill task entry esp sel;;
  task_copy_name task nm;;
  task_modify task (task_set_state TASK_CREATED);;
  task_modify task (task_set_sleep_ticks 0);;
  task_modify task (task_set_time_ticks TASK_TIME_SLICE_DEFAULT);;
  task_modify task (λ x, task_set_slice_ticks (time_ticks x) x);;
  with_nodes (list_node_init (all_node task));;
  with_nodes (list_node_init (run_node task));;
  with_nodes (list_node_init (wait_node task));;
  state ← with_cpu irq_enter_protection;
  task_set_ready task;;
  tm ← tm_get;
  l ← with_nodes (list_insert_last (task_list tm) (all_node task));
  tm_modify (tm_set_all l);;
  with_cpu (irq_leave_protection state);;
  mret 0.

Definition task_first_task : Z := first_task.

(** The first [rounds] rounds of the endless loop of the idle task. *)
Fixpoint idle_task_entry (rounds : nat) : K unit :=
  match rounds with
  | O => mret tt
  | S n => with_cpu hlt;; idle_task_entry n
  end.

(** [idle_task_entry] and the end of [idle_task_stack] are link-time addresses. *)
Definition task_manager_init (idle_entry idle_stack_end : Z) : K unit :=
  tm_modify (tm_set_ready list_init);;
  tm_modify (tm_set_all list_init);;
  tm_modify (tm_set_sleep list_init);;
  task_init idle_task idle_entry idle_stack_end (bytes_of_string "idle task");;
  tm_modify (tm_set_curr 0).

Definition task_first_init : K unit :=
  task_init first_task 0 0 (bytes_of_string "first task");;
  x ← task_get first_task;
  with_cpu (write_tr (tss_sel x));;
  x ← task_get first_task;
  log_printf "first_task_init slice_ticks: %d" [AInt (slice_ticks x)];;
  tm_modify (tm_set_curr first_task);;
  x ← task_get first_task;
  with_cpu (write_cr3 (cr3 (tss x))).
End operations.

(** ** Lemmas *)
Section lemmas.
Context `{Layout, Logger}.
Implicit Types (s : kstate) (a : kabs) (t : Z).

(** The mutex of the descriptor table is free. *)
Definition mutex_idle (m : Z) (s : kstate) : Prop :=
  ∃ l, k_mutex s !! m = Some (Mutex 0 0 l) ∧ l_count l = 0.

Lemma gdt_alloc_desc_ok s :
  mutex_idle gdt_mutex s → length (k_gdt s) = 256%nat →
  ∃ sel, gdt_alloc_desc s = KRet sel s ∧
    ((sel = -1 ∧ ∀ k d, (1 ≤ k < 256)%nat → k_gdt s !! k = Some d → attr d ≠ 0) ∨
     (∃ j d, (1 ≤ j < 256)%nat ∧ sel = Z.of_nat j * 8 ∧ k_gdt s !! j = Some d ∧ attr d = 0 ∧
        ∀ k d, (1 ≤ k < j)%nat → k_gdt s !! k = Some d → attr d ≠ 0)).
Proof.
  intros (l & Hm & Hl) Hlen. unfold gdt_alloc_desc.
  assert (Hs : ∃ sel, gdt_search 255 1 (k_gdt s) = Ok (sel, k_gdt s) ∧
    ((sel = -1 ∧ ∀ k d, (1 ≤ k < 256)%nat → k_gdt s !! k = Some d → attr d ≠ 0) ∨
     (∃ j d, (1 ≤ j < 256)%nat ∧ sel = Z.of_nat j * 8 ∧ k_gdt s !! j = Some d ∧ attr d = 0 ∧
        ∀ k d, (1 ≤ k < j)%nat → k_gdt s !! k = Some d → attr d ≠ 0))).
  { destruct (gdt_search_ok 255 1 (k_gdt s)) as [(j & d & Hj & Hd & E & Hb & He)|[Hb He]];
      [lia|eexists; split; [exact He|right; eauto 8]|eexists; split; [exact He|by left]]. }
  destruct Hs as (sel & Hs & Hsel). exists sel. split; [|done].
  kstep (mutex_lock_idle gdt_mutex s l Hm).
  set (s1 := mutex_at gdt_mutex (Mutex (curr_task (k_tm s)) 1 l) s).
  kstep (with_gdt_ok (gdt_search 255 1) s1 sel (k_gdt s) Hs).
  change (set_gdt (k_gdt s) s1) with s1.
  rewrite (kbind_ret _ _ s1 tt s); [done|].
  rewrite (mutex_unlock_idle gdt_mutex s1 l); [|cbn; by rewrite lookup_insert_eq|done].
  f_equal. unfold s1, mutex_at. cbn. rewrite insert_insert_eq, insert_id by done. by destruct s.
Qed.

(** Which descriptor is allocated depends on the table only. *)
Lemma gdt_alloc_desc_at s j d :
  mutex_idle gdt_mutex s → length (k_gdt s) = 256%nat → (1 ≤ j < 256)%nat →
  k_gdt s !! j = Some d → attr d = 0 → (∀ k d, (1 ≤ k < j)%nat → k_gdt s !! k = Some d → attr d ≠ 0) →
  gdt_alloc_desc s = KRet (Z.of_nat j * 8) s.
Proof.
  intros Hm Hl Hj Hd E Hb.
  destruct (gdt_alloc_desc_ok s Hm Hl) as (sel & Ha & [[_ Hno]|(k & dk & Hk & -> & Hdk & Ek & Hbk)]).
  { by destruct (Hno j d). }
  destruct (Nat.lt_trichotomy j k) as [Hlt|[->|Hlt]]; [|done|].
  - by destruct (Hbk j d ltac:(lia)).
  - by destruct (Hb k dk ltac:(lia)).
Qed.

(** The state of the task structure and of the table after [tss_init]. *)
Definition with_tss (t entry esp : Z) (j : nat) (x : task_t) (s : kstate) : kstate :=
  set_tasks (<[t := task_set_tss_sel (Z.of_nat j * 8) (task_set_tss (tss_make entry esp) x)]>
    (k_tasks s))
  (set_gdt (<[j := segment_desc_make (u32 (t + tss_off)) tss_size tss_attr]> (k_gdt s)) s).

Lemma tss_fill_ok s t x entry esp j :
  length (k_gdt s) = 256%nat → (j < 256)%nat → k_tasks s !! t = Some x →
  tss_fill t entry esp (Z.of_nat j * 8) s = KRet 0 (with_tss t entry esp j x s).
Proof.
  intros Hl Hj Hx. unfold tss_fill. replace (Z.of_nat j * 8 <? 0) with false by lia.
  kstep (with_gdt_ok _ s _ _ (segment_desc_set_ok (k_gdt s) j (u32 (t + tss_off)) tss_size tss_attr
    ltac:(rewrite Hl; lia))).
  set (s1 := set_gdt _ s). assert (Hx1 : k_tasks s1 !! t = Some x) by done.
  kstep (task_modify_ok t (task_set_tss (tss_make entry esp)) x s1 Hx1).
  set (s2 := set_tasks _ s1).
  assert (Hx2 : k_tasks s2 !! t = Some (task_set_tss (tss_make entry esp) x)).
  { cbn. by rewrite lookup_insert_eq. }
  kstep (task_modify_ok t (task_set_tss_sel (Z.of_nat j * 8)) _ s2 Hx2).
  unfold with_tss. subst s2 s1. unfold set_tasks, set_gdt. cbn.
  by rewrite insert_insert_eq.
Qed.

(** A task in no queue: its nodes may be reset. *)
Definition unqueued (t : Z) (a : kabs) : Prop := ∀ p, t ∉ queue_at a p.

Lemma list_node_init_ok n (h : nodes) :
  is_Some (h !! n) → list_node_init n h = Ok (tt, <[n := ListNode 0 0]> h).
Proof.
  intros [x Hx]. unfold list_node_init. stm_step (set_next_ok h n x 0 Hx).
  rewrite (set_pre_ok _ n (ListNode (n_pre x) 0) 0) by by rewrite lookup_insert_eq.
  by rewrite insert_insert_eq.
Qed.

Lemma krel_reset_node s a p t :
  krel s a → is_Some (k_tasks s !! t) → unqueued t a →
  krel (set_nodes (<[node_at p t := ListNode 0 0]> (k_nodes s)) s) a.
Proof.
  intros Hr Ht Hf. pose proof (node_free s a p) as Hnf. destruct Hr as [Hc Hl Hok Hin Hto Hid].
  assert (Hr : krel s a) by done.
  split; try done.
  - intros q l Hq. eapply (dlist_frame_disjoint (k_nodes s) _ _ _ [node_at p t]); [by apply Hl| |].
    + intros y Hy%not_elem_of_cons. cbn. rewrite lookup_insert_ne; [done|]. by intros <-; destruct Hy.
    + intros x Hx ->%list_elem_of_singleton. revert Hx. apply Hnf; [done|done|by intros; apply Hf|].
      intros _. apply Hf.
  - eapply tasks_ok_update; [done|done|]. intros y Hy. cbn.
    destruct (decide (node_at p t = y)) as [<-|]; [by rewrite lookup_insert_eq|].
    by rewrite lookup_insert_ne.
Qed.

Lemma reset_nodes_ok s a t {B} (f : K B) :
  krel s a → is_Some (k_tasks s !! t) → unqueued t a →
  ∃ h, (with_nodes (list_node_init (all_node t));;
        with_nodes (list_node_init (run_node t));;
        with_nodes (list_node_init (wait_node t));; f) s = f (set_nodes h s) ∧
    krel (set_nodes h s) a.
Proof.
  intros Hr Ht Hf.
  assert (Hstep : ∀ p s1, krel s1 a → k_tasks s1 = k_tasks s →
    with_nodes (list_node_init (node_at p t)) s1 =
      KRet tt (set_nodes (<[node_at p t := ListNode 0 0]> (k_nodes s1)) s1) ∧
    krel (set_nodes (<[node_at p t := ListNode 0 0]> (k_nodes s1)) s1) a).
  { intros p s1 Hr1 E1. split.
    - apply with_nodes_ok, list_node_init_ok, (to_nodes _ _ (kr_tasks _ _ Hr1)). by rewrite E1.
    - apply krel_reset_node; [done|by rewrite E1|done]. }
  destruct (Hstep PAll s Hr eq_refl) as [H1 Hr1].
  destruct (Hstep PReady _ Hr1 eq_refl) as [H2 Hr2].
  destruct (Hstep (PWait 0) _ Hr2 eq_refl) as [H3 Hr3].
  eexists. split; [|exact Hr3]. kstep H1. kstep H2. by kstep H3.
Qed.

(** The task structure [task_init] leaves. *)
Definition fresh_task (st : task_state) (nm : list Z) (entry esp sel : Z) : task_t :=
  Task st 0 TASK_TIME_SLICE_DEFAULT TASK_TIME_SLICE_DEFAULT (task_name_of nm)
    (tss_make entry esp) sel.

Lemma task_name_fits nm :
  Z.of_nat (length nm) < TASK_NAME_SIZE → Z.of_nat (length (task_name_of nm)) < TASK_NAME_SIZE.
Proof.
  unfold task_name_of. intros Hn. case_match; [done|]. rewrite length_take. lia.
Qed.

Definition spec_create (t : Z) (a : kabs) : kabs :=
  set_queue PAll (a_all a ++ [t]) (if decide (t = idle_task) then a else spec_ready t a).

(** The assignments to the fields after the name is copied. *)
Lemma task_fields_ok s t x nm entry esp sel {B} (f : K B) :
  k_tasks s !! t = Some (task_set_tss_sel sel (task_set_tss (tss_make entry esp) x)) →
  Z.of_nat (length nm) < TASK_NAME_SIZE →
  (task_copy_name t nm;;
   task_modify t (task_set_state TASK_CREATED);;
   task_modify t (task_set_sleep_ticks 0);;
   task_modify t (task_set_time_ticks TASK_TIME_SLICE_DEFAULT);;
   task_modify t (λ x, task_set_slice_ticks (time_ticks x) x);; f) s =
  f (set_tasks (<[t := fresh_task TASK_CREATED nm entry esp sel]> (k_tasks s)) s).
Proof.
  intros Hx Hn. unfold task_copy_name.
  replace (TASK_NAME_SIZE <=? Z.of_nat (length nm)) with false by lia.
  assert (Hmod : ∀ (g : task_t → task_t) (y : task_t) (k : K B),
    (task_modify t g;; k) (set_tasks (<[t := y]> (k_tasks s)) s) =
    k (set_tasks (<[t := g y]> (k_tasks s)) s)).
  { intros g y k.
    kstep (task_modify_ok t g y (set_tasks (<[t := y]> (k_tasks s)) s) (lookup_insert_eq _ _ _)).
    unfold set_tasks. cbn. by rewrite insert_insert_eq. }
  kstep (task_modify_ok t (task_set_name (task_name_of nm)) _ s Hx).
  by rewrite !Hmod.
Qed.

(** The protected end of [task_init]: into the ready queue and the list of all
    tasks. *)
Definition task_publish (task : Z) : K Z :=
  state ← with_cpu irq_enter_protection;
  task_set_ready task;;
  tm ← tm_get;
  l ← with_nodes (list_insert_last (task_list tm) (all_node task));
  tm_modify (tm_set_all l);;
  with_cpu (irq_leave_protection state);;
  mret 0.

Lemma maybe_ready_ok s a t x :
  krel s a → k_tasks s !! t = Some x → unqueued t a →
  ∃ s', task_set_ready t s = KRet tt s' ∧
    krel s' (if decide (t = idle_task) then a else spec_ready t a) ∧ obj_frame s s' ∧
    k_cpu s' = k_cpu s ∧ (∀ u, u ≠ t → k_tasks s' !! u = k_tasks s !! u) ∧
    k_tasks s' !! t = Some (if decide (t = idle_task) then x else task_set_state TASK_READY x).
Proof.
  intros Hr Hx Hf. case_decide as E.
  - exists s. rewrite E, task_set_ready_idle. rewrite E in Hx. by split_and!.
  - destruct (task_set_ready_ok s a t Hr) as (s1 & H1 & Hr1 & Hf1 & Hst & Ec & Hu);
      [by exists x|done|by intros; apply Hf|].
    exists s1. split; [done|]. split; [done|]. split; [by apply sched_obj_frame|].
    split; [done|]. split; [done|].
    pose proof (sf_tasks _ _ Hf1 t) as Ht. unfold state_of in Hst. rewrite Hx in Ht.
    destruct (k_tasks s1 !! t) as [y|]; [|done]. destruct x, y. unfold task_set_state in *.
    by simplify_eq/=.
Qed.

Lemma task_publish_ok s a t x :
  krel s a → k_tasks s !! t = Some x → unqueued t a →
  ∃ s', task_publish t s = KRet 0 s' ∧ krel s' (spec_create t a) ∧ obj_frame s s' ∧
    k_cpu s' = k_cpu s ∧ (∀ u, u ≠ t → k_tasks s' !! u = k_tasks s !! u) ∧
    k_tasks s' !! t = Some (if decide (t = idle_task) then x else task_set_state TASK_READY x).
Proof.
  intros Hr Hx Hf. unfold task_publish. rewrite enter_ok.
  destruct (maybe_ready_ok (cli_state s) a t x) as (s1 & H1 & Hr1 & Hf1 & Ec & Hu & Ht);
    [by apply krel_set_cpu|done|done|].
  set (a1 := if decide (t = idle_task) then a else spec_ready t a) in *.
  assert (Hall : queue_at a1 PAll = a_all a) by (subst a1; by case_decide).
  destruct (krel_insert_last s1 a1 PAll t (task_list (k_tm s1))) as (l & h & Hop & Hk);
    [done|done|by rewrite Ht|done|done|intros _; rewrite Hall; apply (Hf PAll)|].
  kstep H1. rewrite (kbind_ret tm_get _ s1 (k_tm s1) s1) by done.
  kstep (with_nodes_ok _ _ _ _ Hop).
  set (s2 := set_tm (tm_set_all l (k_tm s1)) (set_nodes h s1)).
  rewrite (kbind_ret (tm_modify _) _ _ tt s2) by done.
  kstep (leave_ok s s2 Ec). exists (set_cpu (k_cpu s) s2). split; [done|].
  split; [|split; [|by split_and!]].
  - apply krel_set_cpu. unfold spec_create. rewrite <-Hall. apply Hk; [done|].
    split; try done. intros q Hq. by destruct q.
  - etrans; [|by apply sched_obj_frame, sched_frame_set_cpu]. transitivity s1; [|by split].
    etrans; [|done]. by apply sched_obj_frame, sched_frame_set_cpu.
Qed.

Lemma with_tss_krel s a t entry esp j x :
  krel s a → k_tasks s !! t = Some x → krel (with_tss t entry esp j x s) a.
Proof.
  intros Hr Hx. eapply krel_ext; [exact Hr|done..|]. cbn. by eapply dom_insert_same.
Qed.

(** What no task operation touches: interrupt gates, the tick count, the pages. *)
Definition devices_of (s : kstate) : list gate_desc_t * Z * (mem * Z * addr_alloc_t) :=
  (k_idt s, k_sys_tick s, pages_of s).

(** What [task_init] leaves of a task that got descriptor [j]. *)
Record task_made t entry esp nm (j : nat) a s s' : Prop := {
  md_rel : krel s' (spec_create t a);
  md_gdt : k_gdt s' = <[j := segment_desc_make (u32 (t + tss_off)) tss_size tss_attr]> (k_gdt s);
  md_task : k_tasks s' !! t = Some (fresh_task
    (if decide (t = idle_task) then TASK_CREATED else TASK_READY) nm entry esp (Z.of_nat j * 8));
  md_others : ∀ u, u ≠ t → k_tasks s' !! u = k_tasks s !! u;
  md_mutex : k_mutex s' = k_mutex s;
  md_sem : k_sem s' = k_sem s;
  md_cpu : k_cpu s' = k_cpu s;
  md_devices : devices_of s' = devices_of s
}.

Lemma task_init_from_ok s a t x entry esp nm j :
  krel s a → k_tasks s !! t = Some x → unqueued t a → length (k_gdt s) = 256%nat →
  (j < 256)%nat → Z.of_nat (length nm) < TASK_NAME_SIZE →
  ∃ s', task_init_from t entry esp nm (Z.of_nat j * 8) s = KRet 0 s' ∧
    task_made t entry esp nm j a s s'.
Proof.
  intros Hr Hx Hf Hl Hj Hn. unfold task_init_from. kstep (tss_fill_ok s t x entry esp j Hl Hj Hx).
  set (s1 := with_tss t entry esp j x s).
  assert (Hr1 : krel s1 a) by by apply with_tss_krel.
  rewrite (task_fields_ok s1 t x nm entry esp (Z.of_nat j * 8)); [|apply lookup_insert_eq|done].
  set (s2 := set_tasks _ s1). set (y := fresh_task TASK_CREATED nm entry esp (Z.of_nat j * 8)) in *.
  assert (Hx1 : k_tasks s1 !! t = Some (task_set_tss_sel (Z.of_nat j * 8)
    (task_set_tss (tss_make entry esp) x))) by apply lookup_insert_eq.
  assert (Hr2 : krel s2 a) by by eapply krel_task_set.
  assert (Hx2 : k_tasks s2 !! t = Some y) by apply lookup_insert_eq.
  destruct (reset_nodes_ok s2 a t (task_publish t) Hr2) as (h & He & Hr3); [by exists y|done|].
  destruct (task_publish_ok (set_nodes h s2) a t y Hr3 Hx2 Hf)
    as (s4 & H4 & Hr4 & Hf4 & Ec4 & Hu4 & Ht4).
  exists s4. split; [etrans; [exact He|exact H4]|]. split; try done.
  - by rewrite (of_gdt _ _ Hf4).
  - rewrite Ht4. by case_decide.
  - intros u Hu. rewrite Hu4 by done. cbn. by rewrite !lookup_insert_ne.
  - by rewrite (of_mutex _ _ Hf4).
  - by rewrite (of_sem _ _ Hf4).
  - unfold devices_of. by rewrite (of_pages _ _ Hf4), (of_idt _ _ Hf4), (of_tick _ _ Hf4).
Qed.

(** Once the descriptor is allocated, the rest follows. *)
Lemma task_init_allocated s a t x entry esp nm sel :
  krel s a → k_tasks s !! t = Some x → gdt_alloc_desc s = KRet sel s →
  task_init t entry esp nm s = task_init_from t entry esp nm sel s.
Proof.
  intros Hr Hx Ha. destruct (to_addr _ _ (kr_tasks _ _ Hr) t) as [Hpos _]; [by exists x|].
  unfold task_init. rewrite (kbind_ret _ _ s tt s).
  2:{ unfold ASSERT. by replace (t =? 0) with false by lia. }
  unfold task_init_from. change (tss_init t entry esp) with (sel ← gdt_alloc_desc; tss_fill t entry esp sel).
  enough ((sel ← gdt_alloc_desc; tss_fill t entry esp sel) s = tss_fill t entry esp sel s) as E.
  { exact (f_equal (λ r, kbind r _) E). }
  by kstep Ha.
Qed.

Lemma task_init_ok s a t x entry esp nm :
  krel s a → k_tasks s !! t = Some x → unqueued t a →
  mutex_idle gdt_mutex s → length (k_gdt s) = 256%nat →
  (∃ k d, (1 ≤ k < 256)%nat ∧ k_gdt s !! k = Some d ∧ attr d = 0) →
  Z.of_nat (length nm) < TASK_NAME_SIZE →
  ∃ s' j d, task_init t entry esp nm s = KRet 0 s' ∧ krel s' (spec_create t a) ∧
    (1 ≤ j < 256)%nat ∧ k_gdt s !! j = Some d ∧ attr d = 0 ∧
    k_gdt s' = <[j := segment_desc_make (u32 (t + tss_off)) tss_size tss_attr]> (k_gdt s) ∧
    k_tasks s' !! t = Some (fresh_task (if decide (t = idle_task) then TASK_CREATED else TASK_READY)
      nm entry esp (Z.of_nat j * 8)) ∧
    (∀ u, u ≠ t → k_tasks s' !! u = k_tasks s !! u) ∧
    k_mutex s' = k_mutex s ∧ k_sem s' = k_sem s ∧ k_cpu s' = k_cpu s ∧
    devices_of s' = devices_of s.
Proof.
  intros Hr Hx Hf Hm Hl (k0 & d0 & Hk0 & Hd0 & E0) Hn.
  destruct (gdt_alloc_desc_ok s Hm Hl) as (sel & Ha & [[_ Hno]|(j & d & Hj & -> & Hd & E & _)]).
  { by destruct (Hno k0 d0). }
  destruct (task_init_from_ok s a t x entry esp nm j Hr Hx Hf Hl) as (s' & Hi & []); [lia|done|].
  exists s', j, d. rewrite (task_init_allocated s a t x entry esp nm _ Hr Hx Ha). split_and!; done || lia.
Qed.

(** *** The task behind a TSS selector

    The processor finds a TSS through the descriptor a selector names; here the
    task whose [tss] member lies at the descriptor's base. *)
Definition tss_of (g : list segment_desc_t) (sel : Z) : option Z :=
  match g !! Z.to_nat (sel / 8) with
  | Some d => if desc_access d =? tss_attr then Some (desc_base d - tss_off) else None
  | None => None
  end.

Definition has_tss (s : kstate) (t : Z) : Prop :=
  ∃ x, k_tasks s !! t = Some x ∧ tss_of (k_gdt s) (u16 (tss_sel x)) = Some t.

Lemma tss_of_filled (g : list segment_desc_t) j t :
  (j < 256)%nat → length g = 256%nat → 0 < t → t + task_size ≤ 2 ^ 32 →
  tss_of (<[j := segment_desc_make (u32 (t + tss_off)) tss_size tss_attr]> g)
    (u16 (Z.of_nat j * 8)) = Some t.
Proof.
  intros Hj Hl Hpos Ht. unfold tss_of. rewrite u16_id by (unfold is_u16; lia).
  rewrite Z.div_mul, Nat2Z.id, list_lookup_insert_eq by lia.
  rewrite desc_base_make by apply u32_range.
  destruct (desc_make_bytes tss_attr ltac:(done) eq_refl (u32 (t + tss_off)) tss_size ltac:(done))
    as [_ ->].
  rewrite Z.eqb_refl, u32_id by (unfold is_u32, task_size, tss_off in *; lia).
  f_equal. lia.
Qed.

Lemma tss_of_unused (g : list segment_desc_t) j d d' sel t :
  g !! j = Some d → attr d = 0 → tss_of g sel = Some t → tss_of (<[j := d']> g) sel = Some t.
Proof.
  intros Hd Ha. unfold tss_of. destruct (decide (j = Z.to_nat (sel / 8))) as [<-|Hne].
  - rewrite Hd. unfold desc_access. by rewrite Ha.
  - by rewrite list_lookup_insert_ne.
Qed.

(** A task created by [task_init] has its TSS; the others keep theirs. *)
Lemma has_tss_created s s' t x j d :
  (j < 256)%nat → length (k_gdt s) = 256%nat → 0 < t → t + task_size ≤ 2 ^ 32 →
  k_gdt s !! j = Some d → attr d = 0 →
  k_gdt s' = <[j := segment_desc_make (u32 (t + tss_off)) tss_size tss_attr]> (k_gdt s) →
  k_tasks s' !! t = Some x → tss_sel x = Z.of_nat j * 8 →
  (∀ u, u ≠ t → k_tasks s' !! u = k_tasks s !! u) →
  has_tss s' t ∧ (∀ u, u ≠ t → has_tss s u → has_tss s' u).
Proof.
  intros Hj Hl Hpos Ht Hd Ha Eg Hx Hsel Hu. split.
  - exists x. split; [done|]. rewrite Eg, Hsel. by apply tss_of_filled.
  - intros u Hne (y & Hy & Hs). exists y. split; [by rewrite Hu|]. rewrite Eg.
    by eapply tss_of_unused.
Qed.

(** *** The table of [init_gdt] *)
Definition null_desc : segment_desc_t := segment_desc_make 0 0 0.
Definition kernel_ds : segment_desc_t := segment_desc_make 0 4294967295
  (Z.lor SEG_P_PRESENT (Z.lor SEG_DPL0 (Z.lor SEG_S_NORMAL (Z.lor SEG_TYPE_DATA
    (Z.lor SEG_TYPE_RW (Z.lor SEG_D SEG_G)))))).
Definition kernel_cs : segment_desc_t := segment_desc_make 0 4294967295
  (Z.lor SEG_P_PRESENT (Z.lor SEG_DPL0 (Z.lor SEG_S_NORMAL (Z.lor SEG_TYPE_CODE
    (Z.lor SEG_TYPE_RW (Z.lor SEG_D SEG_G)))))).

Definition boot_gdt : list segment_desc_t :=
  <[1%nat := kernel_cs]> (<[2%nat := kernel_ds]> (replicate 256 null_desc)).

Lemma clear_gdt_ok f i (g : list segment_desc_t) :
  (i + f = length g)%nat →
  clear_gdt f (Z.of_nat i) g = Ok (tt, take i g ++ replicate f null_desc).
Proof.
  revert i g. induction f as [|f IH]; intros i g Hl; cbn [clear_gdt].
  - by rewrite app_nil_r, take_ge by lia.
  - replace (Z.shiftl (Z.of_nat i) 3) with (Z.of_nat i * 8) by (rewrite Z.shiftl_mul_pow2; lia).
    stm_step (segment_desc_set_ok g i 0 0 0 ltac:(lia)).
    replace (Z.of_nat i + 1) with (Z.of_nat (S i)) by lia.
    rewrite IH by (rewrite length_insert; lia). do 2 f_equal.
    rewrite (take_S_r _ i null_desc) by (rewrite list_lookup_insert_eq by lia; done).
    rewrite take_insert_ge, <-app_assoc by lia. done.
Qed.

Lemma init_gdt_table_ok (g : list segment_desc_t) :
  length g = 256%nat → init_gdt_table g = Ok (tt, boot_gdt).
Proof.
  intros Hl. unfold init_gdt_table.
  stm_step (clear_gdt_ok (Z.to_nat GDT_TABLE_SIZE) 0 g ltac:(rewrite Hl; done)).
  reflexivity.
Qed.

Lemma boot_gdt_attr k d :
  (3 ≤ k)%nat → boot_gdt !! k = Some d → attr d = 0.
Proof.
  intros Hk Hd. unfold boot_gdt in Hd. rewrite !list_lookup_insert_ne in Hd by lia.
  by apply lookup_replicate in Hd as [-> _].
Qed.

Lemma krel_no_queues s :
  tasks_ok (k_tasks s) (k_nodes s) → is_Some (k_tasks s !! idle_task) →
  (∀ p l, list_at s p = Some l → l = list_init) →
  krel s (KAbs (curr_task (k_tm s)) [] [] [] ∅).
Proof.
  intros Hto Hid Hl.
  assert (Hq : ∀ p, queue_at (KAbs (curr_task (k_tm s)) [] [] [] ∅) p = []) by by intros [| | |o].
  split; try done.
  - intros p l Hp. rewrite Hq, (Hl p l Hp). apply dlist_init.
  - split.
    + intros p. rewrite Hq. constructor.
    + intros p q t Ht. rewrite Hq in Ht. by apply not_elem_of_nil in Ht.
    + intros p _. rewrite Hq. apply not_elem_of_nil.
  - intros p t Ht. rewrite Hq in Ht. by apply not_elem_of_nil in Ht.
Qed.
End lemmas.

(** *** Booting the task manager *)
Section boot.
Context `{LoggerLaws}.
Implicit Types (s : kstate) (a : kabs).

(** The memory the boot code finds: the static task structures in place, the
    mutexes free, nobody waiting, the descriptor table of [init_gdt]. *)
Record power_on (s : kstate) : Prop := {
  po_tasks : tasks_ok (k_tasks s) (k_nodes s);
  po_first : is_Some (k_tasks s !! first_task);
  po_idle : is_Some (k_tasks s !! idle_task);
  po_lists : ∀ o l, list_at s (PWait o) = Some l → l = list_init;
  po_log : k_mutex s !! log_mutex = Some (Mutex 0 0 list_init);
  po_gdt_mutex : k_mutex s !! gdt_mutex = Some (Mutex 0 0 list_init);
  po_gdt : k_gdt s = boot_gdt;
  po_names : names_ok s
}.

Definition boot_abs : kabs := KAbs first_task [first_task] [] [idle_task; first_task] ∅.

(** The idle task calls nothing and changes nothing: only interrupts take the
    processor from it. *)
Lemma idle_task_idles n s : idle_task_entry n s = KRet tt s.
Proof.
  revert s. induction n as [|n IH]; intros s; [done|]. cbn [idle_task_entry].
  kstep (with_cpu_ok hlt s tt (k_cpu s) eq_refl).
  replace (set_cpu (k_cpu s) s) with s by by destruct s. apply IH.
Qed.

Lemma first_not_idle : first_task ≠ idle_task.
Proof. unfold first_task, idle_task. lia. Qed.

(** A task with a full time slice, that will start with interrupts enabled. *)
Definition as_created (s : kstate) (t : Z) : Prop :=
  ∃ x, k_tasks s !! t = Some x ∧ time_ticks x = TASK_TIME_SLICE_DEFAULT ∧
    slice_ticks x = TASK_TIME_SLICE_DEFAULT ∧
    eflags (tss x) = Z.lor EFLAGS_DEFAULT EFLAGS_IF.

(** What [task_manager_init] leaves: the idle task in the list of all tasks and in
    no queue, no current task, and descriptors for more tasks. *)
Record tm_ready (s : kstate) : Prop := {
  tr_rel : krel s (KAbs 0 [] [] [idle_task] ∅);
  tr_first : is_Some (k_tasks s !! first_task);
  tr_log : log_free s;
  tr_gdt_mutex : mutex_idle gdt_mutex s;
  tr_gdt : length (k_gdt s) = 256%nat;
  tr_free : ∃ k d, (1 ≤ k < 256)%nat ∧ k_gdt s !! k = Some d ∧ attr d = 0;
  tr_names : names_ok s;
  tr_idle : has_tss s idle_task;
  tr_fresh : as_created s idle_task
}.

Lemma tm_ready_set_cpu s c : tm_ready s → tm_ready (set_cpu c s).
Proof. intros []. split; try done. by apply krel_set_cpu. Qed.

Lemma task_manager_init_ok s e st :
  power_on s →
  ∃ s', task_manager_init e st s = KRet tt s' ∧ tm_ready s' ∧
    k_mutex s' = k_mutex s ∧ k_sem s' = k_sem s ∧ k_cpu s' = k_cpu s ∧ devices_of s' = devices_of s.
Proof.
  intros [Hto Hfi [x Hx] Hls Hlog Hgm Hgdt Hnames].
  set (s1 := set_tm (TaskManager (curr_task (k_tm s)) list_init list_init list_init) s).
  assert (Hr1 : krel s1 (KAbs (curr_task (k_tm s)) [] [] [] ∅)).
  { apply (krel_no_queues s1); [done|by exists x|]. intros [| | |o] l; try by intros [= <-].
    apply Hls. }
  destruct (task_init_ok s1 (KAbs (curr_task (k_tm s)) [] [] [] ∅) idle_task x e st
    (bytes_of_string "idle task")) as (s2 & j & d & H2 & Hr2 & Hj & Hd & E & Eg & Et & Eu & Em & Es & Ec & Er);
    [done|done| | |by cbn; rewrite Hgdt| |done|].
  { intros [| | |o]; apply not_elem_of_nil. }
  { by exists list_init. }
  { exists 3%nat, null_desc. split; [lia|]. cbn [k_gdt s1 set_tm]. by rewrite Hgdt. }
  rewrite decide_True in Et by done.
  assert (Eg' : k_gdt s2 = <[j := segment_desc_make (u32 (idle_task + tss_off)) tss_size tss_attr]> boot_gdt)
    by (by rewrite Eg, (Hgdt : k_gdt s1 = boot_gdt)).
  exists (set_tm (tm_set_curr 0 (k_tm s2)) s2). split.
  { unfold task_manager_init. do 3 (rewrite (kbind_ret (tm_modify _) _ _ tt _ eq_refl)). by kstep H2. }
  split; [|done]. split.
  - pose proof (krel_set_curr s2 _ 0 Hr2) as Hr3. unfold spec_create in Hr3.
    by rewrite decide_True in Hr3.
  - cbn. rewrite Eu; [done|apply first_not_idle].
  - exists list_init. cbn. by rewrite Em.
  - exists list_init. cbn. by rewrite Em.
  - cbn. by rewrite Eg', length_insert.
  - cbn. rewrite Eg'. destruct (decide (j = 3)%nat) as [->|].
    + exists 4%nat, null_desc. split; [lia|]. by rewrite list_lookup_insert_ne.
    + exists 3%nat, null_desc. split; [lia|]. by rewrite list_lookup_insert_ne.
  - intros t z Hz. cbn in Hz. destruct (decide (t = idle_task)) as [->|].
    + rewrite Et in Hz. by simplify_eq.
    + rewrite Eu in Hz by done. by eapply Hnames.
  - destruct (to_addr _ _ Hto idle_task (mk_is_Some _ _ Hx)) as [Hpos Hend].
    destruct (has_tss_created s1 s2 idle_task (fresh_task TASK_CREATED (bytes_of_string "idle task")
      e st (Z.of_nat j * 8)) j d) as [Hid _]; try done; [lia|].
    cbn. by rewrite Hgdt.
  - eexists. by split; [exact Et|].
Qed.

(** What [task_first_init] leaves. *)
Record started (s0 s : kstate) (sel : Z) : Prop := {
  sd_rel : krel s boot_abs;
  sd_log : log_free s;
  sd_names : names_ok s;
  sd_first : k_tasks s !! first_task =
    Some (fresh_task TASK_READY (bytes_of_string "first task") 0 0 sel);
  sd_tr : c_tr (k_cpu s) = u16 sel;
  sd_cr3 : c_cr3 (k_cpu s) = 0;
  sd_tss_first : has_tss s first_task;
  sd_tss_idle : has_tss s idle_task;
  sd_fresh : as_created s idle_task;
  sd_gdt : length (k_gdt s) = 256%nat;
  sd_mutex : k_mutex s = k_mutex s0;
  sd_sem : k_sem s = k_sem s0;
  sd_devices : devices_of s = devices_of s0;
  sd_eflags : c_eflags (k_cpu s) = c_eflags (k_cpu s0);
  sd_cr0 : c_cr0 (k_cpu s) = c_cr0 (k_cpu s0)
}.

Lemma started_of s0 s1 s sel :
  k_mutex s1 = k_mutex s0 → k_sem s1 = k_sem s0 → devices_of s1 = devices_of s0 →
  c_eflags (k_cpu s1) = c_eflags (k_cpu s0) → c_cr0 (k_cpu s1) = c_cr0 (k_cpu s0) →
  started s1 s sel → started s0 s sel.
Proof. intros Em Es Ed Ee E0 []. split; try done; congruence. Qed.

Lemma task_first_init_ok s :
  tm_ready s → ∃ s' sel, task_first_init s = KRet tt s' ∧ started s s' sel.
Proof.
  intros [Hr1 [x Hx] Hlog1 Hgm Hgl Hfree Hnames Hidle Hslice]. pose proof first_not_idle as Hne.
  destruct (task_init_ok s (KAbs 0 [] [] [idle_task] ∅) first_task x 0 0
    (bytes_of_string "first task")) as (s2 & k & d & H2 & Hr2 & Hk & Hd & E & Eg & Et & Eu & Em & Es & Ec & Er);
    [done|done| |done|done|done|done|].
  { intros [| | |o]; try apply not_elem_of_nil. by apply not_elem_of_cons; split;
      [|apply not_elem_of_nil]. }
  rewrite decide_False in Et by done.
  set (y := fresh_task TASK_READY (bytes_of_string "first task") 0 0 (Z.of_nat k * 8)) in *.
  set (s3 := set_cpu (Cpu (c_eflags (k_cpu s2)) (c_cr0 (k_cpu s2)) (c_cr3 (k_cpu s2))
    (c_cr4 (k_cpu s2)) (u16 (tss_sel y)) (c_gdtr (k_cpu s2)) (c_idtr (k_cpu s2)) (c_io (k_cpu s2))) s2).
  assert (Hlog : log_free s3).
  { destruct Hlog1 as (l & Hl & Hc). exists l. split; [|done]. cbn. by rewrite Em. }
  destruct (log_printf_quiet "first_task_init slice_ticks: %d" [AInt 10]
    (bytes_of_string "first_task_init slice_ticks: 10") s3 Hlog) as [ev Hev];
    [vm_compute; reflexivity|vm_compute; discriminate|].
  set (s4 := set_cpu (add_io ev (k_cpu s3)) s3) in *.
  set (s5 := set_tm (tm_set_curr first_task (k_tm s4)) s4).
  eexists (set_cpu (Cpu (c_eflags (k_cpu s5)) (c_cr0 (k_cpu s5)) 0 (c_cr4 (k_cpu s5))
    (c_tr (k_cpu s5)) (c_gdtr (k_cpu s5)) (c_idtr (k_cpu s5)) (c_io (k_cpu s5))) s5), (Z.of_nat k * 8).
  split.
  { unfold task_first_init. kstep H2.
    kstep (task_get_ok first_task y s2 Et).
    rewrite (kbind_ret _ _ s2 tt s3) by done.
    kstep (task_get_ok first_task y s3 Et). kstep Hev.
    rewrite (kbind_ret (tm_modify _) _ s4 tt s5) by done.
    by kstep (task_get_ok first_task y s5 Et). }
  destruct (to_addr _ _ (kr_tasks _ _ Hr1) first_task (mk_is_Some _ _ Hx)) as [Hpos Hend].
  destruct (has_tss_created s s2 first_task y k d) as [Hfirst Hothers]; try done; [lia|].
  split; try done.
  - apply krel_set_cpu. pose proof (krel_set_curr s4 (spec_create first_task
      (KAbs 0 [] [] [idle_task] ∅)) first_task) as Hk5. unfold spec_create in Hk5.
    rewrite decide_False in Hk5 by done. apply Hk5.
    unfold spec_create in Hr2. rewrite decide_False in Hr2 by done.
    by do 2 apply krel_set_cpu.
  - intros t z Hz. change (k_tasks s2 !! t = Some z) in Hz.
    destruct (decide (t = first_task)) as [->|Hnf]; [rewrite Et in Hz; by simplify_eq|].
    rewrite Eu in Hz by done. by eapply Hnames.
  - by apply Hothers.
  - destruct Hslice as (z & Hz & Hq). exists z. split; [|exact Hq].
    change (k_tasks s2 !! idle_task = Some z). by rewrite Eu.
  - cbn. by rewrite Eg, length_insert.
  - cbn. by rewrite Ec.
  - cbn. by rewrite Ec.
Qed.

Lemma boot_ok s e st :
  power_on s →
  ∃ s' sel, (task_manager_init e st;; task_first_init) s = KRet tt s' ∧ started s s' sel.
Proof.
  intros Hp. destruct (task_manager_init_ok s e st Hp) as (s1 & H1 & Hr & Em & Es & Ec & Ed).
  destruct (task_first_init_ok s1 Hr) as (s2 & sel & H2 & Hs). exists s2, sel.
  split; [by kstep H1|]. apply (started_of s s1); try done; by rewrite Ec.
Qed.
End boot.

(** ** Properties of task creation *)
Section properties.
Context `{LoggerLaws}.
Implicit Types (s : kstate) (a : kabs) (t : Z).

(** [gdt_alloc_desc] returns the selector of the first descriptor, from 1 on,
    whose attributes are 0, or -1 when there is none, and changes nothing: it
    does not reserve the descriptor, so until somebody fills it in every further
    call returns the same selector. *)
Theorem gdt_alloc_desc_first_free s :
  mutex_idle gdt_mutex s → length (k_gdt s) = 256%nat →
  ∃ sel, gdt_alloc_desc s = KRet sel s ∧
    (gdt_alloc_desc;; gdt_alloc_desc) s = KRet sel s ∧
    ((sel = -1 ∧ ∀ k d, (1 ≤ k < 256)%nat → k_gdt s !! k = Some d → attr d ≠ 0) ∨
     (∃ j d, (1 ≤ j < 256)%nat ∧ sel = Z.of_nat j * 8 ∧ k_gdt s !! j = Some d ∧ attr d = 0 ∧
        ∀ k d, (1 ≤ k < j)%nat → k_gdt s !! k = Some d → attr d ≠ 0)).
Proof.
  intros Hm Hl. destruct (gdt_alloc_desc_ok s Hm Hl) as (sel & Ha & Hsel).
  exists sel. split; [done|]. split; [by kstep Ha|done].
Qed.

(** C20: [task_init] on a task structure in no queue fills every field: the TSS
    for the entry point and stack, a fresh descriptor pointing to it, the name,
    the counters, the links; and puts the task at the end of the ready queue
    (unless it is the idle task) and of the list of all tasks. Other tasks, the
    mutexes, the semaphores, the registers, the interrupt gates, the tick count
    and the page allocator are unchanged. *)
Theorem task_init_refines s a t x entry esp nm :
  krel s a → k_tasks s !! t = Some x → unqueued t a →
  mutex_idle gdt_mutex s → length (k_gdt s) = 256%nat →
  (∃ k d, (1 ≤ k < 256)%nat ∧ k_gdt s !! k = Some d ∧ attr d = 0) →
  Z.of_nat (length nm) < TASK_NAME_SIZE →
  ∃ s' j d, task_init t entry esp nm s = KRet 0 s' ∧ krel s' (spec_create t a) ∧
    (1 ≤ j < 256)%nat ∧ k_gdt s !! j = Some d ∧ attr d = 0 ∧
    k_gdt s' = <[j := segment_desc_make (u32 (t + tss_off)) tss_size tss_attr]> (k_gdt s) ∧
    k_tasks s' !! t = Some (fresh_task (if decide (t = idle_task) then TASK_CREATED else TASK_READY)
      nm entry esp (Z.of_nat j * 8)) ∧
    (∀ u, u ≠ t → k_tasks s' !! u = k_tasks s !! u) ∧
    k_mutex s' = k_mutex s ∧ k_sem s' = k_sem s ∧ k_cpu s' = k_cpu s ∧
    devices_of s' = devices_of s.
Proof. apply task_init_ok. Qed.

(** C21: creating tasks is not safe against preemption. When the creator of task [t]
    is preempted after [gdt_alloc_desc] returned [sel], and another task creates
    [u] meanwhile, [u] gets the same selector; and when the creation of [t] goes on,
    it takes the descriptor over: from then on the selector of both tasks names the
    TSS of [t], so that switching to [u] enters [t]. Nothing fails, and no queue
    or list is harmed. *)
Theorem task_init_race s sel s0 a0 t u y eu pu nu et pt nt :
  mutex_idle gdt_mutex s → length (k_gdt s) = 256%nat → gdt_alloc_desc s = KRet sel s → 0 ≤ sel →
  krel s0 a0 → k_gdt s0 = k_gdt s → mutex_idle gdt_mutex s0 → k_tasks s0 !! u = Some y →
  unqueued u a0 → Z.of_nat (length nu) < TASK_NAME_SIZE →
  ∃ s1, task_init u eu pu nu s0 = KRet 0 s1 ∧ krel s1 (spec_create u a0) ∧
    (∀ v, v ≠ u → k_tasks s1 !! v = k_tasks s0 !! v) ∧ has_tss s1 u ∧
    ∀ s2 a2 x, krel s2 a2 → k_gdt s2 = k_gdt s1 →
      tss_sel <$> k_tasks s2 !! u = tss_sel <$> k_tasks s1 !! u →
      k_tasks s2 !! t = Some x → t ≠ u → unqueued t a2 → Z.of_nat (length nt) < TASK_NAME_SIZE →
      ∃ s3, task_init_from t et pt nt sel s2 = KRet 0 s3 ∧ krel s3 (spec_create t a2) ∧
        tss_sel <$> k_tasks s3 !! t = Some sel ∧ tss_sel <$> k_tasks s3 !! u = Some sel ∧
        tss_of (k_gdt s3) (u16 sel) = Some t ∧ ¬ has_tss s3 u.
Proof.
  intros Hm Hl Ha Hsel Hr0 Eg Hm0 Hy Hfu Hnu.
  destruct (gdt_alloc_desc_ok s Hm Hl) as (sel' & Ha' & Hcase). rewrite Ha in Ha'. injection Ha' as <-.
  destruct Hcase as [[-> _]|(j & d & Hj & -> & Hd & E & Hb)]; [lia|].
  assert (Ha0 : gdt_alloc_desc s0 = KRet (Z.of_nat j * 8) s0).
  { apply (gdt_alloc_desc_at s0 j d); rewrite ?Eg; done || lia. }
  destruct (task_init_from_ok s0 a0 u y eu pu nu j Hr0 Hy Hfu) as (s1 & E1 & H1);
    [by rewrite Eg|lia|done|].
  destruct (to_addr _ _ (kr_tasks _ _ Hr0) u (mk_is_Some _ _ Hy)) as [Hup Hue].
  exists s1. rewrite (task_init_allocated s0 a0 u y eu pu nu _ Hr0 Hy Ha0).
  split; [done|]. split; [apply H1|]. split; [apply H1|]. split.
  { eexists. split; [apply H1|]. rewrite (md_gdt _ _ _ _ _ _ _ _ H1).
    apply tss_of_filled; [lia|by rewrite Eg|done|done]. }
  intros s2 a2 x Hr2 Eg2 Eu2 Hx Htu Hft Hnt.
  assert (Hl2 : length (k_gdt s2) = 256%nat).
  { by rewrite Eg2, (md_gdt _ _ _ _ _ _ _ _ H1), length_insert, Eg. }
  destruct (task_init_from_ok s2 a2 t x et pt nt j Hr2 Hx Hft Hl2) as (s3 & E3 & H3); [lia|done|].
  destruct (to_addr _ _ (kr_tasks _ _ Hr2) t (mk_is_Some _ _ Hx)) as [Htp Hte].
  assert (Hsu : tss_sel <$> k_tasks s3 !! u = Some (Z.of_nat j * 8)).
  { rewrite (md_others _ _ _ _ _ _ _ _ H3) by done. by rewrite Eu2, (md_task _ _ _ _ _ _ _ _ H1). }
  assert (Htss : tss_of (k_gdt s3) (u16 (Z.of_nat j * 8)) = Some t).
  { rewrite (md_gdt _ _ _ _ _ _ _ _ H3). apply tss_of_filled; [lia|done..]. }
  exists s3. split; [done|]. split; [apply H3|]. split; [by rewrite (md_task _ _ _ _ _ _ _ _ H3)|].
  split; [done|]. split; [done|]. intros (z & Hz & Htz). rewrite Hz in Hsu. injection Hsu as Ez.
  rewrite Ez, Htss in Htz. congruence.
Qed.

(** From the memory after loading, [task_manager_init] and [task_first_init]
    return with the scheduler's invariant established: the first task is current
    and alone in the ready queue, both tasks are in the list of all tasks, the
    task register holds the first task's selector. The page directory loaded is
    0, since nothing sets the [cr3] of the first task's TSS. *)
Theorem boot_establishes s idle_entry stack_end :
  power_on s →
  ∃ s' sel, (task_manager_init idle_entry stack_end;; task_first_init) s = KRet tt s' ∧
    krel s' boot_abs ∧ log_free s' ∧ names_ok s' ∧
    k_tasks s' !! first_task =
      Some (fresh_task TASK_READY (bytes_of_string "first task") 0 0 sel) ∧
    c_tr (k_cpu s') = u16 sel ∧ c_cr3 (k_cpu s') = 0.
Proof.
  intros Hp. destruct (boot_ok s idle_entry stack_end Hp) as (s' & sel & E & []).
  by exists s', sel.
Qed.
End properties.

(** *** Witnesses *)
Section witnesses.
#[local] Existing Instance demo_layout.
#[local] Existing Instance quiet_logger.
#[local] Existing Instance quiet_logger_laws.

Definition boot_tasks : gmap Z task_t :=
  {[ first_task := demo_task TASK_CREATED "" 0 0 0; idle_task := demo_task TASK_CREATED "" 0 0 0 ]}.

Definition boot_state : kstate :=
  set_gdt boot_gdt (demo_kernel (KAbs 0 [] [] [] ∅) boot_tasks free_mutexes []).

(** A state nobody waits in, checked by computation. *)
Lemma power_on_checked s :
  krel s (KAbs 0 [] [] [] ∅) → is_Some (k_tasks s !! first_task) →
  k_mutex s !! log_mutex = Some (Mutex 0 0 list_init) →
  k_mutex s !! gdt_mutex = Some (Mutex 0 0 list_init) → k_gdt s = boot_gdt →
  map_Forall (λ _ m, mutex_wait_list m = list_init) (k_mutex s) →
  map_Forall (λ _ m, sem_wait_list m = list_init) (k_sem s) →
  map_Forall (λ _ x, Z.of_nat (length (name x)) < TASK_NAME_SIZE) (k_tasks s) → power_on s.
Proof.
  intros Hr Hf Hl Hg Eg Hm Hs Hn. split; try done; [apply Hr..|].
  intros o l. cbn. destruct (k_mutex s !! o) as [m|] eqn:Em.
  - intros [= <-]. by apply (Hm o).
  - intros (x & Ex & ->)%fmap_Some. by apply (Hs o).
Qed.

Lemma boot_power_on : power_on boot_state.
Proof.
  apply power_on_checked; [decide_krel|by eexists|reflexivity..| | |]; decide_vm.
Qed.

Lemma gdt_alloc_desc_first_free_witness :
  ∃ sel, (gdt_alloc_desc;; gdt_alloc_desc) boot_state = KRet sel boot_state ∧ sel = 24.
Proof.
  destruct (gdt_alloc_desc_first_free boot_state) as (sel & Ha & Haa & _).
  - by exists list_init.
  - reflexivity.
  - exists sel. split; [exact Haa|]. vm_compute in Ha. by injection Ha as <-.
Defined.

Lemma task_init_refines_witness :
  ∃ s' j d, task_init first_task 4660 8192 (bytes_of_string "t") boot_state = KRet 0 s' ∧
    krel s' (KAbs 0 [first_task] [] [first_task] ∅) ∧ boot_gdt !! j = Some d ∧ attr d = 0.
Proof.
  destruct (task_init_refines boot_state (KAbs 0 [] [] [] ∅) first_task
    (demo_task TASK_CREATED "" 0 0 0) 4660 8192 (bytes_of_string "t"))
    as (s' & j & d & Hs & Hr & _ & Hd & E & _).
  - decide_krel.
  - reflexivity.
  - intros [| | |o]; apply not_elem_of_nil.
  - by exists list_init.
  - reflexivity.
  - exists 3%nat, null_desc. split; [lia|]. split; reflexivity.
  - vm_compute. reflexivity.
  - exists s', j, d. split; [exact Hs|]. split; [exact Hr|]. split; [exact Hd|exact E].
Defined.

(** The creation of the first task is preempted by that of the idle task. *)
Lemma task_init_race_witness :
  ∃ s1 s3, task_init idle_task 4660 8192 (bytes_of_string "i") boot_state = KRet 0 s1 ∧
    has_tss s1 idle_task ∧
    task_init_from first_task 4096 16384 (bytes_of_string "t") 24 s1 = KRet 0 s3 ∧
    tss_of (k_gdt s3) 24 = Some first_task ∧ ¬ has_tss s3 idle_task.
Proof.
  destruct (task_init_race boot_state 24 boot_state (KAbs 0 [] [] [] ∅) first_task idle_task
    (demo_task TASK_CREATED "" 0 0 0) 4660 8192 (bytes_of_string "i") 4096 16384 (bytes_of_string "t"))
    as (s1 & E1 & Hr1 & Ho1 & Ht1 & Hrest).
  - by exists list_init.
  - reflexivity.
  - vm_compute. reflexivity.
  - lia.
  - decide_krel.
  - reflexivity.
  - by exists list_init.
  - reflexivity.
  - intros [| | |o]; apply not_elem_of_nil.
  - vm_compute. reflexivity.
  - destruct (Hrest s1 _ (demo_task TASK_CREATED "" 0 0 0) Hr1 eq_refl eq_refl)
      as (s3 & E3 & _ & _ & _ & Htss & Hno).
    + rewrite Ho1; [reflexivity|exact first_not_idle].
    + exact first_not_idle.
    + intros [| | |o]; vm_compute; intros Hin; inversion Hin as [|? ? ? Hin']; inversion Hin'.
    + vm_compute. reflexivity.
    + exists s1, s3. split; [exact E1|]. split; [exact Ht1|]. split; [exact E3|].
      split; [exact Htss|exact Hno].
Defined.

Lemma boot_establishes_witness :
  ∃ s', (task_manager_init 4660 8192;; task_first_init) boot_state = KRet tt s' ∧ krel s' boot_abs.
Proof.
  destruct (boot_establishes boot_state 4660 8192 boot_power_on) as (s' & sel & Hs & Hr & _).
  exists s'. split; [exact Hs|exact Hr].
Defined.
End witnesses.
