(* ===== verification/Irq.v ===== *)
(** * Interrupts (kernel/cpu/irq.c) and the timer (kernel/dev/time.c)

    The interrupt descriptor table, the two 8259A controllers, the exception
    handlers, the 8253 timer and the clock interrupt. The addresses of the
    assembly entry points are link-time constants: [Entry] gives them. *)
From S2P Require Import Prelude Klib DList CpuInstr Desc Kernel Queues ListRef Demo Sched Mutex Log.

Definition IDT_TABLE_NR : Z := 128.

Definition PIC0_ICW1 : Z := 32.
Definition PIC0_ICW2 : Z := 33.
Definition PIC0_ICW3 : Z := 33.
Definition PIC0_ICW4 : Z := 33.
Definition PIC0_OCW2 : Z := 32.
Definition PIC0_IMR : Z := 33.
Definition PIC1_ICW1 : Z := 160.
Definition PIC1_ICW2 : Z := 161.
Definition PIC1_ICW3 : Z := 161.
Definition PIC1_ICW4 : Z := 161.
Definition PIC1_OCW2 : Z := 160.
Definition PIC1_IMR : Z := 161.
Definition PIC_ICW1_ICW4 : Z := Z.shiftl 1 0.
Definition PIC_ICW1_ALWAYS_1 : Z := Z.shiftl 1 4.
Definition PIC_ICW4_8086 : Z := Z.shiftl 1 0.
Definition PIC_OCW2_EOI : Z := Z.shiftl 1 5.
Definition IRQ_PIC_START : Z := 32.
Definition IRQ0_TIMER : Z := 32.

Definition PIT_OSC_FREQ : Z := 1193182.
Definition PIT_COMMAND_MODE_PORT : Z := 67.
Definition PIT_CHANNEL0_DATA_PORT : Z := 64.
Definition PIT_CHANNEL : Z := Z.shiftl 0 6.
Definition PIT_LOAD_LOHI : Z := Z.shiftl 3 4.
Definition PIT_MODE3 : Z := Z.shiftl 3 1.

(** ** Entry points and frames *)
Inductive entry : Type :=
| exception_handler_unknown | exception_handler_divider | exception_handler_Debug
| exception_handler_NMI | exception_handler_breakpoint | exception_handler_overflow
| exception_handler_bound_range | exception_handler_invalid_opcode
| exception_handler_device_unavailable | exception_handler_double_fault
| exception_handler_invalid_tss | exception_handler_segment_not_present
| exception_handler_stack_segment_fault | exception_handler_general_protection
| exception_handler_page_fault | exception_handler_fpu_error
| exception_handler_alignment_check | exception_handler_machine_check
| exception_handler_smd_exception | exception_handler_virtual_exception
| exception_handler_time.

Class Entry : Type := entry_addr : entry → Z.

Record exception_frame_t : Type := ExceptionFrame {
  f_gs : Z; f_fs : Z; f_es : Z; f_ds : Z;
  f_edi : Z; f_esi : Z; f_ebp : Z; f_esp : Z; f_ebx : Z; f_edx : Z; f_ecx : Z; f_eax : Z;
  f_num : Z; f_err_code : Z;
  f_eip : Z; f_cs : Z; f_eflags : Z
}.

(** ** Handlers *)
Section handlers.
Context `{Logger}.

Definition dump_core_regs (frame : exception_frame_t) : K unit :=
  log_printf "IRQ: %d, error code: %d." [AInt (s32 (f_num frame)); AInt (s32 (f_err_code frame))];;
  log_printf "CS: %d
DS: %d
ES: %d
SS: %d
FS:%d
GS:%d" [AInt (s32 (f_cs frame)); AInt (s32 (f_ds frame)); AInt (s32 (f_es frame)); AInt (s32 (f_fs frame));
        AInt (s32 (f_gs frame))];;
  log_printf "EAX:0x%x
EBX:0x%x
ECX:0x%x
EDX:0x%x
EDI:0x%x
ESI:0x%x
EBP:0x%x
ESP:0x%x
" [AInt (s32 (f_eax frame)); AInt (s32 (f_ebx frame)); AInt (s32 (f_ecx frame)); AInt (s32 (f_edx frame));
   AInt (s32 (f_edi frame)); AInt (s32 (f_esi frame)); AInt (s32 (f_ebp frame)); AInt (s32 (f_esp frame))];;
  log_printf "EIP:0x%x
EFLAGS:0x%x
" [AInt (s32 (f_eip frame)); AInt (s32 (f_eflags frame))].

Definition do_default_handler (frame : exception_frame_t) (msg : string) : K unit :=
  log_printf "--------------------------------------------------------------------------" [];;
  log_printf "IRQ/Exception happend %s" [AStr (bytes_of_string msg)];;
  dump_core_regs frame;;
  kthrow Halted.

(** The message each [do_handler_*] passes. *)
Definition handler_message (e : entry) : option string :=
  match e with
  | exception_handler_unknown => Some "Unknown exception."%string
  | exception_handler_divider => Some "Divider Error."%string
  | exception_handler_Debug => Some "Debug Exception"%string
  | exception_handler_NMI => Some "NMI Interrupt."%string
  | exception_handler_breakpoint => Some "Breakpoint."%string
  | exception_handler_overflow => Some "Overflow."%string
  | exception_handler_bound_range => Some "BOUND Range Exceeded."%string
  | exception_handler_invalid_opcode => Some "Invalid Opcode."%string
  | exception_handler_device_unavailable => Some "Device Not Available."%string
  | exception_handler_double_fault => Some "Double Fault."%string
  | exception_handler_invalid_tss => Some "Invalid TSS"%string
  | exception_handler_segment_not_present => Some "Segment Not Present."%string
  | exception_handler_stack_segment_fault => Some "Stack-Segment Fault."%string
  | exception_handler_general_protection => Some "general_protection Error."%string
  | exception_handler_page_fault => Some "page_fault Error."%string
  | exception_handler_fpu_error => Some "X87 FPU Floating Point Error."%string
  | exception_handler_alignment_check => Some "Alignment Check."%string
  | exception_handler_machine_check => Some "Machine Check."%string
  | exception_handler_smd_exception => Some "SIMD Floating Point Exception."%string
  | exception_handler_virtual_exception => Some "Virtualization Exception."%string
  | exception_handler_time => None
  end.
End handlers.

(** ** The interrupt descriptor table *)

(** Vector numbers of the processor's exceptions. *)
Definition IRQ0_DE : Z := 0.
Definition IRQ1_DB : Z := 1.
Definition IRQ2_NMI : Z := 2.
Definition IRQ3_BP : Z := 3.
Definition IRQ4_OF : Z := 4.
Definition IRQ5_BR : Z := 5.
Definition IRQ6_UD : Z := 6.
Definition IRQ7_NM : Z := 7.
Definition IRQ8_DF : Z := 8.
Definition IRQ10_TS : Z := 10.
Definition IRQ11_NP : Z := 11.
Definition IRQ12_SS : Z := 12.
Definition IRQ13_GP : Z := 13.
Definition IRQ14_PF : Z := 14.
Definition IRQ16_MF : Z := 16.
Definition IRQ17_AC : Z := 17.
Definition IRQ18_MC : Z := 18.
Definition IRQ19_XM : Z := 19.
Definition IRQ20_VE : Z := 20.

Section idt.
Context `{Entry}.

Definition idt_attr : Z := Z.lor GATE_P_PRESENT (Z.lor GATE_DPL0 GATE_TYPE_IDT).

(** [gate_desc_set (idt_table + i, KERNEL_SELECTOR_CS, handler, ...)] *)
Definition idt_set (i handler : Z) : stm (list gate_desc_t) unit := λ idt,
  if 0 <=? i then
    match idt !! Z.to_nat i with
    | Some d => Ok (tt, <[Z.to_nat i := gate_desc_set d KERNEL_SELECTOR_CS handler idt_attr]> idt)
    | None => Err (Fault i)
    end
  else Err (Fault i).

Definition irq_install (irq_num handler : Z) : stm (list gate_desc_t) Z :=
  if IDT_TABLE_NR <=? irq_num then mret (-1)
  else idt_set irq_num handler;; mret 0.

Fixpoint idt_fill (fuel : nat) (i : Z) : stm (list gate_desc_t) unit :=
  match fuel with
  | O => mret tt
  | S f => idt_set i (entry_addr exception_handler_unknown);; idt_fill f (i + 1)
  end.

(** The installations of [irq_init], in order. *)
Definition exception_vectors : list (Z * entry) :=
  [(IRQ0_DE, exception_handler_divider); (IRQ1_DB, exception_handler_Debug);
   (IRQ2_NMI, exception_handler_NMI); (IRQ3_BP, exception_handler_breakpoint);
   (IRQ4_OF, exception_handler_overflow); (IRQ5_BR, exception_handler_bound_range);
   (IRQ6_UD, exception_handler_invalid_opcode); (IRQ7_NM, exception_handler_device_unavailable);
   (IRQ8_DF, exception_handler_double_fault); (IRQ10_TS, exception_handler_invalid_tss);
   (IRQ11_NP, exception_handler_segment_not_present);
   (IRQ12_SS, exception_handler_stack_segment_fault);
   (IRQ13_GP, exception_handler_general_protection); (IRQ14_PF, exception_handler_page_fault);
   (IRQ16_MF, exception_handler_fpu_error); (IRQ17_AC, exception_handler_alignment_check);
   (IRQ18_MC, exception_handler_machine_check); (IRQ19_XM, exception_handler_smd_exception);
   (IRQ20_VE, exception_handler_virtual_exception)].

Fixpoint install_all (vs : list (Z * entry)) : stm (list gate_desc_t) unit :=
  match vs with
  | [] => mret tt
  | (n, e) :: vs' => irq_install n (entry_addr e);; install_all vs'
  end.
End idt.

(** ** The interrupt controllers *)

(** [1 << n] as the processor computes it: the count is taken modulo 32. *)
Definition shl1 (n : Z) : Z := s32 (Z.shiftl 1 (n mod 32)).

Section pic.
Context `{Device}.

Definition init_pic : stm cpu_t unit :=
  outb PIC0_ICW1 (Z.lor PIC_ICW1_ALWAYS_1 PIC_ICW1_ICW4);;
  outb PIC0_ICW2 IRQ_PIC_START;;
  outb PIC0_ICW3 (Z.shiftl 1 2);;
  outb PIC0_ICW4 PIC_ICW4_8086;;
  outb PIC1_ICW1 (Z.lor PIC_ICW1_ICW4 PIC_ICW1_ALWAYS_1);;
  outb PIC1_ICW2 (IRQ_PIC_START + 8);;
  outb PIC1_ICW3 2;;
  outb PIC1_ICW4 PIC_ICW4_8086;;
  outb PIC0_IMR (Z.land 255 (Z.lnot (Z.shiftl 1 2)));;
  outb PIC1_IMR 255.

Definition irq_enable (irq_num : Z) : stm cpu_t unit :=
  if irq_num <? IRQ_PIC_START then mret tt else
  let irq_num := irq_num - IRQ_PIC_START in
  if irq_num <? 8 then
    v ← inb PIC0_IMR;
    let mask := u8 (Z.land v (Z.lnot (shl1 irq_num))) in
    outb PIC0_IMR mask
  else
    let irq_num := irq_num - 8 in
    v ← inb PIC1_IMR;
    let mask := u8 (Z.land v (Z.lnot (shl1 irq_num))) in
    outb PIC0_IMR mask.

Definition irq_disable (irq_num : Z) : stm cpu_t unit :=
  if irq_num <? IRQ_PIC_START then mret tt else
  let irq_num := irq_num - IRQ_PIC_START in
  if irq_num <? 8 then
    v ← inb PIC0_IMR;
    let mask := u8 (Z.lor v (Z.lnot (shl1 irq_num))) in
    outb PIC0_IMR mask
  else
    let irq_num := irq_num - IRQ_PIC_START in
    v ← inb PIC1_IMR;
    let mask := u8 (Z.lor v (Z.lnot (shl1 irq_num))) in
    outb PIC0_IMR mask.

Definition pic_send_eoi (irq_num : Z) : stm cpu_t unit :=
  let irq_num := irq_num - IRQ_PIC_START in
  (if 8 <=? irq_num then outb PIC1_OCW2 PIC_OCW2_EOI else mret tt);;
  outb PIC0_OCW2 PIC_OCW2_EOI.
End pic.

(** ** Initialisation and the timer *)
Section timer.
Context `{Layout, Logger, Device, Entry}.

Definition irq_init : K unit :=
  with_idt (idt_fill (Z.to_nat IDT_TABLE_NR) 0);;
  with_idt (install_all exception_vectors);;
  with_cpu (lidt idt_table (IDT_TABLE_NR * 8));;
  with_cpu init_pic.

Definition do_handler_time (frame : exception_frame_t) : K unit :=
  kmodify (λ s, set_sys_tick (u32 (k_sys_tick s + 1)) s);;
  with_cpu (pic_send_eoi IRQ0_TIMER);;
  task_time_tick.

(** The handler behind each entry point. *)
Definition do_handler (e : entry) (frame : exception_frame_t) : K unit :=
  match handler_message e with
  | Some msg => do_default_handler frame msg
  | None => do_handler_time frame
  end.

(** [PIT_OSC_FREQ * OS_TICKS_MS / 1000.0], converted to [uint32_t]. *)
Definition reload_count : Z := PIT_OSC_FREQ * OS_TICKS_MS / 1000.

Definition init_pit : K unit :=
  with_cpu (outb PIT_COMMAND_MODE_PORT (Z.lor PIT_CHANNEL (Z.lor PIT_LOAD_LOHI PIT_MODE3)));;
  with_cpu (outb PIT_CHANNEL0_DATA_PORT (Z.land reload_count 255));;
  with_cpu (outb PIT_CHANNEL0_DATA_PORT (Z.land (Z.shiftr reload_count 8) 255));;
  with_idt (irq_install IRQ0_TIMER (entry_addr exception_handler_time));;
  with_cpu (irq_enable IRQ0_TIMER).

Definition time_init : K unit :=
  kmodify (set_sys_tick 0);;
  init_pit.
End timer.

(** ** Lemmas *)
Section lemmas.
Context `{HEntry : Entry}.
Implicit Types (g : list gate_desc_t).

(** The gate stored for a handler address. *)
Definition idt_gate (handler : Z) : gate_desc_t :=
  gate_desc_set (GateDesc 0 0 0 0) KERNEL_SELECTOR_CS handler idt_attr.

Lemma gate_offset_id handler : is_u32 handler → gate_offset (idt_gate handler) = handler.
Proof. apply split16. Qed.

Lemma idt_set_ok g i handler :
  (i < length g)%nat → idt_set (Z.of_nat i) handler g = Ok (tt, <[i := idt_gate handler]> g).
Proof.
  intros Hi. unfold idt_set. replace (0 <=? Z.of_nat i) with true by lia. rewrite Nat2Z.id.
  by destruct (lookup_lt_is_Some_2 g i Hi) as [d ->].
Qed.

Lemma irq_install_ok g i handler :
  (i < length g)%nat → length g = 128%nat →
  irq_install (Z.of_nat i) handler g = Ok (0, <[i := idt_gate handler]> g).
Proof.
  intros Hi Hl. unfold irq_install, IDT_TABLE_NR.
  replace (128 <=? Z.of_nat i) with false by lia. by stm_step (idt_set_ok g i handler Hi).
Qed.

Lemma idt_fill_ok f i g :
  (i + f = length g)%nat →
  idt_fill f (Z.of_nat i) g =
    Ok (tt, take i g ++ replicate f (idt_gate (entry_addr exception_handler_unknown))).
Proof.
  revert i g. induction f as [|f IH]; intros i g Hl; cbn [idt_fill].
  - by rewrite app_nil_r, take_ge by lia.
  - stm_step (idt_set_ok g i (entry_addr exception_handler_unknown) ltac:(lia)).
    replace (Z.of_nat i + 1) with (Z.of_nat (S i)) by lia.
    rewrite IH by (rewrite length_insert; lia). do 2 f_equal.
    rewrite (take_S_r _ i (idt_gate (entry_addr exception_handler_unknown)))
      by (by rewrite list_lookup_insert_eq by lia).
    rewrite take_insert_ge, <-app_assoc by lia. done.
Qed.

(** The entry the vectors of a list lead to: the last installation counts. *)
Definition vector_entry (vs : list (Z * entry)) (n : Z) (d : entry) : entry :=
  foldl (λ acc x, if x.1 =? n then x.2 else acc) d vs.

Lemma exception_vectors_range : Forall (λ x, 0 ≤ x.1 < 128) exception_vectors.
Proof. repeat (apply Forall_cons; split; [by split|]). constructor. Qed.

Lemma install_all_ok vs : ∀ g,
  length g = 128%nat → Forall (λ x, 0 ≤ x.1 < 128) vs →
  ∃ g', install_all vs g = Ok (tt, g') ∧ length g' = 128%nat ∧
    ∀ n d, g !! n = Some (idt_gate (entry_addr d)) →
      g' !! n = Some (idt_gate (entry_addr (vector_entry vs (Z.of_nat n) d))).
Proof.
  induction vs as [|[m e] vs IH]; intros g Hl Hv; cbn [install_all].
  - by exists g.
  - apply Forall_cons in Hv as [Hm Hv]. cbn in Hm.
    replace m with (Z.of_nat (Z.to_nat m)) by lia.
    stm_step (irq_install_ok g (Z.to_nat m) (entry_addr e) ltac:(lia) Hl).
    destruct (IH (<[Z.to_nat m := idt_gate (entry_addr e)]> g)) as (g' & -> & Hl' & Hg');
      [by rewrite length_insert|done|].
    exists g'. split; [done|]. split; [done|]. intros n d Hn.
    unfold vector_entry. cbn [foldl fst snd].
    destruct (Z.eqb_spec (Z.of_nat (Z.to_nat m)) (Z.of_nat n)) as [E|E].
    + apply Hg'. replace n with (Z.to_nat m) by lia. rewrite list_lookup_insert_eq by lia. done.
    + apply Hg'. rewrite list_lookup_insert_ne by lia. done.
Qed.

(** *** Mask registers *)
Lemma shl1_bit n i : 0 ≤ n < 31 → Z.testbit (shl1 n) i = bool_decide (i = n).
Proof.
  intros Hn. unfold shl1. rewrite Z.mod_small by lia.
  rewrite s32_id; [apply testbit_one_shift; lia|].
  rewrite Z.shiftl_1_l. split; [pose proof (Z.pow_nonneg 2 n); lia|].
  change 2147483648 with (2 ^ 31). apply Z.pow_lt_mono_r; lia.
Qed.

Lemma mask_clear_bit v n i :
  0 ≤ n < 8 → 0 ≤ i < 8 →
  Z.testbit (u8 (Z.land (u8 v) (Z.lnot (shl1 n)))) i = Z.testbit v i && negb (bool_decide (i = n)).
Proof.
  intros Hn Hi. unfold u8. rewrite Z.mod_pow2_bits_low, Z.land_spec, Z.lnot_spec by lia.
  by rewrite shl1_bit, Z.mod_pow2_bits_low by lia.
Qed.

Lemma mask_or_bit v n i :
  0 ≤ n < 8 → 0 ≤ i < 8 →
  Z.testbit (u8 (Z.lor (u8 v) (Z.lnot (shl1 n)))) i = Z.testbit v i || negb (bool_decide (i = n)).
Proof.
  intros Hn Hi. unfold u8. rewrite Z.mod_pow2_bits_low, Z.lor_spec, Z.lnot_spec by lia.
  by rewrite shl1_bit, Z.mod_pow2_bits_low by lia.
Qed.
End lemmas.

(** *** The exception report *)
Section report.
Context `{HLayout : Layout, HDevice : Device} (polls depth : nat).
Context (Hready : uart_ready polls).
Implicit Types (s : kstate).

(** A log line whose text fits, and what follows it. *)
Lemma log_line fmt args s {B} (f : K B) :
  log_free s →
  (∃ out, format (bytes_of_string fmt) args = Some out ∧ Z.of_nat (length out) ≤ 127) →
  ∃ c, (log_at polls (S depth) fmt args;; f) s = f (set_cpu c s).
Proof.
  intros Hl (out & Hf & Hlen).
  destruct (log_at_ok polls depth fmt args out s Hready Hl Hf Hlen) as (ev & He & _).
  eexists. by kstep He.
Qed.

Lemma message_fits e msg :
  handler_message e = Some msg →
  ∃ out, format (bytes_of_string "IRQ/Exception happend %s") [AStr (bytes_of_string msg)] =
    Some out ∧ Z.of_nat (length out) ≤ 127.
Proof.
  destruct e; intros [= <-]; eexists; (split; [vm_compute; reflexivity|vm_compute; discriminate]).
Qed.

Lemma number_line_fits a b :
  ∃ out, format (bytes_of_string "IRQ: %d, error code: %d.") [AInt a; AInt b] = Some out ∧
    Z.of_nat (length out) ≤ 127.
Proof.
  eexists. split; [lazy -[itoa_text app]; reflexivity|].
  repeat (rewrite length_app || cbn [length]).
  pose proof (itoa_text_length a 10). pose proof (itoa_text_length b 10). lia.
Qed.

Lemma dump_line_short a b c d e :
  format (bytes_of_string "CS: %d
DS: %d
ES: %d
SS: %d
FS:%d
GS:%d") [AInt a; AInt b; AInt c; AInt d; AInt e] = None.
Proof. lazy -[itoa_text app]. reflexivity. Qed.

Lemma default_handler_fails frame e msg s :
  log_free s → handler_message e = Some msg →
  @do_default_handler (log_at polls (S depth)) frame msg s = KErr VaArg.
Proof.
  intros Hl Hm. unfold do_default_handler, log_printf.
  destruct (log_line "--------------------------------------------------------------------------"
    [] s (log_at polls (S depth) "IRQ/Exception happend %s" [AStr (bytes_of_string msg)];;
      @dump_core_regs (log_at polls (S depth)) frame;; kthrow Halted : K unit) Hl) as [c1 ->].
  { eexists. split; [vm_compute; reflexivity|vm_compute; discriminate]. }
  destruct (log_line "IRQ/Exception happend %s" [AStr (bytes_of_string msg)] (set_cpu c1 s)
    (@dump_core_regs (log_at polls (S depth)) frame;; kthrow Halted : K unit) Hl
    (message_fits e msg Hm)) as [c2 ->].
  apply kbind_err. unfold dump_core_regs, log_printf.
  match goal with |- (_ ≫= λ _, ?f) _ = _ =>
    destruct (log_line "IRQ: %d, error code: %d." [AInt (s32 (f_num frame)); AInt (s32 (f_err_code frame))]
      (set_cpu c2 (set_cpu c1 s)) f Hl (number_line_fits _ _)) as [c3 ->] end.
  apply kbind_err. cbn [log_at]. by rewrite dump_line_short.
Qed.
End report.

(** ** Properties of interrupts *)
Section properties.
Context `{HLayout : Layout, HDevice : Device, HEntry : Entry}.
Implicit Types (s : kstate).

(** After [irq_init]'s table writes every one of the 128 vectors has a
    present 32-bit interrupt gate in the kernel code segment: the 19 installed
    vectors lead to their own entry points, all others to the entry point for
    unknown exceptions. *)
Theorem irq_init_vectors g :
  length g = 128%nat → (∀ e, is_u32 (entry_addr e)) →
  ∃ g', (idt_fill (Z.to_nat IDT_TABLE_NR) 0;; install_all exception_vectors) g = Ok (tt, g') ∧
    length g' = 128%nat ∧
    ∀ n, (n < 128)%nat → ∃ d, g' !! n = Some d ∧
      gate_offset d = entry_addr (vector_entry exception_vectors (Z.of_nat n)
                                    exception_handler_unknown) ∧
      selector d = KERNEL_SELECTOR_CS ∧ gate_attr d = 36352.
Proof.
  intros Hl Hu. rewrite (stm_bind_ok _ _ _ _ _ (idt_fill_ok (Z.to_nat IDT_TABLE_NR) 0 g
    ltac:(rewrite Hl; done))).
  destruct (install_all_ok exception_vectors
    (replicate 128 (idt_gate (entry_addr exception_handler_unknown)))) as (g' & Hg & Hl' & Hn).
  - done.
  - apply exception_vectors_range.
  - exists g'. split; [exact Hg|]. split; [done|]. intros n Hlt.
    eexists. split; [apply Hn, lookup_replicate_2; lia|].
    split; [apply gate_offset_id, Hu|]. split; reflexivity.
Qed.

(** What the mask operations do, for a mask register that reads back [v].
    Enabling a line of the master clears its bit and keeps the others. Disabling
    one keeps its bit and sets every other: the line that was to be masked stays
    as it was and all the others are masked. Enabling a line of the slave writes
    the slave's mask into the master's register and leaves the slave's alone;
    disabling one masks every line of the master. *)
Theorem irq_mask_effects c n :
  32 ≤ n < 48 →
  let v := dev_read (c_io c) (if n <? 40 then PIC0_IMR else PIC1_IMR) in
  let bit m i := Z.testbit m i in
  (∃ m ev, irq_enable n c = Ok (tt, add_io (PortOut PIC0_IMR m :: ev) c) ∧
     Forall (λ e, match e with PortOut _ _ => False | _ => True end) ev ∧
     ∀ i, 0 ≤ i < 8 → bit m i = bit v i && negb (bool_decide (i = (n - 32) mod 8))) ∧
  (∃ m ev, irq_disable n c = Ok (tt, add_io (PortOut PIC0_IMR m :: ev) c) ∧
     Forall (λ e, match e with PortOut _ _ => False | _ => True end) ev ∧
     ∀ i, 0 ≤ i < 8 → bit m i = (bit v i || negb (bool_decide (n < 40 ∧ i = n - 32)))).
Proof.
  intros Hn v bit. subst bit. cbn beta.
  assert (Hu : ∀ z, u8 (u8 z) = u8 z) by (intros z; unfold u8; by rewrite Z.mod_mod).
  assert (Hsplit : n < 40 ∨ 40 ≤ n) by lia. unfold irq_enable, irq_disable, IRQ_PIC_START.
  replace (n <? 32) with false by lia. cbv zeta.
  destruct Hsplit as [Hm|Hs].
  - replace (n - 32 <? 8) with true by lia. unfold v. replace (n <? 40) with true by lia.
    split; (eexists _, [PortIn PIC0_IMR _]; split; [reflexivity|]); split;
      try (by repeat constructor); intros i Hi; rewrite Hu.
    + rewrite mask_clear_bit by lia. by rewrite Z.mod_small by lia.
    + rewrite mask_or_bit by lia. do 2 f_equal. apply bool_decide_ext. lia.
  - replace (n - 32 <? 8) with false by lia. unfold v. replace (n <? 40) with false by lia.
    split; (eexists _, [PortIn PIC1_IMR _]; split; [reflexivity|]); split;
      try (by repeat constructor); intros i Hi; rewrite Hu.
    + rewrite mask_clear_bit by lia.
      by replace ((n - 32) mod 8) with (n - 32 - 8)
        by (apply (Z.mod_unique _ _ 1); lia).
    + unfold u8 at 1. rewrite Z.mod_pow2_bits_low, Z.lor_spec, Z.lnot_spec by lia.
      unfold shl1. replace ((n - 32 - 32) mod 32) with (n - 32)
        by (apply (Z.mod_unique _ _ (-1)); lia).
      replace (Z.testbit (s32 (Z.shiftl 1 (n - 32))) i) with false.
      * rewrite (bool_decide_false (n < 40 ∧ _)) by lia. by rewrite !orb_true_r.
      * rewrite s32_id; [rewrite testbit_one_shift by lia; by rewrite bool_decide_false by lia|].
        rewrite Z.shiftl_1_l. split; [pose proof (Z.pow_nonneg 2 (n - 32)); lia|].
        change 2147483648 with (2 ^ 31). apply Z.pow_lt_mono_r; lia.
Qed.

(** An exception handler never finishes its report: with the real logger and
    a ready port, its first two lines and the interrupt number are printed, and
    the register dump then reads a sixth argument where only five are passed. *)
Theorem exception_report_misses_argument polls depth e frame s msg :
  uart_ready polls → log_free s → handler_message e = Some msg →
  @do_handler HLayout (log_at polls (S depth)) e frame s = KErr VaArg.
Proof.
  intros Hu Hl Hm. unfold do_handler. rewrite Hm. by eapply default_handler_fails.
Qed.
End properties.

(** *** Witnesses *)
Section witnesses.
#[local] Existing Instance demo_layout.
#[local] Existing Instance demo_uart.

Definition demo_entry : Entry := λ e,
  match e with exception_handler_divider => 65536 | exception_handler_time => 65552 | _ => 65568 end.

Definition empty_idt : list gate_desc_t := replicate 128 (GateDesc 0 0 0 0).
Definition demo_frame : exception_frame_t := ExceptionFrame 0 0 0 0 0 0 0 0 0 0 0 0 0 0 0 0 0.

Lemma irq_init_vectors_witness :
  ∃ g' d, (@idt_fill demo_entry (Z.to_nat IDT_TABLE_NR) 0;;
      @install_all demo_entry exception_vectors) empty_idt = Ok (tt, g') ∧
    g' !! 0%nat = Some d ∧ gate_offset d = 65536.
Proof.
  destruct (irq_init_vectors (HEntry := demo_entry) empty_idt) as (g' & Hg & _ & Hn).
  - reflexivity.
  - intros []; by apply (bool_decide_unpack _).
  - destruct (Hn 0%nat) as (d & Hd & Ho & _); [lia|]. exists g', d.
    split; [exact Hg|]. split; [exact Hd|exact Ho].
Defined.

Lemma irq_mask_effects_witness :
  ∃ m ev, irq_disable 33 demo_cpu = Ok (tt, add_io (PortOut PIC0_IMR m :: ev) demo_cpu) ∧
    Z.testbit m 1 = false ∧ Z.testbit m 0 = true.
Proof.
  destruct (irq_mask_effects demo_cpu 33) as [_ (m & ev & He & _ & Hb)]; [lia|].
  exists m, ev. split; [exact He|]. split; [exact (Hb 1 ltac:(lia))|exact (Hb 0 ltac:(lia))].
Defined.

Lemma exception_report_misses_argument_witness :
  @do_handler demo_layout (log_at 2 1) exception_handler_divider demo_frame demo_state = KErr VaArg.
Proof.
  apply (exception_report_misses_argument 2 0 exception_handler_divider demo_frame demo_state
    "Divider Error.").
  - exact demo_uart_ready.
  - exists list_init. split; reflexivity.
  - reflexivity.
Defined.
End witnesses.
