(* ===== verification/Events.v ===== *)
(** * The abstract kernel

    What a step of the running system does to the queues, to the time slices and to
    the mutexes and semaphores, as an executable specification: an event moves
    tasks between queues, charges the running task, counts sleepers down and
    changes one object. The lemmas are about events alone: waiting queues are
    served in order, the tasks ahead of a ready task have a budget of clock
    interrupts that every interrupt reduces, interrupts use up the countdowns of
    sleepers and the time slices, and a semaphore counts its calls. *)
From S2P Require Import Prelude Klib DList CpuInstr Desc Kernel Queues ListRef Sched Mutex Tasks.

Section events.
Context `{Layout}.
Implicit Types (a : kabs) (t u o : Z) (f : Z → Z).

(** ** Events *)
Inductive event : Type :=
| EStay
| EYield
| ESleep (ms : Z)
| EWait (o : Z)
| EHandoff (o : Z)
| ECreate (t : Z)
| EWake (tk : Z → Z)
| ETick (tk : Z → Z)
| EExpire
| EExpireWake (tk : Z → Z)
| ETake (o : Z)
| EPut (o : Z)
| ELock (m : Z)
| EAgain (m : Z)
| ENest (m : Z)
| ERelease (m : Z).

(** What an event does to the queues; [tk] is the countdown of each sleeper. *)
Definition do_event (e : event) (a : kabs) : kabs :=
  match e with
  | EStay | ETake _ | EPut _ | ELock _ | EAgain _ | ENest _ | ERelease _ => a
  | EYield => spec_yield a
  | ESleep ms => spec_sleep ms a
  | EWait o => spec_dispatch (spec_wait o (a_curr a) a)
  | EHandoff o =>
      match queue_at a (PWait o) with
      | [] => a
      | t :: q => spec_dispatch (spec_handoff o t q a)
      end
  | ECreate t => spec_create t a
  | EWake tk | ETick tk => spec_dispatch (spec_wake tk a)
  | EExpire => spec_dispatch (spec_expire a)
  | EExpireWake tk => spec_dispatch (spec_wake tk (spec_expire a))
  end.

(** What it does to the slice of each task, [f] before the event. *)
Definition charge (e : event) (a : kabs) (f : Z → Z) (t : Z) : Z :=
  match e with
  | ECreate u => if decide (t = u) then TASK_TIME_SLICE_DEFAULT else f t
  | ETick _ => if decide (t = a_curr a) then s32 (f t - 1) else f t
  | EExpire | EExpireWake _ => if decide (t = a_curr a) then TASK_TIME_SLICE_DEFAULT else f t
  | _ => f t
  end.

(** What it does to the countdown of each sleeper, [f] before the event. *)
Definition doze (e : event) (a : kabs) (f : Z → Z) (t : Z) : Z :=
  match e with
  | ESleep ms => if decide (t = a_curr a) then ms_to_ticks ms else f t
  | EWake _ | ETick _ | EExpireWake _ => s32 (f t - 1)
  | _ => f t
  end.

(** An event that wakes tasks goes by their countdowns. *)
Definition counts (e : event) (a : kabs) (f : Z → Z) : Prop :=
  match e with
  | EWake tk | ETick tk | EExpireWake tk => ∀ t, t ∈ a_sleep a → tk t = f t
  | _ => True
  end.

(** The mutexes, each with its owner and its count, and the values of the
    semaphores. *)
Record objs : Type := Objs {
  ob_mutex : gmap Z (Z * Z);
  ob_sem : gmap Z Z
}.

Definition set_mutex (m : Z) (x : Z * Z) (b : objs) : objs :=
  Objs (<[m := x]> (ob_mutex b)) (ob_sem b).
Definition set_sem (o v : Z) (b : objs) : objs :=
  Objs (ob_mutex b) (<[o := v]> (ob_sem b)).

Definition count_of (b : objs) (m : Z) : Z := match ob_mutex b !! m with Some x => x.2 | None => 0 end.
Definition value_of (b : objs) (o : Z) : Z := default 0 (ob_sem b !! o).

(** What an event does to the objects. *)
Definition do_objs (e : event) (a : kabs) (b : objs) : objs :=
  match e with
  | ETake o => set_sem o (value_of b o - 1) b
  | EPut o => set_sem o (s32 (value_of b o + 1)) b
  | ELock m => set_mutex m (a_curr a, 1) b
  | EAgain m => set_mutex m (a_curr a, count_of b m + 1) b
  | ENest m => set_mutex m (a_curr a, count_of b m - 1) b
  | ERelease m => set_mutex m (0, 0) b
  | EHandoff o =>
      match queue_at a (PWait o), ob_mutex b !! o with
      | t :: _, Some _ => set_mutex o (t, 1) b
      | _, _ => b
      end
  | _ => b
  end.

Definition is_tick (e : event) : bool :=
  match e with ETick _ | EExpire | EExpireWake _ => true | _ => false end.

(** When it can happen. *)
Definition enabled (e : event) (a : kabs) (f : Z → Z) (b : objs) : Prop :=
  match e with
  | ESleep ms => 0 < ms < 2 ^ 31
  | ECreate t => t ≠ idle_task ∧ unqueued t a
  | ETick _ => s32 (f (a_curr a) - 1) ≠ 0
  | EExpire | EExpireWake _ => s32 (f (a_curr a) - 1) = 0
  | EWait o =>
      match ob_mutex b !! o with
      | Some x => x.2 ≠ 0 ∧ x.1 ≠ a_curr a
      | None => ∃ v, ob_sem b !! o = Some v ∧ v ≤ 0
      end
  | EHandoff o =>
      queue_at a (PWait o) ≠ [] ∧
      match ob_mutex b !! o with
      | Some x => x = (a_curr a, 1)
      | None => is_Some (ob_sem b !! o)
      end
  | ETake o => ob_mutex b !! o = None ∧ ∃ v, ob_sem b !! o = Some v ∧ 0 < v
  | EPut o => ob_mutex b !! o = None ∧ is_Some (ob_sem b !! o) ∧ queue_at a (PWait o) = []
  | ELock m => ∃ w, ob_mutex b !! m = Some (w, 0)
  | EAgain m => ∃ n, ob_mutex b !! m = Some (a_curr a, n) ∧ 0 < n
  | ENest m => ∃ n, ob_mutex b !! m = Some (a_curr a, n) ∧ 1 < n
  | ERelease m => ob_mutex b !! m = Some (a_curr a, 1) ∧ queue_at a (PWait m) = []
  | _ => True
  end.

Definition grow (e : event) (C : gset Z) : gset Z :=
  match e with ECreate t => {[ t ]} ∪ C | _ => C end.

(** Clock interrupts the tasks of a queue can still use up. *)
Definition budget (f : Z → Z) (q : list Z) : Z := foldr (λ u n, f u + n) 0 q.

Lemma budget_ext f g q : (∀ u, u ∈ q → f u = g u) → budget f q = budget g q.
Proof.
  induction q as [|u q IH]; intros E; [done|]. cbn. fold (budget f q) (budget g q).
  rewrite IH, E; [done|left|]. intros v Hv. apply E. by right.
Qed.

Lemma budget_bound f q n :
  (∀ u, u ∈ q → 0 ≤ f u ≤ n) → 0 ≤ budget f q ≤ Z.of_nat (length q) * n.
Proof.
  induction q as [|u q IH]; intros E; cbn [budget foldr length]; [lia|].
  assert (0 ≤ f u ≤ n) by (apply E; left). fold (budget f q).
  assert (0 ≤ budget f q ≤ Z.of_nat (length q) * n) by (apply IH; intros v Hv; apply E; by right).
  lia.
Qed.

(** ** The ready queue *)

(** An event appends tasks to the ready queue and may take its head away. *)
Definition drift (l l' : list Z) (c : Z) : Prop :=
  (∃ L, l' = l ++ L) ∨ (∃ q L, l = c :: q ∧ l' = q ++ L).

Lemma drift_app l l' (L : list Z) c : drift l l' c → drift l (l' ++ L) c.
Proof.
  intros [[L0 ->]|(q & L0 & -> & ->)]; [left|right]; rewrite <-app_assoc; eauto.
Qed.

Section ready.
Context (a : kabs) (Hnext : a_curr a = next_task a) (Hok : kabs_ok a).

Lemma ready_head : a_ready a = [] ∨ ∃ q, a_ready a = a_curr a :: q ∧ a_curr a ∉ q.
Proof.
  rewrite Hnext. unfold next_task. pose proof (ao_nodup _ Hok PReady) as Hnd. cbn in Hnd.
  destruct (a_ready a) as [|c q]; [by left|right]. exists q. split; [done|].
  by apply NoDup_cons in Hnd as [].
Qed.

Lemma drift_block : drift (a_ready a) (a_ready (spec_block (a_curr a) a)) (a_curr a).
Proof.
  cbn. pose proof (ao_nodup _ Hok PReady) as Hnd. cbn in Hnd.
  destruct ready_head as [->|(q & E & Hq)]; [left; by exists []|right].
  rewrite E in *. exists q, []. split; [done|]. by rewrite app_nil_r, filter_not_head.
Qed.

Lemma drift_rotate : a_curr a ≠ idle_task →
  ∃ q, a_ready a = a_curr a :: q ∧ a_ready (spec_rotate a) = q ++ [a_curr a].
Proof.
  intros Hc. pose proof (ao_nodup _ Hok PReady) as Hnd. cbn in Hnd.
  destruct ready_head as [E|(q & E & Hq)].
  - destruct Hc. rewrite Hnext. unfold next_task. by rewrite E.
  - exists q. split; [done|]. unfold spec_rotate, spec_ready. cbn. rewrite E in *.
    by rewrite filter_not_head.
Qed.

Lemma drift_expire : drift (a_ready a) (a_ready (spec_expire a)) (a_curr a).
Proof.
  unfold spec_expire. case_decide as E; [left; exists []; by rewrite app_nil_r|right].
  destruct (drift_rotate E) as (q & E1 & E2). eauto.
Qed.

Lemma drift_event e : drift (a_ready a) (a_ready (do_event e a)) (a_curr a).
Proof.
  assert (Hsame : drift (a_ready a) (a_ready a) (a_curr a)) by (left; exists []; by rewrite app_nil_r).
  destruct e as [| |ms|o|o|t|tk|tk| |tk|o|o|m|m|m|m]; cbn [do_event].
  - done.
  - unfold spec_yield. case_bool_decide as Hl; [|done]. cbn [spec_dispatch set_curr a_ready].
    destruct ready_head as [E|(q & E & Hq)]; [rewrite E in Hl; cbn in Hl; lia|].
    right. exists q, [a_curr a]. split; [done|]. unfold spec_rotate, spec_ready. cbn.
    pose proof (ao_nodup _ Hok PReady) as Hnd. cbn in Hnd. rewrite E in *.
    by rewrite filter_not_head.
  - unfold spec_sleep. case_match; apply drift_block.
  - apply drift_block.
  - destruct (queue_at a (PWait o)) as [|t q]; [done|]. by apply (drift_app _ _ [t]).
  - unfold spec_create. cbn. case_decide; [done|]. by apply (drift_app _ _ [t]).
  - by apply drift_app.
  - by apply drift_app.
  - apply drift_expire.
  - apply drift_app, drift_expire.
  - done.
  - done.
  - done.
  - done.
  - done.
  - done.
Qed.

(** Slices of the tasks behind the head do not change. *)
Lemma charge_behind e f b q u :
  enabled e a f b → a_ready a = a_curr a :: q → u ∈ q → charge e a f u = f u.
Proof.
  intros He E Hu.
  assert (u ≠ a_curr a) as Hne.
  { intros ->. destruct ready_head as [E'|(q' & E' & Hq)]; rewrite E in E'; [done|].
    injection E' as ->. done. }
  destruct e as [| |ms|o|o|t|tk|tk| |tk|o|o|m|m|m|m]; cbn; try done; try by rewrite decide_False.
  destruct He as [_ Hf]. rewrite decide_False; [done|]. intros ->.
  apply (Hf PReady). cbn. rewrite E. by right.
Qed.

(** One event, seen by a ready task that is not the running one: it stays ready,
    nobody gets ahead of it, and what is ahead of it loses one interrupt when the
    event is one. *)
Lemma event_advances e f b q1 t q2 :
  enabled e a f b → (∀ u, u ∈ a_ready a → 1 ≤ f u ≤ TASK_TIME_SLICE_DEFAULT) →
  a_ready a = q1 ++ t :: q2 → a_curr a ≠ t →
  ∃ q1' q2', a_ready (do_event e a) = q1' ++ t :: q2' ∧ q1' ⊆ q1 ∧
    budget (charge e a f) q1' + Z.b2z (is_tick e) ≤ budget f q1.
Proof.
  intros He Hf Eq Hc.
  destruct ready_head as [E|(q & E & Hq)]; [by rewrite E in Eq; destruct q1|].
  destruct q1 as [|c p]; rewrite E in Eq; injection Eq; [intros _ <-; done|intros Ep <-].
  assert (Hcc : 1 ≤ f (a_curr a) ≤ TASK_TIME_SLICE_DEFAULT) by (apply Hf; rewrite E; left).
  assert (Hb : budget (charge e a f) p = budget f p).
  { apply budget_ext. intros u Hu. apply (charge_behind e f b q u He E). rewrite Ep.
    apply elem_of_app. by left. }
  cbn [budget foldr]. fold (budget f p).
  destruct (drift_event e) as [[L EL]|(q' & L & E' & EL)]; rewrite E in *.
  - exists (a_curr a :: p), (q2 ++ L). split; [rewrite EL, Ep; cbn; by rewrite <-app_assoc|].
    split; [done|].
    cbn [budget foldr]. fold (budget (charge e a f) p). rewrite Hb.
    enough (charge e a f (a_curr a) + Z.b2z (is_tick e) ≤ f (a_curr a)) by lia.
    assert (Hexp : ∀ r, a_ready (spec_expire a) ++ r ≠ (a_curr a :: q) ++ L).
    { intros r. unfold spec_expire. case_decide as Ei.
      - exfalso. apply (ao_idle _ Hok PReady); [done|]. cbn. rewrite E, <-Ei. left.
      - destruct (drift_rotate Ei) as (q0 & E1 & ->). rewrite E in E1. injection E1 as <-.
        intros Er. destruct q as [|c q]; cbn in Er; [|injection Er as -> _; apply Hq; left].
        by destruct p. }
    destruct e as [| |ms|o|o|u|tk|tk| |tk|o|o|m|m|m|m]; cbn in *; try lia.
    + destruct (decide (a_curr a = u)) as [Eu|]; [|lia]. destruct He as [_ Hu]. exfalso. apply (Hu PReady).
      cbn. rewrite E, Eu. left.
    + rewrite decide_True by done. unfold TASK_TIME_SLICE_DEFAULT in *.
      rewrite s32_id by (unfold is_s32; lia). lia.
    + destruct (Hexp []). by rewrite app_nil_r.
    + by edestruct Hexp.
  - injection E' as <-. exists p, (q2 ++ L). split; [rewrite EL, Ep; by rewrite <-app_assoc|].
    split; [by intros u Hu; right|]. rewrite Hb. destruct (is_tick e); cbn; lia.
Qed.
End ready.

(** Slices stay between 1 and the default. *)
Definition slices_ok (C : gset Z) f : Prop :=
  ∀ t, t ∈ C → 1 ≤ f t ≤ TASK_TIME_SLICE_DEFAULT.

Lemma charge_ok e a f b C :
  enabled e a f b → slices_ok C f → slices_ok (grow e C) (charge e a f).
Proof.
  unfold slices_ok, TASK_TIME_SLICE_DEFAULT. intros He Hf t Ht.
  destruct e as [| |ms|o|o|u|tk|tk| |tk|o|o|m|m|m|m]; cbn in *; try by apply Hf.
  - unfold TASK_TIME_SLICE_DEFAULT. case_decide as E; [lia|]. apply Hf.
    by apply elem_of_union in Ht as [?%elem_of_singleton|].
  - pose proof (Hf t Ht). case_decide as E; [|lia]. rewrite E in *.
    rewrite s32_id in * by (unfold is_s32; lia). lia.
  - unfold TASK_TIME_SLICE_DEFAULT. pose proof (Hf t Ht). case_decide; lia.
  - unfold TASK_TIME_SLICE_DEFAULT. pose proof (Hf t Ht). case_decide; lia.
Qed.

(** ** Sleepers *)

(** Countdowns stay positive. *)
Definition dozing a f : Prop := ∀ t, t ∈ a_sleep a → 1 ≤ f t < 2 ^ 31.

Lemma ms_to_ticks_range ms : 0 < ms < 2 ^ 31 → 1 ≤ ms_to_ticks ms < 2 ^ 31.
Proof.
  intros Hms. unfold ms_to_ticks, OS_TICKS_MS. rewrite u32_id by (unfold is_u32; lia).
  Z.to_euclidean_division_equations. lia.
Qed.

Lemma sleep_queue_event e a :
  a_sleep (do_event e a) =
  match e with
  | ESleep ms => if decide (ms_to_ticks ms = 0) then a_sleep a else a_sleep a ++ [a_curr a]
  | EWake tk | ETick tk | EExpireWake tk => filter (λ t, s32 (tk t - 1) ≠ 0) (a_sleep a)
  | _ => a_sleep a
  end.
Proof.
  destruct e as [| |ms|o|o|t|tk|tk| |tk|o|o|m|m|m|m]; cbn [do_event]; try done.
  - unfold spec_yield. by case_bool_decide.
  - unfold spec_sleep. case_decide as E; [by rewrite E|]. by rewrite (proj2 (Z.eqb_neq _ _) E).
  - by destruct (queue_at a (PWait o)).
  - unfold spec_create. by case_decide.
  - unfold spec_expire. by case_decide.
  - unfold spec_expire. by case_decide.
Qed.

Lemma doze_ok e a f b g :
  enabled e a b g → counts e a f → dozing a f → dozing (do_event e a) (doze e a f).
Proof.
  intros He Hc Hf t. rewrite sleep_queue_event.
  assert (Hwake : ∀ tk, (∀ u, u ∈ a_sleep a → tk u = f u) →
    t ∈ filter (λ u, s32 (tk u - 1) ≠ 0) (a_sleep a) → 1 ≤ s32 (f t - 1) < 2 ^ 31).
  { intros tk Htk [Hne Ht]%list_elem_of_filter. rewrite Htk in Hne by done.
    pose proof (Hf t Ht). rewrite s32_id in * by (unfold is_s32; lia). lia. }
  destruct e as [| |ms|o|o|u|tk|tk| |tk|o|o|m|m|m|m]; cbn [enabled counts doze] in *;
    try by apply Hf; try by eapply Hwake. all: try by apply Hwake.
  intros Ht. pose proof (ms_to_ticks_range ms He). rewrite decide_False in Ht by lia.
  case_decide as E; [done|]. apply elem_of_app in Ht as [Ht| ->%list_elem_of_singleton]; [|done].
  by apply Hf.
Qed.

(** A sleeper that leaves the queue is ready. *)
Lemma sleeper_woken e a t :
  t ∈ a_sleep a → t ∉ a_sleep (do_event e a) → t ∈ a_ready (do_event e a).
Proof.
  intros Ht. rewrite sleep_queue_event.
  assert (Hwake : ∀ tk (l : list Z), t ∉ filter (λ u, s32 (tk u - 1) ≠ 0) (a_sleep a) →
    t ∈ l ++ filter (λ u, s32 (tk u - 1) = 0) (a_sleep a)).
  { intros tk l Hn. apply elem_of_app. right. apply list_elem_of_filter. split; [|done].
    destruct (decide (s32 (tk t - 1) = 0)); [done|]. destruct Hn. by apply list_elem_of_filter. }
  assert (Esl : a_sleep (spec_expire a) = a_sleep a) by (unfold spec_expire; by case_decide).
  destruct e as [| |ms|o|o|u|tk|tk| |tk|o|o|m|m|m|m]; try done; intros Hn.
  - destruct Hn. case_decide; [done|]. apply elem_of_app. by left.
  - by apply Hwake.
  - by apply Hwake.
  - cbn. rewrite Esl. by apply Hwake.
Qed.

(** ** Slices used up *)
Definition deficit f (l : list Z) : Z := foldr (λ u n, TASK_TIME_SLICE_DEFAULT - f u + n) 0 l.

Lemma deficit_app f l1 l2 : deficit f (l1 ++ l2) = deficit f l1 + deficit f l2.
Proof. induction l1 as [|u l1 IH]; cbn; [done|]. fold (deficit f (l1 ++ l2)) (deficit f l1). lia. Qed.

Lemma deficit_ext f g l : (∀ u, u ∈ l → g u = f u) → deficit g l = deficit f l.
Proof.
  induction l as [|u l IH]; intros E; [done|]. cbn. fold (deficit f l) (deficit g l).
  rewrite IH, E; [done|left|]. intros v Hv. apply E. by right.
Qed.

Lemma deficit_change f g c l :
  NoDup l → c ∈ l → (∀ u, u ≠ c → g u = f u) → deficit g l = deficit f l + f c - g c.
Proof.
  intros Hnd Hc E. induction Hnd as [|u l Hu _ IH]; [by apply not_elem_of_nil in Hc|].
  cbn. fold (deficit f l) (deficit g l). apply elem_of_cons in Hc as [->|Hc].
  - rewrite (deficit_ext f g); [lia|]. intros v Hv. apply E. by intros ->.
  - rewrite IH, E by (done || by intros ->). lia.
Qed.

Lemma deficit_bound f l :
  (∀ u, u ∈ l → 1 ≤ f u ≤ TASK_TIME_SLICE_DEFAULT) →
  0 ≤ deficit f l ≤ 9 * Z.of_nat (length l).
Proof.
  unfold TASK_TIME_SLICE_DEFAULT. induction l as [|u l IH]; intros E; cbn [deficit foldr length]; [lia|].
  assert (1 ≤ f u ≤ 10) by (apply E; left). fold (deficit f l). unfold TASK_TIME_SLICE_DEFAULT.
  assert (0 ≤ deficit f l ≤ 9 * Z.of_nat (length l)) by (apply IH; intros v Hv; apply E; by right).
  lia.
Qed.

Lemma all_queue_event e a :
  a_all (do_event e a) = match e with ECreate t => a_all a ++ [t] | _ => a_all a end.
Proof.
  destruct e as [| |ms|o|o|t|tk|tk| |tk|o|o|m|m|m|m]; cbn [do_event]; try done.
  - unfold spec_yield. by case_bool_decide.
  - unfold spec_sleep. by destruct (ms_to_ticks ms =? 0).
  - by destruct (queue_at a (PWait o)).
  - unfold spec_expire. by case_decide.
  - unfold spec_expire. by case_decide.
Qed.

(** Every interrupt spends 9 of ten times the countdown of a sleeper and the slices
    used up. *)
Lemma event_spends e a f g b t :
  enabled e a f b → NoDup (a_all a) → a_curr a ∈ a_all a → (∀ u, u ∈ a_all a → 1 ≤ f u ≤ TASK_TIME_SLICE_DEFAULT) →
  t ∈ a_sleep a → t ≠ a_curr a → 1 ≤ g t < 2 ^ 31 →
  10 * doze e a g t + deficit (charge e a f) (a_all (do_event e a)) + 9 * Z.b2z (is_tick e) ≤
  10 * g t + deficit f (a_all a).
Proof.
  intros He Hnd Hc Hf Ht Hne Hg. rewrite all_queue_event. pose proof (Hf _ Hc) as Hfc.
  assert (Hd : s32 (g t - 1) = g t - 1) by (apply s32_id; unfold is_s32; lia).
  assert (Hspend : ∀ h, (∀ u, u ≠ a_curr a → h u = f u) →
    deficit h (a_all a) = deficit f (a_all a) + f (a_curr a) - h (a_curr a)).
  { intros h Hh. by apply deficit_change. }
  destruct e as [| |ms|o|o|u|tk|tk| |tk|o|o|m|m|m|m]; cbn [enabled doze is_tick Z.b2z] in *;
    rewrite ?Hd, ?(decide_False (P:=t = a_curr a)) by done;
    try (rewrite (deficit_ext f) by done; lia);
    try (rewrite Hspend by (intros u Hu; cbn; by rewrite decide_False); cbn [charge];
      rewrite decide_True by done; unfold TASK_TIME_SLICE_DEFAULT in *;
      rewrite s32_id in * by (unfold is_s32; lia); lia).
  destruct He as [_ Hu]. rewrite deficit_app, (deficit_ext f); cbn; [rewrite decide_True by done; lia|].
  intros v Hv. rewrite decide_False; [done|]. intros ->. by apply (Hu PAll).
Qed.

(** ** Wait queues *)
Lemma wait_queue_event e a o :
  queue_at (do_event e a) (PWait o) =
  match e with
  | EWait o' => if decide (o' = o) then queue_at a (PWait o) ++ [a_curr a] else queue_at a (PWait o)
  | EHandoff o' => if decide (o' = o) then tail (queue_at a (PWait o)) else queue_at a (PWait o)
  | _ => queue_at a (PWait o)
  end.
Proof.
  destruct e as [| |ms|o'|o'|t|tk|tk| |tk|o'|o'|m|m|m|m]; cbn [do_event]; try done.
  - unfold spec_yield. by case_bool_decide.
  - unfold spec_sleep. by case_match.
  - unfold spec_dispatch, spec_wait. rewrite queue_at_set_curr, queue_at_set.
    destruct (decide (o' = o)) as [->|]; [by rewrite decide_True|]. rewrite decide_False; [done|congruence].
  - destruct (queue_at a (PWait o')) as [|t q] eqn:Eq.
    + destruct (decide (o' = o)) as [<-|]; [by rewrite Eq|done].
    + unfold spec_dispatch, spec_handoff, spec_ready.
      rewrite queue_at_set_curr, queue_at_set, decide_False, queue_at_set by done.
      destruct (decide (o' = o)) as [<-|]; [by rewrite decide_True, Eq|].
      rewrite decide_False; [done|congruence].
  - unfold spec_create. by case_decide.
  - unfold spec_expire. by case_decide.
  - unfold spec_expire. by case_decide.
Qed.

Lemma wait_event e a o :
  (∃ L, queue_at (do_event e a) (PWait o) = queue_at a (PWait o) ++ L) ∨
  (∃ t, queue_at a (PWait o) = t :: queue_at (do_event e a) (PWait o)).
Proof.
  assert (Hsame : ∃ L, queue_at a (PWait o) = queue_at a (PWait o) ++ L)
    by (exists []; by rewrite app_nil_r).
  rewrite wait_queue_event. destruct e; try (by left); case_decide; try (by left).
  - left. by eexists.
  - destruct (queue_at a (PWait o)) as [|t q]; [by left|right]. by exists t.
Qed.

(** A task that still waits is behind no task that came later, and tasks ahead of
    it leave from the front. *)
Lemma wait_in_order e a o q1 t q2 :
  NoDup (queue_at a (PWait o)) → queue_at a (PWait o) = q1 ++ t :: q2 →
  t ∈ queue_at (do_event e a) (PWait o) →
  ∃ k L, queue_at (do_event e a) (PWait o) = drop k q1 ++ t :: q2 ++ L.
Proof.
  intros Hnd Eq Ht. destruct (wait_event e a o) as [[L ->]|[u E]].
  - exists 0%nat, L. rewrite Eq. cbn. by rewrite <-app_assoc.
  - rewrite Eq in *. destruct q1 as [|v q1]; injection E as -> E.
    + apply NoDup_cons in Hnd as [Hu _]. destruct Hu. rewrite E. exact Ht.
    + exists 1%nat, []. rewrite app_nil_r. symmetry. exact E.
Qed.

(** ** Semaphores *)

(** What an event adds to the count of semaphore [o], waiting tasks counted as
    negative. *)
Definition units (e : event) (o : Z) : Z :=
  match e with
  | ETake o' | EWait o' => if decide (o' = o) then -1 else 0
  | EPut o' | EHandoff o' => if decide (o' = o) then 1 else 0
  | _ => 0
  end.

Definition balance a (b : objs) (o : Z) : Z :=
  value_of b o - Z.of_nat (length (queue_at a (PWait o))).

Ltac same_units := cbn [from_option id]; split; [done|split; [eexists; split; [done|lia]|lia]].

Lemma sem_event e a f b o v :
  enabled e a f b → ob_mutex b !! o = None → ob_sem b !! o = Some v →
  - 2 ^ 31 ≤ v → v + Z.max 0 (units e o) < 2 ^ 31 →
  ob_mutex (do_objs e a b) !! o = None ∧
  (∃ v', ob_sem (do_objs e a b) !! o = Some v' ∧ Z.min 0 v ≤ v' ≤ v + Z.max 0 (units e o)) ∧
  balance (do_event e a) (do_objs e a b) o = balance a b o + units e o.
Proof.
  intros He Hm Hv Hl Hb. unfold balance, value_of in *. rewrite wait_queue_event.
  assert (Hown : ∀ m x, ob_mutex b !! m = Some x → m ≠ o) by (intros m x ? ->; congruence).
  destruct e as [| |ms|o'|o'|t|tk|tk| |tk|o'|o'|m|m|m|m];
    cbn [enabled do_objs units set_mutex set_sem ob_mutex ob_sem] in He, Hb |- *;
    unfold value_of; try by (rewrite Hv; same_units).
  - rewrite Hv. case_decide; [rewrite length_app; cbn [length]|]; same_units.
  - destruct He as [Hq Ho]. destruct (queue_at a (PWait o')) as [|t q] eqn:Eq; [done|].
    case_decide as E; [rewrite E in *; rewrite Hm, Hv, Eq; cbn [length tail]; same_units|].
    destruct (ob_mutex b !! o') as [x|] eqn:Ex; cbn [set_mutex ob_mutex ob_sem];
      rewrite ?lookup_insert_ne by done; rewrite Hv; same_units.
  - destruct He as (_ & v0 & Hv0 & Hpos). destruct (decide (o' = o)) as [->|].
    + rewrite lookup_insert_eq, Hv. rewrite Hv in Hv0. injection Hv0 as <-. cbn [from_option id]. same_units.
    + rewrite lookup_insert_ne, Hv by done. same_units.
  - destruct (decide (o' = o)) as [->|].
    + rewrite lookup_insert_eq, Hv. cbn [from_option id].
      rewrite (s32_id (v + 1)) by (unfold is_s32; lia). same_units.
    + rewrite lookup_insert_ne, Hv by done. same_units.
  - destruct He as (w & Hw). rewrite lookup_insert_ne, Hv by (by eapply Hown). same_units.
  - destruct He as (n & Hw & _). rewrite lookup_insert_ne, Hv by (by eapply Hown). same_units.
  - destruct He as (n & Hw & _). rewrite lookup_insert_ne, Hv by (by eapply Hown). same_units.
  - destruct He as (Hw & _). rewrite lookup_insert_ne, Hv by (by eapply Hown). same_units.
Qed.
End events.
