(* ===== verification/Machine.v ===== *)
(** * The running system

    Tasks that make kernel calls, a clock that interrupts them, and the hardware
    task switch between them: a step relation over the kernel state, the kernel
    code every suspended task has still to run, the locks every task holds, and
    the flags it gave itself.
    A step is one kernel call, one clock interrupt, or the rest of a suspended
    call, up to its return or to the next task switch. *)
From S2P Require Import Prelude Klib DList CpuInstr Desc Kernel Queues ListRef Demo Sched Mutex Sem Log Tasks Irq.

(** ** The hardware *)
Section hardware.
Context `{HLayout : Layout, HLogger : Logger}.

(** An interrupt gate: the processor saves the flags and masks interrupts, the
    handler runs, and [iret] restores them. *)
Definition interrupt (handler : K unit) : K unit :=
  state ← with_cpu irq_enter_protection; handler;; with_cpu (irq_leave_protection state).

Definition tss_set_eflags (v : Z) (x : tss_t) : tss_t :=
  Tss (pre_link x) (esp0 x) (ss0 x) (esp1 x) (ss1 x) (esp2 x) (ss2 x) (cr3 x) (eip x) v
    (eax x) (ecx x) (edx x) (ebx x) (esp x) (ebp x) (esi x) (edi x)
    (es x) (cs x) (ss x) (ds x) (fs x) (gs x) (ldt x) (iomap x).

(** A jump to a TSS selector: the flags go to the TSS the task register names, the
    flags and the page directory come from the new one. The other registers of a
    task belong to the code it runs and are not kept. *)
Definition hw_switch (sel : Z) (s : kstate) : option kstate :=
  from ← tss_of (k_gdt s) (c_tr (k_cpu s));
  to ← tss_of (k_gdt s) sel;
  x ← k_tasks s !! from;
  let s1 := set_tasks (<[from := task_set_tss (tss_set_eflags (c_eflags (k_cpu s)) (tss x)) x]>
              (k_tasks s)) s in
  y ← k_tasks s1 !! to;
  let c := k_cpu s in
  Some (set_cpu (Cpu (eflags (tss y)) (c_cr0 c) (cr3 (tss y)) (c_cr4 c) sel
                   (c_gdtr c) (c_idtr c) (c_io c)) s1).

(** ** Kernel calls *)
Inductive kcall : Type :=
| CYield
| CSleep (ms : Z)
| CLock (m : Z)
| CUnlock (m : Z)
| CWait (o : Z)
| CNotify (o : Z)
| CCreate (t entry esp : Z) (nm : list Z)
| CLog (fmt : string) (args : list fmt_arg)
| CIrqOn
| CIrqOff
| CTick (frame : exception_frame_t).

Definition call_code (c : kcall) : K unit :=
  match c with
  | CYield => sys_sched_yield;; mret tt
  | CSleep ms => sys_sleep ms
  | CLock m => mutex_lock m
  | CUnlock m => mutex_unlock m
  | CWait o => sem_wait o
  | CNotify o => sem_notify o
  | CCreate t entry esp nm => task_init t entry esp nm;; mret tt
  | CLog fmt args => log_printf fmt args
  | CIrqOn => with_cpu irq_enable_global
  | CIrqOff => with_cpu irq_disable_global
  | CTick frame => interrupt (do_handler_time frame)
  end.

(** ** Machines *)
Record machine : Type := Machine {
  m_state : kstate;
  (** the call a suspended task is in, and the code it has still to run *)
  m_parked : gmap Z (kcall * K unit);
  (** how often a task holds a mutex: locks returned less unlocks *)
  m_held : gmap (Z * Z) Z;
  (** the tasks created so far *)
  m_created : gset Z;
  (** the processor flags each task has given itself *)
  m_flags : gmap Z Z
}.

Definition current (M : machine) : Z := curr_task (k_tm (m_state M)).

(** How often task [t] holds mutex [m]. *)
Definition holds (h : gmap (Z * Z) Z) (m t : Z) : Z := default 0 (h !! (t, m)).

(** The flags task [t] runs its own code with. *)
Definition own_flags (M : machine) (t : Z) : Z := default 0 (m_flags M !! t).

(** What the return of a call to task [t] means for the locks, the tasks and the
    flags. *)
Definition held_after (t : Z) (c : kcall) (h : gmap (Z * Z) Z) : gmap (Z * Z) Z :=
  match c with
  | CLock m => <[(t, m) := holds h m t + 1]> h
  | CUnlock m => if 0 <? holds h m t then <[(t, m) := holds h m t - 1]> h else h
  | _ => h
  end.

Definition created_after (c : kcall) (ts : gset Z) : gset Z :=
  match c with CCreate t _ _ _ => {[ t ]} ∪ ts | _ => ts end.

Definition irq_on (e : Z) : Z := Z.lor e EFLAGS_IF.
Definition irq_off (e : Z) : Z := Z.land e (Z.lnot EFLAGS_IF).
Definition new_flags : Z := irq_on EFLAGS_DEFAULT.

Definition flags_after (t : Z) (c : kcall) (fl : gmap Z Z) : gmap Z Z :=
  match c with
  | CCreate u _ _ _ => <[u := new_flags]> fl
  | CIrqOn => <[t := irq_on (default 0 (fl !! t))]> fl
  | CIrqOff => <[t := irq_off (default 0 (fl !! t))]> fl
  | _ => fl
  end.

(** The machine after a run of kernel code by task [t] inside call [c]. *)
Definition settle (M : machine) (t : Z) (c : kcall) (r : kres unit) : option machine :=
  match r with
  | KRet _ s => Some (Machine s (delete t (m_parked M)) (held_after t c (m_held M))
                        (created_after c (m_created M)) (flags_after t c (m_flags M)))
  | KErr _ => None
  | KJump sel s k =>
      (λ s', Machine s' (<[t := (c, k)]> (m_parked M)) (m_held M) (m_created M) (m_flags M)) <$>
        hw_switch sel s
  end.

(** The mutexes and semaphores of tasks; the kernel's own mutexes are apart. *)
Definition kernel_mutex (m : Z) : Prop := m = log_mutex ∨ m = gdt_mutex ∨ m = paddr_mutex.

(** The calls a running task may make: on objects that exist, locks not nested up
    to the limit of [int], sleeps of at least a millisecond, new tasks in structures
    not in use as long as there are descriptors left, and log lines that fit the
    buffer of [log_printf]. A task may mask and unmask interrupts for itself. *)
Definition permitted (M : machine) (c : kcall) : Prop :=
  let s := m_state M in
  match c with
  | CYield | CIrqOn | CIrqOff => True
  | CSleep ms => 0 < ms < 2 ^ 31
  | CLock m => ¬ kernel_mutex m ∧ ∃ x, k_mutex s !! m = Some x ∧ locked_count x < 2 ^ 31 - 1
  | CUnlock m => ¬ kernel_mutex m ∧ is_Some (k_mutex s !! m)
  | CWait o | CNotify o => k_mutex s !! o = None ∧ is_Some (k_sem s !! o)
  | CCreate t _ _ nm =>
      (t ∉ m_created M) ∧ is_Some (k_tasks s !! t) ∧ Z.of_nat (length nm) < TASK_NAME_SIZE ∧
      ∃ k d, (1 ≤ k < 256)%nat ∧ k_gdt s !! k = Some d ∧ attr d = 0
  | CLog fmt args =>
      ∃ out, format (bytes_of_string fmt) args = Some out ∧ Z.of_nat (length out) ≤ 127
  | CTick _ => False
  end.

(** One step; [None] is a crash. The idle task makes no calls. *)
Inductive mstep (M : machine) : option machine → Prop :=
| step_call c :
    current M ≠ idle_task → m_parked M !! current M = None → permitted M c →
    mstep M (settle M (current M) c (call_code c (m_state M)))
| step_tick frame :
    m_parked M !! current M = None → Z.testbit (c_eflags (k_cpu (m_state M))) 9 = true →
    mstep M (settle M (current M) (CTick frame) (call_code (CTick frame) (m_state M)))
| step_resume c k :
    m_parked M !! current M = Some (c, k) →
    mstep M (settle M (current M) c (k (m_state M))).

(** The same steps, each with the action it is. *)
Inductive action : Type := ACall (c : kcall) | ATick | AResume.

Inductive astep (M : machine) : action → option machine → Prop :=
| astep_call c :
    current M ≠ idle_task → m_parked M !! current M = None → permitted M c →
    astep M (ACall c) (settle M (current M) c (call_code c (m_state M)))
| astep_tick frame :
    m_parked M !! current M = None → Z.testbit (c_eflags (k_cpu (m_state M))) 9 = true →
    astep M ATick (settle M (current M) (CTick frame) (call_code (CTick frame) (m_state M)))
| astep_resume c k :
    m_parked M !! current M = Some (c, k) →
    astep M AResume (settle M (current M) c (k (m_state M))).

Lemma mstep_action M o : mstep M o ↔ ∃ x, astep M x o.
Proof.
  split; [intros []|intros [x []]].
  - eexists. by apply astep_call.
  - eexists. by apply astep_tick.
  - eexists. by eapply astep_resume.
  - by apply step_call.
  - by apply step_tick.
  - by eapply step_resume.
Qed.

Definition reachable : machine → machine → Prop := rtc (λ M M', mstep M (Some M')).

(** The system once the task manager has started. *)
Definition booted (s : kstate) : machine :=
  Machine s ∅ ∅ {[ idle_task; first_task ]}
    (<[first_task := c_eflags (k_cpu s)]> {[ idle_task := new_flags ]}).
End hardware.
