(* ===== verification/Safety.v ===== *)
(** * Invariants of the running system

    What holds in every reachable machine: the scheduler's relation to its queues,
    no task lost, the task register naming the current task, every task's flags, and
    for each mutex a ledger of who holds it and who waits. Each kernel call, clock interrupt and
    resumption preserves it. *)
From S2P Require Import Prelude Klib DList CpuInstr Desc Kernel Queues ListRef Demo Sched Mutex Sem Log Tasks Irq Events Machine.

(** ** The ledger of a mutex

    Owner [o], count [n] and wait queue [q] of the mutex; [pend t] when task [t] is
    inside a lock call that has not returned; [hd t] the locks of [t] that returned
    and were not undone. *)
Section ledger.

Record mutex_ledger (o n : Z) (q : list Z) (pend : Z → bool) (hd : Z → Z) : Prop := {
  ml_count : 0 ≤ n < 2 ^ 31;
  ml_free : n = 0 → o = 0 ∧ q = [];
  ml_wait : ∀ t, t ∈ q → pend t = true ∧ t ≠ o;
  ml_pend : ∀ t, pend t = true → hd t = 0 ∧ (t ∈ q ∨ (t = o ∧ n = 1));
  ml_held : ∀ t, pend t = false → hd t = if decide (t = o) then n else 0
}.

(** At most one task holds the mutex. *)
Lemma ledger_exclusive o n q pend hd t u :
  mutex_ledger o n q pend hd → 0 < hd t → 0 < hd u → t = u.
Proof.
  intros [_ _ _ Hp Hh] Ht Hu.
  assert (E : ∀ v, 0 < hd v → v = o).
  { intros v Hv. destruct (pend v) eqn:Ep; [destruct (Hp v Ep); lia|].
    rewrite (Hh v Ep) in Hv. by case_decide. }
  by rewrite (E t Ht), (E u Hu).
Qed.

Lemma ledger_ext o n q pend pend' hd hd' :
  mutex_ledger o n q pend hd → (∀ t, pend' t = pend t) → (∀ t, hd' t = hd t) →
  mutex_ledger o n q pend' hd'.
Proof.
  intros [Hc Hf Hw Hp Hh] Ep Eh. split; try done.
  - intros t. rewrite Ep. apply Hw.
  - intros t. rewrite Ep, Eh. apply Hp.
  - intros t. rewrite Ep, Eh. apply Hh.
Qed.

Section steps.
Context (o n : Z) (q : list Z) (pend : Z → bool) (hd : Z → Z) (t : Z).
Context (HL : mutex_ledger o n q pend hd).

(** A free mutex is taken. *)
Lemma ledger_take hd' :
  n = 0 → pend t = false → hd' t = hd t + 1 → (∀ u, u ≠ t → hd' u = hd u) →
  mutex_ledger t 1 q pend hd'.
Proof.
  destruct HL as [Hc Hf Hw Hp Hh]. intros Hn Ht Et Eu. destruct (Hf Hn) as [-> ->].
  split; [lia|lia|by intros u Hu%not_elem_of_nil| |].
  - intros u Hu. destruct (Hp u Hu) as [_ [Hin|[_ ?]]]; [by apply not_elem_of_nil in Hin|lia].
  - intros u Hu. case_decide as E; [rewrite E, Et, (Hh t Ht); case_decide; lia|].
    rewrite Eu, (Hh u Hu) by done. case_decide; lia.
Qed.

(** The owner locks again. *)
Lemma ledger_again hd' :
  t = o → n ≠ 0 → n < 2 ^ 31 - 1 → pend t = false →
  hd' t = hd t + 1 → (∀ u, u ≠ t → hd' u = hd u) →
  mutex_ledger o (n + 1) q pend hd'.
Proof.
  destruct HL as [Hc Hf Hw Hp Hh]. intros -> Hn Hlt Ht Et Eu. split; [lia|lia|done| |].
  - intros u Hu. assert (u ≠ o) as Hne by congruence. rewrite Eu by done.
    destruct (Hp u Hu) as [? [?|[? ?]]]; [by auto|done].
  - intros u Hu. case_decide as E; [rewrite E, Et, (Hh o Ht), decide_True; done|].
    rewrite Eu, (Hh u Hu) by done. by rewrite decide_False.
Qed.

(** Another task starts waiting. *)
Lemma ledger_wait pend' :
  t ≠ o → n ≠ 0 → pend t = false → pend' t = true → (∀ u, u ≠ t → pend' u = pend u) →
  mutex_ledger o n (q ++ [t]) pend' hd.
Proof.
  destruct HL as [Hc Hf Hw Hp Hh]. intros Hto Hn Ht Et Eu. split; [done|lia|..].
  - intros u [Hu| ->%list_elem_of_singleton]%elem_of_app; [|done].
    destruct (Hw u Hu) as [Hpu ?]. rewrite Eu; [done|congruence].
  - intros u Hu. destruct (decide (u = t)) as [->|Hne].
    + rewrite (Hh t Ht), decide_False by done. split; [done|left]. apply elem_of_app. right. left.
    + rewrite Eu in Hu by done. destruct (Hp u Hu) as [? [?|?]]; [|by auto].
      split; [done|left]. apply elem_of_app. by left.
  - intros u Hu. apply Hh. destruct (decide (u = t)) as [->|Hne]; [done|]. by rewrite <-Eu.
Qed.

(** The lock call of a task that waits no more returns. *)
Lemma ledger_acquired pend' hd' :
  t ∉ q → pend t = true → pend' t = false → (∀ u, u ≠ t → pend' u = pend u) →
  hd' t = hd t + 1 → (∀ u, u ≠ t → hd' u = hd u) →
  mutex_ledger o n q pend' hd'.
Proof.
  destruct HL as [Hc Hf Hw Hp Hh]. intros Htq Ht Et Eu Eh Ehu.
  destruct (Hp t Ht) as [Hz [?|[-> ->]]]; [done|]. split; [done|done|..].
  - intros u Hu. rewrite Eu; [by apply Hw|congruence].
  - intros u Hu. assert (u ≠ o) as Hne by congruence. rewrite Eu in Hu by done.
    rewrite Ehu by done. by apply Hp.
  - intros u Hu. case_decide as E; [rewrite E, Eh; lia|].
    rewrite Eu in Hu by done. rewrite Ehu, (Hh u Hu) by done. by rewrite decide_False.
Qed.

(** A nested unlock by the owner. *)
Lemma ledger_nested hd' :
  t = o → t ≠ 0 → n ≠ 1 → pend t = false → hd' t = hd t - 1 → (∀ u, u ≠ t → hd' u = hd u) →
  mutex_ledger o (n - 1) q pend hd' ∧ 0 < hd t.
Proof.
  destruct HL as [Hc Hf Hw Hp Hh]. intros -> Ho Hn Ht Et Eu.
  assert (n ≠ 0) as Hn0 by (intros E; by destruct (Hf E)).
  pose proof (Hh o Ht) as Eo. rewrite decide_True in Eo by done.
  split; [|lia]. split; [lia|lia|done| |].
  - intros u Hu. assert (u ≠ o) as Hne by congruence. rewrite Eu by done.
    destruct (Hp u Hu) as [? [?|[? ?]]]; [by auto|done].
  - intros u Hu. case_decide as E; [rewrite E, Et; lia|].
    rewrite Eu, (Hh u Hu) by done. by rewrite decide_False.
Qed.

(** The last unlock, with nobody waiting. *)
Lemma ledger_release hd' :
  t = o → n = 1 → q = [] → pend t = false → hd' t = hd t - 1 → (∀ u, u ≠ t → hd' u = hd u) →
  mutex_ledger 0 0 [] pend hd' ∧ 0 < hd t.
Proof.
  destruct HL as [Hc Hf Hw Hp Hh]. intros -> -> -> Ht Et Eu.
  pose proof (Hh o Ht) as Eo. rewrite decide_True in Eo by done. split; [|lia].
  assert (Hnone : ∀ u, pend u = true → False).
  { intros u Hu. destruct (Hp u Hu) as [_ [Hin|[-> _]]]; [by apply not_elem_of_nil in Hin|congruence]. }
  split; [lia|done|by intros u Hu%not_elem_of_nil|intros u Hu; by destruct (Hnone u Hu)|].
  intros u Hu. assert (hd' u = 0) as ->; [|by case_decide].
  destruct (decide (u = o)) as [->|Hne]; [lia|]. rewrite Eu, (Hh u Hu) by done.
  by rewrite decide_False.
Qed.

(** The last unlock hands the mutex to the first waiter. *)
Lemma ledger_handoff u q' hd' :
  NoDup q → t = o → n = 1 → q = u :: q' → pend t = false →
  hd' t = hd t - 1 → (∀ v, v ≠ t → hd' v = hd v) →
  mutex_ledger u 1 q' pend hd' ∧ 0 < hd t.
Proof.
  destruct HL as [Hc Hf Hw Hp Hh]. intros Hnd -> -> -> Ht Et Eu.
  apply NoDup_cons in Hnd as [Huq Hnd].
  pose proof (Hh o Ht) as Eo. rewrite decide_True in Eo by done. split; [|lia].
  destruct (Hw u) as [Hpu Huo]; [left|]. split; [lia|done|..].
  - intros v Hv. destruct (Hw v) as [Hpv _]; [by right|]. split; [done|congruence].
  - intros v Hv. assert (v ≠ o) as Hne by congruence. rewrite Eu by done.
    destruct (Hp v Hv) as [Hz [[->|?]%elem_of_cons|[? _]]]; [by auto|by auto|done].
  - intros v Hv. rewrite decide_False by congruence.
    destruct (decide (v = o)) as [->|Hne]; [lia|]. rewrite Eu, (Hh v Hv) by done.
    by rewrite decide_False.
Qed.

(** An unlock by a task that does not own the mutex. *)
Lemma ledger_stranger : t ≠ o → pend t = false → hd t = 0.
Proof. destruct HL as [_ _ _ _ Hh]. intros Hto Ht. by rewrite (Hh t Ht), decide_False. Qed.
End steps.
End ledger.

(** ** No task is lost *)
Section schedule.
Context `{HLayout : Layout}.
Implicit Types (a : kabs) (t : Z).

(** The task is ready, asleep or waiting for an object. *)
Definition placed (t : Z) (a : kabs) : Prop := ∃ p, p ≠ PAll ∧ t ∈ queue_at a p.

(** The queues hold the tasks created, each in one place (by [krel]), and the head
    of the ready queue is the current task. *)
Record sched_ok (C : gset Z) (a : kabs) : Prop := {
  so_next : a_curr a = next_task a;
  so_idle : idle_task ∈ C;
  so_all : ∀ t, t ∈ a_all a ↔ t ∈ C;
  so_queued : ∀ t, placed t a → t ∈ C;
  so_placed : ∀ t, t ∈ C → t ≠ idle_task → placed t a
}.

(** The same tasks are placed, perhaps elsewhere. *)
Definition same_tasks a a' : Prop := (∀ t, placed t a' ↔ placed t a) ∧ a_all a' = a_all a.

#[export] Instance same_tasks_equiv : Equivalence same_tasks.
Proof.
  split.
  - by intros a.
  - intros a b [Hp Ha]. split; [intros t; by rewrite Hp|done].
  - intros a b c [Hp Ha] [Hp' Ha']. split; [intros t; by rewrite Hp'|congruence].
Qed.

Lemma sched_ok_same C a a' :
  sched_ok C a → same_tasks a a' → a_curr a' = next_task a' → sched_ok C a'.
Proof.
  intros [_ Hi Ha Hq Hp] [Hs Hall] Hn. split; try done.
  - intros t. by rewrite Hall.
  - intros t. rewrite Hs. apply Hq.
  - intros t. rewrite Hs. apply Hp.
Qed.

Lemma same_dispatch a : same_tasks a (spec_dispatch a).
Proof. done. Qed.

Lemma placed_set p (l : list Z) a t :
  placed t (set_queue p l a) ↔
  (p ≠ PAll ∧ t ∈ l) ∨ (∃ r, r ≠ PAll ∧ r ≠ p ∧ t ∈ queue_at a r).
Proof.
  split.
  - intros (r & Hr & Ht). rewrite queue_at_set in Ht. case_decide as E.
    + subst. by left.
    + right. exists r. by split_and!.
  - intros [[Hp Ht]|(r & Hr & Hrp & Ht)].
    + exists p. rewrite queue_at_set, decide_True by done. done.
    + exists r. by rewrite queue_at_set, decide_False.
Qed.

Lemma placed_split p a t :
  p ≠ PAll → placed t a ↔ t ∈ queue_at a p ∨ (∃ r, r ≠ PAll ∧ r ≠ p ∧ t ∈ queue_at a r).
Proof.
  intros Hp. split.
  - intros (r & Hr & Ht). destruct (decide (r = p)) as [->|]; [by left|right; eauto].
  - intros [?|(r & Hr & _ & Ht)]; [by exists p|by exists r].
Qed.

(** A queue of the same tasks in another order, or with tasks from elsewhere. *)
Lemma same_all_set p (l : list Z) a : p ≠ PAll → a_all (set_queue p l a) = a_all a.
Proof. by destruct p. Qed.

(** The running task moves behind the tasks of another queue. *)
Lemma same_move_out t p a :
  t ∈ a_ready a → p ≠ PAll → p ≠ PReady →
  same_tasks a (set_queue p (queue_at a p ++ [t]) (spec_block t a)).
Proof.
  intros Ht Hp Hpr. unfold spec_block. split; [|by rewrite !same_all_set].
  intros u. rewrite placed_set, (placed_split p a) by done. rewrite elem_of_app, list_elem_of_singleton.
  assert (Hr : ∀ r, queue_at (set_queue PReady (filter (λ v, v ≠ t) (a_ready a)) a) r =
    if decide (PReady = r) then filter (λ v, v ≠ t) (a_ready a) else queue_at a r)
    by (intros r; apply queue_at_set).
  split.
  - intros [[_ [?| ->]]|(r & Hra & Hrp & Hu)]; [by left|right; by exists PReady|].
    right. exists r. split_and!; [done|done|]. rewrite Hr in Hu. case_decide as E; [|done].
    subst r. by apply list_elem_of_filter in Hu as [_ Hu].
  - intros [?|(r & Hra & Hrp & Hu)]; [by left; auto|].
    destruct (decide (r = PReady ∧ u = t)) as [[-> ->]|Hn]; [by left; auto|].
    right. exists r. split_and!; [done|done|]. rewrite Hr. case_decide as E; [|done].
    subst r. apply list_elem_of_filter. split; [|done]. naive_solver.
Qed.

(** The first task of a queue becomes ready. *)
Lemma same_move_in t p q a :
  queue_at a p = t :: q → p ≠ PAll → p ≠ PReady →
  same_tasks a (spec_ready t (set_queue p q a)).
Proof.
  intros Eq Hp Hpr. unfold spec_ready. split; [|by rewrite !same_all_set].
  assert (Ea : a_ready (set_queue p q a) = a_ready a) by by destruct p.
  intros u. rewrite placed_set, (placed_split p a), Ea, Eq by done.
  rewrite elem_of_app, list_elem_of_singleton, elem_of_cons.
  assert (Hr : ∀ r, queue_at (set_queue p q a) r = if decide (p = r) then q else queue_at a r)
    by (intros r; apply queue_at_set).
  split.
  - intros [[_ [?| ->]]|(r & Hra & Hrp & Hu)]; [right; by exists PReady|by auto|].
    rewrite Hr in Hu. case_decide as E; [by auto|right; eauto].
  - intros [[->|Hu]|(r & Hra & Hrp & Hu)]; [by auto|right; exists p|].
    + rewrite Hr, decide_True by done. done.
    + destruct (decide (r = PReady)) as [->|]; [by left; auto|]. right. exists r.
      by rewrite Hr, decide_False.
Qed.

Lemma same_rotate a : a_curr a ∈ a_ready a → same_tasks a (spec_rotate a).
Proof.
  intros Ht. unfold spec_rotate, spec_ready, spec_block. rewrite set_queue_twice.
  split; [|done]. intros u. rewrite placed_set, (placed_split PReady a) by done.
  enough (u ∈ a_ready (set_queue PReady (filter (λ v, v ≠ a_curr a) (a_ready a)) a) ++ [a_curr a]
    ↔ u ∈ a_ready a) as E by (split; [intros [[_ Hu]|?]; [left; by apply E|by right]
      |intros [Hu|?]; [left; split; [done|by apply E]|by right]]).
  cbn. rewrite elem_of_app, list_elem_of_filter, list_elem_of_singleton.
  destruct (decide (u = a_curr a)) as [->|]; tauto.
Qed.

Lemma same_wake tk a : same_tasks a (spec_wake tk a).
Proof.
  split; [|done]. intros u. unfold spec_wake. rewrite placed_set, (placed_split PReady a) by done.
  assert (Hr : ∀ (l : list Z) r, queue_at (set_queue PSleep l a) r =
    if decide (PSleep = r) then l else queue_at a r) by (intros l r; apply queue_at_set).
  rewrite elem_of_app, list_elem_of_filter. cbn [queue_at]. split.
  - intros [[_ [?|[_ Hu]]]|(r & Hra & Hrp & Hu)]; [by auto|right; by exists PSleep|].
    right. exists r. split_and!; [done|done|]. rewrite Hr in Hu. case_decide as E; [|done].
    subst r. by apply list_elem_of_filter in Hu as [_ Hu].
  - intros [?|(r & Hra & Hrp & Hu)]; [by auto|].
    destruct (decide (r = PSleep)) as [->|Hne].
    + destruct (decide (s32 (tk u - 1) = 0)); [by auto|]. right. exists PSleep.
      rewrite Hr, decide_True by done. split_and!; [done|done|]. by apply list_elem_of_filter.
    + right. exists r. by rewrite Hr, decide_False.
Qed.

Lemma same_expire a :
  a_curr a ∈ a_ready a ∨ a_curr a = idle_task → same_tasks a (spec_expire a).
Proof.
  intros Hc. unfold spec_expire. case_decide; [done|]. apply same_rotate. by destruct Hc.
Qed.
End schedule.

(** ** The kernel between two runs of kernel code *)
Section core.
Context `{LoggerLaws}.
Implicit Types (s : kstate) (a : kabs) (t : Z).

Record core (C : gset Z) s a : Prop := {
  co_rel : krel s a;
  co_sched : sched_ok C a;
  co_log : log_free s;
  co_gdtm : mutex_idle gdt_mutex s;
  co_names : names_ok s;
  co_gdt : length (k_gdt s) = 256%nat;
  co_tss : ∀ t, t ∈ C → has_tss s t;
  co_time : ∀ t x, t ∈ C → k_tasks s !! t = Some x → time_ticks x = TASK_TIME_SLICE_DEFAULT
}.

(** What no operation but [task_init] changes. *)
Definition ident_of (x : task_t) : list Z * Z * Z := (name x, time_ticks x, tss_sel x).

Record alike s s' : Prop := {
  kp_gdt : k_gdt s' = k_gdt s;
  kp_tasks : ∀ t, ident_of <$> k_tasks s' !! t = ident_of <$> k_tasks s !! t
}.

#[export] Instance alike_preorder : PreOrder alike.
Proof. split; [by intros s|]. intros s1 s2 s3 [] []. split; congruence. Qed.

(** The flags in the TSS of a task; kernel code leaves them to the processor. *)
Definition tss_flags s t : option Z := (λ x, eflags (tss x)) <$> k_tasks s !! t.

Record keeps s s' : Prop := {
  kp_alike :> alike s s';
  kp_flags : ∀ t, tss_flags s' t = tss_flags s t
}.

#[export] Instance keeps_preorder : PreOrder keeps.
Proof.
  split; [by intros s|]. intros s1 s2 s3 [A1 F1] [A2 F2]. split; [by etrans|].
  intros t. by rewrite F2.
Qed.

Lemma keeps_tick s s' : tick_frame s s' → keeps s s'.
Proof.
  intros [_ _ Hg _ _ _ Ht].
  split; [split; [done|]|]; intros t; specialize (Ht t); unfold tss_flags;
    destruct (k_tasks s' !! t) as [[]|], (k_tasks s !! t) as [[]|]; by simplify_eq/=.
Qed.

Lemma keeps_obj s s' : obj_frame s s' → keeps s s'.
Proof. intros Hf. by apply keeps_tick, Hf. Qed.

Lemma keeps_sched s s' : sched_frame s s' → keeps s s'.
Proof. intros Hf. by apply keeps_obj, sched_obj_frame. Qed.

Lemma keeps_ipc s s' : ipc_frame s s' → keeps s s'.
Proof.
  intros [Hg _ _ Ht].
  split; [split; [done|]|]; intros t; specialize (Ht t); unfold tss_flags;
    destruct (k_tasks s' !! t) as [[]|], (k_tasks s !! t) as [[]|]; by simplify_eq/=.
Qed.

Lemma ipc_slice_ticks s s' t : ipc_frame s s' → slice_ticks_of s' t = slice_ticks_of s t.
Proof.
  intros [_ _ _ Ht]. specialize (Ht t). unfold slice_ticks_of.
  destruct (k_tasks s' !! t) as [[]|], (k_tasks s !! t) as [[]|]; by simplify_eq/=.
Qed.

Lemma ipc_sleep_ticks s s' t : ipc_frame s s' → sleep_ticks_of s' t = sleep_ticks_of s t.
Proof.
  intros [_ _ _ Ht]. specialize (Ht t). unfold sleep_ticks_of.
  destruct (k_tasks s' !! t) as [[]|], (k_tasks s !! t) as [[]|]; by simplify_eq/=.
Qed.

Lemma alike_lookup s s' t x :
  alike s s' → k_tasks s' !! t = Some x →
  ∃ y, k_tasks s !! t = Some y ∧ name y = name x ∧ tss_sel y = tss_sel x ∧ time_ticks y = time_ticks x.
Proof.
  intros [_ Ht] Hx. specialize (Ht t). rewrite Hx in Ht.
  destruct (k_tasks s !! t) as [y|]; [|done]. exists y. by simplify_eq/=.
Qed.

Lemma alike_sym s s' : alike s s' → alike s' s.
Proof. intros []. by split. Qed.

Lemma alike_dom s s' : alike s s' → dom (k_tasks s') = dom (k_tasks s).
Proof.
  intros Hk. apply set_eq. intros t. rewrite !elem_of_dom. split; intros [x Hx].
  - destruct (alike_lookup _ _ _ _ Hk Hx) as (y & -> & _). done.
  - destruct (alike_lookup _ _ _ _ (alike_sym _ _ Hk) Hx) as (y & -> & _). done.
Qed.

Lemma alike_names s s' : alike s s' → names_ok s → names_ok s'.
Proof.
  intros Hk Hn t x Hx. destruct (alike_lookup _ _ _ _ Hk Hx) as (y & Hy & <- & _). by eapply Hn.
Qed.

Lemma alike_tss s s' t : alike s s' → has_tss s t → has_tss s' t.
Proof.
  intros Hk (x & Hx & Hs). destruct (alike_lookup _ _ _ _ (alike_sym _ _ Hk) Hx) as (y & Hy & _ & E & _).
  exists y. split; [done|]. by rewrite (kp_gdt _ _ Hk), E.
Qed.

Lemma core_step C s a s' a' :
  core C s a → krel s' a' → sched_ok C a' → alike s s' →
  k_mutex s' !! log_mutex = k_mutex s !! log_mutex →
  k_mutex s' !! gdt_mutex = k_mutex s !! gdt_mutex → core C s' a'.
Proof.
  intros [_ _ [l Hl] [lg Hg] Hn Hlen Htss Hti] Hr Hs Hk El Eg. split; try done.
  - exists l. by rewrite El.
  - exists lg. by rewrite Eg.
  - by eapply alike_names.
  - by rewrite (kp_gdt _ _ Hk).
  - intros t Ht. by eapply alike_tss; [|apply Htss].
  - intros t x Ht Hx. destruct (alike_lookup _ _ _ _ Hk Hx) as (y & Hy & _ & _ & <-). by apply (Hti t).
Qed.

Lemma core_set_cpu C s a c : core C s a → core C (set_cpu c s) a.
Proof. intros Hc. eapply core_step; [exact Hc|by apply krel_set_cpu, (co_rel _ _ _ Hc)|apply Hc|done..]. Qed.

Lemma core_curr C s a : core C s a → a_curr a ∈ C.
Proof.
  intros Hc. pose proof (co_sched _ _ _ Hc) as Hs. rewrite (so_next _ _ Hs). unfold next_task.
  destruct (a_ready a) as [|t q] eqn:E; [apply (so_idle _ _ Hs)|].
  apply (so_queued _ _ Hs). exists PReady. split; [done|]. cbn. rewrite E. left.
Qed.

Lemma core_ready C s a : core C s a → a_curr a ≠ idle_task → a_curr a ∈ a_ready a.
Proof.
  intros Hc. rewrite (so_next _ _ (co_sched _ _ _ Hc)). unfold next_task.
  destruct (a_ready a) as [|t q]; [done|]. intros _. left.
Qed.

(** The current task waits for nothing. *)
Lemma core_not_waiting C s a o : core C s a → a_curr a ∉ queue_at a (PWait o).
Proof.
  intros Hc Hin. pose proof (kr_ok _ _ (co_rel _ _ _ Hc)) as Hok.
  destruct (decide (a_curr a = idle_task)) as [E|E].
  - rewrite E in Hin. by apply (ao_idle _ Hok (PWait o)).
  - by discriminate (ao_unique _ Hok PReady (PWait o) (a_curr a) (core_ready _ _ _ Hc E) Hin).
Qed.

(** *** Events *)

(** The objects of a state, without the lists of waiting tasks. *)
Definition objs_of s : objs :=
  Objs ((λ x, (owner x, locked_count x)) <$> k_mutex s) (sem_value <$> k_sem s).

(** The event [e] can happen in [s], with queues [a], and [s'] has its slices,
    countdowns and objects. *)
Record effect s a (e : event) s' : Prop := {
  ef_enabled : enabled e a (slice_ticks_of s) (objs_of s);
  ef_slices : ∀ t, slice_ticks_of s' t = charge e a (slice_ticks_of s) t;
  ef_objs : objs_of s' = do_objs e a (objs_of s);
  ef_counts : counts e a (sleep_ticks_of s);
  ef_sleep : ∀ t, t ∈ a_sleep (do_event e a) →
    sleep_ticks_of s' t = doze e a (sleep_ticks_of s) t
}.

Lemma objs_same s s' : k_mutex s' = k_mutex s → k_sem s' = k_sem s → objs_of s' = objs_of s.
Proof. unfold objs_of. by intros -> ->. Qed.

(** Events of mutexes and semaphores, which charge nobody. *)
Definition ipc_event (e : event) : Prop :=
  match e with
  | EStay | EWait _ | EHandoff _ | ETake _ | EPut _ | ELock _ | EAgain _ | ENest _ | ERelease _ => True
  | _ => False
  end.

Lemma ipc_grow e (C : gset Z) : ipc_event e → grow e C = C.
Proof. by destruct e. Qed.

Lemma ipc_effect s a (e : event) s' :
  ipc_frame s s' → ipc_event e → enabled e a (slice_ticks_of s) (objs_of s) →
  objs_of s' = do_objs e a (objs_of s) → effect s a e s'.
Proof.
  intros Hf He Hen Ho. split; [done| |done| |].
  - intros t. rewrite (ipc_slice_ticks s s' t Hf). by destruct e.
  - by destruct e.
  - intros t _. rewrite (ipc_sleep_ticks s s' t Hf). by destruct e.
Qed.

(** Operations on tasks, which leave the objects and the slices alone. *)
Lemma obj_effect s a (e : event) s' :
  obj_frame s s' → (∀ f t, charge e a f t = f t) → (∀ b, do_objs e a b = b) →
  (∀ f b, enabled e a f b) → counts e a (sleep_ticks_of s) →
  (∀ t, t ∈ a_sleep (do_event e a) → sleep_ticks_of s' t = doze e a (sleep_ticks_of s) t) →
  effect s a e s'.
Proof.
  intros Hf Hc Hb He Hcn Hs. split; [apply He| | |done|done].
  - intros t. rewrite Hc. apply Hf.
  - rewrite Hb. by apply objs_same; apply Hf.
Qed.

(** The objects after an assignment to one of them. *)
Lemma objs_mutex s s' m o n l :
  k_mutex s' = <[m := Mutex o n l]> (k_mutex s) → k_sem s' = k_sem s →
  objs_of s' = set_mutex m (o, n) (objs_of s).
Proof. unfold objs_of, set_mutex. intros -> ->. cbn. by rewrite fmap_insert. Qed.

Lemma objs_sem s s' o v l :
  k_mutex s' = k_mutex s → k_sem s' = <[o := Sem v l]> (k_sem s) →
  objs_of s' = set_sem o v (objs_of s).
Proof. unfold objs_of, set_sem. intros -> ->. cbn. by rewrite fmap_insert. Qed.

Lemma objs_mutex_at s m x :
  k_mutex s !! m = Some x → ob_mutex (objs_of s) !! m = Some (owner x, locked_count x).
Proof. intros Hx. cbn. by rewrite lookup_fmap, Hx. Qed.

Lemma objs_mutex_none s m : k_mutex s !! m = None → ob_mutex (objs_of s) !! m = None.
Proof. intros Hx. cbn. by rewrite lookup_fmap, Hx. Qed.

Lemma objs_sem_at s o v l :
  k_sem s !! o = Some (Sem v l) → ob_sem (objs_of s) !! o = Some v.
Proof. intros Hx. cbn. by rewrite lookup_fmap, Hx. Qed.

Lemma set_mutex_same b m x : ob_mutex b !! m = Some x → set_mutex m x b = b.
Proof. intros Hx. unfold set_mutex. rewrite insert_id by done. by destruct b. Qed.

Lemma set_sem_same b o v : ob_sem b !! o = Some v → set_sem o v b = b.
Proof. intros Hx. unfold set_sem. rewrite insert_id by done. by destruct b. Qed.

(** *** The hardware task switch *)
Lemma hw_switch_ok C s a x t0 :
  core C s a → k_tasks s !! a_curr a = Some x →
  tss_of (k_gdt s) (c_tr (k_cpu s)) = Some t0 → is_Some (k_tasks s !! t0) →
  ∃ s', hw_switch (u16 (tss_sel x)) s = Some s' ∧ core C s' a ∧
    tss_of (k_gdt s') (c_tr (k_cpu s')) = Some (a_curr a) ∧
    k_mutex s' = k_mutex s ∧ k_sem s' = k_sem s ∧ alike s s' ∧
    (∀ t, slice_ticks_of s' t = slice_ticks_of s t ∧ sleep_ticks_of s' t = sleep_ticks_of s t) ∧
    (∀ t, t ≠ t0 → tss_flags s' t = tss_flags s t) ∧ c_io (k_cpu s') = c_io (k_cpu s) ∧
    (a_curr a ≠ t0 → tss_flags s (a_curr a) = Some (c_eflags (k_cpu s'))).
Proof.
  intros Hc Hx Htr [y Hy].
  destruct (co_tss _ _ _ Hc (a_curr a) (core_curr _ _ _ Hc)) as (x' & Hx' & Hsel).
  simplify_eq. unfold hw_switch. rewrite Htr. cbn. rewrite Hsel. cbn. rewrite Hy. cbn.
  set (z := task_set_tss _ y). set (s1 := set_tasks (<[t0 := z]> (k_tasks s)) s).
  assert (Hk : alike s s1).
  { split; [done|]. intros t. cbn. destruct (decide (t0 = t)) as [<-|].
    - by rewrite lookup_insert_eq, Hy.
    - by rewrite lookup_insert_ne. }
  assert (Hr1 : krel s1 a) by by eapply krel_task_set; [apply Hc|].
  destruct (alike_lookup _ _ _ _ (alike_sym _ _ Hk) Hx) as (w & Hw & _).
  cbn in Hw. rewrite Hw. cbn.
  eexists. split; [done|].
  split; [|split; [exact Hsel|split; [done|split; [done|split; [by transitivity s1|split; [|split; [|split; [done|]]]]]]]].
  2:{ intros t. unfold slice_ticks_of, sleep_ticks_of. cbn. destruct (decide (t0 = t)) as [<-|].
      - by rewrite lookup_insert_eq, Hy.
      - by rewrite lookup_insert_ne. }
  2:{ intros t Ht. unfold tss_flags. cbn. by rewrite lookup_insert_ne. }
  2:{ intros Ht. rewrite lookup_insert_ne in Hw by done. unfold tss_flags. by rewrite Hw. }
  apply core_set_cpu. by eapply core_step; [exact Hc|exact Hr1|apply Hc|..].
Qed.
End core.

(** ** The invariant of a machine *)
Section machine_inv.
Context `{LoggerLaws}.
Implicit Types (s : kstate) (a : kabs) (t m : Z) (M : machine).

(** The code of a suspended call: a log line and the flags [e], or a log line and
    then the rest of a clock interrupt, up to the flags. *)
Definition resumable (e : Z) (ts : gset Z) (k : K unit) : Prop :=
  ∀ s, log_free s → names_ok s → dom (k_tasks s) = ts →
    ∃ r, (restored e (k_cpu s) r ∧ k s = KRet tt (set_cpu r s)) ∨
      ((∃ e', restored e' (k_cpu s) r) ∧
       k s = (tick_rest;; with_cpu (irq_leave_protection e)) (set_cpu r s)).

(** A run of kernel code by task [t], entered with the registers [c0], returns with
    the flags [e], or leaves code that will return with them. *)
Definition halts (e : Z) (c0 : cpu_t) (t : Z) (r : kres unit) (s' : kstate) : Prop :=
  match r with
  | KRet _ s1 => s1 = s' ∧ curr_task (k_tm s') = t ∧ restored e c0 (k_cpu s')
  | KErr _ => False
  | KJump sel s1 k => s1 = s' ∧ curr_task (k_tm s') ≠ t ∧ (∃ e, restored e c0 (k_cpu s')) ∧
      (∃ x, k_tasks s' !! curr_task (k_tm s') = Some x ∧ sel = u16 (tss_sel x)) ∧
      resumable e (dom (k_tasks s')) k
  end.

Lemma stops_halts e c0 t (r : kres unit) s' :
  c_eflags c0 = e → stops c0 t r s' → halts e c0 t r s'.
Proof.
  intros <-. destruct r as [x s1|?|sel s1 k]; cbn; [done|done|].
  intros (? & ? & ? & ? & Hk). split_and!; try done. intros s Hl Hn Hd.
  destruct (Hk s Hl Hn Hd) as ([] & c & Hks & Hc). exists c. by left.
Qed.

(** Task [t] is inside a lock call on [m]. *)
Definition pending (P : gmap Z (kcall * K unit)) m t : bool :=
  match P !! t with Some (CLock m', _) => bool_decide (m' = m) | _ => false end.

Definition locks c m : bool := match c with CLock m' => bool_decide (m' = m) | _ => false end.

Lemma pending_delete P m t u :
  pending (delete t P) m u = if decide (u = t) then false else pending P m u.
Proof.
  unfold pending. case_decide as E; [by rewrite E, lookup_delete_eq|].
  by rewrite lookup_delete_ne.
Qed.

Lemma pending_insert P m t u c k :
  pending (<[t := (c, k)]> P) m u = if decide (u = t) then locks c m else pending P m u.
Proof.
  unfold pending. case_decide as E; [by rewrite E, lookup_insert_eq|].
  by rewrite lookup_insert_ne.
Qed.

Lemma pending_parked P m t c k : P !! t = Some (c, k) → pending P m t = locks c m.
Proof. unfold pending. by intros ->. Qed.

Lemma pending_none P m t : P !! t = None → pending P m t = false.
Proof. unfold pending. by intros ->. Qed.

Lemma holds_insert h m t m' t' n :
  holds (<[(t, m) := n]> h) m' t' = if decide (t' = t ∧ m' = m) then n else holds h m' t'.
Proof.
  unfold holds. case_decide as E.
  - destruct E as [-> ->]. by rewrite lookup_insert_eq.
  - rewrite lookup_insert_ne; [done|]. intros [= -> ->]. by apply E.
Qed.

(** A semaphore with a positive count has no waiters. *)
Definition sem_ok (v : Z) (q : list Z) : Prop := is_s32 v ∧ (0 < v → q = []).

(** The events of the rest of a call. *)
Definition rests (e : event) : Prop := match e with EStay | EWake _ => True | _ => False end.

(** The events of a call. *)
Definition does c (e : event) : Prop :=
  match c, e with
  | CYield, EYield => True
  | CSleep ms, ESleep ms' => ms' = ms
  | CLock m, (ELock m' | EAgain m' | EWait m') => m' = m
  | CUnlock m, (ENest m' | ERelease m' | EHandoff m') => m' = m
  | CUnlock _, EStay => True
  | CWait o, (ETake o' | EWait o') => o' = o
  | CNotify o, (EPut o' | EHandoff o') => o' = o
  | CCreate t _ _ _, ECreate t' => t' = t
  | (CLog _ _ | CIrqOn | CIrqOff), EStay => True
  | CTick _, _ => is_tick e = true
  | _, _ => False
  end.

(** Calls that can be suspended when a task makes them. *)
Definition parkable c : Prop :=
  match c with CUnlock _ | CCreate _ _ _ _ | CIrqOn | CIrqOff => False | _ => True end.

Lemma created_parkable (c : kcall) (C : gset Z) : parkable c → created_after c C = C.
Proof. by destruct c. Qed.

Lemma flags_parkable t (c : kcall) fl : parkable c → flags_after t c fl = fl.
Proof. by destruct c. Qed.

Definition ledgers s a (P : gmap Z (kcall * K unit)) (h : gmap (Z * Z) Z) : Prop :=
  ∀ m x, k_mutex s !! m = Some x →
    mutex_ledger (owner x) (locked_count x) (queue_at a (PWait m)) (pending P m) (holds h m).

(** Semaphores are consistent, and tasks wait for objects that exist. *)
Record sems_ok s a : Prop := {
  sk_sem : ∀ o y, k_mutex s !! o = None → k_sem s !! o = Some y →
    sem_ok (sem_value y) (queue_at a (PWait o));
  sk_real : ∀ o t, t ∈ queue_at a (PWait o) → is_Some (list_at s (PWait o))
}.

Lemma list_at_object s o :
  is_Some (list_at s (PWait o)) ↔ is_Some (k_mutex s !! o) ∨ is_Some (k_sem s !! o).
Proof.
  cbn. destruct (k_mutex s !! o); [by split; [left|]|]. rewrite fmap_is_Some.
  split; [by right|]. by intros [[]|].
Qed.

Lemma sems_same s a s' a' :
  sems_ok s a → k_mutex s' = k_mutex s → k_sem s' = k_sem s →
  (∀ o, queue_at a' (PWait o) = queue_at a (PWait o)) → sems_ok s' a'.
Proof.
  intros [Hs Hl] Em Es Hq. split.
  - intros o y. rewrite Em, Es, Hq. apply Hs.
  - intros o t. rewrite Hq, list_at_object, Em, Es, <-list_at_object. apply Hl.
Qed.

Lemma sems_update s a s' a' o v l :
  sems_ok s a → k_mutex s' = k_mutex s → k_sem s' = <[o := Sem v l]> (k_sem s) →
  (∀ o', o' ≠ o → queue_at a' (PWait o') = queue_at a (PWait o')) →
  sem_ok v (queue_at a' (PWait o)) → sems_ok s' a'.
Proof.
  intros [Hs Hl] Em Es Hq Hv. split.
  - intros o' y Hm Hy. rewrite Es in Hy. rewrite Em in Hm.
    destruct (decide (o' = o)) as [->|Hne].
    + rewrite lookup_insert_eq in Hy. by simplify_eq.
    + rewrite lookup_insert_ne in Hy by done. rewrite Hq by done. by apply Hs.
  - intros o' t Ht. rewrite list_at_object, Em, Es. destruct (decide (o' = o)) as [->|Hne].
    + right. by rewrite lookup_insert_eq.
    + rewrite lookup_insert_ne, <-list_at_object by done. apply (Hl o' t). by rewrite <-Hq.
Qed.

Lemma sems_mutex s a s' a' m x :
  sems_ok s a → k_mutex s' = <[m := x]> (k_mutex s) → k_sem s' = k_sem s →
  (∀ m', m' ≠ m → queue_at a' (PWait m') = queue_at a (PWait m')) → sems_ok s' a'.
Proof.
  intros [Hs Hl] Em Es Hq. split.
  - intros o y Hm Hy. rewrite Em in Hm. rewrite Es in Hy.
    assert (o ≠ m) as Hne by (intros ->; by rewrite lookup_insert_eq in Hm).
    rewrite Hq by done. rewrite lookup_insert_ne in Hm by done. by eapply Hs.
  - intros o t Ht. rewrite list_at_object, Em, Es. destruct (decide (o = m)) as [->|Hne].
    + left. by rewrite lookup_insert_eq.
    + rewrite lookup_insert_ne, <-list_at_object by done. apply (Hl o t). by rewrite <-Hq.
Qed.

(** The time slices of the tasks and the countdowns of the sleepers. *)
Definition slices M : Z → Z := slice_ticks_of (m_state M).
Definition naps M : Z → Z := sleep_ticks_of (m_state M).

(** The running task has its own flags, and the tasks that start from their TSS
    find theirs there. *)
Record flags_ok M a : Prop := {
  fo_first : first_task ∈ m_created M;
  fo_idle : idle_task ∈ m_created M ∧ own_flags M idle_task = new_flags;
  fo_parked : ∀ t, is_Some (m_parked M !! t) → t ∈ m_created M;
  fo_run : m_parked M !! a_curr a = None → c_eflags (k_cpu (m_state M)) = own_flags M (a_curr a);
  fo_rest : ∀ t, t ∈ m_created M → t ≠ a_curr a → m_parked M !! t = None →
    tss_flags (m_state M) t = Some (own_flags M t)
}.

Record minv M a : Prop := {
  mi_core : core (m_created M) (m_state M) a;
  mi_tr : tss_of (k_gdt (m_state M)) (c_tr (k_cpu (m_state M))) = Some (a_curr a);
  mi_parked : ∀ t c k, m_parked M !! t = Some (c, k) →
    parkable c ∧ resumable (own_flags M t) (dom (k_tasks (m_state M))) k;
  mi_flags : flags_ok M a;
  mi_mutex : ledgers (m_state M) a (m_parked M) (m_held M);
  mi_sem : sems_ok (m_state M) a;
  mi_slices : slices_ok (m_created M) (slices M);
  mi_naps : dozing a (naps M)
}.

(** The machine [M'] is [M] after the event [e]. *)
Record advances M a (e : event) M' : Prop := {
  av_inv : minv M' (do_event e a);
  av_effect : effect (m_state M) a e (m_state M');
  av_created : m_created M' = grow e (m_created M);
  (** a task that goes on running is not suspended *)
  av_runs : a_curr (do_event e a) = a_curr a → m_parked M' !! a_curr a = None;
  (** the port history grows *)
  av_io : ∃ ev, c_io (k_cpu (m_state M')) = ev ++ c_io (k_cpu (m_state M))
}.

Lemma minv_curr M a : minv M a → current M = a_curr a.
Proof. intros HM. apply (kr_curr _ _ (co_rel _ _ _ (mi_core _ _ HM))). Qed.

(** What a call leaves of the flags in the TSS of the tasks that do not run. *)
Record flags_kept M a c s' : Prop := {
  fk_rest : ∀ t, t ∈ m_created M → t ≠ a_curr a → tss_flags s' t = tss_flags (m_state M) t;
  fk_new : ∀ u entry esp nm, c = CCreate u entry esp nm →
    (u ∉ m_created M) ∧ tss_flags s' u = Some new_flags;
  fk_idle : a_curr a = idle_task → parkable c
}.

Lemma flags_kept_parkable M a c s' :
  parkable c → keeps (m_state M) s' → flags_kept M a c s'.
Proof. intros Hp Hk. split; [intros t _ _; apply Hk|by destruct c|done]. Qed.

Lemma flags_others M a c s' t :
  flags_kept M a c s' → t ∈ m_created M → t ≠ a_curr a ∨ t = idle_task →
  default 0 (flags_after (a_curr a) c (m_flags M) !! t) = own_flags M t.
Proof.
  intros [_ Hn Hi] Ht Hc.
  assert (Hne : parkable c ∨ t ≠ a_curr a).
  { destruct Hc as [|Et]; [by right|]. destruct (decide (t = a_curr a)); [left|by right].
    apply Hi. congruence. }
  destruct c as [| | | | | |u entry esp nm| | | |]; try done; cbn [flags_after].
  - destruct (Hn _ _ _ _ eq_refl) as [Hu _]. rewrite lookup_insert_ne; [done|]. by intros ->.
  - destruct Hne; [done|]. by rewrite lookup_insert_ne by by apply not_eq_sym.
  - destruct Hne; [done|]. by rewrite lookup_insert_ne by by apply not_eq_sym.
Qed.

(** *** Settling a run of kernel code *)
Section settle.
Context (M : machine) (a : kabs) (c : kcall) (s' : kstate) (a' : kabs) (HM : minv M a).
Context (Htr : tss_of (k_gdt s') (c_tr (k_cpu (m_state M))) = Some (a_curr a)).
Context (Hdom : dom (k_tasks s') = dom (k_tasks (m_state M))).
Context (Hsem : sems_ok s' a').
Context (ev : event) (Ha' : a' = do_event ev a) (Hef : effect (m_state M) a ev s').
Context (Hgr : created_after c (m_created M) = grow ev (m_created M)).
Context (Hfk : flags_kept M a c s').
#[local] Abbreviation flags_now := (flags_after (a_curr a) c (m_flags M)).

Lemma settled_event M' :
  m_created M' = grow ev (m_created M) →
  (∀ t, slices M' t = slice_ticks_of s' t ∧ naps M' t = sleep_ticks_of s' t) →
  k_mutex (m_state M') = k_mutex s' → k_sem (m_state M') = k_sem s' →
  slices_ok (m_created M') (slices M') ∧ dozing a' (naps M') ∧
  effect (m_state M) a ev (m_state M').
Proof.
  intros Ec Et Em Eo. destruct Hef as [Hen Hsl Hob Hcn Hnap].
  assert (Es : ∀ t, slices M' t = charge ev a (slices M) t) by (intros t; by rewrite (proj1 (Et t))).
  assert (En : ∀ t, t ∈ a_sleep (do_event ev a) → naps M' t = doze ev a (naps M) t).
  { intros t Ht. by rewrite (proj2 (Et t)), Hnap. }
  split; [|split].
  - intros t Ht. rewrite Es. apply (charge_ok ev a (slices M) _ (m_created M) Hen);
      [apply (mi_slices _ _ HM)|by rewrite <-Ec].
  - intros t Ht. rewrite Ha' in Ht. rewrite En by done.
    by eapply doze_ok; [exact Hen|done|apply (mi_naps _ _ HM)|].
  - split; [done|done|by rewrite <-Hob; apply objs_same|done|done].
Qed.

Lemma created_grows t : t ∈ m_created M → t ∈ created_after c (m_created M).
Proof. intros Ht. destruct c; try done. cbn [created_after]. apply elem_of_union. by right. Qed.

Lemma flags_return M' :
  a_curr a' = a_curr a → c_eflags (k_cpu s') = default 0 (flags_now !! a_curr a) →
  M' = Machine s' (delete (a_curr a) (m_parked M)) (held_after (a_curr a) c (m_held M))
    (created_after c (m_created M)) flags_now →
  flags_ok M' a'.
Proof.
  intros Ec Ef ->. destruct (mi_flags _ _ HM) as [Hf [Hi Hie] Hp _ Hrest].
  split; cbn [m_parked m_created m_state m_flags].
  - by apply created_grows.
  - split; [by apply created_grows|]. rewrite <-Hie. eapply flags_others; [done|done|by right].
  - intros t [x Hx]. apply lookup_delete_Some in Hx as [_ Hx]. apply created_grows, Hp. by exists x.
  - intros _. by rewrite Ec.
  - intros t Ht Hc Hn. rewrite Ec in Hc. rewrite lookup_delete_ne in Hn by by apply not_eq_sym.
    destruct (decide (t ∈ m_created M)) as [Hin|Hnew].
    + unfold own_flags at 1. cbn [m_flags].
      rewrite (flags_others M a c s' t) by (done || by left).
      rewrite (fk_rest _ _ _ _ Hfk) by done. by apply Hrest.
    + destruct c as [| | | | | |u entry esp nm| | | |]; try done.
      destruct (fk_new _ _ _ _ Hfk u entry esp nm eq_refl) as [_ Hu].
      cbn [created_after] in Ht. apply elem_of_union in Ht as [->%elem_of_singleton|]; [|done]. rewrite Hu.
      unfold own_flags. cbn. by rewrite lookup_insert_eq.
Qed.

Lemma settle_ret :
  a_curr a' = a_curr a → restored (default 0 (flags_now !! a_curr a)) (k_cpu (m_state M)) (k_cpu s') →
  core (created_after c (m_created M)) s' a' →
  ledgers s' a' (delete (a_curr a) (m_parked M)) (held_after (a_curr a) c (m_held M)) →
  ∃ M', settle M (a_curr a) c (KRet tt s') = Some M' ∧ advances M a ev M'.
Proof.
  intros Ec [io Ecpu] Hc Hl. eexists. split; [done|].
  destruct (settled_event (Machine s' (delete (a_curr a) (m_parked M))
    (held_after (a_curr a) c (m_held M)) (created_after c (m_created M)) flags_now)) as (Hs1 & Hd1 & Hs2); [done..|].
  split; [|done|done|by intros _; apply lookup_delete_eq|by exists io; cbn; rewrite Ecpu]. rewrite <-Ha'. split; try done.
  - cbn [m_state]. rewrite Ecpu, Ec. exact Htr.
  - cbn [m_parked m_state]. intros t c' k [Hne Hk]%lookup_delete_Some.
    rewrite Hdom. unfold own_flags. cbn [m_flags]. rewrite (flags_others M a c s' t); [|done| |].
    + by eapply (mi_parked _ _ HM).
    + apply (fo_parked _ _ (mi_flags _ _ HM)). by eexists.
    + left. by apply not_eq_sym.
  - eapply flags_return; [done|by rewrite Ecpu|done].
Qed.

Lemma flags_leave M' s2 P :
  a_curr a' ∈ m_created M → a_curr a' ≠ a_curr a → parkable c →
  (∀ t, t ≠ a_curr a → tss_flags s2 t = tss_flags s' t) →
  tss_flags s' (a_curr a') = Some (c_eflags (k_cpu s2)) →
  M' = Machine s2 (<[a_curr a := P]> (m_parked M)) (m_held M) (m_created M) (m_flags M) →
  flags_ok M' a'.
Proof.
  intros Hin Hne Hp Hs2 Ef ->. destruct (mi_flags _ _ HM) as [Hf Hi Hpk _ Hrest].
  split; cbn [m_parked m_created m_state]; try done.
  - intros t [x Hx]. destruct (decide (t = a_curr a)) as [->|Ht].
    + apply (core_curr _ _ _ (mi_core _ _ HM)).
    + rewrite lookup_insert_ne in Hx by by apply not_eq_sym. apply Hpk. by exists x.
  - intros Hn. rewrite lookup_insert_ne in Hn by by apply not_eq_sym.
    rewrite (fk_rest _ _ _ _ Hfk), Hrest in Ef by done. by injection Ef as <-.
  - intros t Ht _ Hn. destruct (decide (t = a_curr a)) as [->|Hta]; [by rewrite lookup_insert_eq in Hn|].
    rewrite lookup_insert_ne in Hn by by apply not_eq_sym.
    rewrite Hs2, (fk_rest _ _ _ _ Hfk) by done. by apply Hrest.
Qed.

Lemma settle_jump x k :
  a_curr a' ≠ a_curr a →
  parkable c → (∃ e, restored e (k_cpu (m_state M)) (k_cpu s')) →
  core (m_created M) s' a' → k_tasks s' !! a_curr a' = Some x →
  resumable (own_flags M (a_curr a)) (dom (k_tasks s')) k →
  ledgers s' a' (<[a_curr a := (c, k)]> (m_parked M)) (m_held M) →
  ∃ M', settle M (a_curr a) c (KJump (u16 (tss_sel x)) s' k) = Some M' ∧ advances M a ev M'.
Proof.
  intros Hne Hp [e [io Ecpu]] Hc Hx Hk Hl.
  destruct (hw_switch_ok _ s' a' x (a_curr a) Hc Hx)
    as (s2 & Hsw & Hc2 & Htr2 & Em & Es & Hkp & Hsl2 & Hfo & Hio & Hfn).
  { rewrite Ecpu. exact Htr. }
  { apply elem_of_dom. rewrite Hdom. apply elem_of_dom.
    destruct (co_tss _ _ _ (mi_core _ _ HM) (a_curr a)) as (y & Hy & _); [|by exists y].
    apply (core_curr _ _ _ (mi_core _ _ HM)). }
  cbn [settle]. rewrite Hsw. eexists. split; [done|].
  destruct (settled_event (Machine s2 (<[a_curr a := (c, k)]> (m_parked M)) (m_held M)
    (m_created M) (m_flags M))) as (Hs1 & Hd1 & Hs2); [by rewrite <-Hgr, created_parkable|done|done|done|].
  split; [|done|by cbn; rewrite <-Hgr, created_parkable|by rewrite <-Ha'
    |by exists io; cbn; rewrite Hio, Ecpu].
  rewrite <-Ha'. split; cbn [m_state m_parked m_held m_created].
  - done.
  - done.
  - rewrite (alike_dom _ _ Hkp). intros t c' k' Ht.
    destruct (decide (t = a_curr a)) as [->|Hta].
    + rewrite lookup_insert_eq in Ht. by simplify_eq.
    + rewrite lookup_insert_ne in Ht by done. rewrite Hdom. by eapply (mi_parked _ _ HM).
  - eapply flags_leave; [by apply (core_curr _ _ _ Hc)|done|done|done|by apply Hfn|done].
  - intros m y. rewrite Em. apply Hl.
  - by eapply sems_same.
  - exact Hs1.
  - exact Hd1.
Qed.

(** Either way, by whether the processor was given up. *)
Lemma settle_ok r :
  halts (own_flags M (a_curr a)) (k_cpu (m_state M)) (a_curr a) r s' →
  flags_now = m_flags M →
  (a_curr a' = a_curr a →
     core (created_after c (m_created M)) s' a' ∧
     ledgers s' a' (delete (a_curr a) (m_parked M)) (held_after (a_curr a) c (m_held M))) →
  krel s' a' →
  (a_curr a' ≠ a_curr a → parkable c ∧ core (m_created M) s' a' ∧
     ∀ k, ledgers s' a' (<[a_curr a := (c, k)]> (m_parked M)) (m_held M)) →
  ∃ M', settle M (a_curr a) c r = Some M' ∧ advances M a ev M'.
Proof.
  intros Hh Hfn Hret Hr Hjump. pose proof (kr_curr _ _ Hr) as Ec. destruct r as [[] s1|?|sel s1 k]; [|done|].
  - destruct Hh as (-> & Ht & He). destruct Hret as [Hc Hl]; [congruence|].
    apply settle_ret; [congruence|by rewrite Hfn|done|done].
  - destruct Hh as (-> & Ht & He & (x & Hx & ->) & Hk). destruct Hjump as (Hp & Hc & Hl); [congruence|].
    apply settle_jump; try done; [congruence|by rewrite <-Ec].
Qed.
End settle.

(** *** Calls that leave the mutexes alone *)
Lemma held_parkable t (c : kcall) h m u :
  parkable c → holds (held_after t c h) m u = if decide (u = t) then
    (if locks c m then holds h m t + 1 else holds h m t) else holds h m u.
Proof.
  intros Hp. destruct c as [| | m'| | | | | | | |]; cbn [held_after locks]; try done;
    try (by case_decide as E; [rewrite E|]).
  rewrite holds_insert. destruct (decide (u = t)) as [->|Hu], (decide (m = m')) as [->|Hm].
  - by rewrite bool_decide_true, decide_True.
  - by rewrite bool_decide_false, decide_False by (done || by intros [? ?]).
  - by rewrite decide_False by (by intros [? ?]).
  - by rewrite decide_False by (by intros [? ?]).
Qed.

(** The task starts the call [c], which is no lock, or is already inside it. *)
Definition inside M t (c : kcall) : Prop :=
  (m_parked M !! t = None ∧ ∀ m, locks c m = false) ∨ ∃ k, m_parked M !! t = Some (c, k).

Lemma inside_pending M t (c : kcall) m : inside M t c → pending (m_parked M) m t = locks c m.
Proof.
  intros [[Hn Hc]|[k Hk]]; [by rewrite pending_none|by eapply pending_parked].
Qed.

Lemma ledgers_return M s a t (c : kcall) :
  inside M t c → parkable c → (∀ m, t ∉ queue_at a (PWait m)) →
  ledgers s a (m_parked M) (m_held M) →
  ledgers s a (delete t (m_parked M)) (held_after t c (m_held M)).
Proof.
  intros Hin Hp Hq Hl m x Hx. specialize (Hl m x Hx).
  pose proof (inside_pending M t c m Hin) as Hpt.
  assert (Hh : ∀ u, holds (held_after t c (m_held M)) m u = if decide (u = t) then
    (if locks c m then holds (m_held M) m t + 1 else holds (m_held M) m t)
    else holds (m_held M) m u) by (intros u; by apply held_parkable).
  destruct (locks c m) eqn:El.
  - apply (ledger_acquired _ _ _ _ _ t Hl); [done|done| | | |].
    + by rewrite pending_delete, decide_True.
    + intros u Hu. by rewrite pending_delete, decide_False.
    + by rewrite Hh, decide_True.
    + intros u Hu. by rewrite Hh, decide_False.
  - eapply ledger_ext; [exact Hl|intros u..].
    + rewrite pending_delete. case_decide as E; [by rewrite E|done].
    + rewrite Hh. case_decide as E; [by rewrite E|done].
Qed.

Lemma ledgers_suspend M s a t (c : kcall) k :
  inside M t c → ledgers s a (m_parked M) (m_held M) →
  ledgers s a (<[t := (c, k)]> (m_parked M)) (m_held M).
Proof.
  intros Hin Hl m x Hx. eapply ledger_ext; [by apply Hl|intros u|done].
  rewrite pending_insert. case_decide as E; [|done]. rewrite E.
  symmetry. by apply inside_pending.
Qed.

Lemma move_ok M a (c : kcall) r s' a' (ev : event) :
  halts (own_flags M (a_curr a)) (k_cpu (m_state M)) (a_curr a) r s' →
  a' = do_event ev a → effect (m_state M) a ev s' → grow ev (m_created M) = m_created M →
  minv M a → inside M (a_curr a) c → parkable c →
  krel s' a' → same_tasks a a' → a_curr a' = next_task a' →
  keeps (m_state M) s' → k_mutex s' = k_mutex (m_state M) →
  (∀ m, is_Some (k_mutex s' !! m) → queue_at a' (PWait m) = queue_at a (PWait m)) →
  sems_ok s' a' →
  ∃ M', settle M (a_curr a) c r = Some M' ∧ advances M a ev M'.
Proof.
  intros Hh Ea' Hef Hgr HM Hin Hp Hr Hst Hn Hk Em Hq Hsem.
  assert (Hc : core (m_created M) s' a').
  { eapply core_step; [apply HM|done| |apply Hk|by rewrite Em..].
    by eapply sched_ok_same; [apply HM|..]. }
  assert (Hl : ledgers s' a' (m_parked M) (m_held M)).
  { intros m x Hx. rewrite Hq by by rewrite Hx. apply (mi_mutex _ _ HM). by rewrite <-Em. }
  apply (settle_ok M a c s' a' HM) with (ev := ev); try done.
  - rewrite (kp_gdt _ _ Hk). apply HM.
  - apply (alike_dom _ _ Hk).
  - by rewrite created_parkable.
  - by apply flags_kept_parkable.
  - by apply flags_parkable.
  - intros Ec. rewrite created_parkable by done. split; [done|]. apply ledgers_return; try done.
    intros m. rewrite <-Ec. by eapply core_not_waiting.
  - intros _. split; [done|]. split; [done|]. intros k. by apply ledgers_suspend.
Qed.

Lemma queue_wait o u a o' :
  queue_at (spec_dispatch (spec_wait o u a)) (PWait o') =
  if decide (o' = o) then queue_at a (PWait o) ++ [u] else queue_at a (PWait o').
Proof.
  unfold spec_wait, spec_dispatch. rewrite queue_at_set_curr, queue_at_set.
  repeat case_decide; congruence || done.
Qed.

Lemma queue_handoff o u q a o' :
  queue_at (spec_dispatch (spec_handoff o u q a)) (PWait o') =
  if decide (o' = o) then q else queue_at a (PWait o').
Proof.
  unfold spec_handoff, spec_ready, spec_dispatch. rewrite queue_at_set_curr, !queue_at_set.
  repeat case_decide; congruence || done.
Qed.

Lemma next_appended a u (q : list Z) o :
  a_curr a = next_task a → a_curr a ∈ a_ready a →
  a_curr (spec_dispatch (spec_handoff o u q a)) = a_curr a.
Proof.
  intros ->. unfold next_task. cbn. destruct (a_ready a); [|done]. by intros ?%not_elem_of_nil.
Qed.

(** *** Each kernel call *)
Section calls.
Context (M : machine) (a : kabs) (HM : minv M a).
Context (Hidle : a_curr a ≠ idle_task) (Hnone : m_parked M !! a_curr a = None).
#[local] Abbreviation s := (m_state M).
#[local] Abbreviation t := (a_curr a).

Definition goes_on (c : kcall) : Prop :=
  ∃ M' e, settle M t c (call_code c s) = Some M' ∧ advances M a e M' ∧ does c e.

Let Hr : krel s a := co_rel _ _ _ (mi_core _ _ HM).
Let Hin : t ∈ a_ready a := core_ready _ _ _ (mi_core _ _ HM) Hidle.
Let Hcur : curr_task (k_tm s) = t := kr_curr _ _ Hr.

Lemma stops_running (r : kres unit) s' :
  stops (k_cpu s) t r s' → halts (own_flags M t) (k_cpu s) t r s'.
Proof. apply stops_halts. by apply (fo_run _ _ (mi_flags _ _ HM)). Qed.

Lemma yield_goes_on : goes_on CYield.
Proof.
  destruct (sys_sched_yield_ok s a Hr (λ _, Hin)) as (s' & Hs & Hr' & Hf).
  assert (Hst : same_tasks a (spec_yield a) ∧ a_curr (spec_yield a) = next_task (spec_yield a)).
  { unfold spec_yield. case_bool_decide; [|split; [done|apply (mi_core _ _ HM)]].
    split; [|done]. etrans; [by apply same_rotate|apply same_dispatch]. }
  destruct Hst as [Hst Hn]. unfold call_ends in Hs. rewrite Hcur in Hs.
  destruct (move_ok M a CYield (call_code CYield s) s' (spec_yield a) EYield) as (M' & HM' & Hi); try done.
  - by apply stops_running, stops_value.
  - apply obj_effect; try done; [by apply sched_obj_frame|]. intros v _. by apply frame_sleep_ticks.
  - by left.
  - by apply keeps_sched.
  - by apply (sf_mutex _ _ Hf).
  - intros m _. unfold spec_yield. by case_bool_decide.
  - eapply sems_same; [apply HM|apply Hf|apply Hf|]. intros o. unfold spec_yield. by case_bool_decide.
  - by exists M', EYield.
Qed.

Lemma sleep_goes_on ms : 0 < ms < 2 ^ 31 → goes_on (CSleep ms).
Proof.
  intros Hms. destruct (sys_sleep_ok s a ms Hr Hin) as (s' & Hs & Hr' & Hf & Hnap).
  pose proof (ms_to_ticks_range ms Hms). destruct Hnap as (Hnap & _ & Hothers); [lia|].
  rewrite s32_id in Hnap by (unfold is_s32; lia).
  unfold call_ends in Hs. rewrite Hcur in Hs.
  assert (Hst : same_tasks a (spec_sleep ms a)).
  { unfold spec_sleep. rewrite (proj2 (Z.eqb_neq _ _)) by lia. by apply (same_move_out t PSleep). }
  destruct (move_ok M a (CSleep ms) (call_code (CSleep ms) s) s' (spec_sleep ms a) (ESleep ms))
    as (M' & HM' & Hi); try done.
  - by apply stops_running.
  - split; [exact Hms|apply Hf|by apply objs_same; apply Hf|done|].
    intros v _. cbn. case_decide as E; [by rewrite E|by apply Hothers].
  - by left.
  - by apply keeps_obj.
  - by apply (of_mutex _ _ Hf).
  - intros m _. unfold spec_sleep. by case_match.
  - eapply sems_same; [apply HM|apply Hf|apply Hf|]. intros o. unfold spec_sleep. by case_match.
  - by exists M', (ESleep ms).
Qed.

(** A log line leaves the tasks alone. *)
Lemma log_goes_on fmt args out :
  format (bytes_of_string fmt) args = Some out → Z.of_nat (length out) ≤ 127 →
  goes_on (CLog fmt args).
Proof.
  intros Hf Hl. pose proof (mi_core _ _ HM) as Hc.
  destruct (log_printf_quiet fmt args out s (co_log _ _ _ Hc) Hf Hl) as [ev Hev].
  destruct (move_ok M a (CLog fmt args) (call_code (CLog fmt args) s)
    (set_cpu (add_io ev (k_cpu s)) s) a EStay) as (M' & HM' & Hi); try done.
  - cbn [call_code]. rewrite Hev. split; [done|]. split; [apply Hcur|].
    rewrite <-(fo_run _ _ (mi_flags _ _ HM) Hnone). by exists ev.
  - by left.
  - by apply krel_set_cpu, Hc.
  - apply Hc.
  - by eapply sems_same; [apply HM|..].
  - by exists M', EStay.
Qed.

Lemma none_delete m u : pending (delete t (m_parked M)) m u = pending (m_parked M) m u.
Proof. rewrite pending_delete. case_decide as E; [rewrite E; by rewrite pending_none|done]. Qed.

(** Masking and unmasking interrupts changes the flags of the caller only. *)
Lemma irq_goes_on (c : kcall) (e : Z) :
  c = CIrqOn ∧ e = irq_on (own_flags M t) ∨ c = CIrqOff ∧ e = irq_off (own_flags M t) → goes_on c.
Proof.
  intros Hc. pose proof (fo_run _ _ (mi_flags _ _ HM) Hnone) as Ef.
  set (s' := set_cpu (set_eflags e (k_cpu s)) s).
  assert (Hcode : call_code c s = KRet tt s').
  { unfold s'. by destruct Hc as [[-> ->]|[-> ->]]; rewrite <-Ef. }
  assert (Hsame : created_after c (m_created M) = m_created M ∧
    held_after t c (m_held M) = m_held M ∧ does c EStay) by by destruct Hc as [[-> _]|[-> _]].
  destruct Hsame as (Hcr & Hh & Hd). unfold goes_on. rewrite Hcode.
  destruct (settle_ret M a c s' a HM) with (ev := EStay) as (M' & HM' & Hi); try done.
  - apply HM.
  - by eapply sems_same; [apply HM|..].
  - split; [done|by destruct Hc as [[-> _]|[-> _]]|done].
  - destruct Hc as [[-> ->]|[-> ->]]; cbn [flags_after]; rewrite lookup_insert_eq; by exists [].
  - rewrite Hcr. by apply core_set_cpu, HM.
  - rewrite Hh. intros m x Hx. eapply ledger_ext; [by apply (mi_mutex _ _ HM)| |done].
    intros v. apply none_delete.
  - by exists M', EStay.
Qed.

(** A semaphore call, given what it does. *)
Lemma sem_goes_on (c : kcall) o v v' s' l a' (e : event) :
  parkable c → (∀ m, locks c m = false) → is_sem o v s →
  call_ends (call_code c) s s' → krel s' a' →
  a' = do_event e a → ipc_event e → does c e → k_mutex s' = k_mutex s →
  k_sem s' = <[o := Sem v' l]> (k_sem s) → ipc_frame s s' →
  enabled e a (slices M) (objs_of s) → do_objs e a (objs_of s) = set_sem o v' (objs_of s) →
  same_tasks a a' → a_curr a' = next_task a' →
  (∀ o', o' ≠ o → queue_at a' (PWait o') = queue_at a (PWait o')) →
  sem_ok v' (queue_at a' (PWait o)) → goes_on c.
Proof.
  intros Hp Hl [Hm _] Hs Hr' Ea He Hd Em Es Hf Hen Hob Hst Hn Hq Hv. unfold call_ends in Hs. rewrite Hcur in Hs.
  destruct (move_ok M a c (call_code c s) s' a' e) as (M' & HM' & Hi); try done.
  - by apply stops_running.
  - apply ipc_effect; [done|done|done|]. rewrite Hob. by eapply objs_sem.
  - by apply ipc_grow.
  - by left.
  - by apply keeps_ipc.
  - intros m [x Hx]. apply Hq. intros ->. rewrite Em in Hx. congruence.
  - by eapply sems_update; [apply HM|..].
  - by exists M', e.
Qed.

Lemma wait_goes_on o :
  k_mutex s !! o = None → is_Some (k_sem s !! o) → goes_on (CWait o).
Proof.
  intros Hm [[v l0] Hs]. destruct (sk_sem _ _ (mi_sem _ _ HM) o _ Hm Hs) as [Hv Hq]. cbn [sem_value] in Hv, Hq.
  assert (His : is_sem o v s) by (split; [done|by exists l0]).
  pose proof (sem_wait_ok s a o v Hr His Hv Hin) as Hw. unfold spec_sem_wait in Hw.
  destruct (Z.ltb_spec 0 v) as [Hp|Hp]; destruct Hw as (s' & l & Hc & Hr' & Em & Es & Hf).
  - eapply (sem_goes_on (CWait o)) with (e := ETake o); try done.
    { split; [by apply objs_mutex_none|]. exists v. split; [by eapply objs_sem_at|done]. }
    { cbn [do_objs]. unfold value_of. by rewrite (objs_sem_at _ _ _ _ Hs). }
    { apply (mi_core _ _ HM). }
    split; [unfold is_s32 in *; lia|]. intros _. by apply Hq.
  - eapply (sem_goes_on (CWait o)) with (e := EWait o); try done.
    + cbn [enabled]. rewrite (objs_mutex_none _ _ Hm). exists v. split; [by eapply objs_sem_at|done].
    + cbn [do_objs]. symmetry. eapply set_sem_same, objs_sem_at, Hs.
    + etrans; [|apply same_dispatch]. by apply same_move_out.
    + intros o' Hne. by rewrite queue_wait, decide_False.
    + split; [done|lia].
Qed.

Lemma notify_goes_on o :
  k_mutex s !! o = None → is_Some (k_sem s !! o) → goes_on (CNotify o).
Proof.
  intros Hm [[v l0] Hs]. destruct (sk_sem _ _ (mi_sem _ _ HM) o _ Hm Hs) as [Hv Hq]. cbn [sem_value] in Hv, Hq.
  assert (His : is_sem o v s) by (split; [done|by exists l0]).
  pose proof (sem_notify_ok s a o v Hr His) as Hw. unfold spec_sem_notify in Hw.
  destruct (queue_at a (PWait o)) as [|u q] eqn:Eq; destruct Hw as (s' & l & Hc & Hr' & Em & Es & Hf).
  - eapply (sem_goes_on (CNotify o)) with (e := EPut o); try done.
    { split; [by apply objs_mutex_none|]. split; [|done]. eexists. by eapply objs_sem_at. }
    { cbn [do_objs]. unfold value_of. by rewrite (objs_sem_at _ _ _ _ Hs). }
    { apply (mi_core _ _ HM). }
    split; [apply s32_range|]. by intros _.
  - eapply (sem_goes_on (CNotify o)) with (e := EHandoff o); try done.
    + cbn [do_event]. by rewrite Eq.
    + cbn [enabled]. rewrite (objs_mutex_none _ _ Hm), Eq. split; [done|]. eexists. by eapply objs_sem_at.
    + cbn [do_objs]. rewrite (objs_mutex_none _ _ Hm), Eq. symmetry. eapply set_sem_same, objs_sem_at, Hs.
    + etrans; [|apply same_dispatch]. by apply (same_move_in u (PWait o)).
    + intros o' Hne. by rewrite queue_handoff, decide_False.
    + split; [done|]. intros Hp. specialize (Hq Hp). discriminate.
Qed.

(** *** Locking and unlocking *)
Lemma next_blocked : next_task (spec_block t a) ≠ t.
Proof.
  unfold next_task, spec_block. cbn. destruct (filter _ _) as [|u q] eqn:E; [by apply not_eq_sym|].
  cbn. intros ->. assert (Hu : t ∈ filter (λ v, v ≠ t) (a_ready a)) by (rewrite E; left).
  by apply list_elem_of_filter in Hu as [].
Qed.

Lemma holds_other (c : kcall) m m' u h :
  c = CLock m ∨ c = CUnlock m → m' ≠ m → holds (held_after t c h) m' u = holds h m' u.
Proof.
  intros [-> | ->] Hne; cbn; [|case_match]; rewrite ?holds_insert, ?decide_False; done || by intros [_ ?].
Qed.

Lemma mutex_goes_on (c : kcall) m o n l s' a' (e : event) :
  c = CLock m ∨ c = CUnlock m → ¬ kernel_mutex m →
  call_ends (call_code c) s s' → krel s' a' →
  a' = do_event e a → ipc_event e → does c e →
  k_mutex s' = <[m := Mutex o n l]> (k_mutex s) → k_sem s' = k_sem s → ipc_frame s s' →
  enabled e a (slices M) (objs_of s) → do_objs e a (objs_of s) = set_mutex m (o, n) (objs_of s) →
  same_tasks a a' → a_curr a' = next_task a' → is_Some (k_mutex s !! m) →
  (∀ m', m' ≠ m → queue_at a' (PWait m') = queue_at a (PWait m')) →
  (a_curr a' = t → mutex_ledger o n (queue_at a' (PWait m)) (pending (m_parked M) m)
                     (holds (held_after t c (m_held M)) m)) →
  (a_curr a' ≠ t → c = CLock m ∧
     ∀ k, mutex_ledger o n (queue_at a' (PWait m)) (pending (<[t := (c, k)]> (m_parked M)) m)
            (holds (m_held M) m)) →
  goes_on c.
Proof.
  intros Hc Hk Hs Hr' Ea He Hd Em Es Hf Hen Hob Hst Hn [x0 Hx0] Hq Hret Hjump. unfold call_ends in Hs. rewrite Hcur in Hs.
  pose proof (keeps_ipc _ _ Hf) as Hkp.
  assert (Hcore : core (m_created M) s' a').
  { eapply core_step; [apply HM|done| |apply Hkp|..].
    - by eapply sched_ok_same; [apply HM|..].
    - rewrite Em, lookup_insert_ne; [done|]. intros ->. apply Hk. by left.
    - rewrite Em, lookup_insert_ne; [done|]. intros ->. apply Hk. by right; left. }
  destruct (settle_ok M a c s' a' HM) with (r := call_code c s) (ev := e) as (M' & HM' & Hi); try done.
  - rewrite (kp_gdt _ _ Hkp). apply HM.
  - apply (alike_dom _ _ Hkp).
  - eapply sems_mutex; [apply HM|done..].
  - apply ipc_effect; [done|done|done|]. rewrite Hob. by eapply objs_mutex.
  - rewrite (ipc_grow e) by done. by destruct Hc as [-> | ->].
  - split; [intros v _ _; apply Hkp|by destruct Hc as [-> | ->]|done].
  - by apply stops_running.
  - by destruct Hc as [-> | ->].
  - intros Ec. split; [by destruct Hc as [-> | ->]|]. intros m' x Hx. rewrite Em in Hx.
    destruct (decide (m' = m)) as [->|Hne].
    + rewrite lookup_insert_eq in Hx. simplify_eq/=. eapply ledger_ext; [by apply Hret|intros u|done].
      apply none_delete.
    + rewrite lookup_insert_ne in Hx by done. rewrite Hq by done.
      eapply ledger_ext; [by eapply (mi_mutex _ _ HM)|intros u; apply none_delete|].
      intros u. by eapply holds_other.
  - intros Ec. destruct (Hjump Ec) as [-> Hl]. split; [done|]. split; [done|].
    intros k m' x Hx. rewrite Em in Hx. destruct (decide (m' = m)) as [->|Hne].
    + rewrite lookup_insert_eq in Hx. simplify_eq/=. apply Hl.
    + rewrite lookup_insert_ne in Hx by done. rewrite Hq by done.
      eapply ledger_ext; [by eapply (mi_mutex _ _ HM)|intros u|done].
      rewrite pending_insert. case_decide as E; [|done]. rewrite E, pending_none by done.
      cbn. by apply bool_decide_false.
  - by exists M', e.
Qed.

Lemma holds_lock m u h :
  holds (held_after t (CLock m) h) m u = if decide (u = t) then holds h m t + 1 else holds h m u.
Proof.
  cbn. rewrite holds_insert. destruct (decide (u = t)) as [->|Hu]; [by rewrite decide_True|].
  by rewrite decide_False by (by intros [? _]).
Qed.

Lemma lock_goes_on m x :
  ¬ kernel_mutex m → k_mutex s !! m = Some x → locked_count x < 2 ^ 31 - 1 → goes_on (CLock m).
Proof.
  intros Hk Hm Hlt. pose proof (mi_mutex _ _ HM m x Hm) as HL.
  pose proof (pending_none (m_parked M) m t Hnone) as Hpt.
  pose proof (objs_mutex_at s m x Hm) as Hob.
  pose proof (mutex_lock_ok s a m x Hr Hm Hin) as Hw. unfold spec_lock in Hw.
  destruct (Z.eqb_spec (locked_count x) 0) as [E0|E0];
    [|destruct (Z.eqb_spec (owner x) t) as [Eo|Eo]]; destruct Hw as (s' & l & Hs & Hr' & Em & Es & Hf).
  - eapply (mutex_goes_on (CLock m) m) with (e := ELock m); try done;
      [by left|exists (owner x); by rewrite Hob, E0|apply (mi_core _ _ HM)|].
    intros _. eapply (ledger_take _ _ _ _ _ t HL); [done|done| |].
    + by rewrite holds_lock, decide_True.
    + intros u Hu. by rewrite holds_lock, decide_False.
  - pose proof (ml_count _ _ _ _ _ HL) as Hc. rewrite s32_id in Em by (unfold is_s32; lia).
    eapply (mutex_goes_on (CLock m) m) with (e := EAgain m); try done;
      [by left|exists (locked_count x); rewrite Hob, Eo; split; [done|lia]
      |cbn [do_objs]; unfold count_of; by rewrite Hob, Eo|apply (mi_core _ _ HM)|].
    intros _. eapply (ledger_again _ _ _ _ _ t HL); [done|done|lia|done| |].
    + by rewrite holds_lock, decide_True.
    + intros u Hu. by rewrite holds_lock, decide_False.
  - eapply (mutex_goes_on (CLock m) m) with (e := EWait m); try done;
      [by left|by cbn [enabled]; rewrite Hob|cbn [do_objs]; by rewrite (set_mutex_same _ _ _ Hob)| | |..].
    + etrans; [|apply same_dispatch]. by apply same_move_out.
    + intros m' Hne. by rewrite queue_wait, decide_False.
    + intros Ec. by destruct next_blocked.
    + intros _. split; [done|]. intros k. rewrite queue_wait, decide_True by done.
      apply (ledger_wait _ _ _ _ _ t HL); [by apply not_eq_sym|done|done| |].
      * rewrite pending_insert, decide_True by done. cbn. by apply bool_decide_true.
      * intros u Hu. by rewrite pending_insert, decide_False.
Qed.

Lemma holds_unlock m u h :
  0 < holds h m t →
  holds (held_after t (CUnlock m) h) m u = if decide (u = t) then holds h m t - 1 else holds h m u.
Proof.
  intros Hp. cbn. rewrite (proj2 (Z.ltb_lt _ _) Hp), holds_insert.
  destruct (decide (u = t)) as [->|Hu]; [by rewrite decide_True|].
  by rewrite decide_False by (by intros [? _]).
Qed.

(** The owner releases the mutex to the first waiter. *)
Lemma unlock_hands_over m u q s' l :
  ¬ kernel_mutex m → k_mutex s !! m = Some (Mutex t 1 l) → queue_at a (PWait m) = u :: q → t ≠ 0 →
  call_ends (call_code (CUnlock m)) s s' → krel s' (spec_dispatch (spec_handoff m u q a)) →
  (∃ l', k_mutex s' = <[m := Mutex u 1 l']> (k_mutex s)) → k_sem s' = k_sem s → ipc_frame s s' →
  goes_on (CUnlock m).
Proof.
  intros Hk Hm Eq Ht0 Hs Hr' [l' Em] Es Hf. pose proof (mi_mutex _ _ HM m _ Hm) as HL.
  pose proof (objs_mutex_at s m _ Hm) as Hob. cbn [owner locked_count] in *.
  destruct (ledger_handoff _ _ _ _ _ t HL u q (λ u, if decide (u = t) then
    holds (m_held M) m t - 1 else holds (m_held M) m u)) as [Hl Hp]; try done;
    [apply (ao_nodup _ (kr_ok _ _ Hr))|apply (pending_none (m_parked M) m t Hnone)
    |by rewrite decide_True|by intros v Hv; rewrite decide_False|].
  assert (Ec : a_curr (spec_dispatch (spec_handoff m u q a)) = t).
  { by apply next_appended; [apply (mi_core _ _ HM)|]. }
  eapply (mutex_goes_on (CUnlock m) m) with (e := EHandoff m); try done;
    [by right|cbn [do_event]; by rewrite Eq|by cbn [enabled]; rewrite Hob, Eq
    |cbn [do_objs]; by rewrite Hob, Eq| | |..].
  - etrans; [|apply same_dispatch]. by apply (same_move_in u (PWait m)).
  - intros m' Hne. by rewrite queue_handoff, decide_False.
  - intros _. rewrite queue_handoff, decide_True by done.
    eapply ledger_ext; [exact Hl|done|]. intros v. by apply holds_unlock.
Qed.

Lemma unlock_goes_on m x :
  ¬ kernel_mutex m → k_mutex s !! m = Some x → goes_on (CUnlock m).
Proof.
  intros Hk Hm. pose proof (mi_mutex _ _ HM m x Hm) as HL.
  pose proof (pending_none (m_parked M) m t Hnone) as Hpt.
  pose proof (ml_count _ _ _ _ _ HL) as Hc.
  assert (Ht0 : t ≠ 0).
  { pose proof (to_addr _ _ (kr_tasks _ _ Hr) t (kr_in _ _ Hr PReady t Hin)). lia. }
  pose proof (objs_mutex_at s m x Hm) as Hob.
  pose proof (mutex_unlock_ok s a m x Hr Hm) as Hw. unfold spec_unlock in Hw.
  destruct (Z.eqb_spec (owner x) t) as [Eo|Eo]; cbn [negb] in Hw;
    [destruct (Z.eqb_spec (locked_count x) 1) as [E1|E1]; cbn [negb] in Hw;
      [destruct (queue_at a (PWait m)) as [|u q] eqn:Eq|]|].
  - destruct Hw as (s' & l & Hs & Hr' & Em & Es & Hf); [unfold is_s32; lia|].
    destruct (ledger_release _ _ _ _ _ t HL (λ u, if decide (u = t) then
      holds (m_held M) m t - 1 else holds (m_held M) m u)) as [Hl Hp]; try done;
      [by rewrite decide_True|by intros u Hu; rewrite decide_False|].
    eapply (mutex_goes_on (CUnlock m) m) with (e := ERelease m); try done;
      [by right|by split; [rewrite Hob, Eo, E1|]|apply (mi_core _ _ HM)|].
    intros _. rewrite Eq. eapply ledger_ext; [exact Hl|done|]. intros u. by apply holds_unlock.
  - destruct Hw as (s' & l & Hs & Hr' & Em & Es & Hf); [unfold is_s32; lia|].
    destruct x as [o n w]. cbn [owner locked_count] in *. subst o n.
    by eapply unlock_hands_over; [..|by exists l| |].
  - destruct Hw as (s' & l & Hs & Hr' & Em & Es & Hf); [unfold is_s32; lia|].
    destruct (ledger_nested _ _ _ _ _ t HL (λ u, if decide (u = t) then
      holds (m_held M) m t - 1 else holds (m_held M) m u)) as [Hl Hp]; try done;
      [by rewrite decide_True|by intros u Hu; rewrite decide_False|].
    rewrite s32_id in Em by (unfold is_s32; lia).
    assert (Hn0 : locked_count x ≠ 0) by (intros E0; destruct (ml_free _ _ _ _ _ HL E0); congruence).
    eapply (mutex_goes_on (CUnlock m) m) with (e := ENest m); try done;
      [by right|exists (locked_count x); rewrite Hob, Eo; split; [done|lia]
      |cbn [do_objs]; unfold count_of; by rewrite Hob, Eo|apply (mi_core _ _ HM)|].
    intros _. eapply ledger_ext; [exact Hl|done|]. intros u. by apply holds_unlock.
  - destruct Hw as (s' & l & Hs & Hr' & Em & Es & Hf); [unfold is_s32; lia|].
    pose proof (ledger_stranger _ _ _ _ _ t HL (not_eq_sym Eo) Hpt) as Hz.
    eapply (mutex_goes_on (CUnlock m) m) with (e := EStay); try done;
      [by right|cbn [do_objs]; by rewrite (set_mutex_same _ _ _ Hob)|apply (mi_core _ _ HM)|].
    intros _. cbn. by rewrite Hz.
Qed.

(** *** A new task *)
Lemma create_sched C u a1 :
  sched_ok C a1 → a_curr a1 ∈ a_ready a1 → u ≠ idle_task →
  sched_ok ({[ u ]} ∪ C) (spec_create u a1).
Proof.
  intros [Hn Hi Ha Hq Hp] Hcr Hu. unfold spec_create. rewrite decide_False by done. split.
  - unfold spec_ready, next_task in *. cbn. destruct (a_ready a1); [|done].
    by apply not_elem_of_nil in Hcr.
  - apply elem_of_union. by right.
  - intros v. cbn. rewrite elem_of_app, Ha, list_elem_of_singleton, elem_of_union, elem_of_singleton.
    tauto.
  - intros v Hv. apply placed_set in Hv as [[? _]|(r & Hra & _ & Hv)]; [done|].
    unfold spec_ready in Hv. rewrite queue_at_set in Hv. apply elem_of_union.
    case_decide as E; [|right; apply Hq; by exists r].
    apply elem_of_app in Hv as [Hv| ->%list_elem_of_singleton]; [right|left; by apply elem_of_singleton].
    apply Hq. by exists PReady.
  - intros v Hv Hvi. apply placed_set. right.
    assert (placed v (spec_ready u a1)) as (r & Hra & Hvr).
    { unfold spec_ready. apply placed_set. apply elem_of_union in Hv as [->%elem_of_singleton|Hv].
      - left. split; [done|]. apply elem_of_app. right. left.
      - destruct (Hp v Hv Hvi) as (r & Hra & Hvr). destruct (decide (r = PReady)) as [->|].
        + left. split; [done|]. apply elem_of_app. by left.
        + right. by exists r. }
    by exists r.
Qed.

Lemma created_not_idle u : u ∉ m_created M → u ≠ idle_task.
Proof. intros Hu ->. apply Hu, (co_sched _ _ _ (mi_core _ _ HM)). Qed.

Lemma created_unqueued u : u ∉ m_created M → unqueued u a.
Proof.
  pose proof (mi_core _ _ HM) as Hc. intros Hu p Hp. apply Hu.
  destruct (decide (p = PAll)) as [->|]; [by apply (co_sched _ _ _ Hc)|].
  apply (so_queued _ _ (co_sched _ _ _ Hc)). by exists p.
Qed.

Lemma created_queues u : u ∉ m_created M → a_curr (spec_create u a) = t ∧
  ∀ o, queue_at (spec_create u a) (PWait o) = queue_at a (PWait o).
Proof. intros Hu. unfold spec_create. by rewrite decide_False by by apply created_not_idle. Qed.

(** What the creation of a task leaves of the invariant; [s'] is the state after
    [task_init], which took descriptor [j]. *)
Section created.
Context (u entry esp : Z) (nm : list Z) (x : task_t) (s' : kstate) (j : nat) (d : segment_desc_t).
Context (Hu : u ∉ m_created M) (Hx : k_tasks s !! u = Some x) (Hnm : Z.of_nat (length nm) < TASK_NAME_SIZE).
Context (Hr' : krel s' (spec_create u a)) (Hj : (1 ≤ j < 256)%nat).
Context (Hd : k_gdt s !! j = Some d) (Ed : attr d = 0).
Context (Eg : k_gdt s' = <[j := segment_desc_make (u32 (u + tss_off)) tss_size tss_attr]> (k_gdt s)).
Context (Et : k_tasks s' !! u = Some (fresh_task TASK_READY nm entry esp (Z.of_nat j * 8))).
Context (Eu : ∀ v, v ≠ u → k_tasks s' !! v = k_tasks s !! v).
Context (Em : k_mutex s' = k_mutex s) (Es : k_sem s' = k_sem s).

Let Hc : core (m_created M) s a := mi_core _ _ HM.

Lemma created_dom : dom (k_tasks s') = dom (k_tasks s).
Proof.
  apply set_eq. intros v. rewrite !elem_of_dom. destruct (decide (v = u)) as [->|]; [|by rewrite Eu].
  rewrite Et, Hx. split; by eexists.
Qed.

Lemma created_core : core ({[ u ]} ∪ m_created M) s' (spec_create u a).
Proof.
  destruct (to_addr _ _ (kr_tasks _ _ Hr) u (mk_is_Some _ _ Hx)) as [Hpos Hend].
  destruct (has_tss_created s s' u _ j d ltac:(lia) (co_gdt _ _ _ Hc) Hpos Hend Hd Ed Eg Et
    eq_refl Eu) as [Htu Hto].
  assert (Hin' : ∀ v, v ∈ {[ u ]} ∪ m_created M → v ≠ u → v ∈ m_created M).
  { by intros v [->%elem_of_singleton|]%elem_of_union. }
  split; [done|apply create_sched; [apply Hc|done|by apply created_not_idle]| | | | | |].
  - destruct (co_log _ _ _ Hc) as [l Hl]. exists l. by rewrite Em.
  - destruct (co_gdtm _ _ _ Hc) as [l Hl]. exists l. by rewrite Em.
  - intros v y Hy. destruct (decide (v = u)) as [->|Hne]; [|by rewrite Eu in Hy; [eapply Hc|]].
    rewrite Et in Hy. injection Hy as <-. by apply task_name_fits.
  - rewrite Eg, length_insert. apply Hc.
  - intros v Hv. destruct (decide (v = u)) as [->|Hne]; [done|]. apply Hto; [done|].
    by apply (co_tss _ _ _ Hc), Hin'.
  - intros v y Hv Hy. destruct (decide (v = u)) as [->|Hne]; [rewrite Et in Hy; by injection Hy as <-|].
    rewrite Eu in Hy by done. by apply (co_time _ _ _ Hc v); [apply Hin'|].
Qed.

Lemma created_effect : effect s a (ECreate u) s'.
Proof.
  split; [split; [by apply created_not_idle|by apply created_unqueued]| |by apply objs_same|done|].
  - intros v. cbn. unfold slice_ticks_of. case_decide as E; [by rewrite E, Et|by rewrite Eu].
  - intros v Hv. rewrite sleep_queue_event in Hv. unfold sleep_ticks_of. cbn. rewrite Eu; [done|].
    intros ->. by apply (created_unqueued u Hu PSleep).
Qed.

Lemma created_flags : flags_kept M a (CCreate u entry esp nm) s'.
Proof.
  split; [| |done].
  - intros v Hv _. unfold tss_flags. rewrite Eu; [done|]. by intros ->.
  - intros v ? ? ? [= <- <- <- <-]. split; [done|]. unfold tss_flags. by rewrite Et.
Qed.
End created.

Lemma create_goes_on u entry esp nm :
  u ∉ m_created M → is_Some (k_tasks s !! u) → Z.of_nat (length nm) < TASK_NAME_SIZE →
  (∃ k d, (1 ≤ k < 256)%nat ∧ k_gdt s !! k = Some d ∧ attr d = 0) →
  goes_on (CCreate u entry esp nm).
Proof.
  intros Hu [x Hx] Hnm Hfree. pose proof (mi_core _ _ HM) as Hc.
  destruct (task_init_ok s a u x entry esp nm Hr Hx (created_unqueued u Hu) (co_gdtm _ _ _ Hc)
      (co_gdt _ _ _ Hc) Hfree Hnm)
    as (s' & j & d & Hi & Hr' & Hj & Hd & Ed & Eg & Et & Eu & Em & Es & Ec & _).
  rewrite decide_False in Et by by apply created_not_idle.
  destruct (created_queues u Hu) as [Ecur Hwq].
  destruct (settle_ret M a (CCreate u entry esp nm) s' (spec_create u a) HM) with (ev := ECreate u)
    as (M' & HM' & Hi').
  - rewrite Eg. eapply tss_of_unused; [done|done|apply HM].
  - by eapply created_dom.
  - by eapply sems_same; [apply HM|..].
  - done.
  - by eapply created_effect.
  - done.
  - by eapply created_flags.
  - done.
  - cbn [flags_after]. rewrite lookup_insert_ne by (intros ->; by destruct Hu; apply (core_curr _ _ _ Hc)).
    fold (own_flags M t). rewrite <-(fo_run _ _ (mi_flags _ _ HM) Hnone), Ec. apply restored_refl.
  - by eapply created_core.
  - intros m y Hy. rewrite Em in Hy. rewrite Hwq. eapply ledger_ext; [by apply (mi_mutex _ _ HM)| |done].
    intros v. apply none_delete.
  - exists M', (ECreate u). split; [|done]. unfold call_code. by rewrite (kbind_ret _ _ _ _ _ Hi).
Qed.
End calls.

(** *** The clock interrupt and the resumption of suspended calls *)
Lemma halts_leave c0 c1 e e' t (r : kres unit) s' :
  stops c1 t r s' → restored e c0 c1 →
  ∃ c, halts e' c0 t (kbind r (λ _, with_cpu (irq_leave_protection e'))) (set_cpu c s').
Proof.
  intros Hr Hc. destruct r as [[] s1|?|sel s1 k]; cbn in *; [|done|].
  - destruct Hr as (-> & Ht & Hc'). eexists. split; [done|]. split; [done|].
    by eapply restored_set, restored_trans.
  - destruct Hr as (-> & Ht & [e1 He1] & Hsel & Hk). exists (k_cpu s').
    replace (set_cpu (k_cpu s') s') with s' by by destruct s'. split_and!; try done.
    + exists e1. by eapply restored_trans.
    + intros s2 Hl Hn Hd. destruct (Hk s2 Hl Hn Hd) as ([] & c & -> & Hc2).
      exists (set_eflags e' c). left. split; [by eapply restored_set|done].
Qed.

Lemma still_asleep (tk : Z → Z) a t :
  t ∈ a_sleep (spec_dispatch (spec_wake tk a)) → t ∈ a_sleep a.
Proof. cbn. by intros [_ Ht]%list_elem_of_filter. Qed.

(** The rest of a clock interrupt, resumed in the state of machine [M]. *)
Lemma rest_goes_on M a (c : kcall) s1 r0 e :
  minv M a → inside M (a_curr a) c → parkable c →
  restored e (k_cpu (m_state M)) r0 → s1 = set_cpu r0 (m_state M) →
  ∃ M' ev, settle M (a_curr a) c ((tick_rest;;
      with_cpu (irq_leave_protection (own_flags M (a_curr a)))) s1) = Some M' ∧
    advances M a ev M' ∧ rests ev.
Proof.
  intros HM Hin Hp Hr0 ->. set (s1 := set_cpu r0 (m_state M)).
  pose proof (co_rel _ _ _ (mi_core _ _ HM)) as Hr.
  assert (Hr1 : krel s1 a) by by apply krel_set_cpu.
  destruct (tick_rest_ok s1 a Hr1) as (s2 & Hs & Hr2 & Hf & Hnap).
  unfold call_ends in Hs. rewrite (kr_curr _ _ Hr1) in Hs.
  destruct (halts_leave (k_cpu (m_state M)) (k_cpu s1) e (own_flags M (a_curr a)) _ _ _ Hs Hr0)
    as (c2 & Hh).
  set (a' := spec_dispatch (spec_wake (sleep_ticks_of s1) a)) in *.
  destruct (move_ok M a c _ (set_cpu c2 s2) a' (EWake (sleep_ticks_of s1)) Hh eq_refl) as (M' & HM' & Hi); try done.
  - apply obj_effect; try done.
    + transitivity s1; [apply sched_obj_frame, sched_frame_set_cpu|].
      etrans; [exact Hf|apply sched_obj_frame, sched_frame_set_cpu].
    + intros v Hv. apply Hnap. by eapply still_asleep.
  - by apply krel_set_cpu.
  - etrans; [apply same_wake|apply same_dispatch].
  - transitivity s1; [done|]. transitivity s2; [by apply keeps_obj|done].
  - by apply (of_mutex _ _ Hf).
  - eapply sems_same; [apply HM|apply Hf|apply Hf|done].
  - by exists M', (EWake (sleep_ticks_of s1)).
Qed.

Lemma resume_goes_on M a (c : kcall) k :
  minv M a → m_parked M !! a_curr a = Some (c, k) →
  ∃ M' e, settle M (a_curr a) c (k (m_state M)) = Some M' ∧ advances M a e M' ∧ rests e.
Proof.
  intros HM Hk. destruct (mi_parked _ _ HM _ _ _ Hk) as [Hp Hres].
  pose proof (mi_core _ _ HM) as Hc.
  destruct (Hres (m_state M) (co_log _ _ _ Hc) (co_names _ _ _ Hc) eq_refl)
    as (r & [[Hr ->]|[[e Hr] ->]]).
  - destruct (move_ok M a c (KRet tt (set_cpu r (m_state M))) (set_cpu r (m_state M)) a EStay)
      as (M' & HM' & Hi); try done.
    + split; [done|]. by split; [apply (kr_curr _ _ (co_rel _ _ _ Hc))|].
    + right. by exists k.
    + by apply krel_set_cpu, Hc.
    + apply Hc.
    + by eapply sems_same; [apply HM|..].
    + by exists M', EStay.
  - eapply rest_goes_on; [done|by right; exists k|done|exact Hr|done].
Qed.

(** The handler up to [task_time_tick]. *)
Lemma tick_enter s a frame :
  krel s a → ∃ s1 e, call_code (CTick frame) s =
      kbind (task_time_tick s1) (λ _, with_cpu (irq_leave_protection (c_eflags (k_cpu s)))) ∧
    krel s1 a ∧ keeps s s1 ∧ k_mutex s1 = k_mutex s ∧ k_sem s1 = k_sem s ∧
    restored e (k_cpu s) (k_cpu s1) ∧ k_tasks s1 = k_tasks s.
Proof.
  intros Hr. set (s0 := set_sys_tick (u32 (k_sys_tick s + 1)) (cli_state s)).
  exists (set_cpu (add_io [PortOut PIC0_OCW2 PIC_OCW2_EOI] (k_cpu s0)) s0).
  eexists. split; [reflexivity|]. split; [|split; [done|split; [done|split; [done|split; [|done]]]]].
  - by apply (krel_ext s).
  - by exists [PortOut PIC0_OCW2 PIC_OCW2_EOI].
Qed.

Lemma idle_or_ready M a : minv M a → a_curr a ∈ a_ready a ∨ a_curr a = idle_task.
Proof.
  intros HM. destruct (decide (a_curr a = idle_task)); [by right|left].
  by eapply core_ready; [apply HM|].
Qed.

Lemma tasks_counters M s1 :
  k_tasks s1 = k_tasks (m_state M) →
  (∀ t, slice_ticks_of s1 t = slices M t) ∧ (∀ t, sleep_ticks_of s1 t = naps M t).
Proof. intros E. unfold slices, naps, slice_ticks_of, sleep_ticks_of. by rewrite E. Qed.

(** A tick inside the slice. *)
Lemma tick_running M a s1 x e e' frame :
  minv M a → m_parked M !! a_curr a = None →
  krel s1 a → keeps (m_state M) s1 → k_mutex s1 = k_mutex (m_state M) →
  k_sem s1 = k_sem (m_state M) → restored e (k_cpu (m_state M)) (k_cpu s1) →
  k_tasks s1 = k_tasks (m_state M) →
  k_tasks s1 !! a_curr a = Some x → s32 (slice_ticks x - 1) ≠ 0 → e' = own_flags M (a_curr a) →
  ∃ M' ev, settle M (a_curr a) (CTick frame)
      (kbind (task_time_tick s1) (λ _, with_cpu (irq_leave_protection e'))) = Some M' ∧
    advances M a ev M' ∧ is_tick ev = true.
Proof.
  intros HM Hno Hr1 Hk Em Es He Hsl Hx Hn ->.
  destruct (tasks_counters M s1 Hsl) as [Hsl1 Hnap1].
  destruct (time_tick_running s1 a x Hr1 Hx Hn) as (s2 & Hs & Hr2 & Hf & Hnap & Hs2).
  unfold call_ends in Hs. rewrite (kr_curr _ _ Hr1) in Hs.
  destruct (halts_leave (k_cpu (m_state M)) (k_cpu s1) e (own_flags M (a_curr a)) _ _ _ Hs He)
    as (c2 & Hh).
  set (a' := spec_dispatch (spec_wake (sleep_ticks_of s1) a)) in *.
  assert (Ex : slices M (a_curr a) = slice_ticks x) by (rewrite <-Hsl1; unfold slice_ticks_of; by rewrite Hx).
  destruct (move_ok M a (CTick frame) _ (set_cpu c2 s2) a' (ETick (sleep_ticks_of s1)) Hh)
    as (M' & HM' & Hi); try done.
  - split.
    + cbn. fold (slices M). by rewrite Ex.
    + intros t. cbn. change (slice_ticks_of (set_cpu c2 s2) t) with (slice_ticks_of s2 t).
      rewrite Hs2, Hsl1. fold (slices M). case_decide as E; [by rewrite E, Ex|done].
    + cbn. apply objs_same; cbn; [rewrite <-Em|rewrite <-Es]; apply Hf.
    + intros v _. apply Hnap1.
    + intros v Hv. cbn. fold (naps M). rewrite <-Hnap1. apply Hnap. by eapply still_asleep.
  - left. by split.
  - by apply krel_set_cpu.
  - etrans; [apply same_wake|apply same_dispatch].
  - transitivity s1; [done|]. transitivity s2; [by apply keeps_tick|done].
  - rewrite <-Em. by apply (of_mutex _ _ Hf).
  - eapply sems_same; [apply HM|by rewrite <-Em; apply Hf|by rewrite <-Es; apply Hf|done].
  - by exists M', (ETick (sleep_ticks_of s1)).
Qed.

(** The code left behind when the end of a slice switches tasks. *)
Lemma preempted_resumable ts to e e' :
  to ∈ ts → resumable e' ts (λ s, kbind (kbind (dispatch_rest to e s) (λ _, tick_rest))
    (λ _, with_cpu (irq_leave_protection e'))).
Proof.
  intros Hto s Hl Hn Hd. rewrite <-Hd in Hto. apply elem_of_dom in Hto as [y Hy].
  destruct (dispatch_rest_ok s to e y Hl Hn Hy) as (c & -> & Hc). cbn.
  exists c. right. split; [by exists e|done].
Qed.

(** A tick that ends the slice, from the call of [task_dispatch] on. *)
Section slice_end.
Context (M : machine) (a : kabs) (frame : exception_frame_t) (s2 : kstate) (e e' : Z).
Context (HM : minv M a) (Hno : m_parked M !! a_curr a = None) (Hr2 : krel s2 (spec_expire a)).
Context (He : restored e (k_cpu (m_state M)) (k_cpu s2)) (Hk : keeps (m_state M) s2).
Context (Em : k_mutex s2 = k_mutex (m_state M)) (Es : k_sem s2 = k_sem (m_state M)).
Context (Hend : s32 (slices M (a_curr a) - 1) = 0).
Context (Hsl : ∀ t, slice_ticks_of s2 t =
  if decide (t = a_curr a) then TASK_TIME_SLICE_DEFAULT else slices M t).
Context (Hnap : ∀ t, sleep_ticks_of s2 t = naps M t).
Context (He' : e' = own_flags M (a_curr a)).

Definition after_slice_end : Prop :=
  ∃ M' ev, settle M (a_curr a) (CTick frame) (kbind (kbind (task_dispatch s2) (λ _, tick_rest))
      (λ _, with_cpu (irq_leave_protection e'))) = Some M' ∧ advances M a ev M' ∧ is_tick ev = true.

Let Hst : same_tasks a (spec_expire a) := same_expire a (idle_or_ready M a HM).

Lemma expire_same :
  a_curr (spec_expire a) = a_curr a ∧ a_sleep (spec_expire a) = a_sleep a ∧
  ∀ o, queue_at (spec_expire a) (PWait o) = queue_at a (PWait o).
Proof. unfold spec_expire. by case_decide. Qed.

(** The task runs on, and the sleepers are counted down. *)
Lemma slice_end_stay :
  next_task (spec_expire a) = a_curr (spec_expire a) → after_slice_end.
Proof.
  intros E. destruct expire_same as (Ecur & Eslp & Hq). unfold after_slice_end.
  rewrite (task_dispatch_stay s2 _ Hr2 E). cbn [kbind].
  destruct (tick_rest_ok s2 _ Hr2) as (s3 & Hs & Hr3 & Hf3 & Hnap3).
  unfold call_ends in Hs. rewrite (kr_curr _ _ Hr2), Ecur in Hs.
  destruct (halts_leave (k_cpu (m_state M)) (k_cpu s2) _ e' _ _ _ Hs He) as (c3 & Hh).
  set (a' := spec_dispatch (spec_wake (sleep_ticks_of s2) (spec_expire a))) in *.
  rewrite He' in Hh at 1. destruct (move_ok M a (CTick frame) _ (set_cpu c3 s3) a' (EExpireWake (sleep_ticks_of s2)) Hh)
    as (M' & HM' & Hi); try done.
  - split; [exact Hend|intros t; etrans; [apply (of_slice _ _ Hf3)|apply Hsl]|..].
    + cbn. apply objs_same; cbn; [rewrite <-Em|rewrite <-Es]; apply Hf3.
    + intros v _. apply Hnap.
    + intros v Hv. cbn. fold (naps M). rewrite <-Hnap. apply Hnap3. by eapply still_asleep.
  - left. by split.
  - by apply krel_set_cpu.
  - etrans; [exact Hst|]. etrans; [apply same_wake|apply same_dispatch].
  - etrans; [exact Hk|]. transitivity s3; [by apply keeps_obj|done].
  - cbn. rewrite <-Em. apply Hf3.
  - intros m _. apply Hq.
  - eapply sems_same; [apply HM|cbn; rewrite <-Em; apply Hf3|cbn; rewrite <-Es; apply Hf3|].
    intros o. apply Hq.
  - by exists M', (EExpireWake (sleep_ticks_of s2)).
Qed.

(** Another task runs, and the rest of the tick is left behind. *)
Lemma slice_end_switch :
  next_task (spec_expire a) ≠ a_curr (spec_expire a) → after_slice_end.
Proof.
  intros E. destruct expire_same as (Ecur & Eslp & Hq). unfold after_slice_end.
  destruct (task_dispatch_switch s2 _ Hr2 E) as (y & Hy & ->). cbn [kbind].
  set (s3 := switched (next_task (spec_expire a)) y s2) in *.
  set (a' := spec_dispatch (spec_expire a)).
  pose proof (switched_frame s2 _ y Hy) as Hf3.
  assert (Hr3 : krel s3 a') by by apply krel_switched.
  assert (Hh : halts e' (k_cpu (m_state M)) (a_curr a) (KJump (u16 (tss_sel y)) s3
    (λ s', kbind (kbind (dispatch_rest (next_task (spec_expire a)) (c_eflags (k_cpu s2)) s')
       (λ _, tick_rest)) (λ _, with_cpu (irq_leave_protection e')))) s3).
  { split; [done|]. split; [|split; [|split]].
    - rewrite (kr_curr _ _ Hr3), <-Ecur. done.
    - eexists. eapply restored_trans; [exact He|apply cli_restored].
    - exists (task_set_state TASK_RUNNING y). split; [|done].
      rewrite (kr_curr _ _ Hr3). cbn. by rewrite lookup_insert_eq.
    - apply preempted_resumable. apply elem_of_dom. cbn. rewrite lookup_insert_eq. by eexists. }
  rewrite He' in Hh at 1. destruct (move_ok M a (CTick frame) _ s3 a' EExpire Hh)
    as (M' & HM' & Hi); try done.
  - split; [exact Hend|intros t; etrans; [by apply (frame_slice_ticks s2)|apply Hsl]| |done|].
    + by apply objs_same.
    + intros v _. etrans; [by apply (frame_sleep_ticks s2)|apply Hnap].
  - left. by split.
  - etrans; [exact Hk|]. by apply keeps_sched.
  - intros m _. apply Hq.
  - eapply sems_same; [apply HM|exact Em|exact Es|exact Hq].
  - by exists M', EExpire.
Qed.
End slice_end.

Lemma tick_slice_end M a s1 x e e' frame :
  minv M a → m_parked M !! a_curr a = None →
  krel s1 a → keeps (m_state M) s1 → k_mutex s1 = k_mutex (m_state M) →
  k_sem s1 = k_sem (m_state M) → restored e (k_cpu (m_state M)) (k_cpu s1) →
  k_tasks s1 = k_tasks (m_state M) →
  k_tasks s1 !! a_curr a = Some x → s32 (slice_ticks x - 1) = 0 → e' = own_flags M (a_curr a) →
  ∃ M' ev, settle M (a_curr a) (CTick frame)
      (kbind (task_time_tick s1) (λ _, with_cpu (irq_leave_protection e'))) = Some M' ∧
    advances M a ev M' ∧ is_tick ev = true.
Proof.
  intros HM Hno Hr1 Hk Em Es He Hsl Hx Hn He'. pose proof (mi_core _ _ HM) as Hc.
  assert (Hl1 : log_free s1) by (destruct (co_log _ _ _ Hc) as [l Hl]; exists l; by rewrite Em).
  destruct (slice_end_step s1 a x Hr1 Hx Hn Hl1 (idle_or_ready M a HM))
    as (s2 & -> & Hr2 & Hf & Hnap2 & Hs2 & He2).
  destruct (tasks_counters M s1 Hsl) as [Hsl1 Hnap1].
  assert (He3 : restored (c_eflags (k_cpu s1)) (k_cpu (m_state M)) (k_cpu s2))
    by by eapply restored_trans.
  assert (Hk2 : keeps (m_state M) s2) by (etrans; [exact Hk|by apply keeps_tick]).
  assert (Ex : slices M (a_curr a) = slice_ticks x) by (rewrite <-Hsl1; unfold slice_ticks_of; by rewrite Hx).
  assert (Et : time_ticks x = TASK_TIME_SLICE_DEFAULT).
  { destruct (alike_lookup _ _ _ _ Hk Hx) as (y & Hy & _ & _ & <-).
    apply (co_time _ _ _ Hc (a_curr a)); [by eapply core_curr|done]. }
  assert (Hsl2 : ∀ t, slice_ticks_of s2 t =
    if decide (t = a_curr a) then TASK_TIME_SLICE_DEFAULT else slices M t).
  { intros t. by rewrite Hs2, Et, Hsl1. }
  assert (Hnap : ∀ t, sleep_ticks_of s2 t = naps M t) by (intros t; by rewrite Hnap2, Hnap1).
  rewrite <-Ex in Hn.
  destruct (decide (next_task (spec_expire a) = a_curr (spec_expire a)));
    [eapply slice_end_stay|eapply slice_end_switch]; try done;
    (rewrite <-Em || rewrite <-Es); apply Hf.
Qed.

Lemma tick_goes_on M a frame :
  minv M a → m_parked M !! a_curr a = None →
  ∃ M' ev, settle M (a_curr a) (CTick frame) (call_code (CTick frame) (m_state M)) = Some M' ∧
    advances M a ev M' ∧ is_tick ev = true.
Proof.
  intros HM Hno. pose proof (co_rel _ _ _ (mi_core _ _ HM)) as Hr.
  destruct (tick_enter (m_state M) a frame Hr) as (s1 & e & -> & Hr1 & Hk & Em & Es & He & Hsl).
  destruct (next_task_valid s1 a Hr1) as [x Hx].
  rewrite <-(so_next _ _ (co_sched _ _ _ (mi_core _ _ HM))) in Hx.
  pose proof (fo_run _ _ (mi_flags _ _ HM) Hno) as Hfl.
  destruct (decide (s32 (slice_ticks x - 1) = 0)); [by eapply tick_slice_end|by eapply tick_running].
Qed.

(** *** Every step *)
Definition acts (x : action) (e : event) : Prop :=
  match x with ACall c => does c e | ATick => is_tick e = true | AResume => rests e end.

Lemma action_goes_on M a x o :
  minv M a → astep M x o → ∃ M' e, o = Some M' ∧ advances M a e M' ∧ acts x e.
Proof.
  intros HM Hst. pose proof (minv_curr M a HM) as Ec.
  destruct Hst as [c Hi Hno Hp|frame Hno _|c k Hk]; rewrite Ec in *; cbn [acts].
  - destruct c as [|ms|m|m|o|o|t entry esp nm|fmt args| | |frame]; cbn in Hp.
    + by apply yield_goes_on.
    + by apply sleep_goes_on.
    + destruct Hp as (Hk & x & Hx & Hlt). by eapply lock_goes_on.
    + destruct Hp as (Hk & x & Hx). by eapply unlock_goes_on.
    + destruct Hp as [Hm Hs]. by apply wait_goes_on.
    + destruct Hp as [Hm Hs]. by apply notify_goes_on.
    + destruct Hp as (Ht & Hx & Hn & Hf). by apply create_goes_on.
    + destruct Hp as (out & Hf & Hl). by eapply log_goes_on.
    + eapply irq_goes_on; [done..|by left].
    + eapply irq_goes_on; [done..|by right].
    + done.
  - by apply tick_goes_on.
  - by eapply resume_goes_on.
Qed.

Lemma step_goes_on M a o : minv M a → mstep M o → ∃ M' e, o = Some M' ∧ advances M a e M'.
Proof.
  intros HM [x Hst]%mstep_action.
  destruct (action_goes_on M a x o HM Hst) as (M' & e & ? & ? & _). by exists M', e.
Qed.

Lemma reachable_minv M M' a : reachable M M' → minv M a → ∃ a', minv M' a'.
Proof.
  intros Hst. revert a. induction Hst as [M|M M1 M2 Hs _ IH]; intros a HM; [by exists a|].
  destruct (step_goes_on M a _ HM Hs) as (M1' & e & [= <-] & [HM1 _ _]). by eapply IH.
Qed.
End machine_inv.
