(* ===== verification/System.v ===== *)
(** * The system from its start

    The kernel booted by [task_manager_init] and [task_first_init] with tasks that
    create other tasks, yield, sleep, lock, wait and notify while the clock ticks:
    what holds in every machine it can reach, with the real logger in place in the
    examples at the end. *)
From S2P Require Import Prelude Klib DList CpuInstr Desc Kernel Queues ListRef Demo Sched Mutex Sem Log Tasks Irq Events Machine Safety.

Section system.
Context `{LoggerLaws}.
Implicit Types (s : kstate) (M : machine) (t m : Z).

Definition boot (idle_entry stack_end : Z) : K unit :=
  task_manager_init idle_entry stack_end;; task_first_init.

(** Mutexes and semaphores as their initialisation leaves them. *)
Record objects_idle s : Prop := {
  oi_mutex : ∀ m x, k_mutex s !! m = Some x → owner x = 0 ∧ locked_count x = 0;
  oi_sem : ∀ o y, k_sem s !! o = Some y → is_s32 (sem_value y)
}.

(** The queues of a started kernel. *)
Lemma boot_sched_ok : sched_ok {[ idle_task; first_task ]} boot_abs.
Proof.
  split; [done|..].
  - apply elem_of_union. left. by apply elem_of_singleton.
  - intros t. rewrite elem_of_union, !elem_of_singleton. cbn.
    rewrite !elem_of_cons, elem_of_nil. tauto.
  - intros t (p & Hpa & Ht). apply elem_of_union. destruct p as [| | |o]; cbn in Ht; try done.
    + right. apply elem_of_singleton. by apply list_elem_of_singleton in Ht.
    + by apply not_elem_of_nil in Ht.
    + rewrite lookup_empty in Ht. by apply not_elem_of_nil in Ht.
  - intros t Ht Hi. exists PReady. split; [done|]. cbn.
    apply elem_of_union in Ht as [->%elem_of_singleton| ->%elem_of_singleton]; [done|left].
Qed.

(** The interrupt flags of a started kernel. *)
Lemma booted_flags_ok s0 s' sel : started s0 s' sel → flags_ok (booted s') boot_abs.
Proof.
  intros [_ _ _ _ _ _ _ _ Hsi _ _ _ _ _ _].
  split; cbn [m_state m_parked m_created booted].
  - apply elem_of_union. right. by apply elem_of_singleton.
  - split; [apply elem_of_union; left; by apply elem_of_singleton|].
    unfold own_flags, booted. cbn [m_flags].
    by rewrite lookup_insert_ne, lookup_singleton_eq by exact first_not_idle.
  - intros t [y Hy]. by rewrite lookup_empty in Hy.
  - intros _. unfold own_flags. cbn. by rewrite lookup_insert_eq.
  - intros t [->%elem_of_singleton| ->%elem_of_singleton]%elem_of_union Ht _; [|by destruct Ht].
    destruct Hsi as (y & Hy & _ & _ & Ey). unfold tss_flags, own_flags. rewrite Hy. cbn.
    rewrite lookup_insert_ne, lookup_singleton_eq by exact first_not_idle. cbn. by rewrite Ey.
Qed.

(** The machine that a started kernel is satisfies the invariant of all steps. *)
Lemma started_minv s0 s' sel :
  mutex_idle gdt_mutex s0 → objects_idle s0 → started s0 s' sel → minv (booted s') boot_abs.
Proof.
  intros Hgm [Hm Hs] Hst. pose proof (booted_flags_ok _ _ _ Hst) as Hflags.
  destruct Hst as [Hr Hl Hn Hf Htr _ Ht1 Ht2 Hsi Hg Em Es _ _ _].
  assert (Hq : ∀ o, queue_at boot_abs (PWait o) = []).
  { intros o. cbn. by rewrite lookup_empty. }
  destruct Ht1 as (x & Hx & Hsel). assert (x = fresh_task TASK_READY (bytes_of_string "first task") 0 0 sel)
    as -> by (rewrite Hf in Hx; by injection Hx).
  assert (boot_tasks_ok : ∀ t, t ∈ ({[ idle_task; first_task ]} : gset Z) → as_created s' t).
  { intros t [->%elem_of_singleton| ->%elem_of_singleton]%elem_of_union; [done|].
    eexists. split; [exact Hf|done]. }
  split; cbn [m_state m_parked m_held m_created m_flags booted].
  - split; try done.
    + exact boot_sched_ok.
    + destruct Hgm as (l & Hgl & Hgc). exists l. by rewrite Em.
    + intros t [->%elem_of_singleton| ->%elem_of_singleton]%elem_of_union; [done|].
      by exists (fresh_task TASK_READY (bytes_of_string "first task") 0 0 sel).
    + intros t x Hin Hx'. destruct (boot_tasks_ok t Hin) as (y & Hy & Ht & _). congruence.
  - rewrite Htr. exact Hsel.
  - intros t c k Hk. by rewrite lookup_empty in Hk.
  - exact Hflags.
  - intros m x Hx'. rewrite Em in Hx'. destruct (Hm m x Hx') as [-> ->]. rewrite Hq.
    split; [lia|done|intros t Ht; by apply not_elem_of_nil in Ht| |].
    + intros t. unfold pending. by rewrite lookup_empty.
    + intros t _. unfold holds. rewrite lookup_empty. by case_decide.
  - split; intros o y Hy.
    + intros Hy'. rewrite Es in Hy'. rewrite Hq. split; [by eapply Hs|done].
    + rewrite Hq in Hy. by apply not_elem_of_nil in Hy.
  - intros t Hin. destruct (boot_tasks_ok t Hin) as (y & Hy & _ & Ht & _).
    unfold slices, slice_ticks_of. cbn. rewrite Hy, Ht. unfold TASK_TIME_SLICE_DEFAULT. lia.
  - intros t Ht. by apply not_elem_of_nil in Ht.
Qed.

Lemma boot_minv e st s s' :
  power_on s → objects_idle s → boot e st s = KRet tt s' → minv (booted s') boot_abs.
Proof.
  intros Hp [Hm Hs] Hb.
  destruct (boot_ok s e st Hp) as (s1 & sel & Hb1 & Hst).
  unfold boot in Hb. rewrite Hb in Hb1. injection Hb1 as <-.
  eapply started_minv; [|by split|exact Hst]. exists list_init. by rewrite (po_gdt_mutex _ Hp).
Qed.

Lemma reached_minv e st s s' M :
  power_on s → objects_idle s → boot e st s = KRet tt s' → reachable (booted s') M →
  ∃ a, minv M a.
Proof. intros Hp Hi Hb Hm. eapply reachable_minv; [exact Hm|by eapply boot_minv]. Qed.

(** One owner at most, and its count. *)
Lemma minv_exclusive M a m x t :
  minv M a → k_mutex (m_state M) !! m = Some x → 0 < holds (m_held M) m t →
  owner x = t ∧ locked_count x = holds (m_held M) m t ∧
  ∀ u, 0 < holds (m_held M) m u → u = t.
Proof.
  intros Ha Hx Ht. pose proof (mi_mutex _ _ Ha m x Hx) as HL.
  destruct (pending (m_parked M) m t) eqn:Ep; [destruct (ml_pend _ _ _ _ _ HL t Ep); lia|].
  pose proof (ml_held _ _ _ _ _ HL t Ep) as Hh. case_decide as E; [|lia].
  split; [done|]. split; [done|]. intros u Hu. by eapply ledger_exclusive.
Qed.

(** C3: the system never crashes: from the memory after loading and through any
    sequence of permitted kernel calls, clock interrupts and task switches, no step
    touches a missing object, panics, loops, overruns a buffer or jumps to a
    selector that is no TSS. *)
Theorem system_never_crashes e st s s' M o :
  power_on s → objects_idle s → boot e st s = KRet tt s' →
  reachable (booted s') M → mstep M o → ∃ M', o = Some M'.
Proof.
  intros Hp Hi Hb HM Hst. destruct (reached_minv e st s s' M Hp Hi Hb HM) as [a Ha].
  destruct (step_goes_on M a o Ha Hst) as (M' & _ & Eo & _). by exists M'.
Qed.

(** C1: mutual exclusion: in every machine the system reaches, at most one task
    holds a mutex, whatever the interleaving of locks, unlocks, hand-overs and
    preemptions; and the number of locks it holds is the count of the mutex. *)
Theorem mutual_exclusion e st s s' M m x t :
  power_on s → objects_idle s → boot e st s = KRet tt s' →
  reachable (booted s') M → k_mutex (m_state M) !! m = Some x →
  0 < holds (m_held M) m t →
  owner x = t ∧ locked_count x = holds (m_held M) m t ∧
  ∀ u, 0 < holds (m_held M) m u → u = t.
Proof.
  intros Hp Hi Hb HM Hx Ht. destruct (reached_minv e st s s' M Hp Hi Hb HM) as [a Ha].
  by apply (minv_exclusive M a).
Qed.

(** C13: no task is lost: in every machine the system reaches, each task created,
    the idle task apart, is in exactly one of the ready queue, the sleep queue and
    the wait queues of the mutexes and semaphores that exist. *)
Theorem no_task_lost e st s s' M t :
  power_on s → objects_idle s → boot e st s = KRet tt s' →
  reachable (booted s') M → t ∈ m_created M → t ≠ idle_task →
  ∃ a p, krel (m_state M) a ∧ p ≠ PAll ∧ is_Some (list_at (m_state M) p) ∧ t ∈ queue_at a p ∧
    ∀ q, q ≠ PAll → t ∈ queue_at a q → q = p.
Proof.
  intros Hp Hi Hb HM Ht Hidle. destruct (reached_minv e st s s' M Hp Hi Hb HM) as [a Ha].
  pose proof (mi_core _ _ Ha) as Hc.
  destruct (so_placed _ _ (co_sched _ _ _ Hc) t Ht Hidle) as (p & Hpa & Htp).
  exists a, p. split; [apply Hc|]. split; [done|]. split.
  { destruct p as [| | |o]; try by eexists. by apply (sk_real _ _ (mi_sem _ _ Ha) o t). }
  split; [done|]. intros q Hq Htq.
  eapply ao_unique; [apply (kr_ok _ _ (co_rel _ _ _ Hc))|done..].
Qed.

(** C14: the right task runs: in every machine the system reaches, the current task
    is the head of the ready queue, or the idle task when that is empty, and the
    task register of the processor names its TSS. *)
Theorem running_task_is_first e st s s' M :
  power_on s → objects_idle s → boot e st s = KRet tt s' →
  reachable (booted s') M →
  ∃ a, krel (m_state M) a ∧ current M = hd_or idle_task (a_ready a) ∧
    tss_of (k_gdt (m_state M)) (c_tr (k_cpu (m_state M))) = Some (current M).
Proof.
  intros Hp Hi Hb HM. destruct (reached_minv e st s s' M Hp Hi Hb HM) as [a Ha].
  pose proof (mi_core _ _ Ha) as Hc. exists a. rewrite (minv_curr M a Ha).
  split; [apply Hc|]. split; [apply (so_next _ _ (co_sched _ _ _ Hc))|apply (mi_tr _ _ Ha)].
Qed.

(** C2: no wakeup is lost: in every machine the system reaches, a semaphore that
    tasks wait for has no units left. *)
Theorem no_lost_wakeup e st s s' M o y :
  power_on s → objects_idle s → boot e st s = KRet tt s' →
  reachable (booted s') M → k_mutex (m_state M) !! o = None →
  k_sem (m_state M) !! o = Some y →
  ∃ a, krel (m_state M) a ∧ (queue_at a (PWait o) ≠ [] → sem_value y ≤ 0).
Proof.
  intros Hp Hi Hb HM Hm Hy. destruct (reached_minv e st s s' M Hp Hi Hb HM) as [a Ha].
  exists a. split; [apply (mi_core _ _ Ha)|]. intros Hq.
  destruct (sk_sem _ _ (mi_sem _ _ Ha) o y Hm Hy) as [_ Hv]. destruct (Z.le_gt_cases (sem_value y) 0); [done|].
  destruct Hq. apply Hv. lia.
Qed.
End system.

(** *** Witnesses: a small system with the real logger *)
Section witnesses.
#[local] Existing Instance demo_layout.
#[local] Existing Instance demo_uart.
#[local] Instance demo_logger : Logger := log_at 2 1.
#[local] Instance demo_logger_laws : LoggerLaws := log_laws 2 0 demo_uart_ready.

Definition system_tasks : gmap Z task_t :=
  list_to_map ((λ t, (t, demo_task TASK_CREATED "" 0 0 0)) <$>
    [first_task; idle_task; task_a; task_b]).

Definition user_sem : Z := 8320.

Definition system_state : kstate :=
  set_gdt boot_gdt (demo_kernel (KAbs 0 [] [] [] ∅) system_tasks
    ((user_mutex, (0, 0)) :: free_mutexes) [(user_sem, 0)]).

Lemma system_power_on : power_on system_state.
Proof.
  apply power_on_checked; [decide_krel|by eexists|reflexivity..| | |]; decide_vm.
Qed.

Lemma system_idle : objects_idle system_state.
Proof.
  assert (Hm : map_Forall (λ _ x, owner x = 0 ∧ locked_count x = 0) (k_mutex system_state))
    by decide_vm.
  assert (Hs : map_Forall (λ _ y, - 2 ^ 31 ≤ sem_value y ∧ sem_value y < 2 ^ 31) (k_sem system_state))
    by decide_vm.
  split; [exact Hm|exact Hs].
Qed.

(** The state after boot, and what calls and resumptions make of a machine. *)
Definition system_booted : kstate :=
  match boot 4660 8192 system_state with KRet _ s => s | _ => system_state end.

Lemma system_boots : boot 4660 8192 system_state = KRet tt system_booted.
Proof.
  unfold system_booted. destruct (boot_ok system_state 4660 8192 system_power_on) as (s' & ? & E & _).
  unfold boot. by rewrite E.
Qed.

Definition do_call (c : kcall) (M : machine) : machine :=
  default M (settle M (current M) c (call_code c (m_state M))).
Definition do_resume (M : machine) : machine :=
  match m_parked M !! current M with
  | Some (c, k) => default M (settle M (current M) c (k (m_state M)))
  | None => M
  end.

Definition from_boot (M : machine) : Prop := reachable (booted system_booted) M.

Lemma from_boot_step M o M' : from_boot M → mstep M o → default M o = M' → from_boot M'.
Proof.
  intros HM Hst <-.
  destruct (reached_minv 4660 8192 system_state system_booted M system_power_on system_idle
    system_boots HM) as [a Ha].
  destruct (step_goes_on M a o Ha Hst) as (M' & _ & -> & _).
  eapply rtc_r; [exact HM|exact Hst].
Qed.

Lemma from_boot_call c M :
  from_boot M → current M ≠ idle_task → m_parked M !! current M = None → permitted M c →
  from_boot (do_call c M).
Proof. intros HM Hi Hn Hp. eapply from_boot_step; [exact HM|by apply step_call|done]. Qed.

Lemma from_boot_resume M :
  from_boot M → is_Some (m_parked M !! current M) → from_boot (do_resume M).
Proof.
  intros HM [[c k] Hk]. eapply from_boot_step; [exact HM|by eapply step_resume|].
  unfold do_resume. change (@lookup Z (kcall * (kstate → kres unit))) with (@lookup Z (kcall * K unit)).
  by rewrite Hk.
Qed.

(** The first task creates [task_a], takes the mutex and yields; [task_a] asks for
    the mutex and waits; the first task gives it up and yields; [task_a] has it. *)
Definition sys1 : machine := do_call (CCreate task_a 4660 8192 (bytes_of_string "a")) (booted system_booted).
Definition sys2 : machine := do_call (CLock user_mutex) sys1.
Definition sys3 : machine := do_call CYield sys2.
Definition sys4 : machine := do_call (CLock user_mutex) sys3.
Definition sys5 : machine := do_resume sys4.
Definition sys6 : machine := do_call (CUnlock user_mutex) sys5.
Definition sys7 : machine := do_call CYield sys6.
Definition sys8 : machine := do_resume sys7.

Example system_run :
  current sys3 = task_a ∧ current sys4 = first_task ∧ holds (m_held sys4) user_mutex first_task = 1 ∧
  current sys8 = task_a ∧ holds (m_held sys8) user_mutex first_task = 0 ∧
  holds (m_held sys8) user_mutex task_a = 1.
Proof. vm_compute. split_and!; reflexivity. Qed.

Lemma user_mutex_free : ¬ kernel_mutex user_mutex.
Proof. intros [E|[E|E]]; discriminate E. Qed.

Ltac from_call H :=
  apply from_boot_call; [exact H|vm_compute; discriminate|vm_compute; reflexivity|].
Ltac from_resume H := apply from_boot_resume; [exact H|decide_vm].

Lemma reach1 : from_boot sys1.
Proof.
  assert (from_boot (booted system_booted)) as H0 by apply rtc_refl. from_call H0.
  split; [decide_vm|]. split; [decide_vm|]. split; [done|].
  exists 5%nat, null_desc. split; [lia|]. split; vm_compute; reflexivity.
Qed.

Lemma reach2 : from_boot sys2.
Proof.
  from_call reach1. split; [exact user_mutex_free|]. eexists.
  split; [vm_compute; reflexivity|reflexivity].
Qed.

Lemma reach3 : from_boot sys3.
Proof. by from_call reach2. Qed.

Lemma reach4 : from_boot sys4.
Proof.
  from_call reach3. split; [exact user_mutex_free|]. eexists.
  split; [vm_compute; reflexivity|reflexivity].
Qed.

Lemma reach5 : from_boot sys5.
Proof. from_resume reach4. Qed.

Lemma reach6 : from_boot sys6.
Proof. from_call reach5. split; [exact user_mutex_free|decide_vm]. Qed.

Lemma reach7 : from_boot sys7.
Proof. by from_call reach6. Qed.

Lemma reach8 : from_boot sys8.
Proof. from_resume reach7. Qed.

Lemma system_never_crashes_witness :
  ∃ M', settle sys8 (current sys8) CYield (call_code CYield (m_state sys8)) = Some M'.
Proof.
  apply (system_never_crashes 4660 8192 system_state system_booted sys8).
  - exact system_power_on.
  - exact system_idle.
  - exact system_boots.
  - exact reach8.
  - apply step_call; [vm_compute; discriminate|vm_compute; reflexivity|exact I].
Defined.

Lemma mutual_exclusion_witness :
  k_mutex (m_state sys8) !! user_mutex = Some (Mutex task_a 1 list_init) ∧
  1 = holds (m_held sys8) user_mutex task_a ∧
  ∀ u, 0 < holds (m_held sys8) user_mutex u → u = task_a.
Proof.
  split; [vm_compute; reflexivity|].
  apply (mutual_exclusion 4660 8192 system_state system_booted sys8 user_mutex
    (Mutex task_a 1 list_init)).
  - exact system_power_on.
  - exact system_idle.
  - exact system_boots.
  - exact reach8.
  - vm_compute. reflexivity.
  - vm_compute. reflexivity.
Defined.

Lemma no_task_lost_witness :
  ∃ a p, krel (m_state sys4) a ∧ p ≠ PAll ∧ task_a ∈ queue_at a p.
Proof.
  destruct (no_task_lost 4660 8192 system_state system_booted sys4 task_a)
    as (a & p & Hr & Hp & _ & Ht & _).
  - exact system_power_on.
  - exact system_idle.
  - exact system_boots.
  - exact reach4.
  - decide_vm.
  - vm_compute. discriminate.
  - exists a, p. split; [exact Hr|]. split; [exact Hp|exact Ht].
Defined.

Lemma running_task_is_first_witness :
  tss_of (k_gdt (m_state sys8)) (c_tr (k_cpu (m_state sys8))) = Some task_a.
Proof.
  destruct (running_task_is_first 4660 8192 system_state system_booted sys8)
    as (a & _ & _ & Htr).
  - exact system_power_on.
  - exact system_idle.
  - exact system_boots.
  - exact reach8.
  - exact Htr.
Defined.

(** [task_a] waits for the semaphore. *)
Definition sys9 : machine := do_call (CWait user_sem) sys8.

Lemma reach9 : from_boot sys9.
Proof.
  from_call reach8. split; [vm_compute; reflexivity|decide_vm].
Qed.

Lemma no_lost_wakeup_witness :
  ∃ a y, krel (m_state sys9) a ∧ k_sem (m_state sys9) !! user_sem = Some y ∧
    (queue_at a (PWait user_sem) ≠ [] → sem_value y ≤ 0).
Proof.
  destruct (no_lost_wakeup 4660 8192 system_state system_booted sys9 user_sem
    (Sem 0 (linked_list [wait_node task_a]))) as (a & Hr & Hq).
  - exact system_power_on.
  - exact system_idle.
  - exact system_boots.
  - exact reach9.
  - vm_compute. reflexivity.
  - vm_compute. reflexivity.
  - exists a, (Sem 0 (linked_list [wait_node task_a])). split; [exact Hr|].
    split; [vm_compute; reflexivity|exact Hq].
Defined.
End witnesses.
