(* ===== verification/Fairness.v ===== *)
(** * Order and progress in the running system

    Runs of the machine seen through its queues: tasks that wait for a mutex or a
    semaphore are served in the order of their arrival, and a ready task runs
    before more clock interrupts are handled than the tasks ahead of it have time
    slices for; semaphores conserve their units; and each step is an event of the
    abstract kernel. The queues of a kernel state are read off its lists. *)
From S2P Require Import Prelude Klib DList CpuInstr Desc Kernel Queues ListRef Demo Sched Mutex Sem Log Tasks Irq Events Machine Safety System.

(** ** The queue of a kernel list *)

(** The first [n] nodes from [x] on. *)
Fixpoint nodes_from (h : nodes) (x : Z) (n : nat) : list Z :=
  match n with
  | O => []
  | S n' => x :: match h !! x with Some y => nodes_from h (n_next y) n' | None => [] end
  end.

(** The tasks whose nodes are in the list at [p]. *)
Definition queue_of (s : kstate) (p : place) : list Z :=
  match list_at s p with
  | Some l => (λ x, list_node_parent x (node_off p)) <$>
                nodes_from (k_nodes s) (l_first l) (Z.to_nat (l_count l))
  | None => []
  end.

Lemma nodes_from_dseg (h : nodes) xs : ∀ p,
  dseg h p xs 0 → nodes_from h (hd_or 0 xs) (length xs) = xs.
Proof.
  induction xs as [|x xs IH]; intros p; [done|]. intros [Hx Hs]. cbn. rewrite Hx. cbn.
  by rewrite (IH x).
Qed.

Section queue_of.
Context `{HLayout : Layout}.

Lemma queue_of_ok s a p : krel s a → is_Some (list_at s p) → queue_of s p = queue_at a p.
Proof.
  intros Hr [l Hl]. unfold queue_of. rewrite Hl. pose proof (kr_lists _ _ Hr p l Hl) as Hd.
  rewrite (dl_first _ _ _ Hd), (dl_count _ _ _ Hd), Nat2Z.id,
    (nodes_from_dseg _ _ _ (dl_seg _ _ _ Hd)), <-list_fmap_compose.
  rewrite <-(list_fmap_id (queue_at a p)) at 2. apply list_fmap_ext. intros i t Ht. cbn.
  apply (krel_parent s a); [done|]. apply (kr_in _ _ Hr p). by apply list_elem_of_lookup_2 in Ht.
Qed.
End queue_of.

(** ** Runs *)
Section runs.
Context `{LoggerLaws}.
Implicit Types (M : machine) (a : kabs) (t o : Z).

(** A clock interrupt handled at [M]. *)
Definition mtick M (r : option machine) : Prop := astep M ATick r.

(** A run that leaves only machines in [P], with [n] clock interrupts among its
    steps. *)
Inductive run (P : machine → Prop) : nat → machine → machine → Prop :=
| run_here M : run P 0 M M
| run_tick n M M1 M' : P M → mtick M (Some M1) → run P n M1 M' → run P (S n) M M'
| run_step n M M1 M' : P M → mstep M (Some M1) → run P n M1 M' → run P n M M'.

Lemma mtick_mstep M (r : option machine) : mtick M r → mstep M r.
Proof. intros Ht. apply mstep_action. by exists ATick. Qed.

Lemma step_advances M a M1 :
  minv M a → mstep M (Some M1) → ∃ e, advances M a e M1.
Proof.
  intros HM Hs. destruct (step_goes_on M a _ HM Hs) as (M' & e & [= <-] & He). by exists e.
Qed.

Lemma action_advances M a x M1 :
  minv M a → astep M x (Some M1) → ∃ e, advances M a e M1 ∧ acts x e.
Proof.
  intros HM Ht. destruct (action_goes_on M a x _ HM Ht) as (M' & e & [= <-] & He & Hx). by exists e.
Qed.

Lemma tick_advances M a M1 :
  minv M a → mtick M (Some M1) → ∃ e, advances M a e M1 ∧ is_tick e = true.
Proof. exact (action_advances M a ATick M1). Qed.

(** The queues of [M] are those of [a], and those of [M'] are what the event makes
    of them. *)
Record simulates M a (e : event) M' : Prop := {
  sm_before : krel (m_state M) a;
  sm_after : krel (m_state M') (do_event e a);
  sm_effect : effect (m_state M) a e (m_state M');
  sm_created : m_created M' = grow e (m_created M)
}.

Lemma advances_simulates M a e M' : minv M a → advances M a e M' → simulates M a e M'.
Proof.
  intros Ha [Ha' Hef Hgr]. split; try done; [apply (mi_core _ _ Ha)|apply (mi_core _ _ Ha')].
Qed.

(** *** The ready queue *)
Lemma ready_of M a : minv M a → queue_of (m_state M) PReady = a_ready a.
Proof. intros HM. apply (queue_of_ok _ a PReady); [apply (mi_core _ _ HM)|by eexists]. Qed.

Lemma ready_slices M a t :
  minv M a → t ∈ a_ready a → 1 ≤ slices M t ≤ TASK_TIME_SLICE_DEFAULT.
Proof.
  intros HM Ht. apply (mi_slices _ _ HM). apply (so_queued _ _ (co_sched _ _ _ (mi_core _ _ HM))).
  by exists PReady.
Qed.

(** One step, seen by a ready task that does not run. *)
Lemma ready_step M a e M1 q1 t q2 :
  minv M a → advances M a e M1 → current M ≠ t → a_ready a = q1 ++ t :: q2 →
  minv M1 (do_event e a) ∧ ∃ q1' q2', a_ready (do_event e a) = q1' ++ t :: q2' ∧ q1' ⊆ q1 ∧
    budget (slices M1) q1' + Z.b2z (is_tick e) ≤ budget (slices M) q1.
Proof.
  intros HM [HM1 [Hen Hsl _] _] Hc Eq. split; [done|]. pose proof (mi_core _ _ HM) as Hco.
  destruct (event_advances a (so_next _ _ (co_sched _ _ _ Hco)) (kr_ok _ _ (co_rel _ _ _ Hco))
    e (slices M) (objs_of (m_state M)) q1 t q2) as (q1' & q2' & E & Hq & Hb); [done| |done| |].
  - intros u Hu. by eapply ready_slices.
  - by rewrite <-(minv_curr M a HM).
  - exists q1', q2'. split; [done|]. split; [done|].
    rewrite (budget_ext (slices M1) (charge e a (slices M))); [exact Hb|intros u _; apply Hsl].
Qed.

Lemma ready_run t n M M' : run (λ M, current M ≠ t) n M M' → ∀ a q1 q2,
  minv M a → a_ready a = q1 ++ t :: q2 →
  ∃ a' q1' q2', minv M' a' ∧ a_ready a' = q1' ++ t :: q2' ∧
    budget (slices M') q1' + Z.of_nat n ≤ budget (slices M) q1.
Proof.
  induction 1 as [M|n M M1 M' Hc Ht _ IH|n M M1 M' Hc Hs _ IH]; intros a q1 q2 HM Eq.
  - exists a, q1, q2. split; [done|]. split; [done|lia].
  - destruct (tick_advances M a M1 HM Ht) as (e & He & Hi).
    destruct (ready_step M a e M1 q1 t q2 HM He Hc Eq) as (HM1 & p1 & p2 & E1 & _ & Hb).
    destruct (IH _ p1 p2 HM1 E1) as (a' & q1' & q2' & HM' & E' & Hb'). rewrite Hi in Hb. cbn in Hb.
    exists a', q1', q2'. split; [done|]. split; [done|lia].
  - destruct (step_advances M a M1 HM Hs) as (e & He).
    destruct (ready_step M a e M1 q1 t q2 HM He Hc Eq) as (HM1 & p1 & p2 & E1 & _ & Hb).
    destruct (IH _ p1 p2 HM1 E1) as (a' & q1' & q2' & HM' & E' & Hb').
    exists a', q1', q2'. split; [done|]. split; [done|]. destruct (is_tick e); cbn in Hb; lia.
Qed.

(** *** Wait queues *)

(** Reading a wait queue finds the tasks waiting, since they wait for objects that
    exist. *)
Lemma waiting_of M a o t : minv M a → t ∈ queue_of (m_state M) (PWait o) →
  queue_of (m_state M) (PWait o) = queue_at a (PWait o).
Proof.
  intros HM Ht. apply queue_of_ok; [apply (mi_core _ _ HM)|]. unfold queue_of in Ht.
  destruct (list_at (m_state M) (PWait o)); [by eexists|]. by apply not_elem_of_nil in Ht.
Qed.

Lemma waiting_step o t M a M1 q1 q2 :
  minv M a → mstep M (Some M1) → queue_at a (PWait o) = q1 ++ t :: q2 →
  t ∈ queue_of (m_state M1) (PWait o) →
  ∃ a1 k L, minv M1 a1 ∧ queue_at a1 (PWait o) = drop k q1 ++ t :: q2 ++ L.
Proof.
  intros HM Hs Eq Ht. destruct (step_advances M a M1 HM Hs) as (e & [HM1 _ _]).
  rewrite (waiting_of _ _ _ _ HM1 Ht) in Ht. exists (do_event e a).
  destruct (wait_in_order e a o q1 t q2) as (k & L & E); [|done|done|by exists k, L].
  apply (ao_nodup _ (kr_ok _ _ (co_rel _ _ _ (mi_core _ _ HM)))).
Qed.

Lemma run_mstep (P : machine → Prop) n M M' :
  run P n M M' → rtc (λ M1 M2, P M1 ∧ mstep M1 (Some M2)) M M'.
Proof.
  induction 1 as [M|n M M1 M' Hw Ht Hr IH|n M M1 M' Hw Hs Hr IH]; [done|..];
    (eapply rtc_l; [split; [done|]|done]); [by apply mtick_mstep|done].
Qed.

Lemma waiting_run o t M M' :
  rtc (λ M1 M2, t ∈ queue_of (m_state M1) (PWait o) ∧ mstep M1 (Some M2)) M M' →
  ∀ a q1 q2, minv M a → queue_at a (PWait o) = q1 ++ t :: q2 →
  t ∈ queue_of (m_state M') (PWait o) →
  ∃ k L, queue_of (m_state M') (PWait o) = drop k q1 ++ t :: q2 ++ L.
Proof.
  induction 1 as [M|M M1 M' [Hw Hs] Hr IH]; intros a q1 q2 HM Eq Hend.
  - exists 0%nat, []. rewrite (waiting_of _ _ _ _ HM Hend). cbn. by rewrite app_nil_r.
  - assert (Ht1 : t ∈ queue_of (m_state M1) (PWait o)) by by destruct Hr as [|??? [? _] _].
    destruct (waiting_step o t M a M1 q1 q2 HM Hs Eq Ht1) as (a1 & k & L & HM1 & E1).
    destruct (IH a1 _ _ HM1 E1 Hend) as (k' & L' & ->). exists (k' + k)%nat, (L ++ L').
    by rewrite drop_drop, (Nat.add_comm k'), <-app_assoc.
Qed.
(** *** Semaphores *)

(** A run with its actions. *)
Inductive trace : machine → list action → machine → Prop :=
| trace_nil M : trace M [] M
| trace_cons M x M1 xs M' : astep M x (Some M1) → trace M1 xs M' → trace M (x :: xs) M'.

Definition is_wait o (x : action) : bool :=
  match x with ACall (CWait o') => bool_decide (o' = o) | _ => false end.
Definition is_notify o (x : action) : bool :=
  match x with ACall (CNotify o') => bool_decide (o' = o) | _ => false end.

Definition calls (p : action → bool) (xs : list action) : Z := foldr (λ x n, Z.b2z (p x) + n) 0 xs.

Lemma calls_pos p xs : 0 ≤ calls p xs.
Proof. induction xs as [|x xs IH]; cbn; [lia|]. fold (calls p xs). destruct (p x); cbn; lia. Qed.

Lemma acts_units M a x e M1 o :
  astep M x (Some M1) → acts x e → k_mutex (m_state M) !! o = None →
  units e o = Z.b2z (is_notify o x) - Z.b2z (is_wait o x).
Proof.
  intros Hs Hx Hm. remember (Some M1) as r. destruct Hs as [c _ _ Hp|frame _ _|c k _]; cbn in Hx |- *.
  - destruct c, e; cbn in Hx, Hp |- *; try done; subst; try by (case_bool_decide; case_decide).
    + destruct Hp as (_ & y & Hy & _). rewrite decide_False; [done|congruence].
    + destruct Hp as (_ & y & Hy). rewrite decide_False; [done|congruence].
  - by destruct e.
  - by destruct e.
Qed.

Lemma sem_of_objs s o : ob_sem (objs_of s) !! o = sem_value <$> k_sem s !! o.
Proof. apply lookup_fmap. Qed.

Lemma no_mutex_objs s o : ob_mutex (objs_of s) !! o = None ↔ k_mutex s !! o = None.
Proof. cbn. rewrite lookup_fmap. by destruct (k_mutex s !! o). Qed.

Lemma sem_queue M a o y : minv M a → k_mutex (m_state M) !! o = None →
  k_sem (m_state M) !! o = Some y → queue_of (m_state M) (PWait o) = queue_at a (PWait o).
Proof.
  intros HM Hm Hy. apply queue_of_ok; [apply (mi_core _ _ HM)|]. cbn. rewrite Hm, Hy. by eexists.
Qed.

Definition waiters M o : Z := Z.of_nat (length (queue_of (m_state M) (PWait o))).

(** A step of a run, seen by a semaphore. *)
Lemma sem_step M a x M1 o y :
  minv M a → astep M x (Some M1) → k_mutex (m_state M) !! o = None →
  k_sem (m_state M) !! o = Some y →
  sem_value y + Z.b2z (is_notify o x) < 2 ^ 31 →
  ∃ a1 y1, minv M1 a1 ∧ k_mutex (m_state M1) !! o = None ∧ k_sem (m_state M1) !! o = Some y1 ∧
    Z.min 0 (sem_value y) ≤ sem_value y1 ≤ sem_value y + Z.b2z (is_notify o x) ∧
    sem_value y1 - Z.of_nat (length (queue_at a1 (PWait o))) =
      sem_value y - Z.of_nat (length (queue_at a (PWait o)))
        + Z.b2z (is_notify o x) - Z.b2z (is_wait o x).
Proof.
  intros HM Hs Hm Hy Hb. destruct (action_advances M a x M1 HM Hs) as (e & [HM1 [Hen _ Hob] _] & Hx).
  pose proof (acts_units M a x e M1 o Hs Hx Hm) as Hu.
  destruct (sk_sem _ _ (mi_sem _ _ HM) o y Hm Hy) as [[Hlo _] _].
  destruct (sem_event e a _ _ o (sem_value y) Hen) as (Hm1 & (v1 & Hv1 & Hle) & Hbal).
  - by apply no_mutex_objs.
  - by rewrite sem_of_objs, Hy.
  - exact Hlo.
  - rewrite Hu. destruct (is_notify o x), (is_wait o x); cbn in *; lia.
  - rewrite <-Hob, sem_of_objs in Hv1. rewrite <-Hob in Hm1, Hbal.
    destruct (k_sem (m_state M1) !! o) as [y1|] eqn:Ey; [|done]. injection Hv1 as <-.
    exists (do_event e a), y1. split; [done|]. split; [by apply no_mutex_objs|]. split; [done|].
    unfold balance, value_of in Hbal. rewrite !sem_of_objs, Ey, Hy in Hbal.
    cbn [fmap option_fmap option_map from_option id] in Hbal.
    rewrite Hu in Hle, Hbal. clear -Hle Hbal.
    split; [destruct (is_notify o x), (is_wait o x); cbn [Z.b2z] in *; lia|lia].
Qed.

Lemma sem_trace o M xs M' : trace M xs M' → ∀ a y,
  minv M a → k_mutex (m_state M) !! o = None → k_sem (m_state M) !! o = Some y →
  sem_value y + calls (is_notify o) xs < 2 ^ 31 →
  ∃ a' y', minv M' a' ∧ k_mutex (m_state M') !! o = None ∧ k_sem (m_state M') !! o = Some y' ∧
    Z.min 0 (sem_value y) ≤ sem_value y' ∧
    sem_value y' - Z.of_nat (length (queue_at a' (PWait o))) =
      sem_value y - Z.of_nat (length (queue_at a (PWait o)))
        + calls (is_notify o) xs - calls (is_wait o) xs.
Proof.
  induction 1 as [M|M x M1 xs M' Hs _ IH]; intros a y HM Hm Hy Hb.
  - exists a, y. split_and!; try done; cbn; lia.
  - cbn [calls foldr] in *. fold (calls (is_notify o) xs) (calls (is_wait o) xs) in *.
    pose proof (calls_pos (is_notify o) xs).
    destruct (sem_step M a x M1 o y HM Hs Hm Hy) as (a1 & y1 & HM1 & Hm1 & Hy1 & Hle & E1); [lia|].
    destruct (IH a1 y1 HM1 Hm1 Hy1) as (a' & y' & HM' & Hm' & Hy' & Hle' & E'); [lia|].
    exists a', y'. split; [done|]. split; [done|]. split; [done|]. lia.
Qed.
End runs.

(** ** Properties *)
Section properties.
Context `{LoggerLaws}.
Implicit Types (s : kstate) (M : machine) (t o : Z).

(** The running system implements the abstract kernel of [Events]: in every
    machine the system reaches, each kernel call, clock interrupt and resumption
    ends in a machine, and does to the queues, the time slices, the mutexes, the
    semaphores and the set of tasks what one enabled event does, which is an event
    of that call, one that charges a tick, or one that only wakes sleepers. *)
Theorem system_refines e st s s' M x (o : option machine) :
  power_on s → objects_idle s → boot e st s = KRet tt s' → reachable (booted s') M →
  astep M x o → ∃ M' a ev, o = Some M' ∧ simulates M a ev M' ∧ acts x ev.
Proof.
  intros Hp Hi Hb HM Hs. destruct (reached_minv e st s s' M Hp Hi Hb HM) as [a Ha].
  destruct (action_goes_on M a x o Ha Hs) as (M' & ev & Eo & He & Hx). exists M', a, ev.
  split; [done|]. split; [by apply advances_simulates|done].
Qed.

(** C5: no starvation: in every machine the system reaches, a task at position [k]
    of the ready queue gets the processor before more than [k] full time slices of
    clock interrupts are handled, whatever the tasks ahead of it, the tasks that
    become ready meanwhile and the interrupts do; until then it stays ready. *)
Theorem ready_task_runs e st s s' M t q1 q2 n M' :
  power_on s → objects_idle s → boot e st s = KRet tt s' → reachable (booted s') M →
  queue_of (m_state M) PReady = q1 ++ t :: q2 → run (λ M, current M ≠ t) n M M' →
  Z.of_nat n ≤ Z.of_nat (length q1) * TASK_TIME_SLICE_DEFAULT ∧
  t ∈ queue_of (m_state M') PReady.
Proof.
  intros Hp Hi Hb HM Eq Hrun. destruct (reached_minv e st s s' M Hp Hi Hb HM) as [a Ha].
  rewrite (ready_of M a Ha) in Eq.
  destruct (ready_run t n M M' Hrun a q1 q2 Ha Eq) as (a' & p1 & p2 & Ha' & E' & Hle).
  assert (Hsub : ∀ M a p1 p2, minv M a → a_ready a = p1 ++ t :: p2 →
    ∀ u, u ∈ p1 → 0 ≤ slices M u ≤ TASK_TIME_SLICE_DEFAULT).
  { intros M0 a0 r1 r2 HM0 E0 u Hu. enough (1 ≤ slices M0 u ≤ TASK_TIME_SLICE_DEFAULT) by lia.
    eapply ready_slices; [done|]. rewrite E0. apply elem_of_app. by left. }
  pose proof (budget_bound _ _ _ (Hsub M a q1 q2 Ha Eq)).
  pose proof (budget_bound _ _ _ (Hsub M' a' p1 p2 Ha' E')).
  split; [lia|]. rewrite (ready_of M' a' Ha'), E'. apply elem_of_app. right. left.
Qed.

(** C11: no overtaking: in every machine the system reaches, while a task waits for
    a mutex or a semaphore, the tasks ahead of it leave from the front, nobody gets
    in front of it, and the tasks behind it stay behind it in their order. *)
Theorem waiters_in_order e st s s' M o t q1 q2 n M' :
  power_on s → objects_idle s → boot e st s = KRet tt s' → reachable (booted s') M →
  queue_of (m_state M) (PWait o) = q1 ++ t :: q2 →
  run (λ M, t ∈ queue_of (m_state M) (PWait o)) n M M' →
  t ∈ queue_of (m_state M') (PWait o) →
  ∃ k L, queue_of (m_state M') (PWait o) = drop k q1 ++ t :: q2 ++ L.
Proof.
  intros Hp Hi Hb HM Eq Hrun Ht. destruct (reached_minv e st s s' M Hp Hi Hb HM) as [a Ha].
  assert (Ht0 : t ∈ queue_of (m_state M) (PWait o)).
  { rewrite Eq. apply elem_of_app. right. left. }
  rewrite (waiting_of M a o t Ha Ht0) in Eq. by eapply waiting_run; [eapply run_mstep|..].
Qed.

(** C12: semaphores count: along any run of the system, the count of a semaphore less
    the tasks that wait for it changes by the calls of [sem_notify] less those of
    [sem_wait]; and when the count starts at 0 or more, no more tasks get past the
    semaphore than it had units and notifications. *)
Theorem semaphore_conserved e st s s' M xs M' o y :
  power_on s → objects_idle s → boot e st s = KRet tt s' → reachable (booted s') M →
  trace M xs M' → k_mutex (m_state M) !! o = None → k_sem (m_state M) !! o = Some y →
  sem_value y + calls (is_notify o) xs < 2 ^ 31 →
  ∃ y', k_sem (m_state M') !! o = Some y' ∧
    sem_value y' - waiters M' o =
      sem_value y - waiters M o + calls (is_notify o) xs - calls (is_wait o) xs ∧
    (0 ≤ sem_value y →
      waiters M o + calls (is_wait o) xs - waiters M' o ≤ sem_value y + calls (is_notify o) xs).
Proof.
  intros Hp Hi Hb HM Htr Hm Hy Hlt. destruct (reached_minv e st s s' M Hp Hi Hb HM) as [a Ha].
  destruct (sem_trace o M xs M' Htr a y Ha Hm Hy Hlt) as (a' & y' & Ha' & Hm' & Hy' & Hle & E).
  unfold waiters. rewrite (sem_queue M a o y), (sem_queue M' a' o y') by done.
  exists y'. split; [done|]. split; [exact E|lia].
Qed.
End properties.

(** *** Witnesses: the small system of [System] *)
Section witnesses.
#[local] Existing Instance demo_layout.
#[local] Existing Instance demo_uart.
#[local] Existing Instance demo_logger.
#[local] Existing Instance demo_logger_laws.

Definition do_tick (M : machine) : machine :=
  default M (settle M (current M) (CTick demo_frame) (call_code (CTick demo_frame) (m_state M))).

Fixpoint ticks (n : nat) (M : machine) : machine :=
  match n with O => M | S n' => ticks n' (do_tick M) end.

Definition can_tick (M : machine) : bool :=
  match m_parked M !! current M with None => true | Some _ => false end &&
  Z.testbit (c_eflags (k_cpu (m_state M))) 9.

(** [n] clock interrupts can be handled from [M] on, and [t] runs at none of them. *)
Fixpoint kept_waiting (t : Z) (n : nat) (M : machine) : bool :=
  match n with
  | O => true
  | S n' => bool_decide (current M ≠ t) && can_tick M && kept_waiting t n' (do_tick M)
  end.

Lemma from_boot_some M o : from_boot M → mstep M o → o = Some (default M o).
Proof.
  intros HM Hst.
  destruct (reached_minv 4660 8192 system_state system_booted M system_power_on system_idle
    system_boots HM) as [a Ha].
  by destruct (step_goes_on M a o Ha Hst) as (M' & _ & -> & _).
Qed.

Lemma tick_of M : from_boot M → can_tick M = true → mtick M (Some (do_tick M)).
Proof.
  intros HM [Hp Hf]%andb_prop.
  assert (Ht : mtick M (settle M (current M) (CTick demo_frame)
    (call_code (CTick demo_frame) (m_state M)))).
  { apply astep_tick; [|done]. by destruct (m_parked M !! current M). }
  by rewrite (from_boot_some M _ HM (mtick_mstep _ _ Ht)) in Ht.
Qed.

Lemma do_call_step c M :
  from_boot M → current M ≠ idle_task → m_parked M !! current M = None → permitted M c →
  mstep M (Some (do_call c M)).
Proof.
  intros HM Hi Hn Hp. pose proof (step_call M c Hi Hn Hp) as Hs.
  by rewrite (from_boot_some M _ HM Hs) in Hs.
Qed.

Lemma do_resume_step M :
  from_boot M → is_Some (m_parked M !! current M) → mstep M (Some (do_resume M)).
Proof.
  intros HM [[c k] Hk]. pose proof (step_resume M c k Hk) as Hs.
  rewrite (from_boot_some M _ HM Hs) in Hs. unfold do_resume.
  change (@lookup Z (kcall * (kstate → kres unit))) with (@lookup Z (kcall * K unit)).
  by rewrite Hk.
Qed.

Lemma from_boot_next M M1 : from_boot M → mstep M (Some M1) → from_boot M1.
Proof. intros HM Hs. by eapply from_boot_step. Qed.

Lemma from_boot_run P n M M' : from_boot M → run P n M M' → from_boot M'.
Proof.
  intros HM Hr. apply run_mstep in Hr. induction Hr as [|M M1 M' [_ Hs] _ IH]; [done|].
  apply IH. by eapply from_boot_step.
Qed.

Lemma kept_waiting_run t n : ∀ M, from_boot M → kept_waiting t n M = true →
  run (λ M, current M ≠ t) n M (ticks n M).
Proof.
  induction n as [|n IH]; intros M HM; [constructor|]. cbn [kept_waiting ticks].
  intros [[Hc%bool_decide_eq_true Hct]%andb_prop Hk]%andb_prop.
  assert (Ht : mtick M (Some (do_tick M))).
  { by apply tick_of. }
  apply (run_tick _ n M (do_tick M)); [done|done|].
  apply IH; [|done]. by eapply from_boot_step; [|by apply mtick_mstep|].
Qed.

(** [task_a] is behind the first task, which has a full slice. *)
Lemma ready_task_runs_witness :
  Z.of_nat 10 ≤ Z.of_nat (length [first_task]) * TASK_TIME_SLICE_DEFAULT ∧
  task_a ∈ queue_of (m_state (ticks 10 sys1)) PReady ∧ current (ticks 10 sys1) = task_a.
Proof.
  assert (Hc : current (ticks 10 sys1) = task_a) by (vm_compute; reflexivity).
  enough (Z.of_nat 10 ≤ Z.of_nat (length [first_task]) * TASK_TIME_SLICE_DEFAULT ∧
    task_a ∈ queue_of (m_state (ticks 10 sys1)) PReady) as [? ?] by (split; [done|by split]).
  apply (ready_task_runs 4660 8192 system_state system_booted sys1 task_a [first_task] [] 10).
  - exact system_power_on.
  - exact system_idle.
  - exact system_boots.
  - exact reach1.
  - vm_compute. reflexivity.
  - apply kept_waiting_run; [exact reach1|vm_compute; reflexivity].
Defined.

(** [task_b] joins [task_a] in the queue of the mutex; the first task gives the
    mutex to [task_a]. *)
Definition fair1 : machine := do_call (CCreate task_b 4660 8192 (bytes_of_string "b")) sys5.
Definition fair2 : machine := do_call CYield fair1.
Definition fair3 : machine := do_call (CLock user_mutex) fair2.
Definition fair4 : machine := do_resume fair3.
Definition fair5 : machine := do_call (CUnlock user_mutex) fair4.

Ltac from_call H :=
  apply from_boot_call; [exact H|vm_compute; discriminate|vm_compute; reflexivity|].

Lemma fair_reach1 : from_boot fair1.
Proof.
  from_call reach5. split; [decide_vm|]. split; [decide_vm|]. split; [done|].
  exists 6%nat, null_desc. split; [lia|]. split; vm_compute; reflexivity.
Qed.

Lemma fair_reach2 : from_boot fair2.
Proof. by from_call fair_reach1. Qed.

Lemma fair_reach3 : from_boot fair3.
Proof.
  from_call fair_reach2. split; [exact user_mutex_free|]. eexists.
  split; [vm_compute; reflexivity|reflexivity].
Qed.

Lemma fair_reach4 : from_boot fair4.
Proof. apply from_boot_resume; [exact fair_reach3|decide_vm]. Qed.

Lemma fair_unlock :
  mstep fair4 (Some fair5).
Proof.
  apply do_call_step; [exact fair_reach4|vm_compute; discriminate|vm_compute; reflexivity|].
  split; [exact user_mutex_free|decide_vm].
Qed.

Lemma waiters_in_order_witness :
  queue_of (m_state fair4) (PWait user_mutex) = [task_a; task_b] ∧
  ∃ k L, queue_of (m_state fair5) (PWait user_mutex) = drop k [task_a] ++ task_b :: [] ++ L.
Proof.
  split; [vm_compute; reflexivity|].
  apply (waiters_in_order 4660 8192 system_state system_booted fair4 user_mutex task_b [task_a] [] 0).
  - exact system_power_on.
  - exact system_idle.
  - exact system_boots.
  - exact fair_reach4.
  - vm_compute. reflexivity.
  - eapply run_step; [decide_vm|exact fair_unlock|apply run_here].
  - decide_vm.
Defined.

Lemma system_refines_witness :
  ∃ M' a ev, Some (do_tick sys1) = Some M' ∧ simulates sys1 a ev M' ∧ acts ATick ev.
Proof.
  apply (system_refines 4660 8192 system_state system_booted sys1 ATick).
  - exact system_power_on.
  - exact system_idle.
  - exact system_boots.
  - exact reach1.
  - apply tick_of; [exact reach1|vm_compute; reflexivity].
Defined.

(** The first task notifies the semaphore once and waits for it twice. *)
Definition sem1 : machine := do_call (CNotify user_sem) sys1.
Definition sem2 : machine := do_call (CWait user_sem) sem1.
Definition sem3 : machine := do_call (CWait user_sem) sem2.

Lemma do_call_act c M :
  from_boot M → current M ≠ idle_task → m_parked M !! current M = None → permitted M c →
  astep M (ACall c) (Some (do_call c M)).
Proof.
  intros HM Hi Hn Hp. pose proof (astep_call M c Hi Hn Hp) as Hs.
  by rewrite (from_boot_some M _ HM (proj2 (mstep_action _ _) (ex_intro _ _ Hs))) in Hs.
Qed.

Lemma sem_reach1 : from_boot sem1.
Proof. from_call reach1. split; [vm_compute; reflexivity|decide_vm]. Qed.

Lemma sem_reach2 : from_boot sem2.
Proof. from_call sem_reach1. split; [vm_compute; reflexivity|decide_vm]. Qed.

Ltac sem_act H :=
  apply do_call_act; [exact H|vm_compute; discriminate|vm_compute; reflexivity|
    split; [vm_compute; reflexivity|decide_vm]].

Lemma sem_acts : trace sys1 [ACall (CNotify user_sem); ACall (CWait user_sem); ACall (CWait user_sem)] sem3.
Proof.
  apply (trace_cons _ _ sem1); [sem_act reach1|]. apply (trace_cons _ _ sem2); [sem_act sem_reach1|].
  apply (trace_cons _ _ sem3); [sem_act sem_reach2|apply trace_nil].
Qed.

Lemma semaphore_conserved_witness :
  waiters sem3 user_sem = 1 ∧ ∃ y', k_sem (m_state sem3) !! user_sem = Some y' ∧
    sem_value y' - waiters sem3 user_sem = 0 - waiters sys1 user_sem + 1 - 2 ∧
    (0 ≤ 0 → waiters sys1 user_sem + 2 - waiters sem3 user_sem ≤ 0 + 1).
Proof.
  split; [vm_compute; reflexivity|].
  apply (semaphore_conserved 4660 8192 system_state system_booted sys1
    [ACall (CNotify user_sem); ACall (CWait user_sem); ACall (CWait user_sem)] sem3 user_sem
    (Sem 0 list_init)).
  - exact system_power_on.
  - exact system_idle.
  - exact system_boots.
  - exact reach1.
  - exact sem_acts.
  - vm_compute. reflexivity.
  - vm_compute. reflexivity.
  - reflexivity.
Defined.

(** A sleep can end early: in a run of the small system a task asks for 10 ms,
    one clock tick, and is ready again before any tick is counted: the task switched
    to was preempted at the end of its slice, and what it had left of that interrupt
    counts the sleepers down when it resumes. *)
Theorem sleep_cut_short :
  ∃ M M1 M2, from_boot M ∧ current M = task_a ∧
    M1 = do_call (CSleep 10) M ∧ mstep M (Some M1) ∧ mstep M1 (Some M2) ∧
    ms_to_ticks 10 = 1 ∧ queue_of (m_state M1) PSleep = [task_a] ∧
    task_a ∈ queue_of (m_state M2) PReady ∧ k_sys_tick (m_state M2) = k_sys_tick (m_state M).
Proof.
  pose proof (kept_waiting_run task_a 10 sys1 reach1 ltac:(vm_compute; reflexivity)) as Hrun.
  pose proof (from_boot_run _ _ _ _ reach1 Hrun) as HM. clear Hrun.
  set (M := ticks 10 sys1) in *. set (M1 := do_call (CSleep 10) M). set (M2 := do_resume M1).
  assert (Hc : current M = task_a) by (vm_compute; reflexivity).
  assert (Hs : mstep M (Some M1)).
  { apply do_call_step; [exact HM|rewrite Hc; vm_compute; discriminate|vm_compute; reflexivity|].
    exact (conj eq_refl eq_refl). }
  exists M, M1, M2. split; [exact HM|]. split; [exact Hc|]. split; [reflexivity|]. split; [exact Hs|].
  split; [apply do_resume_step; [exact (from_boot_next M M1 HM Hs)|decide_vm]|].
  split; [reflexivity|]. split; [vm_compute; reflexivity|]. split; [decide_vm|vm_compute; reflexivity].
Qed.
End witnesses.
