(* ===== verification/Refinement.v ===== *)
(** * The running system as a refinement

    The abstract kernel of [Events] as a transition system of its own, and the
    simulation: every run of the machine, from boot on, is a run of the abstract
    kernel, event by event. *)
From S2P Require Import Prelude Klib DList CpuInstr Desc Kernel Queues ListRef Demo Sched Mutex Sem Log Tasks Irq Events Machine Safety System Fairness.

(** ** The abstract transition system *)
Section abstract.
Context `{Layout}.

(** Tasks in queues, the slice of each task, the countdown of each sleeper, owners
    and counts of the mutexes, values of the semaphores, and the tasks created. *)
Record abs : Type := Abs {
  ab_queues : kabs;
  ab_slice : Z → Z;
  ab_nap : Z → Z;
  ab_objs : objs;
  ab_tasks : gset Z
}.

Definition abs_next (e : event) (A : abs) : abs :=
  let a := ab_queues A in
  Abs (do_event e a) (charge e a (ab_slice A)) (doze e a (ab_nap A)) (do_objs e a (ab_objs A))
    (grow e (ab_tasks A)).

Definition abs_enabled (e : event) (A : abs) : Prop :=
  enabled e (ab_queues A) (ab_slice A) (ab_objs A) ∧ counts e (ab_queues A) (ab_nap A).

Inductive abs_run : abs → list event → abs → Prop :=
| abs_stop A : abs_run A [] A
| abs_go A e es A' : abs_enabled e A → abs_run (abs_next e A) es A' → abs_run A (e :: es) A'.

(** The machine [M] is in the abstract state [A]. *)
Record represents (M : machine) (A : abs) : Prop := {
  rp_queues : krel (m_state M) (ab_queues A);
  rp_slice : ∀ t, slices M t = ab_slice A t;
  rp_nap : ∀ t, t ∈ a_sleep (ab_queues A) → naps M t = ab_nap A t;
  rp_objs : objs_of (m_state M) = ab_objs A;
  rp_tasks : m_created M = ab_tasks A
}.
End abstract.

(** ** The simulation *)
Section simulation.
Context `{LoggerLaws}.
Implicit Types (M : machine) (A : abs) (e : event).

(** Events see of the slices and the countdowns what is represented. *)
Lemma charge_ext e a f g : (∀ t, f t = g t) → ∀ t, charge e a f t = charge e a g t.
Proof. intros E t. destruct e; cbn; rewrite ?E; done. Qed.

Lemma enabled_ext e a f g b : (∀ t, f t = g t) → enabled e a f b → enabled e a g b.
Proof. intros E. destruct e; cbn; rewrite ?E; done. Qed.

Lemma counts_ext e a f g : (∀ t, t ∈ a_sleep a → f t = g t) → counts e a f → counts e a g.
Proof. intros E. destruct e; cbn; try done; intros Hc t Ht; rewrite <-E by done; by apply Hc. Qed.

Lemma doze_ext e a f g t :
  (∀ t, t ∈ a_sleep a → f t = g t) → t ∈ a_sleep (do_event e a) → doze e a f t = doze e a g t.
Proof.
  intros E. rewrite sleep_queue_event. destruct e; cbn; try (intros Ht; by rewrite ?E);
    try (by intros [_ Ht]%list_elem_of_filter; rewrite E).
  intros Ht. destruct (decide (t = a_curr a)); [done|]. apply E. case_decide; [done|].
  by apply elem_of_app in Ht as [|?%list_elem_of_singleton].
Qed.

Lemma represents_step M A e M1 :
  minv M (ab_queues A) → represents M A → advances M (ab_queues A) e M1 →
  abs_enabled e A ∧ represents M1 (abs_next e A).
Proof.
  intros HM [Hr Hs Hn Ho Ht] [HM1 [Hen Hsl Hob Hcn Hnap] Hc _]. split; [split|split; cbn].
  - rewrite <-Ho. by eapply enabled_ext.
  - by eapply counts_ext.
  - apply (mi_core _ _ HM1).
  - intros t. unfold slices. rewrite Hsl. by apply charge_ext.
  - intros t Hin. unfold naps. rewrite Hnap by done. by apply doze_ext.
  - by rewrite Hob, Ho.
  - by rewrite Hc, Ht.
Qed.

Lemma represents_trace M xs M' : trace M xs M' → ∀ A,
  minv M (ab_queues A) → represents M A →
  ∃ es A', abs_run A es A' ∧ represents M' A' ∧ Forall2 acts xs es.
Proof.
  induction 1 as [M|M x M1 xs M' Hst _ IH]; intros A HM HR.
  { exists [], A. split; [constructor|]. by split; [|constructor]. }
  destruct (action_advances M _ x M1 HM Hst) as (e & He & Hx).
  destruct (represents_step M A e M1 HM HR He) as [Hen HR1].
  destruct (IH (abs_next e A) (av_inv _ _ _ _ He) HR1) as (es & A' & Hrun & HR' & Hacts).
  exists (e :: es), A'. split; [by constructor|]. split; [done|by constructor].
Qed.

(** The abstract kernel after boot: the first task alone is ready, all slices are
    full. *)
Definition abs_boot (s : kstate) : abs :=
  Abs boot_abs (slice_ticks_of s) (sleep_ticks_of s) (objs_of s) {[ idle_task; first_task ]}.

Lemma represents_boot s : krel s boot_abs → represents (booted s) (abs_boot s).
Proof. intros Hr. by split. Qed.
End simulation.

(** ** Properties *)
Section properties.
Context `{LoggerLaws}.
Implicit Types (s : kstate) (M : machine) (A : abs).

(** C4: the running system refines the abstract kernel: every run of the machine
    from boot, through kernel calls, clock interrupts and resumptions in any order,
    is a run of the abstract kernel, with one enabled event for every step, of the
    kind of that step; and at its end the machine is in the abstract state the
    events lead to: the linked lists hold the queues, and slices, countdowns,
    owners, counts, values and tasks are those computed. *)
Theorem runs_refine e st s s' xs M :
  power_on s → objects_idle s → boot e st s = KRet tt s' → trace (booted s') xs M →
  ∃ es A, abs_run (abs_boot s') es A ∧ represents M A ∧ Forall2 acts xs es.
Proof.
  intros Hp Hi Hb Htr. pose proof (boot_minv e st s s' Hp Hi Hb) as HM.
  apply (represents_trace _ _ _ Htr); [exact HM|]. apply represents_boot, (mi_core _ _ HM).
Qed.
End properties.

(** *** Witness: the small system of [System] *)
Section witnesses.
#[local] Existing Instance demo_layout.
#[local] Existing Instance demo_uart.
#[local] Existing Instance demo_logger.
#[local] Existing Instance demo_logger_laws.

(** The first task creates [task_a], and a clock interrupt is handled. *)
Lemma create_then_tick :
  trace (booted system_booted) [ACall (CCreate task_a 4660 8192 (bytes_of_string "a")); ATick] (do_tick sys1).
Proof.
  assert (from_boot (booted system_booted)) as H0 by apply rtc_refl.
  apply (trace_cons _ _ sys1).
  - apply do_call_act; [exact H0|vm_compute; discriminate|vm_compute; reflexivity|].
    split; [decide_vm|]. split; [decide_vm|]. split; [done|].
    exists 5%nat, null_desc. split; [lia|]. split; vm_compute; reflexivity.
  - apply (trace_cons _ _ (do_tick sys1)); [|apply trace_nil].
    apply tick_of; [exact reach1|vm_compute; reflexivity].
Qed.

Lemma runs_refine_witness :
  ∃ es A, abs_run (abs_boot system_booted) es A ∧ represents (do_tick sys1) A ∧ length es = 2%nat.
Proof.
  destruct (runs_refine 4660 8192 system_state system_booted
    [ACall (CCreate task_a 4660 8192 (bytes_of_string "a")); ATick] (do_tick sys1)) as (es & A & Hr & HA & Hx).
  - exact system_power_on.
  - exact system_idle.
  - exact system_boots.
  - exact create_then_tick.
  - exists es, A. split; [exact Hr|]. split; [exact HA|]. by apply Forall2_length in Hx.
Defined.
End witnesses.
