(* ===== verification/Progress.v ===== *)
(** * Progress of the running system

    The flags of the processor along a run, and what follows for progress: every
    task runs its own code with the flags it gave itself, however often it was
    interrupted and suspended; so the system never comes to a halt, and the clock
    alone brings every ready task to the processor. *)
From S2P Require Import Prelude Klib DList CpuInstr Desc Kernel Queues ListRef Demo Sched Mutex Sem Log Tasks Irq Events Machine Safety System Fairness.

(** ** Runs without calls *)
Section spin.
Context `{LoggerLaws}.
Implicit Types (M : machine) (a : kabs) (t : Z).

(** [n] clock interrupts, and the resumptions between them; no task makes a call. *)
Inductive spin : nat → machine → machine → Prop :=
| spin_here M : spin 0 M M
| spin_tick n M M1 M' : mtick M (Some M1) → spin n M1 M' → spin (S n) M M'
| spin_resume n M M1 M' : astep M AResume (Some M1) → spin n M1 M' → spin n M M'.

(** Bit 9 of the flags is the interrupt flag. *)
Definition irqs_on (e : Z) : bool := Z.testbit e 9.

Lemma new_flags_on : irqs_on new_flags = true.
Proof. reflexivity. Qed.

(** Neither an interrupt nor the rest of a call changes a task's own flags. *)
Lemma settle_flags M t (c : kcall) r M' :
  settle M t c r = Some M' → parkable c → m_flags M' = m_flags M.
Proof.
  intros Hs Hp. destruct r as [x s1|?|sel s1 k]; cbn in Hs; [|done|].
  - injection Hs as <-. by apply flags_parkable.
  - apply fmap_Some in Hs as (s2 & _ & ->). done.
Qed.

(** A task suspended inside a call can go on. *)
Lemma resume_possible M a c k :
  minv M a → m_parked M !! a_curr a = Some (c, k) →
  ∃ M1 e, astep M AResume (Some M1) ∧ advances M a e M1 ∧ rests e ∧
    m_flags M1 = m_flags M ∧ m_created M1 = m_created M.
Proof.
  intros HM Hk. destruct (resume_goes_on M a c k HM Hk) as (M1 & e & Hs & He & Hr).
  exists M1, e. split; [|split; [done|split; [done|split]]].
  - rewrite <-Hs, <-(minv_curr M a HM). apply astep_resume. by rewrite (minv_curr M a HM).
  - eapply settle_flags; [exact Hs|]. by apply (mi_parked _ _ HM _ _ _ Hk).
  - rewrite (av_created _ _ _ _ He). by destruct e.
Qed.

(** A task with interrupts enabled can be interrupted. *)
Lemma tick_possible M a (frame : exception_frame_t) :
  minv M a → m_parked M !! a_curr a = None → irqs_on (own_flags M (a_curr a)) = true →
  ∃ M1 e, mtick M (Some M1) ∧ advances M a e M1 ∧ is_tick e = true ∧
    m_flags M1 = m_flags M ∧ m_created M1 = m_created M.
Proof.
  intros HM Hno Hf. destruct (tick_goes_on M a frame HM Hno) as (M1 & e & Hs & He & Ht).
  exists M1, e. split; [|split; [done|split; [done|split]]].
  - rewrite <-Hs, <-(minv_curr M a HM). apply astep_tick.
    + by rewrite (minv_curr M a HM).
    + by rewrite (fo_run _ _ (mi_flags _ _ HM) Hno).
  - by eapply settle_flags.
  - rewrite (av_created _ _ _ _ He). by destruct e.
Qed.

(** The rest of a call adds tasks to the ready queue. *)
Lemma rests_ready e a : rests e → ∃ L, a_ready (do_event e a) = a_ready a ++ L.
Proof. destruct e; try done; intros _; [exists []; by rewrite app_nil_r|by eexists]. Qed.

Lemma rests_curr M a e M1 :
  minv M a → advances M a e M1 → rests e → a_ready (do_event e a) = [] ∨ a_ready a ≠ [] →
  a_curr (do_event e a) = a_curr a.
Proof.
  intros HM [HM1 _ _ _] Hr Hc. destruct (rests_ready e a Hr) as [L E].
  rewrite (so_next _ _ (co_sched _ _ _ (mi_core _ _ HM))), (so_next _ _ (co_sched _ _ _ (mi_core _ _ HM1))).
  unfold next_task. rewrite E in *. by destruct (a_ready a) as [|u q]; [destruct Hc as [->|]|].
Qed.

(** With tasks ready, a resumed task finishes its call. *)
Lemma resume_finishes M a c k :
  minv M a → m_parked M !! a_curr a = Some (c, k) → a_ready a ≠ [] →
  ∃ M1 a1 L, astep M AResume (Some M1) ∧ minv M1 a1 ∧ a_ready a1 = a_ready a ++ L ∧
    a_curr a1 = a_curr a ∧ m_parked M1 !! a_curr a1 = None ∧ m_flags M1 = m_flags M ∧
    m_created M1 = m_created M ∧ (∀ u, slices M1 u = slices M u).
Proof.
  intros HM Hk Hne.
  destruct (resume_possible M a c k HM Hk) as (M1 & e & Hs & He & Hr & Hfl & Hcr).
  destruct (rests_ready e a Hr) as [L E]. pose proof (rests_curr M a e M1 HM He Hr (or_intror Hne)) as Ec.
  destruct He as [HM1 [_ Hsl _ _ _] _ Hrun]. exists M1, (do_event e a), L. rewrite Ec.
  split; [done|]. split; [done|]. split; [done|]. split; [done|]. split; [by apply Hrun|].
  split; [done|]. split; [done|]. intros u. unfold slices. rewrite Hsl. by destruct e.
Qed.

(** The budget of the tasks ahead of [t] is used up by interrupts. *)
Lemma tick_spends M a t q1 q2 (frame : exception_frame_t) :
  minv M a → m_parked M !! a_curr a = None → a_ready a = q1 ++ t :: q2 → a_curr a ≠ t →
  irqs_on (own_flags M (a_curr a)) = true →
  ∃ M1 a1 q1' q2', mtick M (Some M1) ∧ minv M1 a1 ∧ a_ready a1 = q1' ++ t :: q2' ∧ q1' ⊆ q1 ∧
    m_flags M1 = m_flags M ∧ budget (slices M1) q1' + 1 ≤ budget (slices M) q1.
Proof.
  intros HM Hno Eq Hc Hf.
  destruct (tick_possible M a frame HM Hno Hf) as (M1 & e & Hs & He & Ht & Hfl & _).
  destruct (ready_step M a e M1 q1 t q2 HM He) as (HM1 & q1' & q2' & E1 & Hq & Hb);
    [by rewrite (minv_curr M a HM)|done|].
  rewrite Ht in Hb. exists M1, (do_event e a), q1', q2'. by split_and!.
Qed.

Lemma ready_current M a t q1 q2 :
  minv M a → a_ready a = q1 ++ t :: q2 → a_curr a ≠ t → a_curr a ∈ q1.
Proof.
  intros HM Eq Hc. rewrite (so_next _ _ (co_sched _ _ _ (mi_core _ _ HM))) in *.
  unfold next_task in *. rewrite Eq in *. destruct q1 as [|u q1]; [done|left].
Qed.

(** A machine in which the running task can be interrupted is at most one
    resumption away. *)
Lemma unpark M a q1 t q2 :
  minv M a → a_ready a = q1 ++ t :: q2 →
  ∃ M0 a0 q0, (M0 = M ∨ astep M AResume (Some M0)) ∧ minv M0 a0 ∧ a_ready a0 = q1 ++ t :: q0 ∧
    a_curr a0 = a_curr a ∧ m_parked M0 !! a_curr a0 = None ∧ m_flags M0 = m_flags M ∧
    (∀ u, slices M0 u = slices M u).
Proof.
  intros HM Eq. destruct (m_parked M !! a_curr a) as [[c k]|] eqn:Hk.
  - destruct (resume_finishes M a c k HM Hk) as (M0 & a0 & L & Hs & HM0 & E0 & Hrest);
      [by rewrite Eq; destruct q1|].
    destruct Hrest as (Ec & Hno & Hfl & _ & Hsl).
    exists M0, a0, (q2 ++ L). split; [by right|]. split; [done|]. split; [|done].
    by rewrite E0, Eq, <-app_assoc.
  - exists M, a, q2. split; [by left|]. by split_and!.
Qed.

Lemma spin_reaches t (frame : exception_frame_t) B : ∀ M a q1 q2,
  minv M a → a_ready a = q1 ++ t :: q2 → (∀ u, u ∈ q1 → irqs_on (own_flags M u) = true) →
  budget (slices M) q1 ≤ Z.of_nat B →
  ∃ n M', spin n M M' ∧ current M' = t ∧ (n ≤ B)%nat.
Proof.
  induction B as [|B IH]; intros M a q1 q2 HM Eq Hf Hb.
  all: destruct (decide (a_curr a = t)) as [Ec|Ec];
    [exists 0%nat, M; split; [constructor|]; rewrite (minv_curr M a HM); split; [done|lia]|].
  all: destruct (unpark M a q1 t q2 HM Eq) as (M0 & a0 & q0 & Hs0 & HM0 & E0 & Ec0 & Hno & Hfl0 & Hsl0).
  all: pose proof (ready_current M a t q1 q2 HM Eq Ec) as Hin; rewrite <-Ec0 in Hin, Ec.
  all: destruct (tick_spends M0 a0 t q1 q0 frame HM0 Hno E0 Ec) as
    (M1 & a1 & p1 & p2 & Hs1 & HM1 & E1 & Hsub & Hfl1 & Hb1);
    [unfold own_flags; rewrite Hfl0; by apply Hf|].
  all: rewrite (budget_ext _ (slices M) q1) in Hb1 by (intros; apply Hsl0).
  - pose proof (budget_bound (slices M1) p1 TASK_TIME_SLICE_DEFAULT) as Hpos.
    enough (0 ≤ budget (slices M1) p1) by lia. apply Hpos. intros u Hu.
    enough (1 ≤ slices M1 u ≤ TASK_TIME_SLICE_DEFAULT) by lia. eapply ready_slices; [done|].
    rewrite E1. apply elem_of_app. by left.
  - destruct (IH M1 a1 p1 p2 HM1 E1) as (n & M' & Hspin & Ht & Hn); [|lia|].
    + intros u Hu. unfold own_flags. rewrite Hfl1, Hfl0. by apply Hf, Hsub.
    + exists (S n), M'. split; [|split; [done|lia]].
      assert (spin (S n) M0 M') by by eapply spin_tick.
      destruct Hs0 as [<-|Hs0]; [done|by eapply spin_resume].
Qed.
(** Every machine can go on. *)
Lemma minv_progress M a :
  minv M a →
  (∃ M', astep M AResume (Some M')) ∨ (∃ M', astep M ATick (Some M')) ∨
  (current M ≠ idle_task ∧ irqs_on (own_flags M (current M)) = false ∧
   ∃ M', astep M (ACall CYield) (Some M')).
Proof.
  intros Ha. pose proof (minv_curr M a Ha) as Ec. rewrite Ec.
  destruct (m_parked M !! a_curr a) as [[c k]|] eqn:Hk.
  { left. destruct (resume_possible M a c k Ha Hk) as (M1 & _ & Hs & _). by exists M1. }
  right. destruct (irqs_on (own_flags M (a_curr a))) eqn:Ef.
  { left. destruct (tick_possible M a demo_frame Ha Hk Ef) as (M1 & _ & Hs & _). by exists M1. }
  right. assert (Hidle : a_curr a ≠ idle_task).
  { intros E. rewrite E, (proj2 (fo_idle _ _ (mi_flags _ _ Ha))) in Ef. done. }
  split; [done|]. split; [done|]. rewrite <-Ec in *.
  destruct (step_goes_on M a _ Ha (step_call M CYield Hidle Hk I)) as (M1 & _ & Es & _).
  exists M1. rewrite <-Es. by apply astep_call.
Qed.

Lemma minv_goes_on M a : minv M a → ∃ M', mstep M (Some M').
Proof.
  intros HM. destruct (minv_progress M a HM) as [[M' Hs]|[[M' Hs]|(_ & _ & M' & Hs)]];
    exists M'; apply mstep_action; by eexists.
Qed.

(** What an action makes of the flags of each task. *)
Definition flags_next M (x : action) (t : Z) : Z :=
  match x with
  | ACall (CCreate u _ _ _) => if decide (t = u) then new_flags else own_flags M t
  | ACall CIrqOn => if decide (t = current M) then irq_on (own_flags M t) else own_flags M t
  | ACall CIrqOff => if decide (t = current M) then irq_off (own_flags M t) else own_flags M t
  | _ => own_flags M t
  end.

Lemma flags_after_next M (c : kcall) t :
  default 0 (flags_after (current M) c (m_flags M) !! t) = flags_next M (ACall c) t.
Proof.
  destruct c; cbn [flags_after flags_next]; try done;
    (case_decide as E; [by rewrite E, lookup_insert_eq|by rewrite lookup_insert_ne by by apply not_eq_sym]).
Qed.

Lemma step_flags M a x M1 t :
  minv M a → astep M x (Some M1) → own_flags M1 t = flags_next M x t.
Proof.
  intros HM Hst. destruct (action_advances M a x M1 HM Hst) as (e & [_ _ Hcr _] & Hx).
  remember (Some M1) as o eqn:Eo. destruct Hst as [c Hi Hno Hp|frame Hno _|c k Hk].
  - unfold settle in Eo. destruct (call_code c (m_state M)) as [y s1|?|sel s1 k] eqn:Er; [|done|].
    + injection Eo as <-. apply flags_after_next.
    + apply fmap_Some in Eo as (s2 & _ & ->).
      assert (Hsame : flags_next M (ACall c) t = own_flags M t); [|by rewrite Hsame].
      destruct c as [| | | | | |u entry esp nm| | | |]; try done.
      destruct Hp as [Hu _]. destruct e; try done. cbn in Hx, Hcr. subst u. destruct Hu.
      rewrite Hcr. apply elem_of_union. left. by apply elem_of_singleton.
  - unfold own_flags. by rewrite (settle_flags _ _ _ _ _ Eo).
  - unfold own_flags. rewrite (settle_flags _ _ _ _ _ Eo); [done|].
    apply (mi_parked _ _ HM (current M) c k Hk).
Qed.
End spin.

(** ** Sleepers *)
Section sleepers.
Context `{LoggerLaws}.
Implicit Types (M : machine) (a : kabs) (t : Z).

(** What clock interrupts spend, 9 each, before a sleeper with countdown [g] wakes. *)
Definition toil (g : Z) M a : Z := 10 * g + deficit (slices M) (a_all a).

Lemma asleep_of M a : minv M a → queue_of (m_state M) PSleep = a_sleep a.
Proof. intros HM. apply (queue_of_ok _ a PSleep); [apply (mi_core _ _ HM)|by eexists]. Qed.

Lemma all_of M a : minv M a → queue_of (m_state M) PAll = a_all a.
Proof. intros HM. apply (queue_of_ok _ a PAll); [apply (mi_core _ _ HM)|by eexists]. Qed.

Lemma asleep_not_running M a t : minv M a → t ∈ a_sleep a → t ≠ a_curr a.
Proof.
  intros HM Ht ->. pose proof (mi_core _ _ HM) as Hc. pose proof (kr_ok _ _ (co_rel _ _ _ Hc)) as Hok.
  destruct (decide (a_curr a = idle_task)) as [E|E].
  - rewrite E in Ht. by apply (ao_idle _ Hok PSleep).
  - by discriminate (ao_unique _ Hok PReady PSleep (a_curr a) (core_ready _ _ _ Hc E) Ht).
Qed.

Lemma all_slices M a u : minv M a → u ∈ a_all a → 1 ≤ slices M u ≤ TASK_TIME_SLICE_DEFAULT.
Proof. intros HM Hu. by apply (mi_slices _ _ HM), (so_all _ _ (co_sched _ _ _ (mi_core _ _ HM))). Qed.

Lemma toil_pos M a g : minv M a → 0 ≤ g → 10 * g ≤ toil g M a ≤ 10 * g + 9 * Z.of_nat (length (a_all a)).
Proof.
  intros HM Hg. pose proof (deficit_bound (slices M) (a_all a)) as Hd. unfold toil.
  enough (0 ≤ deficit (slices M) (a_all a) ≤ 9 * Z.of_nat (length (a_all a))) by lia.
  apply Hd. intros u Hu. by eapply all_slices.
Qed.

(** One step, seen by a sleeper. *)
Lemma sleeper_step M a e M1 t :
  minv M a → advances M a e M1 → t ∈ a_sleep a →
  ∃ g, 0 ≤ g ∧ (t ∈ a_sleep (do_event e a) → naps M1 t = g) ∧
    toil g M1 (do_event e a) + 9 * Z.b2z (is_tick e) ≤ toil (naps M t) M a.
Proof.
  intros HM [HM1 [Hen Hsl _ Hcn Hnap] _ _] Ht. pose proof (mi_core _ _ HM) as Hc.
  pose proof (mi_naps _ _ HM t Ht) as Hg. pose proof (asleep_not_running M a t HM Ht) as Hne.
  exists (doze e a (naps M) t). split; [|split].
  - unfold doze. destruct e; try lia; [by rewrite decide_False by done; lia|..];
      rewrite s32_id by (unfold is_s32; lia); lia.
  - apply Hnap.
  - unfold toil. rewrite (deficit_ext (charge e a (slices M)) (slices M1)) by (intros u _; apply Hsl).
    apply (event_spends e a (slices M) (naps M) _ t Hen); try done.
    + apply (ao_nodup _ (kr_ok _ _ (co_rel _ _ _ Hc)) PAll).
    + apply (so_all _ _ (co_sched _ _ _ Hc)). by eapply core_curr.
    + intros u Hu. by eapply all_slices.
Qed.

Lemma sleeper_run t n M M' :
  run (λ M, t ∈ queue_of (m_state M) PSleep) n M M' → ∀ a g,
  minv M a → 0 ≤ g → (t ∈ a_sleep a → naps M t = g) → 9 * Z.of_nat n ≤ toil g M a.
Proof.
  induction 1 as [M|n M M1 M' Hs Hst _ IH|n M M1 M' Hs Hst _ IH]; intros a g HM Hg Et.
  - pose proof (toil_pos M a g HM Hg). lia.
  - rewrite (asleep_of M a HM) in Hs. rewrite <-(Et Hs).
    destruct (tick_advances M a M1 HM Hst) as (e & He & Hi).
    destruct (sleeper_step M a e M1 t HM He Hs) as (g1 & Hg1 & Et1 & Hle).
    pose proof (IH _ g1 (av_inv _ _ _ _ He) Hg1 Et1). rewrite Hi in Hle. cbn in Hle. lia.
  - rewrite (asleep_of M a HM) in Hs. rewrite <-(Et Hs).
    destruct (step_advances M a M1 HM Hst) as (e & He).
    destruct (sleeper_step M a e M1 t HM He Hs) as (g1 & Hg1 & Et1 & Hle).
    pose proof (IH _ g1 (av_inv _ _ _ _ He) Hg1 Et1). destruct (is_tick e); cbn in Hle; lia.
Qed.

(** *** The clock alone wakes sleepers *)
Definition resumes : machine → machine → Prop := rtc (λ M M', astep M AResume (Some M')).

Lemma spin_resumes n M M0 M' : resumes M M0 → spin n M0 M' → spin n M M'.
Proof. induction 1 as [|M1 M2 M3 Hs _ IH]; intros Hn; [done|]. eapply spin_resume; [exact Hs|by apply IH]. Qed.

(** All tasks but [t] run with interrupts enabled. *)
Definition others_on t M : Prop :=
  ∀ u, u ∈ m_created M → u ≠ t → irqs_on (own_flags M u) = true.

Lemma others_on_same t M M1 :
  others_on t M → (∀ u, own_flags M1 u = own_flags M u) → m_created M1 = m_created M →
  others_on t M1.
Proof. intros Ho Hf Hc u Hu Hne. rewrite Hc in Hu. rewrite Hf. by apply Ho. Qed.

(** After two resumptions at most, the running task is in no call. *)
Lemma resumes_finish M a :
  minv M a → ∃ M0, resumes M M0 ∧ m_parked M0 !! current M0 = None ∧
    m_flags M0 = m_flags M ∧ m_created M0 = m_created M.
Proof.
  intros HM. destruct (m_parked M !! a_curr a) as [[c k]|] eqn:Hk.
  2:{ exists M. split; [apply rtc_refl|]. by rewrite (minv_curr M a HM). }
  destruct (resume_possible M a c k HM Hk) as (M1 & e & Hs & He & Hr & Hfl & Hcr).
  pose proof (av_inv _ _ _ _ He) as HM1.
  destruct (m_parked M1 !! a_curr (do_event e a)) as [[c1 k1]|] eqn:Hk1.
  2:{ exists M1. split; [by apply rtc_once|]. by rewrite (minv_curr _ _ HM1). }
  destruct (rests_ready e a Hr) as [L EL].
  destruct (resume_finishes M1 _ c1 k1 HM1 Hk1) as (M2 & a2 & _ & Hs2 & HM2 & _ & _ & Hno & Hfl2 & Hcr2 & _).
  - intros E. pose proof (rests_curr M a e M1 HM He Hr (or_introl E)) as Ec.
    by rewrite Ec, (av_runs _ _ _ _ He Ec) in Hk1.
  - exists M2. split; [by eapply rtc_l; [|apply rtc_once]|].
    rewrite (minv_curr _ _ HM2), Hfl2, Hcr2. by split_and!.
Qed.

(** Interrupts and resumptions change neither flags nor tasks. *)
Lemma spin_keeps n M M' : spin n M M' → ∀ a, minv M a →
  ∃ a', minv M' a' ∧ (∀ u, own_flags M' u = own_flags M u) ∧ m_created M' = m_created M.
Proof.
  induction 1 as [M|n M M1 M' Hs _ IH|n M M1 M' Hs _ IH]; intros a HM; [by exists a|..].
  all: destruct (action_advances M a _ M1 HM Hs) as (e & He & Hx).
  all: destruct (IH _ (av_inv _ _ _ _ He)) as (a' & HM' & Hf & Hc).
  all: exists a'; split; [done|]; rewrite Hc, (av_created _ _ _ _ He).
  all: split; [intros u; rewrite Hf; by rewrite (step_flags M a _ M1 u HM Hs)|by destruct e].
Qed.

Lemma spin_trans n n' M M1 M' : spin n M M1 → spin n' M1 M' → spin (n + n') M M'.
Proof.
  induction 1 as [M|n M M2 M1 Hs _ IH|n M M2 M1 Hs _ IH]; intros Hn; [done|..].
  - eapply spin_tick; [exact Hs|by apply IH].
  - eapply spin_resume; [exact Hs|by apply IH].
Qed.

(** A sleeper still asleep or woken by a step. *)
Lemma sleeper_next M a e M1 t :
  minv M a → advances M a e M1 → t ∈ a_sleep a →
  (t ∈ queue_of (m_state M1) PReady ∧ 9 * Z.b2z (is_tick e) ≤ toil (naps M t) M a) ∨
  (t ∈ a_sleep (do_event e a) ∧
    toil (naps M1 t) M1 (do_event e a) + 9 * Z.b2z (is_tick e) ≤ toil (naps M t) M a).
Proof.
  intros HM He Ht. pose proof (av_inv _ _ _ _ He) as HM1.
  destruct (sleeper_step M a e M1 t HM He Ht) as (g & Hg & Eg & Hle).
  destruct (decide (t ∈ a_sleep (do_event e a))) as [Ht1|Ht1]; [right; by rewrite <-(Eg Ht1) in Hle|left].
  rewrite (ready_of M1 _ HM1). split; [by apply sleeper_woken|].
  pose proof (toil_pos M1 _ g HM1 Hg). lia.
Qed.

(** Resumptions wake the sleeper, or bring it no farther from waking. *)
Lemma sleeper_resumes t M M0 : resumes M M0 → ∀ a,
  minv M a → t ∈ a_sleep a →
  (∃ M', resumes M M' ∧ t ∈ queue_of (m_state M') PReady) ∨
  (∃ a0, minv M0 a0 ∧ t ∈ a_sleep a0 ∧ toil (naps M0 t) M0 a0 ≤ toil (naps M t) M a).
Proof.
  induction 1 as [M|M M1 M0 Hs _ IH]; intros a HM Ht; [right; by exists a|].
  destruct (action_advances M a _ M1 HM Hs) as (e & He & _).
  destruct (sleeper_next M a e M1 t HM He Ht) as [[Hr _]|[Ht1 Hle]].
  { left. exists M1. split; [by apply rtc_once|done]. }
  destruct (IH _ (av_inv _ _ _ _ He) Ht1) as [(M' & Hr & Hn)|(a0 & HM0 & Ht0 & Hle0)].
  - left. exists M'. split; [by eapply rtc_l|done].
  - right. exists a0. split; [done|]. split; [done|]. destruct (is_tick e); cbn in Hle; lia.
Qed.

Lemma clock_wakes t (frame : exception_frame_t) B : ∀ M a,
  minv M a → others_on t M → t ∈ a_sleep a → toil (naps M t) M a ≤ 9 * Z.of_nat B →
  ∃ n M', spin n M M' ∧ t ∈ queue_of (m_state M') PReady ∧ 9 * Z.of_nat n ≤ toil (naps M t) M a.
Proof.
  induction B as [|B IH]; intros M a HM Ho Ht Hb;
    pose proof (mi_naps _ _ HM t Ht) as Hnap; pose proof (toil_pos M a (naps M t) HM); [lia|].
  destruct (resumes_finish M a HM) as (M0 & Hr & Hno & Hfl & Hcr).
  destruct (sleeper_resumes t M M0 Hr a HM Ht) as [(M' & Hr' & Hn)|(a0 & HM0 & Ht0 & Hle0)].
  { exists 0%nat, M'. split; [by eapply spin_resumes; [|constructor]|]. split; [done|lia]. }
  rewrite (minv_curr M0 a0 HM0) in Hno.
  assert (Ho0 : others_on t M0) by (eapply others_on_same; [done|by unfold own_flags; rewrite Hfl|done]).
  destruct (tick_possible M0 a0 frame HM0 Hno) as (M1 & e & Hs & He & Hi & Hfl1 & Hcr1).
  { apply Ho0; [eapply core_curr, HM0|]. by apply not_eq_sym, (asleep_not_running M0). }
  assert (Ho1 : others_on t M1) by (eapply others_on_same; [done|by unfold own_flags; rewrite Hfl1|done]).
  destruct (sleeper_next M0 a0 e M1 t HM0 He Ht0) as [[Hn Hle]|[Ht1 Hle]]; rewrite Hi in Hle; cbn in Hle.
  - exists 1%nat, M1. split; [eapply spin_resumes; [exact Hr|eapply spin_tick; [exact Hs|constructor]]|].
    split; [done|lia].
  - destruct (IH M1 _ (av_inv _ _ _ _ He) Ho1 Ht1) as (n & M' & Hsp & Hn & Hle'); [lia|].
    exists (S n), M'. split; [by eapply spin_resumes; [exact Hr|eapply spin_tick]|]. split; [done|lia].
Qed.

(** *** A ready task gets the processor *)
Lemma budget_full M a q1 q2 :
  minv M a → a_ready a = q1 ++ q2 →
  0 ≤ budget (slices M) q1 ≤ Z.of_nat (length q1) * TASK_TIME_SLICE_DEFAULT.
Proof.
  intros HM E. apply budget_bound. intros u Hu.
  enough (1 ≤ slices M u ≤ TASK_TIME_SLICE_DEFAULT) by lia.
  eapply ready_slices; [done|]. rewrite E. apply elem_of_app. by left.
Qed.

Lemma clock_brings t (frame : exception_frame_t) M a q1 q2 :
  minv M a → a_ready a = q1 ++ t :: q2 → (∀ u, u ∈ q1 → irqs_on (own_flags M u) = true) →
  ∃ n M', spin n M M' ∧ current M' = t ∧
    Z.of_nat n ≤ Z.of_nat (length q1) * TASK_TIME_SLICE_DEFAULT.
Proof.
  intros HM Eq Hf. pose proof (budget_full M a q1 (t :: q2) HM Eq).
  destruct (spin_reaches t frame (Z.to_nat (budget (slices M) q1)) M a q1 q2 HM Eq Hf)
    as (n & M' & Hs & Ht & Hn); [lia|].
  exists n, M'. split; [done|]. split; [done|lia].
Qed.

(** Fewer tasks are ahead of a ready task than there are tasks. *)
Lemma ahead_bound M a q1 t q2 :
  minv M a → a_ready a = q1 ++ t :: q2 → Z.of_nat (length q1) < Z.of_nat (length (a_all a)).
Proof.
  intros HM Eq. pose proof (mi_core _ _ HM) as Hc. pose proof (kr_ok _ _ (co_rel _ _ _ Hc)) as Hok.
  enough (length (a_ready a) ≤ length (a_all a))%nat as Hle.
  { rewrite Eq, length_app in Hle. cbn in Hle. lia. }
  apply submseteq_length, NoDup_submseteq; [apply (ao_nodup _ Hok PReady)|].
  intros u Hu. apply (so_all _ _ (co_sched _ _ _ Hc)), (so_queued _ _ (co_sched _ _ _ Hc)).
  by exists PReady.
Qed.

(** A task that is ready runs, and its call returns. *)
Lemma ready_returns t (frame : exception_frame_t) M a :
  minv M a → t ∈ a_ready a → others_on t M →
  ∃ n M', spin n M M' ∧ current M' = t ∧ m_parked M' !! t = None ∧
    Z.of_nat n ≤ (Z.of_nat (length (a_all a)) - 1) * TASK_TIME_SLICE_DEFAULT.
Proof.
  intros HM Ht Ho. pose proof (mi_core _ _ HM) as Hc.
  destruct (list_elem_of_split _ _ Ht) as (q1 & q2 & Eq). pose proof (ahead_bound M a q1 t q2 HM Eq) as Hb.
  destruct (clock_brings t frame M a q1 q2 HM Eq) as (n & M1 & Hs & Ec & Hn).
  { intros u Hu. pose proof (ao_nodup _ (kr_ok _ _ (co_rel _ _ _ Hc)) PReady) as Hnd. cbn in Hnd.
    rewrite Eq in Hnd. apply NoDup_app in Hnd as (_ & Hd & _). apply Ho.
    - apply (so_queued _ _ (co_sched _ _ _ Hc)). exists PReady. split; [done|]. cbn. rewrite Eq.
      apply elem_of_app. by left.
    - intros ->. apply (Hd t Hu). left. }
  assert (Hle : Z.of_nat n ≤ (Z.of_nat (length (a_all a)) - 1) * TASK_TIME_SLICE_DEFAULT)
    by (unfold TASK_TIME_SLICE_DEFAULT in *; lia).
  destruct (spin_keeps n M M1 Hs a HM) as (a1 & HM1 & _ & _).
  destruct (m_parked M1 !! t) as [[c k]|] eqn:Hk; [|by exists n, M1].
  rewrite (minv_curr M1 a1 HM1) in Ec. rewrite <-Ec in Hk.
  destruct (resume_finishes M1 a1 c k HM1 Hk) as (M2 & a2 & _ & Hs2 & HM2 & _ & Ec2 & Hno & _).
  { intros E. rewrite (so_next _ _ (co_sched _ _ _ (mi_core _ _ HM1))) in Ec.
    unfold next_task in Ec. rewrite E in Ec. cbn in Ec.
    apply (ao_idle _ (kr_ok _ _ (co_rel _ _ _ Hc)) PReady); [done|]. cbn. by rewrite Ec. }
  exists n, M2. rewrite (minv_curr M2 a2 HM2), Ec2, Ec. rewrite Ec2, Ec in Hno.
  split; [|by split_and!]. rewrite <-(Nat.add_0_r n). eapply spin_trans; [exact Hs|].
  eapply spin_resume; [exact Hs2|constructor].
Qed.

(** A sleeper returns from its call. *)
Lemma sleeper_returns t (frame : exception_frame_t) M a :
  minv M a → t ∈ a_sleep a → others_on t M →
  ∃ n M', spin n M M' ∧ current M' = t ∧ m_parked M' !! t = None ∧
    9 * Z.of_nat n ≤ 10 * naps M t + 99 * Z.of_nat (length (a_all a)) - 90.
Proof.
  intros HM Ht Ho. pose proof (mi_naps _ _ HM t Ht) as Hg.
  pose proof (toil_pos M a (naps M t) HM ltac:(lia)) as Hpos.
  destruct (clock_wakes t frame (Z.to_nat (toil (naps M t) M a)) M a HM Ho Ht)
    as (n1 & M1 & Hs1 & Hr1 & Hn1); [lia|].
  destruct (spin_keeps n1 M M1 Hs1 a HM) as (a1 & HM1 & Hf1 & Hc1).
  rewrite (ready_of M1 a1 HM1) in Hr1.
  destruct (ready_returns t frame M1 a1 HM1 Hr1) as (n2 & M2 & Hs2 & Ec & Hno & Hn2);
    [by eapply others_on_same|].
  exists (n1 + n2)%nat, M2. split; [by eapply spin_trans|]. split; [done|]. split; [done|].
  assert (length (a_all a1) = length (a_all a)) as El.
  { apply Permutation_length, NoDup_Permutation.
    - apply (ao_nodup _ (kr_ok _ _ (co_rel _ _ _ (mi_core _ _ HM1))) PAll).
    - apply (ao_nodup _ (kr_ok _ _ (co_rel _ _ _ (mi_core _ _ HM))) PAll).
    - intros u. rewrite (so_all _ _ (co_sched _ _ _ (mi_core _ _ HM1))), Hc1.
      symmetry. apply (so_all _ _ (co_sched _ _ _ (mi_core _ _ HM))). }
  rewrite El in Hn2. unfold TASK_TIME_SLICE_DEFAULT in Hn2. lia.
Qed.
End sleepers.

(** ** Properties *)
Section properties.
Context `{LoggerLaws}.
Implicit Types (s : kstate) (M : machine) (t : Z).

(** C9: flags are private: in every machine the system reaches, a task that runs its
    own code has exactly the processor flags it gave itself: those it was created
    with, interrupts enabled, changed by its own calls of [irq_enable_global] and
    [irq_disable_global]. No protected region, clock interrupt or task switch, of
    its own or of another task, leaves a trace in them. *)
Theorem flags_are_private e st s s' M :
  power_on s → objects_idle s → boot e st s = KRet tt s' → reachable (booted s') M →
  (m_parked M !! current M = None →
    c_eflags (k_cpu (m_state M)) = own_flags M (current M)) ∧
  (∀ x M', astep M x (Some M') → ∀ t, own_flags M' t = flags_next M x t).
Proof.
  intros Hp Hi Hb HM. destruct (reached_minv e st s s' M Hp Hi Hb HM) as [a Ha]. split.
  - rewrite (minv_curr M a Ha). apply (fo_run _ _ (mi_flags _ _ Ha)).
  - intros x M' Hst t. by eapply step_flags.
Qed.

(** C8: no deadlock: every machine the system reaches can go on, and waits for
    nobody's call unless the running task has masked interrupts: a suspended task
    resumes, the idle task and any task with interrupts enabled can be
    interrupted by the clock. *)
Theorem system_progresses e st s s' M :
  power_on s → objects_idle s → boot e st s = KRet tt s' → reachable (booted s') M →
  (∃ M', astep M AResume (Some M')) ∨ (∃ M', astep M ATick (Some M')) ∨
  (current M ≠ idle_task ∧ irqs_on (own_flags M (current M)) = false ∧
   ∃ M', astep M (ACall CYield) (Some M')).
Proof.
  intros Hp Hi Hb HM. destruct (reached_minv e st s s' M Hp Hi Hb HM) as [a Ha].
  by eapply minv_progress.
Qed.

(** C6: preemption: in every machine the system reaches, a ready task gets the
    processor without anybody's help when the tasks ahead of it have interrupts
    enabled: clock interrupts and resumptions alone bring it there, and no more
    interrupts than the tasks ahead of it have full time slices for. *)
Theorem clock_brings_task e st s s' M t q1 q2 :
  power_on s → objects_idle s → boot e st s = KRet tt s' → reachable (booted s') M →
  queue_of (m_state M) PReady = q1 ++ t :: q2 →
  (∀ u, u ∈ q1 → irqs_on (own_flags M u) = true) →
  ∃ n M', spin n M M' ∧ current M' = t ∧
    Z.of_nat n ≤ Z.of_nat (length q1) * TASK_TIME_SLICE_DEFAULT.
Proof.
  intros Hp Hi Hb HM Eq Hf. destruct (reached_minv e st s s' M Hp Hi Hb HM) as [a Ha].
  rewrite (ready_of M a Ha) in Eq. by apply (clock_brings t demo_frame M a q1 q2).
Qed.

(** C7: sleepers wake: along any run of the system in which a task is asleep with a
    countdown of [c], no more clock interrupts are handled than [c] and a ninth of
    [c] and one for every task: an interrupt that ends a time slice may leave the
    countdown for later, but slices end only so often. *)
Theorem sleeper_wakes_in_time e st s s' M t n M' :
  power_on s → objects_idle s → boot e st s = KRet tt s' → reachable (booted s') M →
  t ∈ queue_of (m_state M) PSleep → run (λ M, t ∈ queue_of (m_state M) PSleep) n M M' →
  let c := sleep_ticks_of (m_state M) t in
  0 < c ∧ 9 * Z.of_nat n ≤ 10 * c + 9 * Z.of_nat (length (queue_of (m_state M) PAll)).
Proof.
  intros Hp Hi Hb HM Ht Hrun. destruct (reached_minv e st s s' M Hp Hi Hb HM) as [a Ha].
  rewrite (all_of M a Ha), (asleep_of M a Ha) in *. pose proof (mi_naps _ _ Ha t Ht) as Hg.
  pose proof (sleeper_run t n M M' Hrun a (naps M t) Ha ltac:(lia) ltac:(done)) as Hle.
  pose proof (toil_pos M a (naps M t) Ha). unfold naps in *. cbn zeta. lia.
Qed.

(** C10: sleepers return: while all other tasks have interrupts enabled, a sleeping
    task is back from its call of [sys_sleep] within a bound of clock interrupts
    without any task making a call: the clock counts it down, wakes it, and brings
    it through the ready queue to the processor. *)
Theorem clock_returns_sleeper e st s s' M t :
  power_on s → objects_idle s → boot e st s = KRet tt s' → reachable (booted s') M →
  t ∈ queue_of (m_state M) PSleep → others_on t M →
  ∃ n M', spin n M M' ∧ current M' = t ∧ m_parked M' !! t = None ∧
    9 * Z.of_nat n ≤ 10 * sleep_ticks_of (m_state M) t +
      99 * Z.of_nat (length (queue_of (m_state M) PAll)) - 90.
Proof.
  intros Hp Hi Hb HM Ht Ho. destruct (reached_minv e st s s' M Hp Hi Hb HM) as [a Ha].
  rewrite (all_of M a Ha), (asleep_of M a Ha) in *. by apply sleeper_returns.
Qed.
End properties.

(** *** Witnesses: the small system of [System] *)
Section witnesses.
#[local] Existing Instance demo_layout.
#[local] Existing Instance demo_uart.
#[local] Existing Instance demo_logger.
#[local] Existing Instance demo_logger_laws.

Ltac from_call H :=
  apply from_boot_call; [exact H|vm_compute; discriminate|vm_compute; reflexivity|].

(** The first task masks interrupts and yields; [task_a], which does not, yields
    back; the first task finds its interrupts masked. *)
Definition mask1 : machine := do_call CIrqOff sys1.
Definition mask2 : machine := do_call CYield mask1.
Definition mask3 : machine := do_call CYield mask2.
Definition mask4 : machine := do_resume mask3.

Lemma mask_reach1 : from_boot mask1.
Proof. by from_call reach1. Qed.

Lemma mask_reach2 : from_boot mask2.
Proof. by from_call mask_reach1. Qed.

Lemma mask_reach3 : from_boot mask3.
Proof. by from_call mask_reach2. Qed.

Lemma mask_reach4 : from_boot mask4.
Proof. apply from_boot_resume; [exact mask_reach3|decide_vm]. Qed.

Example mask_run :
  current mask2 = task_a ∧ irqs_on (c_eflags (k_cpu (m_state mask2))) = true ∧
  current mask4 = first_task ∧ irqs_on (c_eflags (k_cpu (m_state mask4))) = false ∧
  can_tick mask2 = true ∧ can_tick mask4 = false.
Proof. vm_compute. split_and!; reflexivity. Qed.

Lemma flags_are_private_witness :
  current mask4 = first_task ∧ irqs_on (own_flags mask4 first_task) = false ∧
  c_eflags (k_cpu (m_state mask4)) = own_flags mask4 (current mask4).
Proof.
  split; [vm_compute; reflexivity|]. split; [vm_compute; reflexivity|].
  destruct (flags_are_private 4660 8192 system_state system_booted mask4) as [Hf _].
  - exact system_power_on.
  - exact system_idle.
  - exact system_boots.
  - exact mask_reach4.
  - apply Hf. vm_compute. reflexivity.
Defined.

Lemma system_progresses_witness :
  (∃ M', astep mask4 AResume (Some M')) ∨ (∃ M', astep mask4 ATick (Some M')) ∨
  (current mask4 ≠ idle_task ∧ irqs_on (own_flags mask4 (current mask4)) = false ∧
   ∃ M', astep mask4 (ACall CYield) (Some M')).
Proof.
  apply (system_progresses 4660 8192 system_state system_booted mask4).
  - exact system_power_on.
  - exact system_idle.
  - exact system_boots.
  - exact mask_reach4.
Defined.

Lemma clock_brings_task_witness :
  ∃ n M', spin n sys1 M' ∧ current M' = task_a ∧ Z.of_nat n ≤ 10.
Proof.
  apply (clock_brings_task 4660 8192 system_state system_booted sys1 task_a [first_task] []).
  - exact system_power_on.
  - exact system_idle.
  - exact system_boots.
  - exact reach1.
  - vm_compute. reflexivity.
  - intros u ->%list_elem_of_singleton. vm_compute. reflexivity.
Defined.

(** The first task sleeps for 25 ms, three ticks, while [task_a] runs. *)
Definition doze1 : machine := do_call (CSleep 25) sys1.

Lemma doze_reach1 : from_boot doze1.
Proof. from_call reach1. exact (conj eq_refl eq_refl). Qed.

Lemma run_do_tick (P : machine → Prop) n M :
  from_boot M → P M → can_tick M = true →
  (from_boot (do_tick M) → run P n (do_tick M) (ticks n (do_tick M))) → run P (S n) M (ticks (S n) M).
Proof.
  intros HM Hp Ht Hr. pose proof (tick_of M HM Ht) as Hs. eapply run_tick; [done|exact Hs|].
  apply Hr. by eapply from_boot_next; [|apply mtick_mstep].
Qed.

Lemma doze_run : run (λ M, first_task ∈ queue_of (m_state M) PSleep) 3 doze1 (ticks 3 doze1).
Proof.
  apply run_do_tick; [exact doze_reach1|decide_vm|vm_compute; reflexivity|intros R1].
  apply run_do_tick; [exact R1|decide_vm|vm_compute; reflexivity|intros R2].
  apply run_do_tick; [exact R2|decide_vm|vm_compute; reflexivity|intros R3].
  cbn [ticks]. apply run_here.
Qed.

Lemma sleeper_wakes_in_time_witness :
  queue_of (m_state (ticks 3 doze1)) PSleep = [] ∧
  0 < sleep_ticks_of (m_state doze1) first_task ∧
  9 * Z.of_nat 3 ≤ 10 * sleep_ticks_of (m_state doze1) first_task +
    9 * Z.of_nat (length (queue_of (m_state doze1) PAll)).
Proof.
  split; [vm_compute; reflexivity|].
  apply (sleeper_wakes_in_time 4660 8192 system_state system_booted doze1 first_task 3
    (ticks 3 doze1)).
  - exact system_power_on.
  - exact system_idle.
  - exact system_boots.
  - exact doze_reach1.
  - decide_vm.
  - exact doze_run.
Defined.

Lemma clock_returns_sleeper_witness :
  ∃ n M', spin n doze1 M' ∧ current M' = first_task ∧ m_parked M' !! first_task = None ∧
    9 * Z.of_nat n ≤ 10 * sleep_ticks_of (m_state doze1) first_task +
      99 * Z.of_nat (length (queue_of (m_state doze1) PAll)) - 90.
Proof.
  apply (clock_returns_sleeper 4660 8192 system_state system_booted doze1 first_task).
  - exact system_power_on.
  - exact system_idle.
  - exact system_boots.
  - exact doze_reach1.
  - decide_vm.
  - assert (Ho : set_Forall (λ u, irqs_on (own_flags doze1 u) = true) (m_created doze1)) by decide_vm.
    intros u Hu _. exact (Ho u Hu).
Defined.
End witnesses.
