(* ===== verification/Bitmap.v ===== *)
(** * Bitmaps (kernel/tools/bitmap.c)

    A bitmap is a bit count and a byte array in memory. [bitmap_alloc_nbits]
    keeps its search position in a function-static variable, [k_search_idx],
    which every bitmap shares and nothing resets. *)
From S2P Require Import Prelude Mem Klib DList CpuInstr Desc Kernel Queues Demo Sched Irq.

(** ** Operations *)
Definition bitmap_byte_count (bitcount : Z) : Z := Z.quot (s32 (bitcount + 7)) 8.

Definition bitmap_init (bits bitcount init_bit : Z) : stm mem bitmap_t :=
  let bytes := bitmap_byte_count bitcount in
  kernel_memset bits (if init_bit =? 0 then 0 else 255) bytes;;
  mret (Bitmap bitcount bits).

Definition bitmap_get_bit (bitmap : bitmap_t) (index : Z) : stm mem Z :=
  b ← load8 (bits bitmap + Z.quot index 8);
  mret (if Z.land b (shl1 (Z.rem index 8)) =? 0 then 0 else 1).

Fixpoint set_bit_loop (fuel : nat) (bitmap : bitmap_t) (i index count bit : Z) : stm mem unit :=
  if (i <? count) && (index <? bitcount bitmap) then
    match fuel with
    | O => throw OutOfFuel
    | S f =>
        let a := bits bitmap + Z.quot index 8 in
        b ← load8 a;
        (if bit =? 1 then store8 a (Z.lor b (shl1 (Z.rem index 8)))
         else store8 a (Z.land b (Z.lnot (shl1 (Z.rem index 8)))));;
        set_bit_loop f bitmap (i + 1) (index + 1) count bit
    end
  else mret tt.

Definition bitmap_set_bit (bitmap : bitmap_t) (index count bit : Z) : stm mem unit :=
  set_bit_loop (Z.to_nat count) bitmap 0 index count bit.

Definition bitmap_is_set (bitmap : bitmap_t) (index : Z) : stm mem Z :=
  v ← bitmap_get_bit bitmap index; mret (if v =? 0 then 0 else 1).

Section alloc.
Context `{Logger}.

Definition search_next : K unit := kmodify (λ s, set_search_idx (s32 (k_search_idx s + 1)) s).

(** The inner loop, from [i] on; the results are the final [i] and [ok_idx]. *)
Fixpoint alloc_run (fuel : nat) (bitmap : bitmap_t) (bit count ok_idx i : Z) : K (Z * Z) :=
  s ← kget;
  if (i <? count) && (k_search_idx s <? bitcount bitmap) then
    match fuel with
    | O => kthrow OutOfFuel
    | S f =>
        log_printf "Checking bit at search_idx1  %d
" [AInt (k_search_idx s)];;
        v ← with_mem (bitmap_get_bit bitmap (k_search_idx s));
        if negb (v =? bit) then
          search_next;;
          log_printf "不足count个，退出，重新进行最外层的比较
" [];;
          mret (i, -1)
        else
          search_next;;
          s ← kget;
          log_printf "Checking bit at search_idx2  %d
" [AInt (k_search_idx s)];;
          alloc_run f bitmap bit count ok_idx (i + 1)
    end
  else mret (i, ok_idx).

Fixpoint alloc_loop (fuel : nat) (bitmap : bitmap_t) (bit count : Z) : K Z :=
  s ← kget;
  if k_search_idx s <? bitcount bitmap then
    match fuel with
    | O => kthrow OutOfFuel
    | S f =>
        log_printf "Checking bit at bitmap->bitcount  %d
" [AInt (bitcount bitmap)];;
        v ← with_mem (bitmap_get_bit bitmap (k_search_idx s));
        if negb (v =? bit) then
          search_next;;
          alloc_loop f bitmap bit count
        else
          '(i, ok_idx) ← alloc_run (Z.to_nat count) bitmap bit count (k_search_idx s) 1;
          if count <=? i then
            log_printf "Found %d consecutive free bits starting at index %d
" [AInt count; AInt ok_idx];;
            with_mem (bitmap_set_bit bitmap ok_idx count (Z.lnot bit));;
            mret ok_idx
          else alloc_loop f bitmap bit count
    end
  else
    log_printf "No free space found for %d bits
" [AInt count];;
    mret (-1).

Definition bitmap_alloc_nbits (bitmap : bitmap_t) (bit count : Z) : K Z :=
  s ← kget;
  alloc_loop (S (Z.to_nat (bitcount bitmap - k_search_idx s))) bitmap bit count.
End alloc.

(** ** The bits a bitmap stands for *)
Definition bm_bit (m : mem) (bm : bitmap_t) (j : Z) : bool :=
  match m !! (bits bm + j / 8) with Some b => Z.testbit b (j mod 8) | None => false end.

Record bm_ok (m : mem) (bm : bitmap_t) : Prop := {
  bm_count : 0 ≤ bitcount bm < 2 ^ 31 - 8;
  bm_mapped : ∀ j, 0 ≤ j < bitcount bm → is_Some (m !! (bits bm + j / 8));
  bm_u8 : ∀ j b, 0 ≤ j < bitcount bm → m !! (bits bm + j / 8) = Some b → is_u8 b
}.

Section bits.
Implicit Types (m : mem) (bm : bitmap_t).

Lemma land_shl1 b k : 0 ≤ k < 31 → (Z.land b (shl1 k) =? 0) = negb (Z.testbit b k).
Proof.
  intros Hk. destruct (Z.testbit b k) eqn:E; cbn [negb].
  - apply Z.eqb_neq. intros E0. apply (f_equal (λ z, Z.testbit z k)) in E0.
    rewrite Z.land_spec, shl1_bit, E, bool_decide_true, Z.bits_0 in E0 by done. done.
  - apply Z.eqb_eq, Z.bits_inj'. intros i Hi. rewrite Z.land_spec, shl1_bit, Z.bits_0 by done.
    case_bool_decide; [subst; by rewrite E|apply andb_false_r].
Qed.

Lemma bitmap_get_bit_ok m bm j :
  bm_ok m bm → 0 ≤ j < bitcount bm →
  bitmap_get_bit bm j m = Ok (if bm_bit m bm j then 1 else 0, m).
Proof.
  intros Hok Hj. destruct (bm_mapped _ _ Hok j Hj) as [b Hb].
  unfold bitmap_get_bit, bm_bit. rewrite Z.quot_div_nonneg, Z.rem_mod_nonneg by lia.
  stm_step (load8_ok _ _ _ Hb). rewrite Hb.
  pose proof (Z.mod_pos_bound j 8). rewrite land_shl1 by lia. by destruct (Z.testbit b (j mod 8)).
Qed.

(** The byte after one step of [bitmap_set_bit]. *)
Definition set_byte (b k : Z) (v : bool) : Z :=
  u8 (if v then Z.lor b (shl1 k) else Z.land b (Z.lnot (shl1 k))).

Lemma set_byte_bit b k v i :
  0 ≤ k < 8 → 0 ≤ i < 8 →
  Z.testbit (set_byte b k v) i = if decide (i = k) then v else Z.testbit b i.
Proof.
  intros Hk Hi. unfold set_byte, u8. rewrite Z.mod_pow2_bits_low by lia.
  destruct v; rewrite ?Z.lor_spec, ?Z.land_spec, ?Z.lnot_spec, shl1_bit by lia;
    case_bool_decide; case_decide; try done;
    rewrite ?orb_true_r, ?orb_false_r, ?andb_true_r, ?andb_false_r; done.
Qed.

Definition set_bit_mem (m : mem) (bm : bitmap_t) (j : Z) (v : bool) : mem :=
  match m !! (bits bm + j / 8) with
  | Some b => <[bits bm + j / 8 := set_byte b (j mod 8) v]> m
  | None => m
  end.

Lemma set_bit_mem_bit m bm j v i :
  is_Some (m !! (bits bm + j / 8)) →
  bm_bit (set_bit_mem m bm j v) bm i = if decide (i = j) then v else bm_bit m bm i.
Proof.
  intros [b Hb]. unfold set_bit_mem, bm_bit. rewrite Hb.
  pose proof (Z.mod_pos_bound j 8). pose proof (Z.mod_pos_bound i 8).
  destruct (decide (i / 8 = j / 8)) as [E|E].
  - rewrite E, lookup_insert_eq, Hb, set_byte_bit by lia.
    pose proof (Z.div_mod i 8). pose proof (Z.div_mod j 8).
    repeat case_decide; try done; lia.
  - rewrite lookup_insert_ne by lia. rewrite decide_False by congruence. done.
Qed.

Lemma set_bit_mem_lookup m bm j v x :
  set_bit_mem m bm j v !! x =
    if decide (x = bits bm + j / 8) then (λ b, set_byte b (j mod 8) v) <$> m !! x else m !! x.
Proof.
  unfold set_bit_mem. case_decide as E.
  - subst x. destruct (m !! (bits bm + j / 8)) eqn:Hb; cbn; [by rewrite lookup_insert_eq|done].
  - destruct (m !! (bits bm + j / 8)); [by rewrite lookup_insert_ne|done].
Qed.

Lemma set_bit_mem_ok m bm j v : bm_ok m bm → bm_ok (set_bit_mem m bm j v) bm.
Proof.
  intros [Hc Hm Hu]. split; [done| |].
  - intros i Hi. rewrite set_bit_mem_lookup. case_decide; [by apply fmap_is_Some, Hm|by apply Hm].
  - intros i b Hi. rewrite set_bit_mem_lookup. case_decide; [|by apply Hu].
    intros (b0 & _ & ->)%fmap_Some. apply u8_range.
Qed.

(** The memory with the bits [index, index + n) set to [v], as far as they are
    in the bitmap. *)
Fixpoint set_bits_mem (n : nat) (m : mem) (bm : bitmap_t) (index : Z) (v : bool) : mem :=
  match n with
  | O => m
  | S n' => if index <? bitcount bm
            then set_bits_mem n' (set_bit_mem m bm index v) bm (index + 1) v else m
  end.

Lemma set_bits_mem_spec n : ∀ m bm index v,
  bm_ok m bm → 0 ≤ index →
  bm_ok (set_bits_mem n m bm index v) bm ∧
  ∀ j, 0 ≤ j < bitcount bm → bm_bit (set_bits_mem n m bm index v) bm j =
    if decide (index ≤ j < index + Z.of_nat n) then v else bm_bit m bm j.
Proof.
  induction n as [|n IH]; intros m bm index v Hok Hi; cbn [set_bits_mem].
  - split; [done|]. intros j Hj. by rewrite decide_False by lia.
  - destruct (Z.ltb_spec index (bitcount bm)) as [Hlt|Hge].
    + destruct (IH (set_bit_mem m bm index v) bm (index + 1) v) as [Hok' Hb];
        [by apply set_bit_mem_ok|lia|].
      split; [done|]. intros j Hj. rewrite Hb by done.
      rewrite set_bit_mem_bit by (apply (bm_mapped _ _ Hok); lia).
      repeat case_decide; try done; lia.
    + split; [done|]. intros j Hj. by rewrite decide_False by lia.
Qed.

Lemma set_bit_loop_ok n : ∀ m bm i index count bit fuel,
  bm_ok m bm → 0 ≤ index → count = i + Z.of_nat n → (n ≤ fuel)%nat →
  set_bit_loop fuel bm i index count bit m = Ok (tt, set_bits_mem n m bm index (bit =? 1)).
Proof.
  induction n as [|n IH]; intros m bm i index count bit fuel Hok Hi -> Hf.
  - destruct fuel; cbn [set_bit_loop]; by replace (i <? i + Z.of_nat 0) with false by lia.
  - destruct fuel as [|fuel]; [lia|]. cbn [set_bit_loop set_bits_mem].
    replace (i <? i + Z.of_nat (S n)) with true by lia. cbn [andb].
    destruct (Z.ltb_spec index (bitcount bm)) as [Hlt|Hge]; [|done].
    destruct (bm_mapped _ _ Hok index) as [b Hb]; [lia|].
    rewrite Z.quot_div_nonneg, Z.rem_mod_nonneg by lia. stm_step (load8_ok _ _ _ Hb).
    assert (Hst : (if bit =? 1 then store8 (bits bm + index / 8) (Z.lor b (shl1 (index mod 8)))
      else store8 (bits bm + index / 8) (Z.land b (Z.lnot (shl1 (index mod 8))))) m =
      Ok (tt, set_bit_mem m bm index (bit =? 1))).
    { unfold set_bit_mem. rewrite Hb. unfold set_byte.
      destruct (bit =? 1); by rewrite store8_ok. }
    stm_step Hst. apply IH; [by apply set_bit_mem_ok|lia|lia|lia].
Qed.

Lemma bitmap_set_bit_ok m bm index count bit :
  bm_ok m bm → 0 ≤ index →
  bitmap_set_bit bm index count bit m =
    Ok (tt, set_bits_mem (Z.to_nat count) m bm index (bit =? 1)).
Proof.
  intros Hok Hi. unfold bitmap_set_bit. destruct (decide (0 ≤ count)).
  - apply set_bit_loop_ok; [done|done|lia|lia].
  - replace (Z.to_nat count) with 0%nat by lia. cbn.
    by replace (0 <? count) with false by lia.
Qed.
End bits.

(** ** Searching *)
Section search.
Context `{LoggerLaws}.
Implicit Types (s : kstate) (bm : bitmap_t).

Definition bit_is (m : mem) bm (bit j : Z) : Prop := (if bm_bit m bm j then 1 else 0) = bit.

Lemma log_free_ext s s' : log_free s → k_mutex s' = k_mutex s → log_free s'.
Proof. intros [l Hl] E. exists l. by rewrite E. Qed.

Lemma search_next_ok s p :
  k_search_idx s = p → 0 ≤ p < 2 ^ 31 - 8 → search_next s = KRet tt (set_search_idx (p + 1) s).
Proof.
  intros E Hp. unfold search_next, kmodify. by rewrite E, s32_id by lia.
Qed.

Lemma get_bit_step bm s p {B} (f : Z → K B) :
  bm_ok (k_mem s) bm → 0 ≤ p < bitcount bm →
  (with_mem (bitmap_get_bit bm p) ≫= f) s = f (if bm_bit (k_mem s) bm p then 1 else 0) s.
Proof.
  intros Hok Hp. rewrite (kbind_ret _ _ _ _ _ (with_mem_ok _ _ _ _ (bitmap_get_bit_ok _ _ _ Hok Hp))).
  by destruct s.
Qed.

(** What the inner loop does: it checks the bits [search, search + count - i),
    and stops early behind the first that differs or at the end of the bitmap. *)
Definition run_outcome (m : mem) bm (bit count ok_idx i p : Z) (i' ok' p' : Z) : Prop :=
  p ≤ p' ≤ bitcount bm ∧
  ((i' = count ∧ ok' = ok_idx ∧ p' = p + (count - i) ∧ ∀ j, p ≤ j < p' → bit_is m bm bit j) ∨
   (i' < count ∧ p < p' ∧ p' - 1 < p + (count - i) ∧ ¬ bit_is m bm bit (p' - 1)) ∨
   (i' < count ∧ p' = bitcount bm ∧ bitcount bm < p + (count - i))).

(** One more matching bit in front. *)
Lemma run_outcome_step m bm bit count ok_idx i p i' ok' p' :
  bit_is m bm bit p → run_outcome m bm bit count ok_idx (i + 1) (p + 1) i' ok' p' →
  run_outcome m bm bit count ok_idx i p i' ok' p'.
Proof.
  intros Hb [Hp [(-> & -> & -> & Hj)|[(? & ? & ? & ?)|(? & ? & ?)]]]; (split; [lia|]).
  - left. split_and!; [done|done|lia|]. intros j Hjp.
    destruct (decide (j = p)) as [->|]; [done|]. apply Hj. lia.
  - right. left. split_and!; [lia|lia|lia|done].
  - right. right. split_and!; lia.
Qed.

Lemma run_outcome_done m bm bit count ok_idx p :
  p ≤ bitcount bm → run_outcome m bm bit count ok_idx count p count ok_idx p.
Proof. intros Hp. split; [lia|]. left. split_and!; [done|done|lia|]. intros j Hj. lia. Qed.

Lemma alloc_run_ok bm bit count ok_idx : ∀ fuel i s,
  log_free s → bm_ok (k_mem s) bm → 0 ≤ k_search_idx s ≤ bitcount bm →
  1 ≤ i ≤ count → (Z.to_nat (count - i) ≤ fuel)%nat →
  ∃ i' ok' c p', alloc_run fuel bm bit count ok_idx i s =
      KRet (i', ok') (set_cpu c (set_search_idx p' s)) ∧
    run_outcome (k_mem s) bm bit count ok_idx i (k_search_idx s) i' ok' p'.
Proof.
  induction fuel as [|fuel IH]; intros i s Hl Hok Hp Hi Hf.
  { assert (i = count) as -> by lia. exists count, ok_idx, (k_cpu s), (k_search_idx s).
    cbn [alloc_run]. rewrite (kbind_ret kget _ s s s) by done.
    rewrite Z.ltb_irrefl. split; [by destruct s|]. apply run_outcome_done. lia. }
  cbn [alloc_run]. rewrite (kbind_ret kget _ s s s) by done.
  destruct (Z.ltb_spec i count) as [Hic|Hic]; cbn [andb].
  2:{ assert (i = count) as -> by lia. exists count, ok_idx, (k_cpu s), (k_search_idx s).
      split; [by destruct s|]. apply run_outcome_done. lia. }
  destruct (Z.ltb_spec (k_search_idx s) (bitcount bm)) as [Hps|Hps].
  2:{ exists i, ok_idx, (k_cpu s), (k_search_idx s). split; [by destruct s|]. split; [lia|].
      right. right. split_and!; lia. }
  pose proof (bm_count _ _ Hok).
  match goal with |- context [log_printf ?fmt ?args ≫= λ _, ?f] =>
    destruct (log_then fmt args s f Hl) as [c1 ->]; [line_fits|] end.
  rewrite (get_bit_step bm (set_cpu c1 s)) by (done || lia). cbn [k_mem set_cpu].
  destruct (Z.eqb_spec (if bm_bit (k_mem s) bm (k_search_idx s) then 1 else 0) bit) as [Eb|Eb];
    cbn [negb]; kstep (search_next_ok (set_cpu c1 s) (k_search_idx s) eq_refl ltac:(lia));
    set (s2 := set_search_idx (k_search_idx s + 1) (set_cpu c1 s)).
  - rewrite (kbind_ret kget _ s2 s2 s2) by done.
    match goal with |- context [log_printf ?fmt ?args ≫= λ _, ?f] =>
      destruct (log_then fmt args s2 f Hl) as [c2 ->]; [line_fits|] end.
    destruct (IH (i + 1) (set_cpu c2 s2)) as (i' & ok' & c & p' & -> & Ho);
      [done|done|cbn; lia|lia|lia|].
    exists i', ok', c, p'. split; [done|]. by apply run_outcome_step.
  - match goal with |- context [log_printf ?fmt ?args ≫= λ _, ?f] =>
      destruct (log_then fmt args s2 f Hl) as [c2 ->] end.
    { eexists. split; [vm_compute; reflexivity|]. vm_compute. discriminate. }
    exists i, (-1), c2, (k_search_idx s + 1). split; [done|]. split; [lia|].
    right. left. split_and!; [lia|lia|lia|]. by rewrite Z.add_simpl_r.
Qed.

(** The bits that the search looks at for an allocation at [j]: one less than
    asked for, when more than one is asked for. *)
Definition looked_at (count : Z) : Z := Z.max 1 (count - 1).
Definition candidate (m : mem) bm (bit count j : Z) : Prop :=
  ∀ k, j ≤ k < j + looked_at count → bit_is m bm bit k.

(** The outcome of a search from [p] on: the first candidate, its bits cleared,
    or nothing and no candidate within the bitmap. *)
Definition alloc_outcome (m : mem) bm (bit count p : Z) (r p' : Z) (m' : mem) : Prop :=
  (r = -1 ∧ p' = bitcount bm ∧ m' = m ∧
   ∀ j, p ≤ j → j + looked_at count ≤ bitcount bm → ¬ candidate m bm bit count j) ∨
  (p ≤ r < bitcount bm ∧ p' = r + count - 1 ∧ p' ≤ bitcount bm ∧
   m' = set_bits_mem (Z.to_nat count) m bm r false ∧ candidate m bm bit count r ∧
   ∀ j, p ≤ j < r → ¬ candidate m bm bit count j).

(** Positions skipped by the search. *)
Lemma alloc_outcome_later m bm bit count p q r p' m' :
  alloc_outcome m bm bit count q r p' m' → p ≤ q →
  (∀ j, p ≤ j < q → j + looked_at count ≤ bitcount bm → ¬ candidate m bm bit count j) →
  (∀ j, p ≤ j < q → q < bitcount bm → ¬ candidate m bm bit count j) →
  alloc_outcome m bm bit count p r p' m'.
Proof.
  intros [(-> & -> & -> & Hn)|(Hr & -> & Hp' & -> & Hc & Hn)] Hpq Hskip Hskip2; [left|right].
  - split_and!; try done. intros j Hj Hle. destruct (decide (j < q)); [by apply Hskip|].
    apply Hn; lia.
  - split_and!; try done; try lia. intros j Hj. destruct (decide (j < q)); [apply Hskip2; lia|].
    apply Hn. lia.
Qed.

(** The part of the outer loop behind a matching bit. *)
Definition alloc_rest (fuel : nat) bm (bit count ok_idx : Z) : K Z :=
  '(i, ok_idx) ← alloc_run (Z.to_nat count) bm bit count ok_idx 1;
  if count <=? i then
    log_printf "Found %d consecutive free bits starting at index %d
" [AInt count; AInt ok_idx];;
    with_mem (bitmap_set_bit bm ok_idx count (Z.lnot bit));;
    mret ok_idx
  else alloc_loop fuel bm bit count.

Lemma alloc_rest_ok bm bit count fuel s :
  log_free s → bm_ok (k_mem s) bm → 0 ≤ k_search_idx s < bitcount bm → 1 ≤ count →
  bit = 0 ∨ bit = 1 → bit_is (k_mem s) bm bit (k_search_idx s) →
  ∃ c p',
   (alloc_rest fuel bm bit count (k_search_idx s) s =
      KRet (k_search_idx s) (set_cpu c (set_search_idx p'
        (set_mem (set_bits_mem (Z.to_nat count) (k_mem s) bm (k_search_idx s) false) s))) ∧
    alloc_outcome (k_mem s) bm bit count (k_search_idx s) (k_search_idx s) p'
      (set_bits_mem (Z.to_nat count) (k_mem s) bm (k_search_idx s) false)) ∨
   (k_search_idx s < p' ≤ bitcount bm ∧
    alloc_rest fuel bm bit count (k_search_idx s) s =
      alloc_loop fuel bm bit count (set_cpu c (set_search_idx p' s)) ∧
    (∀ j, k_search_idx s ≤ j < p' → j + looked_at count ≤ bitcount bm →
       ¬ candidate (k_mem s) bm bit count j) ∧
    (∀ j, k_search_idx s ≤ j < p' → p' < bitcount bm → ¬ candidate (k_mem s) bm bit count j)).
Proof.
  intros Hl Hok Hp Hc Hbit Hb0. unfold looked_at.
  destruct (alloc_run_ok bm bit count (k_search_idx s) (Z.to_nat count) 1 s)
    as (i' & ok' & c & p' & Hrun & Hp' & Hcase); [done|done|lia|lia|lia|].
  destruct Hcase as [(-> & -> & Ep & Hb)|[(Hlt & Hpp & Hk & Hnb)|(Hlt & -> & Hend)]].
  - set (s1 := set_cpu c (set_search_idx p' s)).
    destruct (log_then "Found %d consecutive free bits starting at index %d
" [AInt count; AInt (k_search_idx s)] s1 (with_mem (bitmap_set_bit bm (k_search_idx s) count
        (Z.lnot bit));; mret (k_search_idx s)) Hl) as [c1 Hlog]; [line_fits|].
    exists c1, p'. left. split.
    + unfold alloc_rest. kstep Hrun. cbv iota. rewrite Z.leb_refl. etrans; [exact Hlog|].
      assert (Hset : bitmap_set_bit bm (k_search_idx s) count (Z.lnot bit) (k_mem s) =
        Ok (tt, set_bits_mem (Z.to_nat count) (k_mem s) bm (k_search_idx s) false)).
      { rewrite bitmap_set_bit_ok by (done || lia). by destruct Hbit as [-> | ->]. }
      by kstep (with_mem_ok _ (set_cpu c1 s1) _ _ Hset).
    + right. split_and!; try done; try lia. intros k Hk. unfold looked_at in Hk.
      destruct (decide (k = k_search_idx s)) as [->|]; [done|]. apply Hb. lia.
  - assert (Hno : ∀ j, k_search_idx s ≤ j < p' → ¬ candidate (k_mem s) bm bit count j).
    { intros j Hj Hcand. apply Hnb, Hcand. unfold looked_at. lia. }
    exists c, p'. right. split; [lia|]. split; [|by split; auto].
    unfold alloc_rest. kstep Hrun. cbv iota. by replace (count <=? i') with false by lia.
  - exists c, (bitcount bm). right. split; [lia|]. split; [|split; [|lia]].
    + unfold alloc_rest. kstep Hrun. cbv iota. by replace (count <=? i') with false by lia.
    + intros j Hj Hle. lia.
Qed.

Lemma alloc_loop_ok bm bit count : ∀ fuel s,
  log_free s → bm_ok (k_mem s) bm → 0 ≤ k_search_idx s ≤ bitcount bm → 1 ≤ count →
  bit = 0 ∨ bit = 1 → (Z.to_nat (bitcount bm - k_search_idx s) < fuel)%nat →
  ∃ r c p' m', alloc_loop fuel bm bit count s =
      KRet r (set_cpu c (set_search_idx p' (set_mem m' s))) ∧
    alloc_outcome (k_mem s) bm bit count (k_search_idx s) r p' m'.
Proof.
  induction fuel as [|fuel IH]; intros s Hl Hok Hp Hc Hbit Hf; [lia|].
  cbn [alloc_loop]. rewrite (kbind_ret kget _ s s s) by done.
  pose proof (bm_count _ _ Hok) as Hcnt.
  destruct (Z.ltb_spec (k_search_idx s) (bitcount bm)) as [Hps|Hps].
  2:{ match goal with |- context [log_printf ?fmt ?args ≫= λ _, ?f] =>
        destruct (log_then fmt args s f Hl) as [c1 ->]; [line_fits|] end.
      exists (-1), c1, (k_search_idx s), (k_mem s). split; [by destruct s|]. left.
      split_and!; try done; [lia|]. intros j Hj. unfold looked_at. lia. }
  match goal with |- context [log_printf ?fmt ?args ≫= λ _, ?f] =>
    destruct (log_then fmt args s f Hl) as [c1 ->]; [line_fits|] end.
  rewrite (get_bit_step bm (set_cpu c1 s)) by (done || lia). cbn [k_mem set_cpu].
  destruct (Z.eqb_spec (if bm_bit (k_mem s) bm (k_search_idx s) then 1 else 0) bit) as [Eb|Eb];
    cbn [negb].
  - change (∃ r c p' m', alloc_rest fuel bm bit count (k_search_idx (set_cpu c1 s)) (set_cpu c1 s) =
      KRet r (set_cpu c (set_search_idx p' (set_mem m' s))) ∧
      alloc_outcome (k_mem s) bm bit count (k_search_idx s) r p' m').
    destruct (alloc_rest_ok bm bit count fuel (set_cpu c1 s)) as (c & p' & [[-> Ho]|(Hp' & -> & H1 & H2)]);
      [done|done|cbn; lia|done|done|done| |].
    + by eexists _, _, _, _.
    + cbn in Hp', H1, H2.
      destruct (IH (set_cpu c (set_search_idx p' (set_cpu c1 s)))) as (r & c2 & p2 & m2 & -> & Ho);
        [done|done|cbn; lia|done|done|cbn; lia|].
      eexists _, _, _, _. split; [done|]. eapply alloc_outcome_later; [exact Ho|cbn; lia|done|done].
  - kstep (search_next_ok (set_cpu c1 s) (k_search_idx s) eq_refl ltac:(lia)).
    destruct (IH (set_search_idx (k_search_idx s + 1) (set_cpu c1 s)))
      as (r & c2 & p2 & m2 & -> & Ho); [done|done|cbn; lia|done|done|cbn; lia|].
    eexists _, _, _, _. split; [done|].
    assert (Hno : ∀ j, k_search_idx s ≤ j < k_search_idx s + 1 →
      ¬ candidate (k_mem s) bm bit count j).
    { intros j Hj Hcand. apply Eb, Hcand. unfold looked_at. lia. }
    eapply alloc_outcome_later; [exact Ho|cbn; lia|by auto|by auto].
Qed.

Lemma bitmap_alloc_nbits_ok bm bit count s :
  log_free s → bm_ok (k_mem s) bm → 0 ≤ k_search_idx s ≤ bitcount bm → 1 ≤ count →
  bit = 0 ∨ bit = 1 →
  ∃ r c p' m', bitmap_alloc_nbits bm bit count s =
      KRet r (set_cpu c (set_search_idx p' (set_mem m' s))) ∧
    alloc_outcome (k_mem s) bm bit count (k_search_idx s) r p' m'.
Proof.
  intros Hl Hok Hp Hc Hbit. unfold bitmap_alloc_nbits.
  rewrite (kbind_ret kget _ s s s) by done. apply alloc_loop_ok; try done. lia.
Qed.
End search.

(** *** Repeated allocation *)
Section repeated.
Context `{LoggerLaws}.
Implicit Types (s : kstate) (bm : bitmap_t).

(** A one-bit search that finds a bit leaves the search there and the bit clear,
    so the next one stops at the same place. *)
Lemma alloc_one_again bm s r s' :
  log_free s → bm_ok (k_mem s) bm → 0 ≤ k_search_idx s ≤ bitcount bm →
  bitmap_alloc_nbits bm 0 1 s = KRet r s' → 0 ≤ r →
  k_search_idx s ≤ r < bitcount bm ∧
  ∃ c m, s' = set_cpu c (set_search_idx r (set_mem m s)) ∧ bm_ok m bm ∧
    (∀ j, 0 ≤ j < bitcount bm → bm_bit m bm j = bm_bit (k_mem s) bm j) ∧
    ∀ s2, log_free s2 → k_mem s2 = m → k_search_idx s2 = r →
      ∃ c' m', bitmap_alloc_nbits bm 0 1 s2 =
        KRet r (set_cpu c' (set_search_idx r (set_mem m' s2))).
Proof.
  intros Hl Hok Hp Ha Hr.
  destruct (bitmap_alloc_nbits_ok bm 0 1 s) as (r1 & c & p & m & Hrun & Ho);
    [done|done|done|lia|by left|].
  rewrite Hrun in Ha. injection Ha as <- <-.
  destruct Ho as [(-> & _)|(Hr1 & -> & Hp1 & -> & Hc & _)]; [lia|].
  replace (r1 + 1 - 1) with r1 in * by lia.
  destruct (set_bits_mem_spec (Z.to_nat 1) (k_mem s) bm r1 false Hok) as [Hok1 Hb1]; [lia|].
  assert (Hbr : bm_bit (k_mem s) bm r1 = false).
  { specialize (Hc r1 ltac:(unfold looked_at; lia)). unfold bit_is in Hc.
    by destruct (bm_bit (k_mem s) bm r1). }
  assert (Hsame : ∀ j, 0 ≤ j < bitcount bm → bm_bit (set_bits_mem (Z.to_nat 1) (k_mem s) bm r1 false)
    bm j = bm_bit (k_mem s) bm j).
  { intros j Hj. rewrite Hb1 by done. case_decide; [|done]. by replace j with r1 by lia. }
  split; [done|]. eexists _, _. split; [done|]. split; [done|]. split; [exact Hsame|].
  intros s1 Hl1 Em1 Es1.
  destruct (bitmap_alloc_nbits_ok bm 0 1 s1) as (r2 & c2 & p2 & m2 & Hrun2 & Ho2);
    [done|by rewrite Em1|rewrite Es1; lia|lia|by left|]. rewrite Hrun2.
  assert (Hcand : candidate (k_mem s1) bm 0 1 r1).
  { intros k Hk. unfold looked_at in Hk. replace k with r1 by lia. unfold bit_is.
    by rewrite Em1, Hsame, Hbr by lia. }
  rewrite Es1 in Ho2. unfold alloc_outcome, looked_at in Ho2.
  destruct Ho2 as [(_ & _ & _ & Hno)|(Hr2 & -> & _ & _ & _ & Hno)].
  - exfalso. by apply (Hno r1); [lia|lia|].
  - destruct (decide (r2 = r1)) as [->|Hne].
    + replace (r1 + 1 - 1) with r1 by lia. by eexists _, _.
    + exfalso. by apply (Hno r1); [lia|].
Qed.
End repeated.

(** ** Properties of bitmaps *)
Section properties.
Context `{LoggerLaws}.
Implicit Types (s : kstate) (bm : bitmap_t).

(** [bitmap_set_bit] and [bitmap_get_bit] agree: after setting [count] bits
    from [index] on, reading any bit of the bitmap gives 1 inside the range if
    the value was 1, 0 inside it for every other value, and the old bit outside;
    a range that reaches over the end is cut off there. *)
Theorem bitmap_set_get m bm index count bit :
  bm_ok m bm → 0 ≤ index →
  ∃ m', bitmap_set_bit bm index count bit m = Ok (tt, m') ∧ bm_ok m' bm ∧
    ∀ j, 0 ≤ j < bitcount bm → bitmap_get_bit bm j m' =
      Ok (if decide (index ≤ j < index + count)
          then (if bit =? 1 then 1 else 0)
          else (if bm_bit m bm j then 1 else 0), m').
Proof.
  intros Hok Hi. eexists. split; [by apply bitmap_set_bit_ok|].
  destruct (set_bits_mem_spec (Z.to_nat count) m bm index (bit =? 1) Hok Hi) as [Hok' Hb].
  split; [done|]. intros j Hj. rewrite bitmap_get_bit_ok, Hb by done.
  repeat case_decide; try done; lia.
Qed.

(** C36: [bitmap_alloc_nbits] terminates and finds, from the static search
    position on, the first index where the bits it looks at have the value asked
    for; it looks at one bit less than asked for (at one bit, if one is asked
    for), clears the whole range whatever the value was, and moves the search
    position to the last bit of the range. Without a candidate it returns -1. *)
Theorem bitmap_alloc_nbits_first_fit bm bit count s :
  log_free s → bm_ok (k_mem s) bm → 0 ≤ k_search_idx s ≤ bitcount bm → 1 ≤ count →
  bit = 0 ∨ bit = 1 →
  ∃ r c p' m', bitmap_alloc_nbits bm bit count s =
      KRet r (set_cpu c (set_search_idx p' (set_mem m' s))) ∧
    alloc_outcome (k_mem s) bm bit count (k_search_idx s) r p' m'.
Proof. apply bitmap_alloc_nbits_ok. Qed.

(** Allocating single free bits makes no progress: a successful call leaves
    every bit of the bitmap as it was (the allocated bit still reads free) and
    the next call returns the same index. *)
Theorem bitmap_alloc_one_repeats bm s r s' :
  log_free s → bm_ok (k_mem s) bm → 0 ≤ k_search_idx s ≤ bitcount bm →
  bitmap_alloc_nbits bm 0 1 s = KRet r s' → 0 ≤ r →
  (∀ j, 0 ≤ j < bitcount bm → bm_bit (k_mem s') bm j = bm_bit (k_mem s) bm j) ∧
  ∃ s'', bitmap_alloc_nbits bm 0 1 s' = KRet r s''.
Proof.
  intros Hl Hok Hp Ha Hr.
  destruct (alloc_one_again bm s r s' Hl Hok Hp Ha Hr) as (_ & c & m & -> & _ & Hb & Hrun).
  split; [exact Hb|]. destruct (Hrun (set_cpu c (set_search_idx r (set_mem m s)))) as (c' & m' & ->);
    [done..|]. by eexists.
Qed.
End properties.

(** *** Witnesses: twelve bits at address 100, the first two set *)
Section witnesses.
#[local] Existing Instance demo_layout.
#[local] Existing Instance quiet_logger.
#[local] Existing Instance quiet_logger_laws.

Definition demo_bitmap : bitmap_t := Bitmap 12 100.
Definition demo_bits : mem := {[ 100 := 3; 101 := 0 ]}.
Definition bits_state : kstate := set_mem demo_bits demo_state.

Lemma demo_bm_ok : bm_ok demo_bits demo_bitmap.
Proof.
  assert (Hbyte : ∀ j, 0 ≤ j < 12 → j / 8 = 0 ∨ j / 8 = 1).
  { intros j Hj. pose proof (Z.div_mod j 8). pose proof (Z.mod_pos_bound j 8). lia. }
  split; [vm_compute; split; discriminate || reflexivity| |].
  - intros j Hj. destruct (Hbyte j Hj) as [-> | ->]; by eexists.
  - intros j b Hj. destruct (Hbyte j Hj) as [-> | ->]; intros [= <-]; by apply (bool_decide_unpack _).
Qed.

Lemma demo_log_free : log_free bits_state.
Proof. exists list_init. split; reflexivity. Qed.

Lemma bitmap_set_get_witness :
  ∃ m', bitmap_set_bit demo_bitmap 10 5 1 demo_bits = Ok (tt, m') ∧
    bitmap_get_bit demo_bitmap 11 m' = Ok (1, m') ∧ bitmap_get_bit demo_bitmap 9 m' = Ok (0, m').
Proof.
  destruct (bitmap_set_get demo_bits demo_bitmap 10 5 1 demo_bm_ok) as (m' & Hs & _ & Hg); [lia|].
  exists m'. split; [exact Hs|]. split; [exact (Hg 11 ltac:(cbn; lia))|exact (Hg 9 ltac:(cbn; lia))].
Defined.

Lemma bitmap_alloc_nbits_first_fit_witness :
  ∃ r c p' m', bitmap_alloc_nbits demo_bitmap 0 3 bits_state =
    KRet r (set_cpu c (set_search_idx p' (set_mem m' bits_state))) ∧
    alloc_outcome demo_bits demo_bitmap 0 3 0 r p' m'.
Proof.
  apply (bitmap_alloc_nbits_first_fit demo_bitmap 0 3 bits_state).
  - exact demo_log_free.
  - exact demo_bm_ok.
  - cbn. lia.
  - lia.
  - left. reflexivity.
Defined.

Lemma bitmap_alloc_one_repeats_witness :
  ∃ s' s'', bitmap_alloc_nbits demo_bitmap 0 1 bits_state = KRet 2 s' ∧
    bitmap_alloc_nbits demo_bitmap 0 1 s' = KRet 2 s''.
Proof.
  assert (∃ s', bitmap_alloc_nbits demo_bitmap 0 1 bits_state = KRet 2 s') as [s' Hs].
  { eexists. vm_compute. reflexivity. }
  destruct (bitmap_alloc_one_repeats demo_bitmap bits_state 2 s') as (_ & s'' & Hs'').
  - exact demo_log_free.
  - exact demo_bm_ok.
  - cbn. lia.
  - exact Hs.
  - lia.
  - exists s', s''. split; [exact Hs|exact Hs''].
Defined.
End witnesses.
