(* ===== verification/Memory.v ===== *)
(** * Memory management (kernel/core/memory.c)

    The allocator of physical pages, page tables in memory, and the address
    spaces of processes. [find_pte], the console addresses and
    [creat_kernel_tables], which no file of the repository defines, are
    parameters, as are the addresses the linker script provides. *)
From S2P Require Import Prelude Mem Klib DList CpuInstr Mmu Desc Kernel Queues ListRef Demo Sched Mutex Tasks Irq Bitmap BootInfo.

Definition MEM_EBDA_START : Z := 524288.
Definition MEM_EXT_START : Z := 1024 * 1024.
Definition MEM_EXT_END : Z := 128 * 1024 * 1024 - 1.
Definition MEM_PAGE_SIZE : Z := 4096.
Definition MEMORY_TASK_BASE : Z := 2147483648.

Class KernelImage : Type := {
  kernel_base : Z; s_text : Z; e_text : Z; s_data : Z; mem_free_start : Z;
  CONSOLE_DISP_ADDR : Z; CONSOLE_DISP_END : Z; CONSOLE_VIDEO_BASE : Z
}.

Class PageWalk : Type := {
  find_pte : Z → Z → Z → K Z;
  creat_kernel_tables : K unit
}.

(** ** The allocator of physical pages *)
Section allocator.
Context `{Layout, Logger}.

Definition paddr_get : K addr_alloc_t := λ s, KRet (k_paddr s) s.

Definition addr_alloc_init (bits start size page_size : Z) : K unit :=
  mutex_init paddr_mutex;;
  kmodify (λ s, set_paddr (AddrAlloc (aa_bitmap (k_paddr s)) start size page_size) s);;
  bm ← with_mem (bitmap_init bits (s32 (size / page_size)) 0);
  kmodify (λ s, set_paddr (AddrAlloc bm start size page_size) s).

(** Between the lock operations: the search, the log lines, the address. *)
Definition alloc_body (page_count : Z) : K Z :=
  alloc ← paddr_get;
  page_index ← bitmap_alloc_nbits (aa_bitmap alloc) 0 page_count;
  log_printf "alloc start  0x%x" [AInt (s32 (aa_start alloc))];;
  log_printf "bitmap_alloc_nbits de return page_index  %d
" [AInt page_index];;
  mret (if 0 <=? page_index
        then u32 (aa_start alloc + page_index * aa_page_size alloc) else 0).

Definition addr_alloc_page (page_count : Z) : K Z :=
  mutex_lock paddr_mutex;;
  addr ← alloc_body page_count;
  mutex_unlock paddr_mutex;;
  mret addr.

Definition addr_free_page (addr page_count : Z) : K unit :=
  mutex_lock paddr_mutex;;
  alloc ← paddr_get;
  let pg_index := u32 (addr - aa_start alloc) / aa_page_size alloc in
  with_mem (bitmap_set_bit (aa_bitmap alloc) (s32 pg_index) page_count 0);;
  mutex_unlock paddr_mutex.
End allocator.

(** ** Page tables *)
Section tables.
Context `{Layout, Logger, KernelImage, PageWalk}.

Fixpoint map_loop (fuel : nat) (page_dir vaddr paddr perm : Z) : K Z :=
  match fuel with
  | O => mret 0
  | S f =>
      pte ← find_pte page_dir vaddr 1;
      if pte =? 0 then mret (-1) else
      v ← with_mem (load32 pte);
      ASSERT (pte_present (pte_of v) =? 0) "pte->present == 0";;
      with_mem (store32 pte (Z.lor paddr (Z.lor perm PTE_P)));;
      map_loop f page_dir (u32 (vaddr + MEM_PAGE_SIZE)) (u32 (paddr + MEM_PAGE_SIZE)) perm
  end.

Definition memory_create_map (page_dir vaddr paddr count perm : Z) : K Z :=
  map_loop (Z.to_nat count) page_dir vaddr paddr perm.

Record memory_map_t : Type := MemoryMap {
  map_vstart : Z;
  map_vend : Z;
  map_pstart : Z;
  map_perm : Z
}.

Definition kernel_map : list memory_map_t :=
  [MemoryMap kernel_base s_text 0 PTE_W;
   MemoryMap s_text e_text s_text 0;
   MemoryMap s_data (MEM_EBDA_START - 1) s_data PTE_W;
   MemoryMap CONSOLE_DISP_ADDR (CONSOLE_DISP_END - 1) CONSOLE_VIDEO_BASE PTE_W;
   MemoryMap MEM_EXT_START MEM_EXT_END MEM_EXT_START PTE_W].

Fixpoint map_all (maps : list memory_map_t) : K unit :=
  match maps with
  | [] => mret tt
  | map :: maps' =>
      let vstart := s32 (down2 (map_vstart map) MEM_PAGE_SIZE) in
      let vend := s32 (up2 (map_vend map) MEM_PAGE_SIZE) in
      let page_count := Z.quot (s32 (vend - vstart)) MEM_PAGE_SIZE in
      memory_create_map kernel_page_dir (u32 vstart) (map_pstart map) page_count (map_perm map);;
      map_all maps'
  end.

Definition create_kernel_table : K unit :=
  with_mem (kernel_memset kernel_page_dir 0 (PDE_CNT * 4));;
  map_all kernel_map.

(** [for (i = 0; i < user_pde_start; i++) page_dir[i].v = kernel_page_dir[i].v] *)
Fixpoint copy_pdes (fuel : nat) (page_dir i : Z) : stm mem unit :=
  match fuel with
  | O => mret tt
  | S f =>
      v ← load32 (kernel_page_dir + 4 * i);
      store32 (page_dir + 4 * i) v;;
      copy_pdes f page_dir (i + 1)
  end.

Definition memory_create_uvm : K Z :=
  page_dir ← addr_alloc_page 1;
  if page_dir =? 0 then mret 0 else
  with_mem (kernel_memset page_dir 0 MEM_PAGE_SIZE);;
  let user_pde_start := pde_index MEMORY_TASK_BASE in
  with_mem (copy_pdes (Z.to_nat user_pde_start) page_dir 0);;
  mret page_dir.

Fixpoint free_ptes (fuel : nat) (pte : Z) : K unit :=
  match fuel with
  | O => mret tt
  | S f =>
      v ← with_mem (load32 pte);
      (if pte_present (pte_of v) =? 0 then mret tt else addr_free_page (pte_paddr v) 1);;
      free_ptes f (pte + 4)
  end.

Fixpoint free_pdes (fuel : nat) (pde : Z) : K unit :=
  match fuel with
  | O => mret tt
  | S f =>
      v ← with_mem (load32 pde);
      (if pde_present (pde_of v) =? 0 then mret tt else
         free_ptes (Z.to_nat PTE_CNT) (pde_paddr v);;
         addr_free_page (pde_paddr v) 1);;
      free_pdes f (pde + 4)
  end.

Definition memory_destroy_uvm (page_dir : Z) : K unit :=
  let user_pde_start := pde_index MEMORY_TASK_BASE in
  ASSERT (negb (page_dir =? 0)) "page_dir != 0";;
  free_pdes (Z.to_nat (PDE_CNT - user_pde_start)) (page_dir + 4 * user_pde_start);;
  addr_free_page page_dir 1.
End tables.

(** ** Initialisation *)
Section init.
Context `{Layout, Logger, KernelImage, PageWalk}.

(** Element [i] of the array in [boot_info]. *)
Definition region_at (boot_info : boot_info_t) (i : Z) : K (Z * Z) :=
  if 0 <=? i then
    match ram_region_cfg boot_info !! Z.to_nat i with
    | Some r => mret r
    | None => kthrow (Fault i)
    end
  else kthrow (Fault i).

Fixpoint show_regions (fuel : nat) (boot_info : boot_info_t) (i : Z) : K unit :=
  match fuel with
  | O => mret tt
  | S f =>
      r ← region_at boot_info i;
      log_printf "[%d]:0x%x-0x%x" [AInt i; AInt (s32 r.1); AInt (s32 r.2)];;
      show_regions f boot_info (i + 1)
  end.

Definition show_mem_info (boot_info : boot_info_t) : K unit :=
  log_printf "memory region:" [];;
  show_regions (Z.to_nat (ram_region_count boot_info)) boot_info 0;;
  log_printf "
" [].

Fixpoint total_loop (fuel : nat) (boot_info : boot_info_t) (i mem_size : Z) : K Z :=
  match fuel with
  | O => mret (u32 mem_size)
  | S f =>
      r ← region_at boot_info i;
      total_loop f boot_info (i + 1) (s32 (mem_size + r.2))
  end.

Definition total_mem_size (boot_info : boot_info_t) : K Z :=
  total_loop (Z.to_nat (ram_region_count boot_info)) boot_info 0 0.

Definition memory_init (boot_info : boot_info_t) : K unit :=
  log_printf "memory init success" [];;
  show_mem_info boot_info;;
  let mem_free := mem_free_start in
  total ← total_mem_size boot_info;
  let mem_up1MB_free := u32 (total - MEM_EXT_START) in
  let mem_up1MB_free := down2 mem_up1MB_free MEM_PAGE_SIZE in
  log_printf "free memory: 0x%x, size:0x%x" [AInt MEM_EXT_START; AInt (s32 mem_up1MB_free)];;
  addr_alloc_init mem_free MEM_EXT_START mem_up1MB_free MEM_PAGE_SIZE;;
  alloc ← paddr_get;
  let mem_free := mem_free + bitmap_byte_count (aa_size alloc / MEM_PAGE_SIZE) in
  ASSERT (mem_free <? MEM_EBDA_START) "mem_free < (uint8_t *)MEM_EBDA_START";;
  creat_kernel_tables.
End init.

(** ** Lemmas on the allocator *)
Section allocator_lemmas.
Context `{LoggerLaws}.
Implicit Types (s : kstate).

(** The allocator as [addr_alloc_init] leaves it, with a valid search position. *)
Record alloc_ready (s : kstate) : Prop := {
  al_mutex : mutex_idle paddr_mutex s;
  al_apart : paddr_mutex ≠ log_mutex;
  al_log : log_free s;
  al_bits : bm_ok (k_mem s) (aa_bitmap (k_paddr s));
  al_page : aa_page_size (k_paddr s) = MEM_PAGE_SIZE;
  al_start : 0 < aa_start (k_paddr s);
  al_fits : aa_start (k_paddr s) + bitcount (aa_bitmap (k_paddr s)) * MEM_PAGE_SIZE ≤ 2 ^ 32;
  al_search : 0 ≤ k_search_idx s ≤ bitcount (aa_bitmap (k_paddr s))
}.

(** Code between locking and unlocking a free mutex. *)
Lemma locked_ok m s l {A} (f : K A) a s2 :
  k_mutex s !! m = Some (Mutex 0 0 l) → l_count l = 0 →
  f (mutex_at m (Mutex (curr_task (k_tm s)) 1 l) s) = KRet a s2 →
  k_mutex s2 = <[m := Mutex (curr_task (k_tm s)) 1 l]> (k_mutex s) →
  k_tm s2 = k_tm s →
  (mutex_lock m;; x ← f; mutex_unlock m;; mret x) s = KRet a (set_mutexes (k_mutex s) s2).
Proof.
  intros Hm Hl Hf Em Et. kstep (mutex_lock_idle m s l Hm). kstep Hf.
  assert (Hm2 : k_mutex s2 !! m = Some (Mutex (curr_task (k_tm s2)) 1 l)).
  { rewrite Em, Et. apply lookup_insert_eq. }
  kstep (mutex_unlock_idle m s2 l Hm2 Hl). unfold mret, K_ret, mutex_at. f_equal.
  rewrite Em, insert_insert_eq. by rewrite insert_id.
Qed.

(** The address of a page index. *)
Definition page_addr (s : kstate) (r : Z) : Z :=
  if 0 <=? r then u32 (aa_start (k_paddr s) + r * aa_page_size (k_paddr s)) else 0.

Lemma alloc_body_ok s n r c p m :
  log_free s →
  bitmap_alloc_nbits (aa_bitmap (k_paddr s)) 0 n s =
    KRet r (set_cpu c (set_search_idx p (set_mem m s))) →
  ∃ c', alloc_body n s = KRet (page_addr s r) (set_cpu c' (set_search_idx p (set_mem m s))).
Proof.
  intros Hl Hb. unfold alloc_body. rewrite (kbind_ret paddr_get _ s (k_paddr s) s) by done.
  kstep Hb. set (s1 := set_cpu c (set_search_idx p (set_mem m s))).
  match goal with |- context [log_printf ?fmt ?args ≫= λ _, ?f] =>
    destruct (log_then fmt args s1 f Hl) as [c1 ->]; [line_fits|] end.
  match goal with |- context [log_printf ?fmt ?args ≫= λ _, ?f] =>
    destruct (log_then fmt args (set_cpu c1 s1) f Hl) as [c2 ->]; [line_fits|] end.
  by exists c2.
Qed.

Lemma bm_locked s x : alloc_ready s → log_free (mutex_at paddr_mutex x s).
Proof.
  intros Hs. destruct (al_log _ Hs) as (l & Hl & Hc). exists l. split; [|done]. cbn.
  rewrite lookup_insert_ne by apply (al_apart _ Hs). done.
Qed.

(** A page allocation is a search in the bitmap. *)
Lemma addr_alloc_page_ok s n :
  alloc_ready s → 1 ≤ n →
  ∃ r c p m, addr_alloc_page n s =
      KRet (page_addr s r) (set_cpu c (set_search_idx p (set_mem m s))) ∧
    alloc_outcome (k_mem s) (aa_bitmap (k_paddr s)) 0 n (k_search_idx s) r p m.
Proof.
  intros Hs Hn. destruct (al_mutex _ Hs) as (l & Hm & Hl).
  set (s1 := mutex_at paddr_mutex (Mutex (curr_task (k_tm s)) 1 l) s).
  pose proof (bm_locked s (Mutex (curr_task (k_tm s)) 1 l) Hs) as Hlog.
  destruct (bitmap_alloc_nbits_ok (aa_bitmap (k_paddr s)) 0 n s1)
    as (r & c & p & m & Hb & Ho); [done|apply (al_bits _ Hs)|apply (al_search _ Hs)|done|by left|].
  destruct (alloc_body_ok s1 n r c p m Hlog Hb) as [c' Hbody].
  exists r, c', p, m. split; [|exact Ho]. unfold addr_alloc_page.
  by rewrite (locked_ok paddr_mutex s l (alloc_body n) _ _ Hm Hl Hbody).
Qed.

Lemma page_addr_range s r :
  alloc_ready s → 0 ≤ r < bitcount (aa_bitmap (k_paddr s)) →
  page_addr s r = aa_start (k_paddr s) + r * MEM_PAGE_SIZE ∧ 0 < page_addr s r.
Proof.
  intros Hs Hr. unfold page_addr. replace (0 <=? r) with true by lia.
  rewrite (al_page _ Hs). pose proof (al_fits _ Hs). pose proof (al_start _ Hs).
  unfold MEM_PAGE_SIZE in *. rewrite u32_id by lia. lia.
Qed.
End allocator_lemmas.

(** ** Properties of page allocation *)
Section allocator_properties.
Context `{LoggerLaws}.
Implicit Types (s : kstate).

(** The allocator hands out the same page again and again: when a one-page
    allocation succeeds, it returns a page of the managed range, and the next
    one-page allocation returns the very same address. *)
Theorem addr_alloc_page_repeats s addr s' :
  alloc_ready s → addr_alloc_page 1 s = KRet addr s' → addr ≠ 0 →
  (∃ r, 0 ≤ r < bitcount (aa_bitmap (k_paddr s)) ∧
     addr = aa_start (k_paddr s) + r * MEM_PAGE_SIZE) ∧
  ∃ s'', addr_alloc_page 1 s' = KRet addr s''.
Proof.
  intros Hs Ha Hne. destruct (al_mutex _ Hs) as (l & Hm & Hl).
  set (s1 := mutex_at paddr_mutex (Mutex (curr_task (k_tm s)) 1 l) s).
  pose proof (bm_locked s (Mutex (curr_task (k_tm s)) 1 l) Hs) as Hlog.
  destruct (bitmap_alloc_nbits_ok (aa_bitmap (k_paddr s)) 0 1 s1)
    as (r & c & p & m & Hb & Ho); [done|apply (al_bits _ Hs)|apply (al_search _ Hs)|lia|by left|].
  destruct (alloc_body_ok s1 1 r c p m Hlog Hb) as [c' Hbody].
  assert (Ha' : addr_alloc_page 1 s = KRet (page_addr s r)
    (set_cpu c' (set_search_idx p (set_mem m s)))).
  { unfold addr_alloc_page. by rewrite (locked_ok paddr_mutex s l (alloc_body 1) _ _ Hm Hl Hbody). }
  rewrite Ha' in Ha. injection Ha as <- <-.
  assert (Hr : 0 ≤ r).
  { destruct Ho as [(-> & _)|(Hr0 & _)]; [done|]. pose proof (al_search _ Hs).
    change (k_search_idx s1) with (k_search_idx s) in Hr0. lia. }
  destruct (alloc_one_again (aa_bitmap (k_paddr s)) s1 r _ Hlog (al_bits _ Hs) (al_search _ Hs) Hb Hr)
    as (Hr1 & c1 & m1 & E1 & Hok1 & _ & Hagain).
  assert (p = r ∧ m = m1) as [-> ->].
  { split; [exact (f_equal k_search_idx E1)|exact (f_equal k_mem E1)]. }
  pose proof (al_search _ Hs). change (k_search_idx s1) with (k_search_idx s) in Hr1.
  destruct (page_addr_range s r Hs) as [Epa _]; [lia|].
  split; [exists r; split; [lia|done]|].
  set (s2 := set_cpu c' (set_search_idx r (set_mem m1 s))).
  assert (Hs2 : alloc_ready s2) by (destruct Hs; split; try done; cbn; lia).
  set (s3 := mutex_at paddr_mutex (Mutex (curr_task (k_tm s2)) 1 l) s2).
  pose proof (bm_locked s2 (Mutex (curr_task (k_tm s2)) 1 l) Hs2 : log_free s3) as Hlog3.
  destruct (Hagain s3 Hlog3 eq_refl eq_refl) as (c3 & m3 & Hb3).
  destruct (alloc_body_ok s3 1 r c3 r m3 Hlog3 Hb3) as [c4 Hbody3].
  eexists. unfold addr_alloc_page.
  by rewrite (locked_ok paddr_mutex s2 l (alloc_body 1) _ _ Hm Hl Hbody3).
Qed.
End allocator_properties.

(** ** Entries in memory *)
Section words.
Implicit Types (m : mem).

(** The fields of an entry word. *)
Lemma entry_fields paddr perm :
  is_u32 paddr → paddr mod 4096 = 0 → 0 ≤ perm < 512 →
  let v := Z.lor paddr (Z.lor perm PTE_P) in
  is_u32 v ∧ pte_paddr v = paddr ∧ pte_present (pte_of v) = 1 ∧ get_pte_perm v = Z.lor perm PTE_P.
Proof.
  intros Hp Hal Hperm v. unfold is_u32 in *.
  assert (Hlow : ∀ i, 0 ≤ i < 12 → Z.testbit paddr i = false).
  { intros i Hi. rewrite <-(Z.mod_pow2_bits_low paddr 12) by lia.
    change (2 ^ 12) with 4096. by rewrite Hal, Z.bits_0. }
  assert (Hhigh : ∀ i, 32 ≤ i → Z.testbit paddr i = false).
  { intros i Hi. rewrite <-(Z.mod_small paddr (2 ^ 32)) by lia. by apply Z.mod_pow2_bits_high. }
  assert (Hpm : ∀ i, 9 ≤ i → Z.testbit (Z.lor perm PTE_P) i = false).
  { intros i Hi. rewrite Z.lor_spec. change PTE_P with (2 ^ 0). rewrite Z.pow2_bits_false by lia.
    rewrite <-(Z.mod_small perm (2 ^ 9)) by lia. by rewrite Z.mod_pow2_bits_high by lia. }
  assert (Hv : ∀ i, Z.testbit v i = Z.testbit paddr i || Z.testbit (Z.lor perm PTE_P) i).
  { intros i. unfold v. by rewrite Z.lor_spec. }
  split; [|split; [|split]].
  - assert (Z.lor paddr (Z.lor perm PTE_P) mod 2 ^ 32 = v) as <-; [|apply Z.mod_pos_bound; lia].
    apply Z.bits_inj'. intros i Hi. rewrite testbit_mod_pow2 by lia.
    case_bool_decide; [done|]. cbn [andb]. rewrite Hv, Hhigh, Hpm by lia. done.
  - apply Z.bits_inj'. intros i Hi. unfold pte_paddr, u32. cbn [phy_page_addr pte_of].
    unfold bit_field. rewrite testbit_mod_pow2 by lia. rewrite Z.shiftl_spec by lia.
    destruct (decide (i < 12)) as [H12|H12].
    + rewrite (Z.testbit_neg_r _ (i - 12)) by lia. rewrite andb_false_r. symmetry. apply Hlow. lia.
    + rewrite Z.land_spec, Z.shiftr_spec by lia. replace (i - 12 + 12) with i by lia.
      rewrite Hv, Hpm, orb_false_r by lia.
      destruct (decide (i < 32)).
      * rewrite Z.ones_spec_low by lia. rewrite bool_decide_true by done. by rewrite andb_true_r.
      * rewrite bool_decide_false by done. by rewrite Hhigh by lia.
  - cbn [pte_present pte_of]. unfold bit_field. rewrite Z.shiftr_0_r.
    apply Z.bits_inj'. intros i Hi. rewrite Z.land_spec.
    change (Z.ones 1) with (2 ^ 0). change 1 with (2 ^ 0). destruct (decide (i = 0)) as [->|].
    + rewrite Hv, Z.lor_spec. by rewrite !orb_true_r.
    + rewrite Z.pow2_bits_false by lia. apply andb_false_r.
  - unfold get_pte_perm. apply Z.bits_inj'. intros i Hi. rewrite Z.land_spec, Hv.
    change 511 with (Z.ones 9). destruct (decide (i < 9)).
    + rewrite Z.ones_spec_low by lia. rewrite Hlow by lia. by rewrite andb_true_r.
    + rewrite Z.ones_spec_high by lia. rewrite andb_false_r. symmetry. apply Hpm. lia.
Qed.
End words.

(** ** Mapping pages through existing page tables *)
Section mapping.
Context `{Layout, Logger, KernelImage, PageWalk}.
Implicit Types (s : kstate).

(** [find_pte] on a directory whose tables exist: the entry of a page is at
    [pt], and nothing changes. *)
Definition walk_returns (page_dir : Z) (pt : Z → Z) : Prop :=
  ∀ s vaddr, is_u32 vaddr → find_pte page_dir vaddr 1 s = KRet (pt vaddr) s.

(** The [n] entries from page [v] on are separate words, none of them present. *)
Record entries_free (m : mem) (pt : Z → Z) (v : Z) (n : nat) : Prop := {
  ef_word i : (i < n)%nat → ∃ w, word_at m (pt (v + Z.of_nat i * MEM_PAGE_SIZE)) w ∧ pte_present (pte_of w) = 0;
  ef_nonnull i : (i < n)%nat → pt (v + Z.of_nat i * MEM_PAGE_SIZE) ≠ 0;
  ef_apart i j : (i < j < n)%nat →
    4 ≤ Z.abs (pt (v + Z.of_nat i * MEM_PAGE_SIZE) - pt (v + Z.of_nat j * MEM_PAGE_SIZE))
}.

Lemma entries_free_next m pt v n x :
  entries_free m pt v (S n) →
  entries_free (write_bytes m (pt v) (le32 x)) pt (v + MEM_PAGE_SIZE) n.
Proof.
  intros [Hw Hn Ha].
  assert (Es : ∀ i, v + MEM_PAGE_SIZE + Z.of_nat i * MEM_PAGE_SIZE =
    v + Z.of_nat (S i) * MEM_PAGE_SIZE) by (intros i; lia).
  split.
  - intros i Hi. rewrite Es. destruct (Hw (S i)) as (w & Hword & Hp); [lia|].
    exists w. split; [|done]. apply word_write_other; [done|].
    specialize (Ha 0%nat (S i) ltac:(lia)). rewrite Z.add_0_r in Ha. lia.
  - intros i Hi. rewrite Es. apply Hn. lia.
  - intros i j Hij. rewrite !Es. apply Ha. lia.
Qed.

Lemma map_loop_ok page_dir pt perm n : ∀ s v p,
  walk_returns page_dir pt → 0 ≤ perm < 512 → entries_free (k_mem s) pt v n →
  0 ≤ v → v + Z.of_nat n * MEM_PAGE_SIZE ≤ 2 ^ 32 →
  0 ≤ p → p + Z.of_nat n * MEM_PAGE_SIZE ≤ 2 ^ 32 → p mod 4096 = 0 →
  ∃ m, map_loop n page_dir v p perm s = KRet 0 (set_mem m s) ∧
    (∀ i, (i < n)%nat → word_at m (pt (v + Z.of_nat i * MEM_PAGE_SIZE))
       (Z.lor (p + Z.of_nat i * MEM_PAGE_SIZE) (Z.lor perm PTE_P))) ∧
    (∀ b w, word_at (k_mem s) b w →
       (∀ i, (i < n)%nat → 4 ≤ Z.abs (pt (v + Z.of_nat i * MEM_PAGE_SIZE) - b)) → word_at m b w).
Proof.
  unfold MEM_PAGE_SIZE.
  induction n as [|n IH]; intros s v p Hwalk Hperm He Hv Hvn Hp Hpn Hal; cbn [map_loop].
  { exists (k_mem s). split; [by destruct s|]. split; [lia|done]. }
  destruct (ef_word _ _ _ _ He 0) as (w & Hw & Hpr); [lia|].
  pose proof (ef_nonnull _ _ _ _ He 0 ltac:(lia)) as Hnn.
  rewrite Z.add_0_r in Hw, Hnn.
  kstep (Hwalk s v ltac:(unfold is_u32; lia)). rewrite (proj2 (Z.eqb_neq _ _) Hnn).
  kstep (with_mem_ok (load32 (pt v)) s w (k_mem s) (word_load _ _ _ Hw)).
  set (s0 := set_mem (k_mem s) s). rewrite (kbind_ret _ _ s0 tt s0).
  2:{ unfold ASSERT. by rewrite Hpr. }
  destruct (entry_fields p perm) as [Hu _]; [unfold is_u32; lia|done|done|].
  set (x := Z.lor p (Z.lor perm PTE_P)) in *.
  kstep (with_mem_ok (store32 (pt v) x) s0 tt _ (store32_ok _ _ _ (word_mapped _ _ _ Hw))).
  set (s1 := set_mem (write_bytes (k_mem s) (pt v) (le32 x)) s0).
  pose proof (entries_free_next _ pt v n x He) as He1.
  destruct n as [|n'].
  { exists (k_mem s1). split; [by destruct s|]. split.
    - intros i Hi. replace i with 0%nat by lia. rewrite !Z.add_0_r. by apply word_write_same.
    - intros b y Hb Hfar. apply word_write_other; [done|]. specialize (Hfar 0%nat ltac:(lia)).
      rewrite Z.add_0_r in Hfar. lia. }
  unfold MEM_PAGE_SIZE in *. rewrite !u32_id by lia.
  destruct (IH s1 (v + 4096) (p + 4096)) as (m & -> & Hm & Hfr); try done; try lia.
  { rewrite Z.add_mod, Hal by lia. done. }
  exists m. split; [done|]. split.
  - intros i Hi. destruct i as [|i].
    + rewrite !Z.add_0_r. apply Hfr; [by apply word_write_same|]. intros i Hi'.
      pose proof (ef_apart _ _ _ _ He 0 (S i) ltac:(lia)) as Ha. unfold MEM_PAGE_SIZE in Ha.
      rewrite Z.add_0_r in Ha. replace (v + 4096 + Z.of_nat i * 4096) with
        (v + Z.of_nat (S i) * 4096) by lia. lia.
    + specialize (Hm i ltac:(lia)).
      by replace (v + Z.of_nat (S i) * 4096) with (v + 4096 + Z.of_nat i * 4096) by lia;
        replace (p + Z.of_nat (S i) * 4096) with (p + 4096 + Z.of_nat i * 4096) by lia.
  - intros b y Hb Hfar. apply Hfr.
    + apply word_write_other; [done|]. specialize (Hfar 0%nat ltac:(lia)).
      rewrite Z.add_0_r in Hfar. lia.
    + intros i Hi. replace (v + 4096 + Z.of_nat i * 4096) with (v + Z.of_nat (S i) * 4096) by lia.
      apply Hfar. lia.
Qed.
End mapping.

(** ** The page directory of a new process *)
Section uvm.
Context `{Layout, Logger}.
Implicit Types (m : mem) (s : kstate).

Lemma zero_word m a n k :
  0 ≤ k → k + 4 ≤ Z.of_nat n → word_at (write_bytes m a (replicate n 0)) (a + k) 0.
Proof.
  intros Hk Hn. split; [done|]. apply bytes_at_lookup. intros i x Hi.
  apply lookup_lt_Some in Hi as Hl. cbn in Hl.
  rewrite write_bytes_lookup, length_replicate, decide_True by lia.
  rewrite lookup_replicate_2 by lia.
  destruct i as [|[|[|[|i]]]]; cbn in Hi; try done; lia.
Qed.

Lemma copy_pdes_ok pd kv n : ∀ m i,
  (∀ j, i ≤ j < i + Z.of_nat n → word_at m (kernel_page_dir + 4 * j) (kv j)) →
  mapped m (pd + 4 * i) (4 * Z.of_nat n) →
  (∀ j j', i ≤ j < i + Z.of_nat n → i ≤ j' < i + Z.of_nat n →
     4 ≤ Z.abs (kernel_page_dir + 4 * j - (pd + 4 * j'))) →
  ∃ m', copy_pdes n pd i m = Ok (tt, m') ∧
    (∀ j, i ≤ j < i + Z.of_nat n → word_at m' (pd + 4 * j) (kv j)) ∧
    (∀ b v, word_at m b v → pd + 4 * (i + Z.of_nat n) ≤ b ∨ b + 4 ≤ pd + 4 * i →
       word_at m' b v).
Proof.
  induction n as [|n IH]; intros m i Hk Hm Hap; cbn [copy_pdes].
  { exists m. split; [done|]. split; [lia|done]. }
  stm_step (word_load _ _ _ (Hk i ltac:(lia))).
  stm_step (store32_ok m (pd + 4 * i) (kv i) (mapped_le _ _ _ 4 Hm ltac:(lia))).
  set (m1 := write_bytes m (pd + 4 * i) (le32 (kv i))).
  destruct (IH m1 (i + 1)) as (m' & -> & Hw & Hfr).
  - intros j Hj. apply word_write_other; [apply Hk; lia|].
    specialize (Hap j i ltac:(lia) ltac:(lia)). lia.
  - intros x Hx. apply write_bytes_mapped with (n := 4 * Z.of_nat (S n)) (b := pd + 4 * i); [done|lia].
  - intros j j' Hj Hj'. apply Hap; lia.
  - exists m'. split; [done|]. split.
    + intros j Hj. destruct (decide (j = i)) as [->|]; [|apply Hw; lia].
      apply Hfr; [apply word_write_same, Hk; lia|lia].
    + intros b v Hb Hd. apply Hfr; [|lia]. apply word_write_other; [done|lia].
Qed.
End uvm.

(** ** Properties of mappings *)
Section mapping_properties.
Context `{Layout, Logger, KernelImage, PageWalk}.
Implicit Types (s : kstate).

(** [memory_create_map] maps [n] consecutive pages: when the page tables
    exist and the entries are free, it returns 0, and the entry of page [i] reads
    back the [i]-th physical page, present, with the permissions asked for; every
    word apart from those entries is unchanged. *)
Theorem memory_create_map_maps page_dir pt s v p n perm :
  walk_returns page_dir pt → entries_free (k_mem s) pt v n → 0 ≤ perm < 512 →
  0 ≤ v → v + Z.of_nat n * MEM_PAGE_SIZE ≤ 2 ^ 32 →
  0 ≤ p → p + Z.of_nat n * MEM_PAGE_SIZE ≤ 2 ^ 32 → p mod 4096 = 0 →
  ∃ m, memory_create_map page_dir v p (Z.of_nat n) perm s = KRet 0 (set_mem m s) ∧
    (∀ i, (i < n)%nat → ∃ e, load32 (pt (v + Z.of_nat i * MEM_PAGE_SIZE)) m = Ok (e, m) ∧
       pte_present (pte_of e) = 1 ∧ pte_paddr e = p + Z.of_nat i * MEM_PAGE_SIZE ∧
       get_pte_perm e = Z.lor perm PTE_P) ∧
    (∀ b w, word_at (k_mem s) b w →
       (∀ i, (i < n)%nat → 4 ≤ Z.abs (pt (v + Z.of_nat i * MEM_PAGE_SIZE) - b)) → word_at m b w).
Proof.
  intros Hwalk He Hperm Hv Hvn Hp Hpn Hal. unfold memory_create_map. rewrite Nat2Z.id.
  destruct (map_loop_ok page_dir pt perm n s v p) as (m & -> & Hw & Hfr); try done.
  exists m. split; [done|]. split; [|done]. intros i Hi. specialize (Hw i Hi).
  unfold MEM_PAGE_SIZE in *. eexists. split; [by apply word_load|].
  destruct (entry_fields (p + Z.of_nat i * 4096) perm) as (_ & Hpa & Hpr & Hpe); try done.
  - unfold is_u32. lia.
  - by rewrite Z.mod_add.
Qed.

(** The directory [memory_create_uvm] builds: after a successful allocation
    its first 512 entries are those of the kernel's directory and the entries of
    the user half are empty. *)
Theorem memory_create_uvm_shares_kernel s a s1 kv :
  addr_alloc_page 1 s = KRet a s1 → a ≠ 0 →
  mapped (k_mem s1) a MEM_PAGE_SIZE →
  (∀ j, 0 ≤ j < 512 → word_at (k_mem s1) (kernel_page_dir + 4 * j) (kv j)) →
  kernel_page_dir + 4096 ≤ a ∨ a + MEM_PAGE_SIZE ≤ kernel_page_dir →
  ∃ m, memory_create_uvm s = KRet a (set_mem m s1) ∧
    (∀ j, 0 ≤ j < 512 → load32 (a + 4 * j) m = Ok (kv j, m)) ∧
    (∀ j, 512 ≤ j < PDE_CNT → load32 (a + 4 * j) m = Ok (0, m)).
Proof.
  unfold MEM_PAGE_SIZE, PDE_CNT. intros Ha Hne Hm Hk Hd. unfold memory_create_uvm. kstep Ha.
  rewrite (proj2 (Z.eqb_neq _ _) Hne). unfold MEM_PAGE_SIZE.
  kstep (with_mem_ok _ s1 _ _ (kernel_memset_ok a 0 4096 (k_mem s1) Hne Hm ltac:(lia))).
  change (Z.to_nat (pde_index MEMORY_TASK_BASE)) with 512%nat. change (u8 0) with 0.
  set (m1 := write_bytes (k_mem s1) a (replicate (Z.to_nat 4096) 0)).
  destruct (copy_pdes_ok a kv 512 m1 0) as (m & Hc & Hw & Hfr).
  - intros j Hj. apply word_outside; [apply Hk; lia|]. rewrite length_replicate. lia.
  - intros x Hx. apply write_bytes_mapped with (n := 4096) (b := a); [done|lia].
  - intros j j' Hj Hj'. lia.
  - exists m. kstep (with_mem_ok _ (set_mem m1 s1) _ _ Hc). split; [by destruct s1|]. split.
    + intros j Hj. apply word_load, Hw. lia.
    + intros j Hj. apply word_load, Hfr; [|lia]. apply zero_word; lia.
Qed.
End mapping_properties.

(** *** Witnesses *)
Section witnesses.
#[local] Existing Instance demo_layout.
#[local] Existing Instance quiet_logger.
#[local] Existing Instance quiet_logger_laws.

(** Twelve pages from 1 MB on, managed by the bitmap at address 100. *)
Definition pages_state : kstate :=
  set_paddr (AddrAlloc demo_bitmap MEM_EXT_START (12 * MEM_PAGE_SIZE) MEM_PAGE_SIZE) bits_state.

Lemma pages_ready : alloc_ready pages_state.
Proof.
  split.
  - exists list_init. split; reflexivity.
  - vm_compute. discriminate.
  - exact demo_log_free.
  - exact demo_bm_ok.
  - reflexivity.
  - vm_compute. reflexivity.
  - vm_compute. discriminate.
  - vm_compute. split; discriminate.
Qed.

Lemma addr_alloc_page_repeats_witness :
  ∃ s' s'', addr_alloc_page 1 pages_state = KRet 1056768 s' ∧
    addr_alloc_page 1 s' = KRet 1056768 s''.
Proof.
  assert (∃ s', addr_alloc_page 1 pages_state = KRet 1056768 s') as [s' Hs].
  { eexists. vm_compute. reflexivity. }
  destruct (addr_alloc_page_repeats pages_state 1056768 s' pages_ready Hs) as (_ & s'' & Hs'');
    [discriminate|].
  exists s', s''. split; [exact Hs|exact Hs''].
Defined.

Definition demo_image : KernelImage := {|
  kernel_base := 0; s_text := 65536; e_text := 131072; s_data := 131072;
  mem_free_start := 196608; CONSOLE_DISP_ADDR := 753664; CONSOLE_DISP_END := 786432;
  CONSOLE_VIDEO_BASE := 753664
|}.

(** One page table at 256 KB serves every directory. *)
Definition demo_pt (vaddr : Z) : Z := 262144 + 4 * pte_index vaddr.
Definition demo_walk : PageWalk := {|
  find_pte := λ _ vaddr _, mret (demo_pt vaddr); creat_kernel_tables := mret tt
|}.
#[local] Existing Instance demo_image.
#[local] Existing Instance demo_walk.

Definition table_state : kstate := set_mem (zero_mem 262144 8) demo_state.

Lemma memory_create_map_maps_witness :
  ∃ m e, memory_create_map 0 0 1048576 2 PTE_W table_state = KRet 0 (set_mem m table_state) ∧
    load32 262148 m = Ok (e, m) ∧ pte_paddr e = 1052672.
Proof.
  destruct (memory_create_map_maps 0 demo_pt table_state 0 1048576 2 PTE_W)
    as (m & Hm & He & _).
  - intros s vaddr _. reflexivity.
  - split.
    + intros i Hi. exists 0. split; [|reflexivity]. split; [by apply (bool_decide_unpack _)|].
      destruct i as [|[|i]]; [vm_compute; repeat split..|lia].
    + intros i Hi. destruct i as [|[|i]]; [vm_compute; discriminate..|lia].
    + intros i j Hij. replace i with 0%nat by lia. replace j with 1%nat by lia.
      vm_compute. discriminate.
  - vm_compute. split; [discriminate|reflexivity].
  - lia.
  - vm_compute. discriminate.
  - lia.
  - vm_compute. discriminate.
  - reflexivity.
  - destruct (He 1%nat ltac:(lia)) as (e & Hl & _ & Hp & _). exists m, e.
    split; [exact Hm|]. split; [exact Hl|exact Hp].
Defined.

(** The kernel's directory at 24576 and the page at 1056768, all zero. *)
Definition uvm_state : kstate :=
  set_mem (<[100 := 3]> (<[101 := 0]> (zero_mem 24576 4096 ∪ zero_mem 1056768 4096))) pages_state.

Definition zero_check (m : mem) (a n : Z) : bool :=
  forallb (λ x, bool_decide (m !! x = Some 0)) (seqZ a n).

Lemma zero_check_ok m a n x : zero_check m a n = true → a ≤ x < a + n → m !! x = Some 0.
Proof.
  intros Hc Hx. unfold zero_check in Hc. rewrite forallb_forall in Hc.
  apply (bool_decide_eq_true_1 _), Hc, list_elem_of_In, elem_of_seqZ. lia.
Qed.

Lemma zero_check_word m a n b :
  zero_check m a n = true → a ≤ b → b + 4 ≤ a + n → word_at m b 0.
Proof.
  intros Hc H1 H2. split; [done|]. cbn [le32 bytes_at]. change (u8 0) with 0.
  change (u8 (Z.shiftr 0 _)) with 0. split_and!; try done; apply (zero_check_ok m a n); done || lia.
Qed.

Definition uvm_check : bool :=
  match addr_alloc_page 1 uvm_state with
  | KRet a s1 => (a =? 1056768) && (zero_check (k_mem s1) 1056768 4096 &&
                                    zero_check (k_mem s1) 24576 4096)
  | _ => false
  end.

Lemma uvm_checked : uvm_check = true.
Proof. vm_compute. reflexivity. Qed.

Lemma uvm_alloc :
  ∃ s1, addr_alloc_page 1 uvm_state = KRet 1056768 s1 ∧
    zero_check (k_mem s1) 1056768 4096 = true ∧ zero_check (k_mem s1) 24576 4096 = true.
Proof.
  pose proof uvm_checked as Hc. unfold uvm_check in Hc.
  destruct (addr_alloc_page 1 uvm_state) as [a s1|e|sel s1 k]; [|done|done].
  apply andb_prop in Hc as [Ha%Z.eqb_eq [Hp Hk]%andb_prop]. exists s1.
  split; [rewrite Ha; reflexivity|]. split; [exact Hp|exact Hk].
Qed.

Lemma memory_create_uvm_shares_kernel_witness :
  ∃ s1 m, memory_create_uvm uvm_state = KRet 1056768 (set_mem m s1) ∧
    load32 (1056768 + 4 * 600) m = Ok (0, m).
Proof.
  destruct uvm_alloc as (s1 & Ha & Hp & Hk).
  destruct (memory_create_uvm_shares_kernel uvm_state 1056768 s1 (λ _, 0)) as (m & Hm & _ & Hz).
  - exact Ha.
  - discriminate.
  - intros x Hx. exists 0. exact (zero_check_ok _ _ _ _ Hp Hx).
  - intros j Hj. apply (zero_check_word _ 24576 4096); [exact Hk|cbn; lia|cbn; lia].
  - left. vm_compute. discriminate.
  - exists s1, m. split; [exact Hm|]. apply Hz. unfold PDE_CNT. lia.
Defined.
End witnesses.
