(* ===== verification/AddressSpace.v ===== *)
(** * Destroying address spaces (memory_destroy_uvm of kernel/core/memory.c)

    Which pages [memory_destroy_uvm] gives back. The operations are in [Memory];
    here they are related to what a page directory and its tables say. *)
From S2P Require Import Prelude Mem Klib DList CpuInstr Mmu Desc BootInfo Kernel Queues ListRef Demo Sched Mutex Tasks Irq Bitmap Memory.

(** ** Freeing pages *)
Section freeing.
Context `{HLayout : Layout, HLogger : Logger} (s : kstate).
Context (Hready : alloc_ready s).
Implicit Types (m : mem).

#[local] Abbreviation bm := (aa_bitmap (k_paddr s)).

(** A page of the allocator's range, and its number. *)
Definition managed (a : Z) : Prop :=
  aa_start (k_paddr s) ≤ a < aa_start (k_paddr s) + bitcount bm * MEM_PAGE_SIZE.
Definition page_no (a : Z) : Z := (a - aa_start (k_paddr s)) / MEM_PAGE_SIZE.

(** Addresses that are no byte of the bitmap. *)
Definition off_bitmap (x : Z) : Prop := x < bits bm ∨ bits bm + (bitcount bm + 7) / 8 ≤ x.
Definition word_off (a : Z) : Prop := ∀ x, a ≤ x < a + 4 → off_bitmap x.

Definition free_in m (a : Z) : mem := set_bits_mem 1 m bm (page_no a) false.

(** The memories between two calls: a bitmap, and the rest as at the start. *)
Record freeing m : Prop := {
  fr_bits : bm_ok m bm;
  fr_rest x : off_bitmap x → m !! x = k_mem s !! x
}.

Lemma page_no_range a : managed a → 0 ≤ page_no a < bitcount bm.
Proof.
  unfold managed, page_no, MEM_PAGE_SIZE. intros Ha. split; [apply Z.div_pos; lia|].
  apply Z.div_lt_upper_bound; lia.
Qed.

Lemma free_in_bits m a j :
  bm_ok m bm → managed a → 0 ≤ j < bitcount bm →
  bm_bit (free_in m a) bm j = negb (bool_decide (j = page_no a)) && bm_bit m bm j.
Proof.
  intros Hm Ha Hj. pose proof (page_no_range a Ha).
  destruct (set_bits_mem_spec 1 m bm (page_no a) false Hm) as [_ E]; [lia|].
  unfold free_in. rewrite E by done. repeat case_decide; case_bool_decide; try done; lia.
Qed.

Lemma free_in_ok m a : freeing m → managed a → freeing (free_in m a).
Proof.
  intros [Hm Hr] Ha. pose proof (page_no_range a Ha). split.
  - apply set_bits_mem_spec; [done|lia].
  - intros x Hx. rewrite <-(Hr x Hx). unfold free_in. cbn [set_bits_mem].
    replace (page_no a <? bitcount bm) with true by lia. rewrite set_bit_mem_lookup.
    case_decide as E; [|done]. exfalso. unfold off_bitmap in Hx.
    assert (page_no a / 8 < (bitcount bm + 7) / 8); [|pose proof (Z.div_pos (page_no a) 8); lia].
    Z.to_euclidean_division_equations. lia.
Qed.

Lemma addr_free_page_ok m a :
  freeing m → managed a →
  addr_free_page a 1 (set_mem m s) = KRet tt (set_mem (free_in m a) s).
Proof.
  intros Hm Ha. pose proof (page_no_range a Ha) as Hp.
  destruct (al_mutex _ Hready) as (l & Hx & Hl). unfold addr_free_page.
  kstep (mutex_lock_idle paddr_mutex (set_mem m s) l Hx).
  set (s1 := mutex_at paddr_mutex _ (set_mem m s)).
  rewrite (kbind_ret paddr_get _ s1 (k_paddr s) s1) by done.
  assert (Ei : s32 (u32 (a - aa_start (k_paddr s)) / aa_page_size (k_paddr s)) = page_no a).
  { unfold managed in Ha. pose proof (al_fits _ Hready). pose proof (al_start _ Hready).
    rewrite (al_page _ Hready), u32_id by lia. apply s32_id.
    pose proof (bm_count _ _ (fr_bits _ Hm)). fold (page_no a). lia. }
  rewrite Ei. kstep (with_mem_ok _ s1 _ _ (bitmap_set_bit_ok m bm (page_no a) 1 0 (fr_bits _ Hm) (proj1 Hp))).
  rewrite (mutex_unlock_idle paddr_mutex _ l); [|apply lookup_insert_eq|done].
  unfold mutex_at. cbn [set_mutexes set_mem k_mutex s1 mutex_at]. f_equal.
  rewrite insert_insert_eq, insert_id by done. reflexivity.
Qed.
End freeing.

(** ** Walking the tables *)
Section walking.
Context `{HLayout : Layout, HLogger : Logger} (s : kstate).
Context (Hready : alloc_ready s).
Implicit Types (m : mem).

(** The pages the present entries of a table map, and the pages the user half of a
    directory consists of, in the order in which they are freed. *)
Fixpoint table_pages (tab : Z → Z) (n : nat) (i : Z) : list Z :=
  match n with
  | O => []
  | S n' => (if pte_present (pte_of (tab i)) =? 0 then [] else [pte_paddr (tab i)]) ++
            table_pages tab n' (i + 1)
  end.

Fixpoint dir_pages (dir : Z → Z) (tab : Z → Z → Z) (n : nat) (j : Z) : list Z :=
  match n with
  | O => []
  | S n' => (if pde_present (pde_of (dir j)) =? 0 then []
             else table_pages (tab j) (Z.to_nat PTE_CNT) 0 ++ [pde_paddr (dir j)]) ++
            dir_pages dir tab n' (j + 1)
  end.

(** The entries from [base] on, at the start and apart from the bitmap. *)
Definition entries_at (base : Z) (v : Z → Z) (i : Z) (n : nat) : Prop :=
  ∀ k, i ≤ k < i + Z.of_nat n → word_at (k_mem s) (base + 4 * k) (v k) ∧ word_off s (base + 4 * k).

Definition freed m (l : list Z) : mem := foldl (free_in s) m l.

Lemma freed_ok m l : freeing s m → Forall (managed s) l → freeing s (freed m l).
Proof.
  intros Hm Hl. revert m Hm. induction Hl as [|a l Ha _ IH]; intros m Hm; [done|].
  by apply IH, free_in_ok.
Qed.

Lemma entry_word m a v : freeing s m → word_at (k_mem s) a v → word_off s a → word_at m a v.
Proof.
  intros [_ Hr] Hw Ho. apply word_at_agree with (k_mem s); [done|]. intros x Hx. by apply Hr, Ho.
Qed.

Lemma load_entry m a v :
  freeing s m → word_at (k_mem s) a v → word_off s a →
  with_mem (load32 a) (set_mem m s) = KRet v (set_mem m s).
Proof.
  intros Hm Hw Ho. exact (with_mem_ok _ (set_mem m s) v m (word_load _ _ _ (entry_word m a v Hm Hw Ho))).
Qed.

Lemma free_ptes_ok tab n base : ∀ i m,
  freeing s m → entries_at base tab i n → Forall (managed s) (table_pages tab n i) →
  free_ptes n (base + 4 * i) (set_mem m s) = KRet tt (set_mem (freed m (table_pages tab n i)) s).
Proof.
  induction n as [|n IH]; intros i m Hm He Hl; cbn [free_ptes table_pages] in *; [done|].
  apply Forall_app in Hl as [Hl1 Hl2].
  destruct (He i ltac:(lia)) as [Hw Ho]. kstep (load_entry m _ _ Hm Hw Ho).
  unfold freed. rewrite foldl_app. fold (freed m).
  assert (E : (if pte_present (pte_of (tab i)) =? 0 then mret tt
               else addr_free_page (pte_paddr (tab i)) 1) (set_mem m s) =
    KRet tt (set_mem (freed m (if pte_present (pte_of (tab i)) =? 0 then [] else [pte_paddr (tab i)])) s)).
  { case_match; [done|]. apply Forall_cons in Hl1 as [Hl1 _]. by apply addr_free_page_ok. }
  kstep E. replace (base + 4 * i + 4) with (base + 4 * (i + 1)) by lia.
  apply IH; [by apply freed_ok| |done]. intros k Hk. apply He. lia.
Qed.

Lemma free_pdes_ok dir tab n base : ∀ j m,
  freeing s m → entries_at base dir j n →
  (∀ k, j ≤ k < j + Z.of_nat n → pde_present (pde_of (dir k)) ≠ 0 →
     entries_at (pde_paddr (dir k)) (tab k) 0 (Z.to_nat PTE_CNT)) →
  Forall (managed s) (dir_pages dir tab n j) →
  free_pdes n (base + 4 * j) (set_mem m s) = KRet tt (set_mem (freed m (dir_pages dir tab n j)) s).
Proof.
  induction n as [|n IH]; intros j m Hm He Ht Hl; cbn [free_pdes dir_pages] in *; [done|].
  apply Forall_app in Hl as [Hl1 Hl2].
  destruct (He j ltac:(lia)) as [Hw Ho]. kstep (load_entry m _ _ Hm Hw Ho).
  unfold freed. rewrite foldl_app. fold (freed m).
  set (l := if pde_present (pde_of (dir j)) =? 0 then [] else _) in *.
  assert (E : (if pde_present (pde_of (dir j)) =? 0 then mret tt
               else free_ptes (Z.to_nat PTE_CNT) (pde_paddr (dir j));;
                    addr_free_page (pde_paddr (dir j)) 1) (set_mem m s) =
    KRet tt (set_mem (freed m l) s)).
  { subst l. destruct (Z.eqb_spec (pde_present (pde_of (dir j))) 0) as [|Hp]; [done|].
    apply Forall_app in Hl1 as [Ht1 [Hd _]%Forall_cons].
    specialize (Ht j ltac:(lia) Hp).
    pose proof (free_ptes_ok (tab j) _ _ 0 m Hm Ht Ht1) as E. rewrite Z.add_0_r in E. kstep E.
    rewrite addr_free_page_ok by (by try apply freed_ok). unfold freed. by rewrite foldl_app. }
  kstep E. replace (base + 4 * j + 4) with (base + 4 * (j + 1)) by lia.
  apply IH; [by apply freed_ok| | |done].
  - intros k Hk. apply He. lia.
  - intros k Hk. apply Ht. lia.
Qed.

Lemma alloc_ready_mem m : bm_ok m (aa_bitmap (k_paddr s)) → alloc_ready (set_mem m s).
Proof. intros Hm. destruct Hready. by split. Qed.

(** What the freed bitmap says. *)
Lemma freed_bits l : ∀ m j,
  freeing s m → Forall (managed s) l →
  0 ≤ j < bitcount (aa_bitmap (k_paddr s)) →
  bm_bit (freed m l) (aa_bitmap (k_paddr s)) j =
    negb (bool_decide (j ∈ page_no s <$> l)) && bm_bit m (aa_bitmap (k_paddr s)) j.
Proof.
  induction l as [|a l IH]; intros m j Hm Hl Hj; cbn [freed foldl fmap list_fmap].
  { by rewrite bool_decide_false by apply not_elem_of_nil. }
  apply Forall_cons in Hl as [Ha Hl].
  change (foldl (free_in s) (free_in s m a) l) with (freed (free_in s m a) l).
  pose proof (free_in_ok s m a Hm Ha) as Hm'.
  rewrite IH, free_in_bits by (done || apply Hm).
  rewrite (bool_decide_ext (j ∈ page_no s a :: (page_no s <$> l))
    (j = page_no s a ∨ j ∈ page_no s <$> l)) by apply elem_of_cons.
  repeat case_bool_decide; try done; tauto.
Qed.
End walking.

(** ** The pages of an address space *)
Section address_space.
Context `{HLayout : Layout, HLogger : Logger, HImage : KernelImage, HWalk : PageWalk}.
Implicit Types (s : kstate).

(** Page [a] belongs to the user half of directory [pd]: it is the directory
    itself, a page table that is present there, or a page such a table maps. *)
Definition user_page (pd : Z) (dir : Z → Z) (tab : Z → Z → Z) (a : Z) : Prop :=
  a = pd ∨ ∃ j, 512 ≤ j < PDE_CNT ∧ pde_present (pde_of (dir j)) ≠ 0 ∧
    (a = pde_paddr (dir j) ∨
     ∃ i, 0 ≤ i < PTE_CNT ∧ pte_present (pte_of (tab j i)) ≠ 0 ∧ a = pte_paddr (tab j i)).

Lemma elem_of_table_pages tab n i a :
  a ∈ table_pages tab n i ↔
  ∃ k, i ≤ k < i + Z.of_nat n ∧ pte_present (pte_of (tab k)) ≠ 0 ∧ a = pte_paddr (tab k).
Proof.
  revert i. induction n as [|n IH]; intros i; cbn [table_pages].
  { rewrite elem_of_nil. split; [done|]. intros (k & ? & _). lia. }
  rewrite elem_of_app, IH. split.
  - intros [Ha|(k & ? & ? & ?)]; [|exists k; split; [lia|done]].
    destruct (Z.eqb_spec (pte_present (pte_of (tab i))) 0); [by apply not_elem_of_nil in Ha|].
    apply list_elem_of_singleton in Ha. exists i. split; [lia|done].
  - intros (k & Hk & Hp & ->). destruct (decide (k = i)) as [->|]; [left|right].
    + rewrite (proj2 (Z.eqb_neq _ _) Hp). by apply list_elem_of_singleton.
    + exists k. split; [lia|done].
Qed.

Lemma elem_of_dir_pages dir tab n j a :
  a ∈ dir_pages dir tab n j ↔
  ∃ k, j ≤ k < j + Z.of_nat n ∧ pde_present (pde_of (dir k)) ≠ 0 ∧
    (a = pde_paddr (dir k) ∨ a ∈ table_pages (tab k) (Z.to_nat PTE_CNT) 0).
Proof.
  revert j. induction n as [|n IH]; intros j; cbn [dir_pages].
  { rewrite elem_of_nil. split; [done|]. intros (k & ? & _). lia. }
  rewrite elem_of_app, IH. split.
  - intros [Ha|(k & ? & ? & ?)]; [|exists k; split; [lia|done]].
    destruct (Z.eqb_spec (pde_present (pde_of (dir j))) 0); [by apply not_elem_of_nil in Ha|].
    apply elem_of_app in Ha. rewrite list_elem_of_singleton in Ha. exists j. split; [lia|tauto].
  - intros (k & Hk & Hp & Ha). destruct (decide (k = j)) as [->|]; [left|right].
    + rewrite (proj2 (Z.eqb_neq _ _) Hp), elem_of_app, list_elem_of_singleton. tauto.
    + exists k. split; [lia|done].
Qed.

Lemma elem_of_user_pages pd dir tab a :
  a ∈ dir_pages dir tab 512 512 ++ [pd] ↔ user_page pd dir tab a.
Proof.
  rewrite elem_of_app, list_elem_of_singleton, elem_of_dir_pages. unfold user_page, PDE_CNT.
  setoid_rewrite elem_of_table_pages. change (Z.of_nat (Z.to_nat PTE_CNT)) with PTE_CNT.
  change (512 + Z.of_nat 512) with 1024. change (0 + PTE_CNT) with PTE_CNT. tauto.
Qed.

(** C35: [memory_destroy_uvm] gives back exactly the pages of the user half of an
    address space: the pages its present tables map, those tables, and the
    directory; the bit of each is clear afterwards, every other bit and all
    memory apart from the bitmap is unchanged, and the allocator is ready for the
    next call. *)
Theorem memory_destroy_uvm_frees s pd dir tab :
  alloc_ready s → pd ≠ 0 →
  (∀ a, user_page pd dir tab a → managed s a) →
  (∀ j, 512 ≤ j < PDE_CNT →
     word_at (k_mem s) (pd + 4 * j) (dir j) ∧ word_off s (pd + 4 * j)) →
  (∀ j i, 512 ≤ j < PDE_CNT → pde_present (pde_of (dir j)) ≠ 0 → 0 ≤ i < PTE_CNT →
     word_at (k_mem s) (pde_paddr (dir j) + 4 * i) (tab j i) ∧
     word_off s (pde_paddr (dir j) + 4 * i)) →
  ∃ m, memory_destroy_uvm pd s = KRet tt (set_mem m s) ∧ alloc_ready (set_mem m s) ∧
    (∀ a, user_page pd dir tab a → bm_bit m (aa_bitmap (k_paddr s)) (page_no s a) = false) ∧
    (∀ j, 0 ≤ j < bitcount (aa_bitmap (k_paddr s)) →
       (∀ a, user_page pd dir tab a → page_no s a ≠ j) →
       bm_bit m (aa_bitmap (k_paddr s)) j = bm_bit (k_mem s) (aa_bitmap (k_paddr s)) j) ∧
    (∀ x, off_bitmap s x → m !! x = k_mem s !! x).
Proof.
  intros Hs Hpd Hman Hdir Htab. set (l := dir_pages dir tab 512 512 ++ [pd]).
  assert (Hl : Forall (managed s) l).
  { apply Forall_forall. intros a Ha. by apply Hman, elem_of_user_pages. }
  assert (H0 : freeing s (k_mem s)) by (split; [apply (al_bits _ Hs)|done]).
  exists (freed s (k_mem s) l). pose proof (freed_ok s _ l H0 Hl) as [Hb Hr].
  split; [|split; [|split; [|split; [|exact Hr]]]].
  - unfold memory_destroy_uvm, ASSERT. rewrite (proj2 (Z.eqb_neq pd 0) Hpd). cbn [negb].
    rewrite (kbind_ret (mret tt) _ s tt s) by done.
    change (pde_index MEMORY_TASK_BASE) with 512. change (Z.to_nat (PDE_CNT - 512)) with 512%nat.
    apply Forall_app in Hl as [Hl [Hp _]%Forall_cons].
    pose proof (free_pdes_ok s Hs dir tab 512 pd 512 (k_mem s) H0) as E.
    replace (set_mem (k_mem s) s) with s in E by (by destruct s).
    kstep (E ltac:(intros k Hk; apply Hdir; unfold PDE_CNT; lia)
      ltac:(intros k Hk Hpr i Hi; apply Htab; unfold PDE_CNT in *; lia || done) Hl).
    rewrite addr_free_page_ok by (by try apply freed_ok). unfold l, freed. by rewrite foldl_app.
  - by apply alloc_ready_mem.
  - intros a Ha. rewrite freed_bits by (done || by apply page_no_range, Hman).
    rewrite bool_decide_true; [done|]. by apply list_elem_of_fmap_2, elem_of_user_pages.
  - intros j Hj Hn. rewrite freed_bits by done. rewrite bool_decide_false; [done|].
    intros (a & -> & Ha)%list_elem_of_fmap. by apply (Hn a); [apply elem_of_user_pages|].
Qed.
End address_space.

(** *** Witness: a directory with one table that maps one page *)
Section witnesses.
#[local] Existing Instances demo_layout quiet_logger quiet_logger_laws.

(** Pages 0, 1 and 2 of twelve are the directory, the table and the page. *)
Definition space_dir (j : Z) : Z := if j =? 512 then 1052679 else 0.
Definition space_tab (j i : Z) : Z := if i =? 0 then 1056775 else 0.
Definition space_mem : mem :=
  write_bytes (write_bytes (<[100 := 7]> (<[101 := 0]> (zero_mem 1048576 8192)))
    (1048576 + 4 * 512) (le32 1052679)) 1052672 (le32 1056775).
Definition space_state : kstate := set_mem space_mem pages_state.

Definition words_check (m : mem) (base : Z) (v : Z → Z) (i n : Z) : bool :=
  forallb (λ k, bool_decide (is_u32 (v k) ∧
    Forall2 (λ o b, m !! (base + 4 * k + o) = Some b) [0; 1; 2; 3] (le32 (v k)))) (seqZ i n).

Lemma words_check_ok m base v i n k :
  words_check m base v i n = true → i ≤ k < i + n → word_at m (base + 4 * k) (v k).
Proof.
  intros Hc Hk. unfold words_check in Hc. rewrite forallb_forall in Hc.
  specialize (Hc k ltac:(apply list_elem_of_In, elem_of_seqZ; lia)).
  apply bool_decide_eq_true_1 in Hc as [Hu Hf]. split; [done|].
  apply bytes_at_lookup. intros o b Ho. apply lookup_lt_Some in Ho as Hlt. cbn in Hlt.
  destruct (Forall2_lookup_r _ _ _ _ _ Hf Ho) as (o' & Ho' & <-).
  destruct o as [|[|[|[|o]]]]; cbn in Ho'; simplify_eq; done.
Qed.

Lemma two_bytes j : 0 ≤ j < 12 → j / 8 = 0 ∨ j / 8 = 1.
Proof. intros Hj. Z.to_euclidean_division_equations. lia. Qed.

Lemma two_bytes_ok m : m !! 100 = Some 7 → m !! 101 = Some 0 → bm_ok m demo_bitmap.
Proof.
  intros E0 E1. split; [done|intros j Hj|intros j b Hj]; cbn [bits demo_bitmap] in *.
  - destruct (two_bytes j Hj) as [-> | ->]; [by exists 7|by exists 0].
  - unfold is_u8. destruct (two_bytes j Hj) as [-> | ->].
    + change (100 + 0) with 100. rewrite E0. intros [= <-]. lia.
    + change (100 + 1) with 101. rewrite E1. intros [= <-]. lia.
Qed.

Lemma space_ready : alloc_ready space_state.
Proof.
  apply alloc_ready_mem; [exact pages_ready|].
  exact (two_bytes_ok space_mem ltac:(vm_compute; reflexivity) ltac:(vm_compute; reflexivity)).
Qed.

Lemma space_pages a :
  user_page 1048576 space_dir space_tab a → a = 1048576 ∨ a = 1052672 ∨ a = 1056768.
Proof.
  intros [->|(j & _ & Hp & Ha)]; [by left|]. unfold space_dir in *.
  destruct (j =? 512); [|done]. right. destruct Ha as [->|(i & _ & Hi & ->)]; [by left|].
  unfold space_tab in *. destruct (i =? 0); [by right|done].
Qed.

Lemma memory_destroy_uvm_frees_witness :
  ∃ m, memory_destroy_uvm 1048576 space_state = KRet tt (set_mem m space_state) ∧
    bm_bit m demo_bitmap 0 = false ∧ bm_bit m demo_bitmap 1 = false ∧ bm_bit m demo_bitmap 2 = false.
Proof.
  destruct (memory_destroy_uvm_frees space_state 1048576 space_dir space_tab space_ready)
    as (m & E & _ & Hf & _).
  - discriminate.
  - intros a Ha. destruct (space_pages a Ha) as [-> | [-> | ->]]; vm_compute; split;
      (discriminate || reflexivity).
  - intros j Hj. split.
    + apply (words_check_ok space_mem 1048576 space_dir 512 512); [vm_compute; reflexivity|].
      unfold PDE_CNT in Hj. lia.
    + intros x Hx. right. change (102 ≤ x). lia.
  - intros j i Hj Hp Hi. unfold space_dir in *. destruct (j =? 512); [|done].
    change (pde_paddr 1052679) with 1052672. split.
    + apply (words_check_ok space_mem 1052672 (space_tab j) 0 1024); [vm_compute; reflexivity|].
      unfold PTE_CNT in Hi. lia.
    + intros x Hx. right. change (102 ≤ x). lia.
  - exists m. split; [exact E|].
    assert (Hu : ∀ a, user_page 1048576 space_dir space_tab a →
      bm_bit m demo_bitmap (page_no space_state a) = false) by exact Hf.
    assert (H512 : 512 ≤ 512 < PDE_CNT) by (unfold PDE_CNT; lia).
    split; [|split].
    + apply (Hu 1048576). by left.
    + apply (Hu 1052672). right. exists 512. split; [exact H512|]. split; [discriminate|]. by left.
    + apply (Hu 1056768). right. exists 512. split; [exact H512|]. split; [discriminate|]. right.
      exists 0. split; [unfold PTE_CNT; lia|]. by split.
Defined.
End witnesses.
