(* ===== verification/KernelTables.v ===== *)
(** * The page tables of the kernel ([create_kernel_table])

    What mapping does to the entries of all pages, for any page walk that keeps the
    laws below, whatever tables it creates on its way: [memory_create_map] maps its
    pages or stops at the first one that is mapped already; the five ranges of
    [kernel_map] end up mapped as written when no two share a page, and the
    assertion fails when code and data share one. *)
From S2P Require Import Prelude Mem Klib DList CpuInstr Mmu Desc Kernel Queues ListRef Demo Sched Mutex Tasks Irq Bitmap BootInfo Memory.

(** ** Page walks

    [entry s n] is the word that maps page [n] of the kernel's directory, 0 where
    there is no table. [find_pte] returns the address of the entry of a page,
    creating its table when it is missing, which changes no entry; a store to that
    address changes this entry and no other. [tables_ok] says that the directory is
    one that the walk understands, with room for the tables it needs. *)
Class WalkLaws `{Layout, KernelImage, PageWalk} : Type := {
  tables_ok : kstate → Prop;
  entry : kstate → Z → Z;
  walk_ok : ∀ s v, tables_ok s → is_u32 v →
    ∃ p s', find_pte kernel_page_dir v 1 s = KRet p s' ∧ p ≠ 0 ∧
      word_at (k_mem s') p (entry s (v / MEM_PAGE_SIZE)) ∧ tables_ok s' ∧
      (∀ n, entry s' n = entry s n) ∧
      ∀ x, is_u32 x →
        let s2 := set_mem (write_bytes (k_mem s') p (le32 x)) s' in
        tables_ok s2 ∧
        ∀ n, entry s2 n = if decide (n = v / MEM_PAGE_SIZE) then x else entry s n
}.

Section entries.
Context `{WL : WalkLaws}.
Implicit Types (s : kstate) (n k i : Z).

Definition is_free s n : Prop := pte_present (pte_of (entry s n)) = 0.

(** The entry of the [i]-th page of a mapping to [p]. *)
Definition page_entry (p i perm : Z) : Z :=
  Z.lor (p + i * MEM_PAGE_SIZE) (Z.lor perm PTE_P).

(** ** One range *)

(** The entries after pages [k] to [k + c - 1] are mapped to [p] and above. *)
Definition mapped_as s s' k c p perm : Prop :=
  ∀ n, entry s' n = if decide (k ≤ n < k + c) then page_entry p (n - k) perm else entry s n.

Lemma page_div k : (k * MEM_PAGE_SIZE) / MEM_PAGE_SIZE = k.
Proof. by apply Z.div_mul. Qed.

(** One turn of the loop on a page that is free. *)
Lemma map_step s k p perm c :
  tables_ok s → is_free s k → 0 ≤ perm < 512 → 0 ≤ k < 2 ^ 20 →
  is_u32 p → p mod MEM_PAGE_SIZE = 0 →
  ∃ s', map_loop (S c) kernel_page_dir (k * MEM_PAGE_SIZE) p perm s =
      map_loop c kernel_page_dir (u32 ((k + 1) * MEM_PAGE_SIZE)) (u32 (p + MEM_PAGE_SIZE)) perm s' ∧
    tables_ok s' ∧ mapped_as s s' k 1 p perm.
Proof.
  unfold MEM_PAGE_SIZE. intros Ht Hfree Hperm Hk Hp Hal.
  destruct (walk_ok s (k * 4096) Ht) as (q & s1 & Hw & Hq & Hword & Ht1 & He1 & Hst);
    [unfold is_u32; lia|].
  change 4096 with MEM_PAGE_SIZE in Hword, Hst. rewrite page_div in Hword, Hst.
  destruct (entry_fields p perm Hp Hal Hperm) as [Hx _].
  set (x := Z.lor p (Z.lor perm PTE_P)) in *.
  destruct (Hst x Hx) as [Ht2 He2].
  exists (set_mem (write_bytes (k_mem s1) q (le32 x)) s1). split; [|split; [exact Ht2|]].
  - cbn [map_loop]. kstep Hw. rewrite (proj2 (Z.eqb_neq _ _) Hq).
    kstep (with_mem_ok (load32 q) s1 _ _ (word_load _ _ _ Hword)).
    replace (set_mem (k_mem s1) s1) with s1 by by destruct s1.
    rewrite (kbind_ret _ _ s1 tt s1) by (unfold ASSERT; unfold is_free in Hfree; by rewrite Hfree).
    fold x. kstep (with_mem_ok (store32 q x) s1 tt _ (store32_ok _ _ _ (word_mapped _ _ _ Hword))).
    by replace (k * 4096 + MEM_PAGE_SIZE) with ((k + 1) * 4096) by (unfold MEM_PAGE_SIZE; lia).
  - intros n. rewrite He2. unfold page_entry. destruct (decide (n = k)) as [->|Hne].
    + rewrite decide_True by lia. by rewrite Z.sub_diag, Z.mul_0_l, Z.add_0_r.
    + by rewrite decide_False by lia.
Qed.

Lemma mapped_as_next s s1 s2 k c p perm :
  0 ≤ c → mapped_as s s1 k 1 p perm → mapped_as s1 s2 (k + 1) c (p + MEM_PAGE_SIZE) perm →
  mapped_as s s2 k (c + 1) p perm.
Proof.
  intros Hc Ha Hb n. rewrite Hb, Ha. unfold page_entry.
  destruct (decide (n = k)) as [->|Hne].
  - rewrite decide_False, !decide_True by lia. done.
  - destruct (decide (k + 1 ≤ n < k + 1 + c)).
    + rewrite decide_True by lia. f_equal. lia.
    + by rewrite !decide_False by lia.
Qed.

(** The pages before the [c]-th are free: the loop maps them all and goes on. *)
Lemma map_free c d perm : ∀ s k p,
  tables_ok s → 0 ≤ perm < 512 → (∀ n, k ≤ n < k + Z.of_nat c → is_free s n) →
  0 ≤ k → k + Z.of_nat c + Z.of_nat d ≤ 2 ^ 20 →
  0 ≤ p → p + (Z.of_nat c + Z.of_nat d) * MEM_PAGE_SIZE ≤ 2 ^ 32 → p mod MEM_PAGE_SIZE = 0 →
  ∃ s', map_loop (c + d) kernel_page_dir (k * MEM_PAGE_SIZE) p perm s =
      map_loop d kernel_page_dir (u32 ((k + Z.of_nat c) * MEM_PAGE_SIZE))
        (u32 (p + Z.of_nat c * MEM_PAGE_SIZE)) perm s' ∧
    tables_ok s' ∧ mapped_as s s' k (Z.of_nat c) p perm.
Proof.
  unfold MEM_PAGE_SIZE. induction c as [|c IH]; intros s k p Ht Hperm Hf Hk Hkc Hp Hpc Hal.
  - exists s. split; [|split; [done|]].
    + rewrite Nat.add_0_l, Z.add_0_r, Z.mul_0_l, Z.add_0_r.
      destruct d; [done|]. by rewrite !u32_id by (unfold is_u32; lia).
    + intros n. by rewrite decide_False by lia.
  - destruct (map_step s k p perm (c + d)) as (s1 & E & Ht1 & Hm1); try done; try lia;
      [apply Hf; lia|unfold is_u32; lia|].
    unfold MEM_PAGE_SIZE in E. rewrite Nat.add_succ_l, E.
    destruct (decide (c + d = 0)%nat) as [E0|E0].
    { exists s1. replace d with 0%nat by lia. replace c with 0%nat by lia. done. }
    rewrite !u32_id by (unfold is_u32; lia).
    destruct (IH s1 (k + 1) (p + 4096)) as (s2 & E2 & Ht2 & Hm2); try done; try lia.
    { intros n Hn. unfold is_free. rewrite Hm1, decide_False by lia. apply Hf. lia. }
    { rewrite Z.add_mod, Hal by lia. done. }
    exists s2. split; [|split; [done|]].
    + rewrite E2. f_equal; f_equal; lia.
    + replace (Z.of_nat (S c)) with (Z.of_nat c + 1) by lia. eapply mapped_as_next; [lia|done..].
Qed.

(** [memory_create_map] on free pages, and with a page in use behind [c] free ones. *)
Lemma memory_create_map_free s k c p perm :
  tables_ok s → 0 ≤ perm < 512 → (∀ n, k ≤ n < k + Z.of_nat c → is_free s n) →
  0 ≤ k → k + Z.of_nat c ≤ 2 ^ 20 →
  0 ≤ p → p + Z.of_nat c * MEM_PAGE_SIZE ≤ 2 ^ 32 → p mod MEM_PAGE_SIZE = 0 →
  ∃ s', memory_create_map kernel_page_dir (k * MEM_PAGE_SIZE) p (Z.of_nat c) perm s = KRet 0 s' ∧
    tables_ok s' ∧ mapped_as s s' k (Z.of_nat c) p perm.
Proof.
  intros Ht Hperm Hf Hk Hkc Hp Hpc Hal. unfold memory_create_map. rewrite Nat2Z.id.
  destruct (map_free c 0 perm s k p) as (s' & E & Hr); try done; try lia.
  exists s'. rewrite Nat.add_0_r in E. by rewrite E.
Qed.

Lemma memory_create_map_taken s k d p perm :
  tables_ok s → ¬ is_free s k → 0 ≤ k < 2 ^ 20 →
  map_loop (S d) kernel_page_dir (k * MEM_PAGE_SIZE) p perm s = KErr (Panic "pte->present == 0").
Proof.
  intros Ht Hu Hk. cbn [map_loop].
  destruct (walk_ok s (k * MEM_PAGE_SIZE) Ht) as (q & s2 & Hw & Hq & Hword & _).
  { unfold is_u32, MEM_PAGE_SIZE. lia. }
  rewrite page_div in Hword. kstep Hw. rewrite (proj2 (Z.eqb_neq _ _) Hq).
  kstep (with_mem_ok (load32 q) s2 _ _ (word_load _ _ _ Hword)).
  apply kbind_err. unfold ASSERT. unfold is_free in Hu. by rewrite (proj2 (Z.eqb_neq _ _) Hu).
Qed.

Lemma memory_create_map_used s k c d p perm :
  tables_ok s → 0 ≤ perm < 512 → (∀ n, k ≤ n < k + Z.of_nat c → is_free s n) →
  ¬ is_free s (k + Z.of_nat c) →
  0 ≤ k → k + Z.of_nat c + Z.of_nat (S d) ≤ 2 ^ 20 →
  0 ≤ p → p + (Z.of_nat c + Z.of_nat (S d)) * MEM_PAGE_SIZE ≤ 2 ^ 32 → p mod MEM_PAGE_SIZE = 0 →
  memory_create_map kernel_page_dir (k * MEM_PAGE_SIZE) p (Z.of_nat (c + S d)) perm s =
    KErr (Panic "pte->present == 0").
Proof.
  intros Ht Hperm Hf Hu Hk Hkc Hp Hpc Hal. unfold memory_create_map. rewrite Nat2Z.id.
  destruct (map_free c (S d) perm s k p) as (s1 & E & Ht1 & Hm); try done.
  rewrite E, u32_id by (unfold is_u32, MEM_PAGE_SIZE in *; lia).
  apply memory_create_map_taken; [done| |lia]. unfold is_free.
  by rewrite Hm, decide_False by lia.
Qed.

(** ** The ranges of a map *)
Definition first_page (mp : memory_map_t) : Z := map_vstart mp / MEM_PAGE_SIZE.
Definition end_page (mp : memory_map_t) : Z := (map_vend mp + (MEM_PAGE_SIZE - 1)) / MEM_PAGE_SIZE.
Definition covers (mp : memory_map_t) n : Prop := first_page mp ≤ n < end_page mp.

Lemma page_bounds mp :
  first_page mp * MEM_PAGE_SIZE ≤ map_vstart mp < (first_page mp + 1) * MEM_PAGE_SIZE ∧
  map_vend mp ≤ end_page mp * MEM_PAGE_SIZE < map_vend mp + MEM_PAGE_SIZE.
Proof.
  unfold first_page, end_page, MEM_PAGE_SIZE. Z.to_euclidean_division_equations. lia.
Qed.

Lemma page_aligned a : a mod MEM_PAGE_SIZE = 0 → a = a / MEM_PAGE_SIZE * MEM_PAGE_SIZE.
Proof. unfold MEM_PAGE_SIZE. intros. Z.to_euclidean_division_equations. lia. Qed.

(** Its bounds are addresses below 2 GB in order; the physical pages exist. *)
Record map_wf (mp : memory_map_t) : Prop := {
  mw_bounds : 0 ≤ map_vstart mp ≤ map_vend mp ∧ map_vend mp < 2 ^ 31 - MEM_PAGE_SIZE;
  mw_start : map_pstart mp mod MEM_PAGE_SIZE = 0 ∧ 0 ≤ map_pstart mp;
  mw_room : map_pstart mp + (end_page mp - first_page mp) * MEM_PAGE_SIZE ≤ 2 ^ 32;
  mw_perm : 0 ≤ map_perm mp < 512
}.

(** The call for one range, with the rounding of the bounds evaluated. *)
Lemma map_range mp maps s :
  0 ≤ map_vstart mp ≤ map_vend mp → map_vend mp < 2 ^ 31 - MEM_PAGE_SIZE →
  map_all (mp :: maps) s =
    (memory_create_map kernel_page_dir (first_page mp * MEM_PAGE_SIZE) (map_pstart mp)
       (Z.of_nat (Z.to_nat (end_page mp - first_page mp))) (map_perm mp);; map_all maps) s ∧
  0 ≤ first_page mp ≤ end_page mp ∧ end_page mp ≤ 2 ^ 19.
Proof.
  intros Hv Hv2. unfold MEM_PAGE_SIZE, first_page, end_page in *. cbn [map_all].
  destruct (down2_up2_align (map_vstart mp) 12) as (Hd & _); [unfold is_u32; lia|lia|].
  destruct (down2_up2_align (map_vend mp) 12) as (_ & Hu & _); [unfold is_u32; lia|lia|].
  change (2 ^ 12) with 4096 in *. specialize (Hu ltac:(lia)).
  change MEM_PAGE_SIZE with 4096. change (4096 - 1) with 4095.
  set (v := map_vstart mp) in *. set (w := map_vend mp) in *.
  assert (Ev : down2 v 4096 = v / 4096 * 4096).
  { rewrite Hd. pose proof (Z.div_mod v 4096). lia. }
  assert (Ew : up2 w 4096 = (w + 4095) / 4096 * 4096).
  { clear Hd Ev. revert Hu. generalize (up2 w 4096). intros u Hu.
    Z.to_euclidean_division_equations. lia. }
  assert (Hle : 0 ≤ v / 4096 ≤ (w + 4095) / 4096 ∧ (w + 4095) / 4096 ≤ 2 ^ 19).
  { clear Hd Hu Ev Ew. Z.to_euclidean_division_equations. lia. }
  split; [|exact Hle]. rewrite Ev, Ew.
  set (k := v / 4096) in *. set (l := (w + 4095) / 4096) in *.
  rewrite !(s32_id (_ * 4096)) by (unfold is_s32; lia).
  rewrite s32_id, u32_id by (unfold is_s32, is_u32; lia).
  replace (l * 4096 - k * 4096) with ((l - k) * 4096) by lia.
  rewrite Z.quot_mul, Z2Nat.id by lia. done.
Qed.

(** No two ranges share a page. *)
Fixpoint apart (maps : list memory_map_t) : Prop :=
  match maps with
  | [] => True
  | mp :: maps' => (∀ mq n, mq ∈ maps' → covers mp n → ¬ covers mq n) ∧ apart maps'
  end.

(** The entries the ranges ask for. *)
Record maps_done s s' (maps : list memory_map_t) : Prop := {
  md_in mp n : mp ∈ maps → covers mp n →
    entry s' n = page_entry (map_pstart mp) (n - first_page mp) (map_perm mp);
  md_out n : (∀ mp, mp ∈ maps → ¬ covers mp n) → entry s' n = entry s n
}.

Lemma map_all_ok maps : ∀ s,
  tables_ok s → Forall map_wf maps → apart maps →
  (∀ mp n, mp ∈ maps → covers mp n → is_free s n) →
  ∃ s', map_all maps s = KRet tt s' ∧ tables_ok s' ∧ maps_done s s' maps.
Proof.
  induction maps as [|mp maps IH]; intros s Ht Hwf Hap Hfree.
  { exists s. split; [done|]. split; [done|]. split; [|done].
    intros mp n Hin. by apply not_elem_of_nil in Hin. }
  apply Forall_cons in Hwf as [Hmp Hwf]. destruct Hap as [Hd Hap].
  destruct Hmp as [[Hv Hv2] [Hal Hp0] Hroom Hperm].
  destruct (map_range mp maps s Hv Hv2) as (-> & Hp & Hl).
  set (c := Z.to_nat (end_page mp - first_page mp)).
  assert (Ec : Z.of_nat c = end_page mp - first_page mp) by lia.
  destruct (memory_create_map_free s (first_page mp) c (map_pstart mp) (map_perm mp))
    as (s1 & H1' & Ht1 & Hm1); try done; try lia.
  { intros n Hn. apply (Hfree mp n); [left|unfold covers; lia]. }
  unfold mapped_as in Hm1. rewrite Ec in Hm1. fold c. rewrite Ec in *. kstep H1'.
  destruct (IH s1) as (s2 & H2' & Ht2 & [Hin Hout]); [done|done|done| |].
  { intros mq n Hq Hn. unfold is_free. rewrite Hm1, decide_False; [by apply (Hfree mq n); [right|]|].
    intros Hc. apply (Hd mq n Hq); [unfold covers; lia|done]. }
  exists s2. split; [done|]. split; [done|]. split.
  - intros mq n [->|Hq]%elem_of_cons Hn; [|by apply Hin]. rewrite Hout.
    + rewrite Hm1, decide_True; [done|]. unfold covers in Hn. lia.
    + intros mq Hq. by apply (Hd mq n).
  - intros n Hn. rewrite Hout, Hm1, decide_False; [done| |].
    + intros Hc. apply (Hn mp); [left|unfold covers; lia].
    + intros mq Hq. apply Hn. by right.
Qed.

Lemma map_all_app l1 l2 s s' :
  map_all l1 s = KRet tt s' → map_all (l1 ++ l2) s = map_all l2 s'.
Proof.
  revert s. induction l1 as [|mp l1 IH]; intros s; cbn [map_all app]; [by intros [= <-]|].
  match goal with |- (?m ≫= _) _ = _ → _ => set (f := m) end.
  unfold mbind, K_bind. destruct (f s) as [x s1|e|sel s1 k]; [apply IH|done|done].
Qed.
End entries.

(** ** Properties *)
Section properties.
Context `{WL : WalkLaws}.
Implicit Types (s : kstate) (n : Z).

(** The image the linker script describes: data directly behind the code, which
    starts on a page; everything below the extended BIOS data area, the console
    between that and 1 MB. *)
Record image_ok : Prop := {
  im_base : 0 ≤ kernel_base ≤ s_text;
  im_text : s_text mod MEM_PAGE_SIZE = 0 ∧ s_text ≤ e_text;
  im_data : s_data = e_text ∧ s_data < MEM_EBDA_START;
  im_console : MEM_EBDA_START ≤ CONSOLE_DISP_ADDR < CONSOLE_DISP_END ∧ CONSOLE_DISP_END ≤ MEM_EXT_START;
  im_video : CONSOLE_VIDEO_BASE mod MEM_PAGE_SIZE = 0 ∧ 0 ≤ CONSOLE_VIDEO_BASE < 2 ^ 31
}.

(** The directory can be cleared, and maps nothing when it is. *)
Record clears s : Prop := {
  cl_dir : kernel_page_dir ≠ 0 ∧ mapped (k_mem s) kernel_page_dir (PDE_CNT * 4);
  cl_ok : tables_ok (set_mem (write_bytes (k_mem s) kernel_page_dir (replicate (Z.to_nat (PDE_CNT * 4)) 0)) s);
  cl_none n : entry (set_mem (write_bytes (k_mem s) kernel_page_dir (replicate (Z.to_nat (PDE_CNT * 4)) 0)) s) n = 0
}.

Lemma create_kernel_table_cleared s :
  clears s → ∃ s0, create_kernel_table s = map_all kernel_map s0 ∧ tables_ok s0 ∧
    ∀ n, entry s0 n = 0.
Proof.
  intros [[Hd Hm] Ht Hn]. eexists. split; [|by split]. unfold create_kernel_table.
  kstep (with_mem_ok _ s _ _ (kernel_memset_ok kernel_page_dir 0 (PDE_CNT * 4) (k_mem s) Hd Hm
    ltac:(unfold PDE_CNT; lia))). done.
Qed.

Section ranges.
Context (Him : image_ok).

#[local] Ltac range_wf mp :=
  pose proof (page_bounds mp); unfold MEM_PAGE_SIZE, MEM_EBDA_START, MEM_EXT_START, MEM_EXT_END in *;
  cbn [map_vstart map_vend map_pstart map_perm] in *;
  split; cbn [map_vstart map_vend map_pstart map_perm]; unfold MEM_PAGE_SIZE;
    [lia|by split; (done || lia)|lia|by split].

#[local] Ltac wf_all :=
  lazymatch goal with
  | |- Forall _ [] => by apply Forall_nil
  | |- Forall _ (?mp :: _) => apply Forall_cons; split; [range_wf mp|wf_all]
  end.

(** Two ranges one after the other. *)
Lemma ranges_apart mp mq n :
  end_page mp ≤ first_page mq ∨ end_page mq ≤ first_page mp → covers mp n → ¬ covers mq n.
Proof. unfold covers. lia. Qed.

#[local] Ltac range_apart :=
  lazymatch goal with
  | |- covers ?mp _ → ¬ covers ?mq _ =>
      apply ranges_apart; pose proof (page_bounds mp); pose proof (page_bounds mq);
      unfold MEM_PAGE_SIZE, MEM_EBDA_START, MEM_EXT_START, MEM_EXT_END in *;
      cbn [map_vstart map_vend map_pstart map_perm] in *; lia
  end.

Lemma code_maps_wf :
  Forall map_wf [MemoryMap kernel_base s_text 0 PTE_W; MemoryMap s_text e_text s_text 0] ∧
  apart [MemoryMap kernel_base s_text 0 PTE_W; MemoryMap s_text e_text s_text 0].
Proof.
  destruct Him as [Hb [Ht Hte] [He Hs] _ _]. unfold MEM_EBDA_START in *. split.
  - wf_all.
  - cbn. split; [|split; [|done]]; intros mq n Hq; [|by apply not_elem_of_nil in Hq].
    apply list_elem_of_singleton in Hq as ->. apply page_aligned in Ht. range_apart.
Qed.

Lemma kernel_map_wf : s_data mod MEM_PAGE_SIZE = 0 → Forall map_wf kernel_map ∧ apart kernel_map.
Proof.
  intros Hsd. destruct Him as [Hb [Ht Hte] [He Hs] [Hc Hce] [Hva Hv]]. unfold MEM_EBDA_START in *. split.
  - unfold kernel_map. wf_all.
  - apply page_aligned in Ht, Hsd. cbn [apart kernel_map].
    split_and!; try done; intros mq n Hq; rewrite ?elem_of_cons in Hq;
      repeat (destruct Hq as [->|Hq]; [range_apart|]); by apply not_elem_of_nil in Hq.
Qed.
End ranges.

Lemma kernel_table_ok s :
  image_ok → s_data mod MEM_PAGE_SIZE = 0 → clears s →
  ∃ s', create_kernel_table s = KRet tt s' ∧
    (∀ mp n, mp ∈ kernel_map → covers mp n →
       entry s' n = page_entry (map_pstart mp) (n - first_page mp) (map_perm mp)) ∧
    (∀ n, (∀ mp, mp ∈ kernel_map → ¬ covers mp n) → entry s' n = 0).
Proof.
  intros Him Hsd Hc. destruct (create_kernel_table_cleared s Hc) as (s0 & -> & Ht & Hz).
  destruct (kernel_map_wf Him Hsd) as [Hwf Hap].
  destruct (map_all_ok kernel_map s0 Ht Hwf Hap) as (s' & E & _ & [Hin Hout]).
  { intros mp n _ _. unfold is_free. by rewrite Hz. }
  exists s'. split; [exact E|]. split; [exact Hin|]. intros n Hn. by rewrite Hout.
Qed.

Lemma kernel_table_clash s :
  image_ok → s_data mod MEM_PAGE_SIZE ≠ 0 → clears s →
  create_kernel_table s = KErr (Panic "pte->present == 0").
Proof.
  intros Him Hsd Hc. destruct (create_kernel_table_cleared s Hc) as (s0 & -> & Ht & Hz).
  destruct (code_maps_wf Him) as [Hwf Hap]. destruct Him as [Hb [Hta Hte] [He Hs] _ _].
  destruct (map_all_ok _ s0 Ht Hwf Hap) as (s1 & E & Ht1 & [Hin _]).
  { intros mp n _ _. unfold is_free. by rewrite Hz. }
  change kernel_map with ([MemoryMap kernel_base s_text 0 PTE_W; MemoryMap s_text e_text s_text 0] ++
    skipn 2 kernel_map). rewrite (map_all_app _ _ _ _ E). cbn [skipn kernel_map].
  set (data := MemoryMap s_data (MEM_EBDA_START - 1) s_data PTE_W).
  set (code := MemoryMap s_text e_text s_text 0) in *.
  assert (Hcode : covers code (first_page data)).
  { unfold covers, first_page, end_page, MEM_PAGE_SIZE, code, data in *. cbn [map_vstart map_vend].
    rewrite He in *. clear -Hta Hte Hsd. Z.to_euclidean_division_equations. lia. }
  assert (Hused : ¬ is_free s1 (first_page data)).
  { unfold is_free. rewrite (Hin code); [|by right; left|done].
    pose proof (page_bounds code) as Hcb. unfold covers in Hcode. unfold page_entry.
    destruct (entry_fields (map_pstart code + (first_page data - first_page code) * MEM_PAGE_SIZE)
      (map_perm code)) as (_ & _ & -> & _); [| |by cbn|done];
      unfold is_u32, MEM_PAGE_SIZE, MEM_EBDA_START, code in *; cbn [map_vstart map_vend map_pstart] in *;
      [lia|by rewrite Z.mod_add]. }
  destruct (map_range data (skipn 3 kernel_map) s1) as (E1 & Hp & Hl);
    [cbn [data map_vstart map_vend]; unfold MEM_PAGE_SIZE, MEM_EBDA_START in *; lia..|].
  change (map_all (data :: skipn 3 kernel_map) s1 = KErr (Panic "pte->present == 0")).
  rewrite E1. apply kbind_err. unfold memory_create_map. rewrite Nat2Z.id.
  assert (Hlt : first_page data < end_page data).
  { pose proof (page_bounds data) as [Hd _]. assert (end_page data = 128) as -> by reflexivity.
    cbn [data map_vstart] in Hd. unfold MEM_PAGE_SIZE, MEM_EBDA_START in *. lia. }
  replace (Z.to_nat (end_page data - first_page data)) with
    (S (Z.to_nat (end_page data - first_page data - 1))) by lia.
  apply memory_create_map_taken; [done|done|lia].
Qed.
(** C33: [create_kernel_table] maps the kernel: when the data of the image starts on
    a page of its own, every page of the five ranges of [kernel_map] is present, at
    the physical page and with the permissions the map gives, and no other page of
    the directory is mapped. *)
Theorem create_kernel_table_maps s :
  image_ok → s_data mod MEM_PAGE_SIZE = 0 → clears s →
  ∃ s', create_kernel_table s = KRet tt s' ∧
    (∀ mp n, mp ∈ kernel_map → covers mp n →
       pte_present (pte_of (entry s' n)) = 1 ∧
       pte_paddr (entry s' n) = map_pstart mp + (n - first_page mp) * MEM_PAGE_SIZE ∧
       get_pte_perm (entry s' n) = Z.lor (map_perm mp) PTE_P) ∧
    (∀ n, (∀ mp, mp ∈ kernel_map → ¬ covers mp n) → entry s' n = 0).
Proof.
  intros Him Hsd Hc. destruct (kernel_table_ok s Him Hsd Hc) as (s' & E & Hin & Hout).
  destruct (kernel_map_wf Him Hsd) as [Hwf _].
  exists s'. split; [exact E|]. split; [|exact Hout].
  intros mp n Hmp Hn. rewrite (Hin mp n Hmp Hn). rewrite Forall_forall in Hwf.
  destruct (Hwf mp Hmp) as [_ [Hal Hp] Hroom Hperm].
  assert (Hk : 0 ≤ n - first_page mp < end_page mp - first_page mp) by (unfold covers in Hn; lia).
  unfold page_entry, MEM_PAGE_SIZE in *.
  destruct (entry_fields (map_pstart mp + (n - first_page mp) * 4096) (map_perm mp))
    as (_ & Hpa & Hpr & Hpe); [unfold is_u32; lia|by rewrite Z.mod_add|done|done].
Qed.

(** C34: with the linker script of the repository, where the data follows the code
    without alignment, [create_kernel_table] fails as soon as the code does not end
    on a page boundary: the page that code and data share is mapped twice, and the
    assertion of [memory_create_map] stops the kernel. *)
Theorem create_kernel_table_clash s :
  image_ok → s_data mod MEM_PAGE_SIZE ≠ 0 → clears s →
  create_kernel_table s = KErr (Panic "pte->present == 0").
Proof. apply kernel_table_clash. Qed.
End properties.

(** *** Witnesses: one flat table for the whole address space

    [tables] stands for [creat_kernel_tables]. *)
Section flat.
Context `{Layout, KernelImage} (flat : Z) (Hflat : 0 < flat) (tables : K unit).

#[local] Instance flat_walk : PageWalk := {|
  find_pte := λ _ v _, mret (flat + 4 * (v / MEM_PAGE_SIZE)); creat_kernel_tables := tables
|}.

Definition flat_ok (s : kstate) : Prop :=
  ∀ n, 0 ≤ n < 2 ^ 20 → ∃ w, word_at (k_mem s) (flat + 4 * n) w.

Definition flat_entry (s : kstate) (n : Z) : Z :=
  if decide (0 ≤ n < 2 ^ 20) then
    match load32 (flat + 4 * n) (k_mem s) with Ok (w, _) => w | _ => 0 end
  else 0.

Lemma flat_entry_word s n w :
  0 ≤ n < 2 ^ 20 → word_at (k_mem s) (flat + 4 * n) w → flat_entry s n = w.
Proof. intros Hn Hw. unfold flat_entry. by rewrite decide_True, (word_load _ _ _ Hw). Qed.

Lemma flat_entry_out s n : ¬ (0 ≤ n < 2 ^ 20) → flat_entry s n = 0.
Proof. intros Hn. unfold flat_entry. by rewrite decide_False. Qed.

Lemma flat_store s k x :
  flat_ok s → 0 ≤ k < 2 ^ 20 → is_u32 x →
  let s2 := set_mem (write_bytes (k_mem s) (flat + 4 * k) (le32 x)) s in
  flat_ok s2 ∧ ∀ n, flat_entry s2 n = if decide (n = k) then x else flat_entry s n.
Proof.
  intros Hs Hk Hx s2.
  assert (Hw : ∀ n w, n ≠ k → word_at (k_mem s) (flat + 4 * n) w →
    word_at (k_mem s2) (flat + 4 * n) w) by (intros n w Hn Hw; apply word_write_other; [done|lia]).
  split.
  - intros n Hn. destruct (decide (n = k)) as [->|Hne]; [exists x; by apply word_write_same|].
    destruct (Hs n Hn) as [w Hnw]. exists w. by apply Hw.
  - intros n. destruct (decide (n = k)) as [->|Hne].
    + apply flat_entry_word; [done|]. by apply word_write_same.
    + destruct (decide (0 ≤ n < 2 ^ 20)) as [Hn|Hn].
      * destruct (Hs n Hn) as [w Hnw]. by rewrite !(flat_entry_word _ n w) by auto.
      * by rewrite !flat_entry_out.
Qed.

#[local] Instance flat_laws : WalkLaws.
Proof.
  refine {| tables_ok := flat_ok; entry := flat_entry |}. intros s v Hs Hv.
  assert (Hk : 0 ≤ v / MEM_PAGE_SIZE < 2 ^ 20).
  { unfold is_u32, MEM_PAGE_SIZE in *. Z.to_euclidean_division_equations. lia. }
  destruct (Hs _ Hk) as [w Hw]. exists (flat + 4 * (v / MEM_PAGE_SIZE)), s. split; [done|].
  split; [lia|]. rewrite (flat_entry_word _ _ _ Hk Hw). split; [done|]. split; [done|].
  split; [done|]. intros x Hx. by apply flat_store.
Defined.

(** A memory with the directory and the flat table, which is zero. *)
Lemma flat_clears s :
  (∀ n, 0 ≤ n < 2 ^ 20 → word_at (k_mem s) (flat + 4 * n) 0) →
  0 < kernel_page_dir → mapped (k_mem s) kernel_page_dir (PDE_CNT * 4) →
  kernel_page_dir + PDE_CNT * 4 ≤ flat → clears s.
Proof.
  unfold PDE_CNT. intros Es Hd Hm Hdis.
  assert (Hz : ∀ n, 0 ≤ n < 2 ^ 20 → word_at (k_mem (set_mem (write_bytes (k_mem s)
    kernel_page_dir (replicate (Z.to_nat (PDE_CNT * 4)) 0)) s)) (flat + 4 * n) 0).
  { intros n Hn. cbn [k_mem set_mem]. apply word_outside.
    - by apply Es.
    - rewrite length_replicate. unfold PDE_CNT. lia. }
  split.
  - split; [lia|done].
  - intros n Hn. exists 0. by apply Hz.
  - intros n. cbn [entry flat_laws]. destruct (decide (0 ≤ n < 2 ^ 20)) as [Hn|Hn].
    + apply flat_entry_word; [done|by apply Hz].
    + by apply flat_entry_out.
Qed.
End flat.

Section witnesses.
#[local] Existing Instance demo_layout.

Definition flat_base : Z := 2097152.
Lemma flat_base_pos : 0 < flat_base.
Proof. done. Qed.

Definition flat_mem : mem :=
  write_bytes (zero_mem kernel_page_dir (PDE_CNT * 4)) flat_base (replicate (Z.to_nat (2 ^ 22)) 0).

Definition flat_state : kstate := set_mem flat_mem demo_state.

Lemma flat_state_mem : k_mem flat_state =
  write_bytes (zero_mem kernel_page_dir (PDE_CNT * 4)) flat_base (replicate (Z.to_nat (2 ^ 22)) 0).
Proof. reflexivity. Qed.

#[local] Opaque flat_state.

(** The image of [Memory] with [n] bytes of code more. *)
Definition image_with (n : Z) : KernelImage := {|
  kernel_base := 0; s_text := 65536; e_text := 131072 + n; s_data := 131072 + n;
  mem_free_start := 196608; CONSOLE_DISP_ADDR := 753664; CONSOLE_DISP_END := 786432;
  CONSOLE_VIDEO_BASE := 753664
|}.

Lemma image_with_ok n : 0 ≤ n < 4096 → image_ok (H0 := image_with n).
Proof. intros Hn. split; cbn; unfold MEM_EBDA_START, MEM_EXT_START, MEM_PAGE_SIZE; split_and?; (lia || done). Qed.

Lemma dir_pos : 0 < kernel_page_dir.
Proof. done. Qed.

Lemma dir_below : kernel_page_dir + PDE_CNT * 4 ≤ flat_base.
Proof. done. Qed.

Lemma flat_state_clears n :
  clears (H0 := image_with n) (WL := flat_laws (H0 := image_with n) flat_base flat_base_pos (mret tt)) flat_state.
Proof.
  apply (flat_clears (H0 := image_with n) flat_base flat_base_pos (mret tt) flat_state).
  - intros k Hk. rewrite flat_state_mem. apply zero_word; lia.
  - exact dir_pos.
  - rewrite flat_state_mem. apply write_bytes_mapped, zero_mem_mapped.
  - exact dir_below.
Qed.

Lemma create_kernel_table_maps_witness :
  ∃ s', create_kernel_table (H1 := image_with 0) (H2 := flat_walk flat_base (mret tt)) flat_state = KRet tt s' ∧
    pte_paddr (flat_entry flat_base s' 17) = 69632.
Proof.
  destruct (create_kernel_table_maps (H0 := image_with 0)
    (WL := flat_laws (H0 := image_with 0) flat_base flat_base_pos (mret tt)) flat_state)
    as (s' & E & Hin & _).
  - apply image_with_ok. lia.
  - reflexivity.
  - exact (flat_state_clears 0).
  - exists s'. split; [exact E|].
    destruct (Hin (MemoryMap 65536 131072 65536 0) 17) as (_ & Hp & _); [right; left|by split|exact Hp].
Defined.

Lemma create_kernel_table_clash_witness :
  create_kernel_table (H1 := image_with 100) (H2 := flat_walk flat_base (mret tt)) flat_state =
    KErr (Panic "pte->present == 0").
Proof.
  apply (create_kernel_table_clash (H0 := image_with 100)
    (WL := flat_laws (H0 := image_with 100) flat_base flat_base_pos (mret tt)) flat_state).
  - apply image_with_ok. lia.
  - discriminate.
  - exact (flat_state_clears 100).
Defined.
End witnesses.
