(* ===== verification/Init.v ===== *)
(** * Kernel start-up (kernel/init/init.c, kernel/init/first_task.c)

    The initialisations of [kernel_init] in their order, [init_main] as far as it
    compiles, and the loops of the two tasks. [creat_kernel_tables], which
    [memory_init] calls and no file defines, is a parameter: the theorems say what
    state it is called in and what follows whatever memory it leaves. *)
From S2P Require Import Prelude Mem Klib DList CpuInstr Mmu Desc BootInfo Loader16 Kernel Queues ListRef Demo Sched Mutex Sem Log Tasks Irq Machine Safety System Fairness Progress Bitmap Memory KernelTables.

Definition OS_VERSION : string := "1.0.0".

(** ** Operations *)
Section operations.
Context `{Layout, Logger, Device, Entry, KernelImage, PageWalk}.

Definition kernel_init (boot_info : boot_info_t) (idle_entry idle_stack_end : Z) : K unit :=
  cpu_init;;
  memory_init boot_info;;
  log_init;;
  irq_init;;
  time_init;;
  task_manager_init idle_entry idle_stack_end.

(** Without its last call: [move_to_first_task] does not compile. *)
Definition init_main : K unit :=
  log_printf "kernel is running..." [];;
  log_printf "version %s %s" [AStr (bytes_of_string OS_VERSION); AStr (bytes_of_string "shabi")];;
  log_printf "%d %d %x %c" [AInt (-123456); AInt 123456; AInt 74565; AInt 99];;
  task_first_init.

(** The endless loops of the two tasks, as their first [n] rounds. *)
Fixpoint init_task_rounds (n : nat) (count : Z) : K unit :=
  match n with
  | O => mret tt
  | S n' => log_printf "init task:%d" [AInt count];; init_task_rounds n' (s32 (count + 1))
  end.

Definition init_task_entry (n : nat) : K unit := init_task_rounds n 0.

Fixpoint first_task_main (n : nat) : K unit :=
  match n with
  | O => mret tt
  | S n' =>
      log_printf "Hello, world!
" [];;
      sys_sleep 1000;;
      first_task_main n'
  end.
End operations.

(** ** What the loader's memory map means to the kernel *)
Definition regions (b : boot_info_t) : list (Z * Z) :=
  take (Z.to_nat (ram_region_count b)) (ram_region_cfg b).

Definition region_sum (l : list (Z * Z)) : Z := foldr (λ r acc, r.2 + acc) 0 l.

(** The pages above 1 MB, and the bytes of the bitmap for them. *)
Definition free_pages (b : boot_info_t) : Z :=
  (u32 (region_sum (regions b)) - MEM_EXT_START) / MEM_PAGE_SIZE.
Definition bitmap_bytes (b : boot_info_t) : Z := (free_pages b + 7) / 8.

Section memory_map.
Context `{LoggerLaws}.
Implicit Types (s : kstate).

Lemma u32_s32_add x y : u32 (s32 x + y) = u32 (x + y).
Proof. unfold u32, s32. Z.to_euclidean_division_equations. lia. Qed.

Lemma region_at_ok b i r s :
  0 ≤ i → ram_region_cfg b !! Z.to_nat i = Some r → region_at b i s = KRet r s.
Proof. intros Hi E. unfold region_at. replace (0 <=? i) with true by lia. by rewrite E. Qed.

Lemma total_loop_ok n b i acc s :
  0 ≤ i → i + Z.of_nat n ≤ Z.of_nat (length (ram_region_cfg b)) →
  total_loop n b i acc s =
    KRet (u32 (acc + region_sum (take n (drop (Z.to_nat i) (ram_region_cfg b))))) s.
Proof.
  revert i acc. induction n as [|n IH]; intros i acc Hi Hn; cbn [total_loop].
  { by rewrite take_0, Z.add_0_r. }
  destruct (lookup_lt_is_Some_2 (ram_region_cfg b) (Z.to_nat i)) as [r Hr]; [lia|].
  kstep (region_at_ok b i r s Hi Hr). rewrite IH by lia.
  rewrite (drop_S _ _ _ Hr). cbn [take region_sum foldr]. fold (region_sum (take n (drop (S (Z.to_nat i)) (ram_region_cfg b)))).
  replace (Z.to_nat (i + 1)) with (S (Z.to_nat i)) by lia. rewrite u32_s32_add. do 2 f_equal. lia.
Qed.

Lemma total_mem_size_ok b s :
  0 ≤ ram_region_count b ≤ Z.of_nat (length (ram_region_cfg b)) →
  total_mem_size b s = KRet (u32 (region_sum (regions b))) s.
Proof.
  intros Hb. unfold total_mem_size. rewrite total_loop_ok by lia.
  change (Z.to_nat 0) with 0%nat. rewrite drop_0. by rewrite Z.add_0_l.
Qed.

(** Port accesses only. *)
Definition io_only (s s' : kstate) : Prop := ∃ ev, s' = set_cpu (add_io ev (k_cpu s)) s.

Lemma set_cpu_silent s : set_cpu (add_io [] (k_cpu s)) s = s.
Proof. by destruct s as [[]]. Qed.

#[export] Instance io_only_preorder : PreOrder io_only.
Proof.
  split.
  - intros s. exists []. symmetry. apply set_cpu_silent.
  - intros s1 s2 s3 [ev1 ->] [ev2 ->]. exists (ev2 ++ ev1). unfold set_cpu. cbn.
    by rewrite add_io_app.
Qed.

Lemma io_only_log s s' : io_only s s' → log_free s → log_free s'.
Proof. by intros [ev ->]. Qed.

Lemma log_io fmt args s :
  log_free s →
  (∃ out, format (bytes_of_string fmt) args = Some out ∧ Z.of_nat (length out) ≤ 127) →
  ∃ s', log_printf fmt args s = KRet tt s' ∧ io_only s s'.
Proof.
  intros Hl (out & Hf & Hlen). destruct (log_printf_quiet fmt args out s Hl Hf Hlen) as [ev He].
  eexists. split; [exact He|]. by exists ev.
Qed.

Lemma show_regions_ok n b i s :
  log_free s → 0 ≤ i → i + Z.of_nat n ≤ Z.of_nat (length (ram_region_cfg b)) →
  ∃ s', show_regions n b i s = KRet tt s' ∧ io_only s s'.
Proof.
  revert i s. induction n as [|n IH]; intros i s Hl Hi Hn; cbn [show_regions].
  { by exists s. }
  destruct (lookup_lt_is_Some_2 (ram_region_cfg b) (Z.to_nat i)) as [r Hr]; [lia|].
  kstep (region_at_ok b i r s Hi Hr).
  destruct (log_io "[%d]:0x%x-0x%x" [AInt i; AInt (s32 r.1); AInt (s32 r.2)] s Hl) as (s1 & H1 & E1);
    [line_fits|].
  kstep H1. destruct (IH (i + 1) s1) as (s2 & H2 & E2); [by eapply io_only_log|lia|lia|].
  exists s2. split; [done|]. by transitivity s1.
Qed.

Lemma show_mem_info_ok b s :
  log_free s → 0 ≤ ram_region_count b ≤ Z.of_nat (length (ram_region_cfg b)) →
  ∃ s', show_mem_info b s = KRet tt s' ∧ io_only s s'.
Proof.
  intros Hl Hb. unfold show_mem_info.
  destruct (log_io "memory region:" [] s Hl) as (s1 & H1 & E1); [line_fits|]. kstep H1.
  destruct (show_regions_ok (Z.to_nat (ram_region_count b)) b 0 s1) as (s2 & H2 & E2);
    [by eapply io_only_log|lia|lia|]. kstep H2.
  destruct (log_io "
" [] s2) as (s3 & H3 & E3); [by do 2 (eapply io_only_log; [eassumption|])|line_fits|].
  exists s3. split; [done|]. transitivity s1; [done|]. by transitivity s2.
Qed.
End memory_map.

(** ** The pieces of the start *)
Section pieces.
Context `{LoggerLaws}.
Context `{HDevice : Device, HEntry : Entry, HImage : KernelImage, HWalk : PageWalk}.
Implicit Types (s : kstate).

Lemma mutex_init_idle m s :
  k_mutex s !! m = Some (Mutex 0 0 list_init) → mutex_init m s = KRet tt s.
Proof.
  intros Hm. unfold mutex_init. rewrite (mutex_set_ok m _ _ s Hm), insert_id by done. by destruct s.
Qed.

Definition gdt_cpu (c : cpu_t) : cpu_t :=
  Cpu (c_eflags c) (c_cr0 c) (c_cr3 c) (c_cr4 c) (c_tr c)
    (table_ptr Kernel.gdt_table (GDT_TABLE_SIZE * 8)) (c_idtr c) (c_io c).

Lemma cpu_init_ok s :
  k_mutex s !! gdt_mutex = Some (Mutex 0 0 list_init) → length (k_gdt s) = 256%nat →
  cpu_init s = KRet tt (set_cpu (gdt_cpu (k_cpu s)) (set_gdt boot_gdt s)).
Proof.
  intros Hm Hl. unfold cpu_init. kstep (mutex_init_idle gdt_mutex s Hm). unfold init_gdt.
  by kstep (with_gdt_ok init_gdt_table s tt boot_gdt (init_gdt_table_ok _ Hl)).
Qed.

Definition uart_events : list io_event :=
  [PortOut 1020 15; PortOut 1018 199; PortOut 1019 3; PortOut 1017 0; PortOut 1016 3;
   PortOut 1019 128; PortOut 1017 0].

Lemma log_init_ok s :
  k_mutex s !! log_mutex = Some (Mutex 0 0 list_init) →
  log_init s = KRet tt (set_cpu (add_io uart_events (k_cpu s)) s).
Proof.
  intros Hm. unfold log_init. kstep (mutex_init_idle log_mutex s Hm).
  by apply with_cpu_ok.
Qed.

(** The interrupt system after [irq_init] and [time_init]: the ports written, the
    newest first, where the mask register reads back what was written. *)
Definition irq_cpu (ev : list io_event) (c : cpu_t) : cpu_t :=
  Cpu (c_eflags c) (c_cr0 c) (c_cr3 c) (c_cr4 c) (c_tr c) (c_gdtr c)
    (table_ptr idt_table (IDT_TABLE_NR * 8)) (ev ++ c_io c).

Definition vectors_ok (g : list gate_desc_t) : Prop :=
  length g = 128%nat ∧
  ∀ n, (n < 128)%nat → g !! n = Some (idt_gate (entry_addr
    (vector_entry ((IRQ0_TIMER, exception_handler_time) :: exception_vectors) (Z.of_nat n)
      exception_handler_unknown))).

Lemma idt_ok g :
  length g = 128%nat →
  ∃ g1 g2, idt_fill (Z.to_nat IDT_TABLE_NR) 0 g = Ok (tt, g1) ∧
    install_all exception_vectors g1 = Ok (tt, g2) ∧
    ∃ g3, irq_install IRQ0_TIMER (entry_addr exception_handler_time) g2 = Ok (0, g3) ∧ vectors_ok g3.
Proof.
  intros Hl. pose proof (idt_fill_ok (Z.to_nat IDT_TABLE_NR) 0 g ltac:(rewrite Hl; done)) as E1.
  destruct (install_all_ok exception_vectors
    (replicate 128 (idt_gate (entry_addr exception_handler_unknown)))) as (g2 & E2 & Hl2 & Hn).
  - done.
  - apply exception_vectors_range.
  - eexists _, g2. split; [exact E1|]. split; [exact E2|].
    exists (<[32%nat := idt_gate (entry_addr exception_handler_time)]> g2).
    split; [apply (irq_install_ok g2 32); lia|]. split; [by rewrite length_insert|].
    intros n Hlt. specialize (Hn n exception_handler_unknown ltac:(apply lookup_replicate_2; lia)).
    unfold vector_entry in *. cbn [foldl fst snd].
    destruct (Z.eqb_spec IRQ0_TIMER (Z.of_nat n)) as [E|E].
    + replace n with 32%nat by (unfold IRQ0_TIMER in E; lia).
      rewrite list_lookup_insert_eq by lia. reflexivity.
    + rewrite list_lookup_insert_ne by (unfold IRQ0_TIMER in E; lia). exact Hn.
Qed.

(** The mask register of the master controller can be read back. *)
Definition mask_reads_back : Prop :=
  ∀ io v, last_out PIC0_IMR io = Some v → dev_read io PIC0_IMR = v.

Definition pic_events : list io_event :=
  [PortOut PIC1_IMR 255; PortOut PIC0_IMR 251; PortOut PIC1_ICW4 1; PortOut PIC1_ICW3 2;
   PortOut PIC1_ICW2 40; PortOut PIC1_ICW1 17; PortOut PIC0_ICW4 1; PortOut PIC0_ICW3 4;
   PortOut PIC0_ICW2 32; PortOut PIC0_ICW1 17].

Definition pit_events : list io_event :=
  [PortOut PIC0_IMR 250; PortIn PIC0_IMR 251; PortOut 64 46; PortOut 64 155; PortOut 67 54].

Lemma irq_init_ok s g1 g2 :
  idt_fill (Z.to_nat IDT_TABLE_NR) 0 (k_idt s) = Ok (tt, g1) →
  install_all exception_vectors g1 = Ok (tt, g2) →
  irq_init s = KRet tt (set_cpu (irq_cpu pic_events (k_cpu s)) (set_idt g2 s)).
Proof.
  intros E1 E2. unfold irq_init.
  rewrite (kbind_ret _ _ s tt (set_idt g1 s)) by (unfold with_idt; by rewrite E1).
  rewrite (kbind_ret _ _ _ tt (set_idt g2 s)) by (unfold with_idt; cbn [k_idt set_idt]; by rewrite E2).
  reflexivity.
Qed.

Lemma timer_enabled c :
  dev_read (c_io c) PIC0_IMR = 251 →
  irq_enable IRQ0_TIMER c = Ok (tt, add_io [PortOut PIC0_IMR 250; PortIn PIC0_IMR 251] c).
Proof.
  intros Hr. unfold irq_enable. change (IRQ0_TIMER <? IRQ_PIC_START) with false.
  change (IRQ0_TIMER - IRQ_PIC_START <? 8) with true. cbn iota.
  stm_step (inb_ok PIC0_IMR c). change (u16 PIC0_IMR) with PIC0_IMR. rewrite Hr. reflexivity.
Qed.

Definition pit_start : list io_event := [PortOut 64 46; PortOut 64 155; PortOut 67 54].

Lemma pit_programmed s {B} (f : K B) :
  (with_cpu (outb PIT_COMMAND_MODE_PORT (Z.lor PIT_CHANNEL (Z.lor PIT_LOAD_LOHI PIT_MODE3)));;
   with_cpu (outb PIT_CHANNEL0_DATA_PORT (Z.land reload_count 255));;
   with_cpu (outb PIT_CHANNEL0_DATA_PORT (Z.land (Z.shiftr reload_count 8) 255));; f) s =
  f (set_cpu (add_io pit_start (k_cpu s)) s).
Proof. reflexivity. Qed.

Lemma time_init_ok s g :
  mask_reads_back → last_out PIC0_IMR (c_io (k_cpu s)) = Some 251 →
  irq_install IRQ0_TIMER (entry_addr exception_handler_time) (k_idt s) = Ok (0, g) →
  time_init s = KRet tt (set_cpu (add_io pit_events (k_cpu s)) (set_sys_tick 0 (set_idt g s))).
Proof.
  intros Hback Hlast E. unfold time_init.
  rewrite (kbind_ret (kmodify (set_sys_tick 0)) _ s tt (set_sys_tick 0 s)) by done.
  unfold init_pit. rewrite pit_programmed. set (s1 := set_cpu _ _).
  rewrite (kbind_ret (with_idt _) _ s1 0 (set_idt g s1)).
  2:{ unfold with_idt. change (k_idt s1) with (k_idt s). by rewrite E. }
  rewrite (with_cpu_ok _ _ _ _ (timer_enabled (k_cpu (set_idt g s1)) ltac:(by apply Hback))).
  reflexivity.
Qed.

Lemma interrupts_ok s :
  mask_reads_back → length (k_idt s) = 128%nat →
  ∃ g, vectors_ok g ∧ ∀ B (f : K B), (irq_init;; time_init;; f) s =
    f (set_cpu (irq_cpu (pit_events ++ pic_events) (k_cpu s)) (set_sys_tick 0 (set_idt g s))).
Proof.
  intros Hback Hl. destruct (idt_ok (k_idt s) Hl) as (g1 & g2 & E1 & E2 & g3 & E3 & Hv).
  exists g3. split; [done|]. intros B f. kstep (irq_init_ok s g1 g2 E1 E2).
  set (s1 := set_cpu _ _).
  assert (Hlast : last_out PIC0_IMR (c_io (k_cpu s1)) = Some 251) by reflexivity.
  by kstep (time_init_ok s1 g3 Hback Hlast E3).
Qed.
End pieces.

(** ** The memory the kernel starts in *)
Section start.
Context `{LoggerLaws}.
Context `{HDevice : Device, HEntry : Entry, HImage : KernelImage, HWalk : PageWalk}.
Implicit Types (s : kstate) (b : boot_info_t).

(** The static objects after loading, zeroed as the ELF loader leaves them. *)
Record bss s : Prop := {
  bs_tasks : tasks_ok (k_tasks s) (k_nodes s);
  bs_first : is_Some (k_tasks s !! first_task);
  bs_idle : is_Some (k_tasks s !! idle_task);
  bs_names : names_ok s;
  bs_lists : ∀ o l, list_at s (PWait o) = Some l → l = list_init;
  bs_log : k_mutex s !! log_mutex = Some (Mutex 0 0 list_init);
  bs_gdt_mutex : k_mutex s !! gdt_mutex = Some (Mutex 0 0 list_init);
  bs_paddr_mutex : k_mutex s !! paddr_mutex = Some (Mutex 0 0 list_init);
  bs_apart : paddr_mutex ≠ log_mutex;
  bs_gdt : length (k_gdt s) = 256%nat;
  bs_idt : length (k_idt s) = 128%nat;
  bs_search : k_search_idx s = 0
}.

(** The memory map has at least a megabyte, and the bitmap for the rest fits
    between the kernel and the extended BIOS area. *)
Record map_fits s b : Prop := {
  mf_count : 0 ≤ ram_region_count b ≤ Z.of_nat (length (ram_region_cfg b));
  mf_total : MEM_EXT_START ≤ u32 (region_sum (regions b));
  mf_start : 0 < mem_free_start;
  mf_end : mem_free_start + bitmap_bytes b < MEM_EBDA_START;
  mf_mapped : mapped (k_mem s) mem_free_start (bitmap_bytes b)
}.

(** What building page tables leaves alone: everything but memory, the search
    position of the bitmaps and the port history. *)
Definition builds (s s' : kstate) : Prop :=
  ∃ m i ev, s' = set_search_idx i (set_mem m (set_cpu (add_io ev (k_cpu s)) s)).

#[export] Instance builds_preorder : PreOrder builds.
Proof.
  split.
  - intros s. exists (k_mem s), (k_search_idx s), []. by destruct s as [[]].
  - intros s1 s2 s3 (m1 & i1 & ev1 & ->) (m2 & i2 & ev2 & ->). exists m2, i2, (ev2 ++ ev1).
    unfold set_cpu, set_mem, set_search_idx. cbn. by rewrite add_io_app.
Qed.

Definition free_alloc b : addr_alloc_t :=
  AddrAlloc (Bitmap (free_pages b) mem_free_start) MEM_EXT_START
    (free_pages b * MEM_PAGE_SIZE) MEM_PAGE_SIZE.

Lemma free_pages_range b :
  MEM_EXT_START ≤ u32 (region_sum (regions b)) →
  0 ≤ free_pages b ∧ free_pages b * MEM_PAGE_SIZE + MEM_EXT_START ≤ 2 ^ 32 ∧
  down2 (u32 (u32 (region_sum (regions b)) - MEM_EXT_START)) MEM_PAGE_SIZE =
    free_pages b * MEM_PAGE_SIZE.
Proof.
  intros Ht. pose proof (u32_range (region_sum (regions b))) as Hr.
  unfold free_pages, MEM_EXT_START, MEM_PAGE_SIZE in *.
  set (t := u32 (region_sum (regions b))) in *.
  rewrite (u32_id (t - 1024 * 1024)) by lia. change 4096 with (2 ^ 12).
  rewrite down2_pow2 by (unfold is_u32; lia).
  change (2 ^ 12) with 4096. Z.to_euclidean_division_equations. lia.
Qed.

(** The allocator with its bitmap cleared. *)
Definition with_alloc b s : kstate :=
  set_paddr (free_alloc b)
    (set_mem (write_bytes (k_mem s) mem_free_start (replicate (Z.to_nat (bitmap_bytes b)) 0)) s).

Lemma bitmap_bytes_range b : 0 ≤ free_pages b → free_pages b ≤ 2 ^ 20 →
  0 ≤ bitmap_bytes b < 2 ^ 18 ∧ bitmap_byte_count (free_pages b) = bitmap_bytes b.
Proof.
  intros H0 H1. unfold bitmap_byte_count, bitmap_bytes.
  rewrite s32_id by lia. rewrite Z.quot_div_nonneg by lia.
  Z.to_euclidean_division_equations. lia.
Qed.

Lemma addr_alloc_init_ok s b :
  k_mutex s !! paddr_mutex = Some (Mutex 0 0 list_init) → map_fits s b →
  addr_alloc_init mem_free_start MEM_EXT_START (free_pages b * MEM_PAGE_SIZE) MEM_PAGE_SIZE s =
    KRet tt (with_alloc b s).
Proof.
  intros Hm [_ Ht Hs He Hmap]. destruct (free_pages_range b Ht) as (H0 & H1 & _).
  destruct (bitmap_bytes_range b H0) as [Hb Hc]; [unfold MEM_PAGE_SIZE, MEM_EXT_START in H1; lia|].
  unfold addr_alloc_init. kstep (mutex_init_idle paddr_mutex s Hm).
  rewrite (kbind_ret (kmodify _) _ s tt _ eq_refl).
  rewrite Z.div_mul by done. rewrite s32_id by (unfold MEM_PAGE_SIZE, MEM_EXT_START in H1; lia).
  match goal with |- (_ ≫= _) ?x = _ => set (s1 := x) end.
  assert (E : bitmap_init mem_free_start (free_pages b) 0 (k_mem s1) =
    Ok (Bitmap (free_pages b) mem_free_start,
        write_bytes (k_mem s) mem_free_start (replicate (Z.to_nat (bitmap_bytes b)) 0))).
  { unfold bitmap_init. rewrite Hc.
    assert (Hne : mem_free_start ≠ 0) by lia.
    assert (Hlt : 0 ≤ bitmap_bytes b < 2 ^ 31) by lia.
    by stm_step (kernel_memset_ok mem_free_start 0 (bitmap_bytes b) (k_mem s) Hne Hmap Hlt). }
  by kstep (with_mem_ok _ s1 _ _ E).
Qed.

Lemma with_alloc_ready s b : bss s → map_fits s b → alloc_ready (with_alloc b s).
Proof.
  intros Hs [_ Ht Hp He Hmap]. destruct (free_pages_range b Ht) as (H0 & H1 & _).
  assert (Hmax : free_pages b ≤ 2 ^ 20) by (unfold MEM_PAGE_SIZE, MEM_EXT_START in H1; lia).
  destruct (bitmap_bytes_range b H0 Hmax) as [Hb Hc].
  assert (Hj : ∀ j, 0 ≤ j < free_pages b → 0 ≤ j / 8 < bitmap_bytes b).
  { intros j Hj. unfold bitmap_bytes. Z.to_euclidean_division_equations. lia. }
  split; cbn [with_alloc k_mem k_paddr k_search_idx aa_bitmap aa_page_size aa_start free_alloc
    set_paddr set_mem bitcount bits].
  - exists list_init. split; [apply (bs_paddr_mutex _ Hs)|done].
  - apply (bs_apart _ Hs).
  - exists list_init. split; [apply (bs_log _ Hs)|done].
  - split; cbn [bitcount bits]; [lia| |].
    + intros j Hj'. apply write_bytes_mapped with (n := bitmap_bytes b) (b := mem_free_start); [done|].
      specialize (Hj j Hj'). lia.
    + intros j v Hj'. specialize (Hj j Hj'). rewrite write_bytes_lookup, length_replicate.
      rewrite decide_True by lia. intros [-> _]%lookup_replicate. unfold is_u8. lia.
  - done.
  - done.
  - unfold MEM_PAGE_SIZE, MEM_EXT_START in *. lia.
  - rewrite (bs_search _ Hs). lia.
Qed.

Lemma bss_set_cpu s c : bss s → bss (set_cpu c s).
Proof. by intros []. Qed.

Lemma set_cpu_mem c s : k_mem (set_cpu c s) = k_mem s.
Proof. reflexivity. Qed.

Lemma bss_set_mem s m : bss s → bss (set_mem m s).
Proof. by intros []. Qed.

Lemma map_fits_set_mem s m b :
  map_fits s b → mapped m mem_free_start (bitmap_bytes b) → map_fits (set_mem m s) b.
Proof. intros [] Hm. by split. Qed.

Lemma bss_io s s' : io_only s s' → bss s → bss s'.
Proof. intros [ev ->]. apply bss_set_cpu. Qed.

Lemma map_fits_io s s' b : io_only s s' → map_fits s b → map_fits s' b.
Proof. intros [ev ->] []. by split. Qed.

Lemma bss_log_free s : bss s → log_free s.
Proof. intros Hs. exists list_init. split; [apply (bs_log _ Hs)|done]. Qed.

(** The state in which [memory_init], called in [s], calls [creat_kernel_tables]. *)
Definition at_tables b (ev : list io_event) s : kstate :=
  with_alloc b (set_cpu (add_io ev (k_cpu s)) s).

Lemma memory_init_ok s b :
  bss s → map_fits s b →
  ∃ ev, memory_init b s = creat_kernel_tables (at_tables b ev s) ∧ alloc_ready (at_tables b ev s).
Proof.
  intros Hs Hf. unfold memory_init.
  destruct (log_io "memory init success" [] s (bss_log_free _ Hs)) as (s1 & H1 & E1); [line_fits|].
  kstep H1. pose proof (bss_io _ _ E1 Hs) as Hs1.
  destruct (show_mem_info_ok b s1 (bss_log_free _ Hs1) (mf_count _ _ Hf)) as (s2 & H2 & E2).
  kstep H2. pose proof (bss_io _ _ E2 Hs1) as Hs2.
  kstep (total_mem_size_ok b s2 (mf_count _ _ Hf)).
  destruct (free_pages_range b (mf_total _ _ Hf)) as (H0 & Hmax & Edown). rewrite Edown.
  destruct (log_io "free memory: 0x%x, size:0x%x" [AInt MEM_EXT_START;
    AInt (s32 (free_pages b * MEM_PAGE_SIZE))] s2 (bss_log_free _ Hs2)) as (s3 & H3 & E3); [line_fits|].
  kstep H3. pose proof (bss_io _ _ E3 Hs2) as Hs3.
  pose proof (map_fits_io _ _ _ E3 (map_fits_io _ _ _ E2 (map_fits_io _ _ _ E1 Hf))) as Hf3.
  kstep (addr_alloc_init_ok s3 b (bs_paddr_mutex _ Hs3) Hf3).
  pose proof (with_alloc_ready s3 b Hs3 Hf3) as Hal. set (s4 := with_alloc b s3) in *.
  rewrite (kbind_ret paddr_get _ s4 (free_alloc b) s4) by done.
  cbn [aa_size free_alloc]. rewrite Z.div_mul by done.
  destruct (bitmap_bytes_range b H0) as [_ Hc]; [unfold MEM_PAGE_SIZE, MEM_EXT_START in Hmax; lia|].
  rewrite Hc. replace (mem_free_start + bitmap_bytes b <? MEM_EBDA_START) with true
    by (pose proof (mf_end _ _ Hf); lia).
  rewrite (kbind_ret (ASSERT true _) _ s4 tt s4) by done.
  assert (E13 : io_only s s3) by (transitivity s1; [done|]; by transitivity s2).
  destruct E13 as [ev E]. exists ev. unfold at_tables. rewrite <-E. by split.
Qed.

(** The kernel after [kernel_init]. *)
Record initialised b s : Prop := {
  in_tasks : tm_ready s;
  in_alloc : k_paddr s = free_alloc b;
  in_gdtr : c_gdtr (k_cpu s) = table_ptr Kernel.gdt_table (GDT_TABLE_SIZE * 8);
  in_idtr : c_idtr (k_cpu s) = table_ptr idt_table (IDT_TABLE_NR * 8);
  in_vectors : vectors_ok (k_idt s);
  in_tick : k_sys_tick s = 0;
  in_mask : last_out PIC0_IMR (c_io (k_cpu s)) = Some 250;
  in_slave : last_out PIC1_IMR (c_io (k_cpu s)) = Some 255
}.

(** What [kernel_init] does after [memory_init]. *)
Definition after_memory (idle_entry stack_end : Z) : K unit :=
  log_init;; irq_init;; time_init;; task_manager_init idle_entry stack_end.

(** The state in which [kernel_init], called in [s], calls [creat_kernel_tables]. *)
Definition init_at_tables b ev s : kstate :=
  at_tables b ev (set_cpu (gdt_cpu (k_cpu s)) (set_gdt boot_gdt s)).

Lemma init_at_tables_mem b ev s : k_mem (init_at_tables b ev s) =
  write_bytes (k_mem s) mem_free_start (replicate (Z.to_nat (bitmap_bytes b)) 0).
Proof. reflexivity. Qed.

Lemma kernel_init_to_tables s b e st :
  bss s → map_fits s b →
  ∃ ev, kernel_init b e st s = (creat_kernel_tables;; after_memory e st) (init_at_tables b ev s) ∧
    alloc_ready (init_at_tables b ev s).
Proof.
  intros Hs Hf. unfold kernel_init.
  kstep (cpu_init_ok s (bs_gdt_mutex _ Hs) (bs_gdt _ Hs)). set (s1 := set_cpu _ _).
  destruct (memory_init_ok s1 b) as (ev & E & Hal); [destruct Hs; by split|destruct Hf; by split|].
  exists ev. split; [|exact Hal]. unfold mbind, K_bind at 1. rewrite E. reflexivity.
Qed.

Lemma after_memory_ok s b ev s2 e st :
  bss s → mask_reads_back → builds (init_at_tables b ev s) s2 →
  ∃ s', after_memory e st s2 = KRet tt s' ∧ initialised b s' ∧
    k_mutex s' = k_mutex s ∧ k_sem s' = k_sem s ∧ c_eflags (k_cpu s') = c_eflags (k_cpu s) ∧
    c_cr0 (k_cpu s') = c_cr0 (k_cpu s) ∧ c_cr3 (k_cpu s') = c_cr3 (k_cpu s).
Proof.
  intros Hs Hback (m & i & ev2 & ->). unfold after_memory. set (s2 := set_search_idx i _).
  kstep (log_init_ok s2 (bs_log _ Hs)). set (s3 := set_cpu _ s2).
  destruct (interrupts_ok s3 Hback (bs_idt _ Hs)) as (g & Hv & H4). rewrite H4.
  set (s4 := set_cpu _ _).
  assert (Hp : power_on s4).
  { destruct Hs. split; try done. }
  destruct (task_manager_init_ok s4 e st Hp) as (s5 & H5 & Htm & Em & Es & Ec & Ed).
  exists s5. split; [exact H5|].
  pose proof (f_equal (λ x, x.1.1) Ed : k_idt s5 = g) as Ei.
  pose proof (f_equal (λ x, x.1.2) Ed : k_sys_tick s5 = 0) as Et.
  pose proof (f_equal snd Ed : pages_of s5 = pages_of s2) as Ep. split; [|by rewrite Em, Es, Ec].
  split; rewrite ?Ec, ?Ei, ?Et; try done. exact (f_equal snd Ep).
Qed.
End start.

(** ** Building the tables with [create_kernel_table] *)
Section tables.
Context `{HLayout : Layout, HImage : KernelImage, HWalk : PageWalk}.
Implicit Types (s : kstate).

(** Looking up an entry takes a page for a missing table, no more. *)
Definition walk_builds : Prop := ∀ s v p s', find_pte kernel_page_dir v 1 s = KRet p s' → builds s s'.

Lemma kbind_ret_inv {A B} (f : K A) (g : A → K B) s b s' :
  (f ≫= g) s = KRet b s' → ∃ a s1, f s = KRet a s1 ∧ g a s1 = KRet b s'.
Proof. unfold mbind, K_bind. destruct (f s) as [a s1|?|? ? ?]; [by eauto|done|done]. Qed.

Lemma with_mem_builds {A} (f : stm mem A) s a s' : with_mem f s = KRet a s' → builds s s'.
Proof.
  unfold with_mem. destruct (f (k_mem s)) as [[x h]|e]; [|done]. intros [= _ <-].
  exists h, (k_search_idx s), []. by destruct s as [[]].
Qed.

Lemma map_loop_builds n : walk_builds → ∀ v p perm s r s',
  map_loop n kernel_page_dir v p perm s = KRet r s' → builds s s'.
Proof.
  intros Hw. induction n as [|n IH]; intros v p perm s r s'; cbn [map_loop]; [by intros [= _ <-]|].
  intros (q & s1 & H1 & H)%kbind_ret_inv. transitivity s1; [by eapply Hw|].
  destruct (q =? 0); [by injection H as _ <-|].
  apply kbind_ret_inv in H as (w & s2 & H2 & H). transitivity s2; [by eapply with_mem_builds|].
  apply kbind_ret_inv in H as (u & s3 & H3 & H).
  assert (s3 = s2) as -> by (unfold ASSERT in H3; case_match; [by injection H3|done]).
  apply kbind_ret_inv in H as (u4 & s4 & H4 & H). transitivity s4; [by eapply with_mem_builds|].
  by eapply IH.
Qed.

Lemma map_all_builds maps : walk_builds → ∀ s s', map_all maps s = KRet tt s' → builds s s'.
Proof.
  intros Hw. induction maps as [|mp maps IH]; intros s s'; cbn [map_all]; [by intros [= <-]|].
  intros (r & s1 & H1 & H)%kbind_ret_inv. transitivity s1; [by eapply map_loop_builds|by apply IH].
Qed.

Lemma create_kernel_table_builds s s' :
  walk_builds → create_kernel_table s = KRet tt s' → builds s s'.
Proof.
  intros Hw (u & s1 & H1 & H)%kbind_ret_inv. transitivity s1; [by eapply with_mem_builds|].
  by eapply map_all_builds.
Qed.
End tables.

(** ** Properties of the start *)
Section properties.
Context `{LoggerLaws}.
Context `{HDevice : Device, HEntry : Entry, HImage : KernelImage, HWalk : PageWalk}.
Implicit Types (s : kstate) (b : boot_info_t).

Lemma init_main_ok s :
  tm_ready s → ∃ s' sel, init_main s = KRet tt s' ∧ started s s' sel.
Proof.
  intros Ht. unfold init_main.
  destruct (log_io "kernel is running..." [] s (tr_log _ Ht)) as (s1 & H1 & [ev1 ->]); [line_fits|].
  kstep H1. set (s1 := set_cpu _ s).
  destruct (log_io "version %s %s" [AStr (bytes_of_string OS_VERSION); AStr (bytes_of_string "shabi")]
    s1 (tr_log _ Ht)) as (s2 & H2 & [ev2 ->]); [eexists; split; [vm_compute; reflexivity|cbn; lia]|].
  kstep H2. set (s2 := set_cpu _ s1).
  destruct (log_io "%d %d %x %c" [AInt (-123456); AInt 123456; AInt 74565; AInt 99]
    s2 (tr_log _ Ht)) as (s3 & H3 & [ev3 ->]); [eexists; split; [vm_compute; reflexivity|cbn; lia]|].
  kstep H3. set (s3 := set_cpu _ s2).
  destruct (task_first_init_ok s3) as (s4 & sel & H4 & Hst).
  { by do 3 apply tm_ready_set_cpu. }
  exists s4, sel. split; [exact H4|]. by apply (started_of s s3).
Qed.

(** C29: [kernel_init] sets up everything before it calls [creat_kernel_tables], a
    function no file defines: the allocator of pages owns every whole page from 1 MB
    on, all of them free. What it does after that call establishes the rest from
    whatever memory the call leaves: the GDT and IDT registers point to the tables,
    all 128 vectors lead to their entry points, the clock interrupt to the timer's;
    only the timer and the cascade line are unmasked; the tick count is 0; and the
    scheduler has the idle task and no other. When the name is a slip for
    [create_kernel_table], the only such function there is, the call returns if the
    data of the image starts on a page of its own, and otherwise [kernel_init] ends
    in a failed assertion. *)
Theorem kernel_init_establishes s b idle_entry stack_end :
  bss s → map_fits s b → mask_reads_back → (∀ e, is_u32 (entry_addr e)) →
  ∃ ev, let s1 := init_at_tables b ev s in
    kernel_init b idle_entry stack_end s =
      (creat_kernel_tables;; after_memory idle_entry stack_end) s1 ∧
    alloc_ready s1 ∧ k_paddr s1 = AddrAlloc (Bitmap (free_pages b) mem_free_start)
      MEM_EXT_START (free_pages b * MEM_PAGE_SIZE) MEM_PAGE_SIZE ∧
    (∀ s2, builds s1 s2 → ∃ s', after_memory idle_entry stack_end s2 = KRet tt s' ∧
      krel s' (KAbs 0 [] [] [idle_task] ∅) ∧ k_paddr s' = k_paddr s1 ∧
      c_gdtr (k_cpu s') = table_ptr Kernel.gdt_table 2048 ∧
      c_idtr (k_cpu s') = table_ptr idt_table 1024 ∧
      (∀ n, (n < 128)%nat → ∃ d, k_idt s' !! n = Some d ∧ gate_attr d = 36352 ∧
         gate_offset d = entry_addr (vector_entry
           ((IRQ0_TIMER, exception_handler_time) :: exception_vectors) (Z.of_nat n)
           exception_handler_unknown)) ∧
      last_out PIC0_IMR (c_io (k_cpu s')) = Some 250 ∧
      last_out PIC1_IMR (c_io (k_cpu s')) = Some 255 ∧ k_sys_tick s' = 0) ∧
    (∀ WL : WalkLaws, creat_kernel_tables = create_kernel_table → walk_builds → image_ok →
      clears s1 →
      (s_data mod MEM_PAGE_SIZE = 0 → ∃ s2, creat_kernel_tables s1 = KRet tt s2 ∧ builds s1 s2) ∧
      (s_data mod MEM_PAGE_SIZE ≠ 0 →
         kernel_init b idle_entry stack_end s = KErr (Panic "pte->present == 0"))).
Proof.
  intros Hs Hf Hback Hu.
  destruct (kernel_init_to_tables s b idle_entry stack_end Hs Hf) as (ev & E & Hal).
  exists ev. cbn zeta. split; [exact E|]. split; [exact Hal|]. split; [reflexivity|]. split.
  - intros s2 Hb.
    destruct (after_memory_ok s b ev s2 idle_entry stack_end Hs Hback Hb) as (s' & E' & Hi & _).
    exists s'. split; [done|]. destruct Hi as [Htm Ep Eg Ei [Hl Hv] Et Em Esl].
    split; [apply Htm|]. split; [done|]. split; [done|]. split; [done|].
    split; [|done]. intros n Hn. eexists. split; [by apply Hv|].
    split; [reflexivity|]. apply gate_offset_id, Hu.
  - intros WL Ename Hw Him Hc. rewrite E, Ename. split; intros Hsd.
    + destruct (kernel_table_ok _ Him Hsd Hc) as (s2 & E2 & _). exists s2. split; [exact E2|].
      by apply create_kernel_table_builds.
    + by apply kbind_err, kernel_table_clash.
Qed.

(** The bodies of the tasks. *)
Lemma init_task_rounds_ok n count s :
  log_free s → ∃ s', init_task_rounds n count s = KRet tt s' ∧ io_only s s'.
Proof.
  revert count s. induction n as [|n IH]; intros count s Hl; cbn [init_task_rounds].
  { exists s. split; [done|reflexivity]. }
  destruct (log_io "init task:%d" [AInt count] s Hl) as (s1 & H1 & E1); [line_fits|]. kstep H1.
  destruct (IH (s32 (count + 1)) s1) as (s2 & H2 & E2); [by eapply io_only_log|].
  exists s2. split; [done|]. by transitivity s1.
Qed.

(** The tasks' endless loops, for any number of rounds: those of [init_task]
    return and only write to the serial line; a round of the first task writes its
    line, then sleeps: it leaves the ready queue for 100 ticks and the processor
    goes to the next task; the other rounds are what it does when it resumes. *)
Theorem task_bodies_run n s a :
  krel s a → log_free s → a_curr a ∈ a_ready a →
  (∃ ev, init_task_entry n s = KRet tt (set_cpu (add_io ev (k_cpu s)) s)) ∧
  ∃ ev s', let s1 := set_cpu (add_io ev (k_cpu s)) s in
    first_task_main (S n) s = (sys_sleep 1000;; first_task_main n) s1 ∧
    call_ends (sys_sleep 1000) s1 s' ∧ krel s' (spec_sleep 1000 a) ∧
    sleep_ticks_of s' (a_curr a) = 100 ∧ a_curr a ∉ a_ready (spec_sleep 1000 a).
Proof.
  intros Hr Hl Hc. split.
  { destruct (init_task_rounds_ok n 0 s Hl) as (s' & E & ev & ->). by exists ev. }
  destruct (log_io "Hello, world!
" [] s Hl) as (s1 & H1 & ev & ->); [line_fits|].
  destruct (sys_sleep_ok (set_cpu (add_io ev (k_cpu s)) s) a 1000 (krel_set_cpu _ _ _ Hr) Hc)
    as (s' & Hs & Hr' & _ & Hn).
  exists ev, s'. cbn zeta. split; [cbn [first_task_main]; by kstep H1|]. split; [done|].
  split; [done|]. split; [by apply Hn|]. intros Hin%list_elem_of_filter. by destruct Hin.
Qed.

(** C30: the kernel counts exactly the memory the BIOS reported: for the
    [boot_info] that [detect_memory] leaves, [total_mem_size] returns the sum of
    the sizes of the usable regions, modulo [2 ^ 32]. *)
Theorem detected_memory_is_counted `{HLoader : LoaderImage, HBios : Bios} (l : loader_t) s :
  mapped (ld_mem l) detect_buffer 256 →
  length (ram_region_cfg (ld_boot l)) = Z.to_nat BOOT_RAM_REGION_MAX →
  ∃ l', detect_memory l = Ok (tt, l') ∧
    regions (ld_boot l') = usable (e820_calls 10 0 []) ∧
    total_mem_size (ld_boot l') s = KRet (u32 (region_sum (usable (e820_calls 10 0 [])))) s.
Proof.
  intros Hm Hl. destruct (detect_memory_ok l Hm Hl) as (m' & E & _).
  eexists. split; [exact E|]. cbn [detected ld_boot]. set (us := usable _).
  assert (Hus : (length us ≤ 10)%nat).
  { pose proof (usable_length (e820_calls 10 0 [])). pose proof (e820_calls_length 10 0 []).
    unfold us. lia. }
  assert (Er : regions (BootInfo (us ++ drop (length us) (ram_region_cfg (ld_boot l)))
    (Z.of_nat (length us))) = us).
  { unfold regions. cbn [ram_region_count ram_region_cfg]. by rewrite Nat2Z.id, take_app_length. }
  split; [exact Er|]. rewrite total_mem_size_ok; [by rewrite Er|].
  cbn [ram_region_count ram_region_cfg]. rewrite length_app. lia.
Qed.
End properties.

(** *** Witnesses: the demo system on a board with 127 MB *)
Section witnesses.
#[local] Existing Instance demo_layout.
#[local] Existing Instance demo_image.
#[local] Existing Instance demo_walk.
#[local] Existing Instance demo_entry.

(** A serial port that is ready at every other poll and a mask register that can
    be read back. *)
Definition demo_board : Device := λ io port,
  if port =? PIC0_IMR then default 0 (last_out PIC0_IMR io) else demo_uart io port.
#[local] Existing Instance demo_board.

Lemma demo_board_uart : uart_ready (H := demo_board) 2.
Proof. intros io. exists 1%nat. split; [lia|]. reflexivity. Qed.

#[local] Instance board_logger : Logger := log_at 2 1.
#[local] Instance board_logger_laws : LoggerLaws := log_laws 2 0 demo_board_uart.

Lemma demo_board_mask : mask_reads_back.
Proof. intros io v E. unfold dev_read, demo_board. rewrite Z.eqb_refl, E. reflexivity. Qed.

Definition demo_boot_info : boot_info_t :=
  BootInfo ([(0, 654336); (1048576, 133169152)] ++ replicate 8 (0, 0)) 2.

(** The kernel's static objects before it has run, without and with the memory. *)
Definition bss_objects : kstate :=
  demo_kernel (KAbs 0 [] [] [] ∅) system_tasks
    ((user_mutex, (0, 0)) :: free_mutexes) [(user_sem, 0)].

Definition with_tables (s : kstate) : kstate :=
  set_mem (zero_mem 196608 4096)
    (set_idt (replicate 128 (GateDesc 0 0 0 0)) (set_gdt (replicate 256 (SegmentDesc 0 0 0 0 0)) s)).

Definition bss_state : kstate := with_tables bss_objects.

Lemma with_tables_krel s a : krel s a → krel (with_tables s) a.
Proof. intros Hr. by apply (krel_ext s). Qed.

Lemma bss_objects_krel : krel bss_objects (KAbs 0 [] [] [] ∅).
Proof. decide_krel. Qed.

Lemma bss_checked s :
  krel s (KAbs 0 [] [] [] ∅) → is_Some (k_tasks s !! first_task) →
  map_Forall (λ _ m, mutex_wait_list m = list_init) (k_mutex s) →
  map_Forall (λ _ m, sem_wait_list m = list_init) (k_sem s) →
  map_Forall (λ _ x, Z.of_nat (length (name x)) < TASK_NAME_SIZE) (k_tasks s) →
  k_mutex s !! log_mutex = Some (Mutex 0 0 list_init) →
  k_mutex s !! gdt_mutex = Some (Mutex 0 0 list_init) →
  k_mutex s !! paddr_mutex = Some (Mutex 0 0 list_init) → paddr_mutex ≠ log_mutex →
  length (k_gdt s) = 256%nat → length (k_idt s) = 128%nat → k_search_idx s = 0 → bss s.
Proof.
  intros Hr Hf Hm Hs Hn ? ? ? ? ? ? ?. split; try done; [apply Hr..|].
  intros o l. cbn. destruct (k_mutex s !! o) as [m|] eqn:Em.
  - intros [= <-]. by apply (Hm o).
  - intros (x & Ex & ->)%fmap_Some. by apply (Hs o).
Qed.

Lemma bss_state_ok : bss bss_state.
Proof.
  apply bss_checked; [|by eexists|decide_vm|decide_vm|decide_vm|reflexivity|reflexivity
    |reflexivity|vm_compute; discriminate|reflexivity|reflexivity|reflexivity].
  apply with_tables_krel, bss_objects_krel.
Qed.

Lemma bss_map_fits : map_fits bss_state demo_boot_info.
Proof.
  assert (E : bitmap_bytes demo_boot_info = 4052) by (vm_compute; reflexivity).
  split.
  - cbn. lia.
  - vm_compute. discriminate.
  - reflexivity.
  - rewrite E. reflexivity.
  - rewrite E. change (k_mem bss_state) with (zero_mem 196608 4096).
    apply mapped_le with 4096; [apply zero_mem_mapped|lia].
Qed.

(** The image with its data on a page boundary or [n] bytes behind one, in a memory
    with a flat table of pages, and [create_kernel_table] for the missing name. *)
Section by_name.
Context (n : Z).
#[local] Instance named_image : KernelImage := image_with n.
#[local] Instance named_walk : PageWalk :=
  flat_walk flat_base (create_kernel_table (H2 := flat_walk flat_base (mret tt))).
#[local] Instance named_laws : WalkLaws := flat_laws flat_base flat_base_pos _.

Lemma named_walk_builds : walk_builds.
Proof. intros s v p s'. intros [= _ <-]. reflexivity. Qed.

Definition named_state : kstate :=
  set_mem (write_bytes (zero_mem kernel_page_dir 176128) flat_base (replicate (Z.to_nat (2 ^ 22)) 0))
    bss_state.

Lemma named_state_mem : k_mem named_state =
  write_bytes (zero_mem kernel_page_dir 176128) flat_base (replicate (Z.to_nat (2 ^ 22)) 0).
Proof. reflexivity. Qed.

Lemma named_bss : bss named_state.
Proof. apply bss_set_mem, bss_state_ok. Qed.

Lemma named_fits : map_fits named_state demo_boot_info.
Proof.
  apply map_fits_set_mem; [by destruct bss_map_fits; split|]. apply write_bytes_mapped.
  assert (E : bitmap_bytes demo_boot_info = 4052) by (vm_compute; reflexivity). rewrite E.
  assert (Ef : mem_free_start = 196608) by reflexivity. rewrite Ef. clear E Ef.
  assert (Ed : kernel_page_dir = 24576) by reflexivity.
  intros x Hx. apply (zero_mem_mapped kernel_page_dir 176128). rewrite Ed. lia.
Qed.

#[local] Opaque named_state.

Lemma named_at_tables s ev :
  k_mem s = k_mem named_state → clears (init_at_tables demo_boot_info ev s).
Proof.
  intros Es. pose proof (init_at_tables_mem demo_boot_info ev s) as Em. rewrite Es in Em.
  assert (Ef : mem_free_start = 196608) by reflexivity. rewrite Ef in Em.
  assert (Eb : bitmap_bytes demo_boot_info = 4052) by (vm_compute; reflexivity).
  apply flat_clears.
  - intros k Hk. rewrite Em. apply word_outside.
    + rewrite named_state_mem. apply zero_word; lia.
    + rewrite length_replicate, Eb. unfold flat_base. lia.
  - exact dir_pos.
  - rewrite Em, named_state_mem. do 2 apply write_bytes_mapped.
    apply mapped_le with 176128; [apply zero_mem_mapped|unfold PDE_CNT; lia].
  - exact dir_below.
Qed.

Lemma named_set_cpu c : k_mem (set_cpu c named_state) = k_mem named_state.
Proof. exact (set_cpu_mem c named_state). Qed.
End by_name.

(** [create_kernel_table], under the other name, with the data on a page boundary. *)
Lemma named_tables s ev :
  k_mem s = k_mem named_state →
  let s1 := init_at_tables (HImage := named_image 0) demo_boot_info ev s in
  ∃ s2, creat_kernel_tables (PageWalk := named_walk 0) s1 = KRet tt s2 ∧ builds s1 s2.
Proof.
  intros Em s1. pose proof (named_at_tables 0 s ev Em : clears (WL := named_laws 0) s1) as Hc.
  revert Hc. generalize s1. clear s1. intros s1 Hc.
  destruct (kernel_table_ok (WL := named_laws 0) s1 (image_with_ok 0 ltac:(lia)) eq_refl Hc)
    as (s2 & E & _).
  exists s2. split; [exact E|]. exact (create_kernel_table_builds s1 s2 (named_walk_builds 0) E).
Qed.

Lemma demo_entries e : is_u32 (entry_addr e).
Proof. unfold is_u32. destruct e; vm_compute; split; (discriminate || reflexivity). Qed.

(** The kernel starts when its data is on a page boundary; 100 bytes behind one, it
    stops. *)
Lemma kernel_init_establishes_witness :
  (∃ s', kernel_init (H3 := named_image 0) (H4 := named_walk 0) demo_boot_info 4660 8192 named_state = KRet tt s' ∧
     k_paddr s' = AddrAlloc (Bitmap 32415 196608) 1048576 132771840 4096 ∧
     last_out PIC0_IMR (c_io (k_cpu s')) = Some 250) ∧
  kernel_init (H3 := named_image 100) (H4 := named_walk 100) demo_boot_info 4660 8192 named_state =
    KErr (Panic "pte->present == 0").
Proof.
  split.
  - destruct (kernel_init_establishes (HImage := named_image 0) (HWalk := named_walk 0) named_state
      demo_boot_info 4660 8192 named_bss (named_fits 0) demo_board_mask demo_entries)
      as (ev & E & _ & Ep & Hafter & Hname).
    destruct (Hname (named_laws 0) eq_refl (named_walk_builds 0) (image_with_ok 0 ltac:(lia))
      (named_at_tables 0 named_state ev eq_refl)) as [Hok _].
    destruct (Hok eq_refl) as (s2 & E2 & Hb). destruct (Hafter s2 Hb) as (s' & E' & _ & Ep' & _ & _ & _ & Em & _).
    exists s'. split; [rewrite E; by kstep E2|]. split; [by rewrite Ep', Ep|exact Em].
  - destruct (kernel_init_establishes (HImage := named_image 100) (HWalk := named_walk 100) named_state
      demo_boot_info 4660 8192 named_bss (named_fits 100) demo_board_mask demo_entries)
      as (ev & E & _ & Ep & Hafter & Hname).
    destruct (Hname (named_laws 100) eq_refl (named_walk_builds 100) (image_with_ok 100 ltac:(lia))
      (named_at_tables 100 named_state ev eq_refl)) as [_ Hno].
    apply Hno. discriminate.
Defined.

Lemma task_bodies_run_witness :
  ∃ ev s', call_ends (sys_sleep 1000) (set_cpu (add_io ev (k_cpu demo_state)) demo_state) s' ∧
    sleep_ticks_of s' first_task = 100.
Proof.
  destruct (task_bodies_run 3 demo_state demo_abs) as (_ & ev & s' & _ & Hs & _ & Hn & _).
  - exact demo_krel.
  - exists list_init. split; reflexivity.
  - apply (bool_decide_unpack _). reflexivity.
  - exists ev, s'. split; [exact Hs|exact Hn].
Defined.

Lemma detected_memory_is_counted_witness :
  ∃ l', @detect_memory demo_loader_image demo_bios demo_loader = Ok (tt, l') ∧
    total_mem_size (ld_boot l') demo_state = KRet 133823488 demo_state.
Proof.
  destruct (@detected_memory_is_counted demo_loader_image demo_bios demo_loader demo_state)
    as (l' & E & _ & Et).
  - apply zero_mem_mapped.
  - reflexivity.
  - exists l'. split; [exact E|exact Et].
Defined.
End witnesses.
