(* ===== verification/FirstTask.v ===== *)
(** * A task that runs [first_task_main]

    The loop of [first_task_main] (kernel/init/first_task.c), a line and a sleep of a
    second, as the code of a task of the running system: what its rounds do, whatever
    task runs it and whatever happened before. How the first task would come to run
    it is not modelled: see the end of [Boot]. *)
From S2P Require Import Prelude Mem Klib DList CpuInstr Mmu Desc BootInfo Loader16 Kernel Queues ListRef Demo Sched Mutex Sem Log Tasks Irq Events Machine Safety System Fairness Progress Bitmap Memory Init.

Section loop.
Context `{LoggerLaws} (t : Z).
Implicit Types (s : kstate) (M : machine) (a : kabs).

(** The calls of one round of [first_task_main]. *)
Definition hello : kcall := CLog "Hello, world!
" [].
Definition rest : kcall := CSleep 1000.

Lemma first_task_main_calls n :
  first_task_main (S n) = (call_code hello;; call_code rest;; first_task_main n).
Proof. reflexivity. Qed.

(** One round: the two calls, and then clock interrupts and resumptions, with no call
    by anybody, until the task is back from its sleep. *)
Definition beat M M' : Prop := ∃ M1 M2 n,
  astep M (ACall hello) (Some M1) ∧ astep M1 (ACall rest) (Some M2) ∧ spin n M2 M' ∧
  9 * Z.of_nat n ≤ 910 + 99 * Z.of_nat (length (queue_of (m_state M) PAll)) ∧
  current M' = t ∧ m_parked M' !! t = None.

(** The task runs its own code, and no other keeps interrupts masked. *)
Record at_work M a : Prop := {
  aw_inv : minv M a;
  aw_curr : a_curr a = t;
  aw_busy : t ≠ idle_task;
  aw_free : m_parked M !! t = None;
  aw_others : others_on t M
}.

Lemma call_advances M a (c : kcall) :
  minv M a → a_curr a ≠ idle_task → m_parked M !! a_curr a = None → permitted M c →
  ∃ M1 e, astep M (ACall c) (Some M1) ∧ advances M a e M1 ∧ does c e.
Proof.
  intros HM Hi Hno Hp. rewrite <-(minv_curr M a HM) in Hi, Hno.
  pose proof (astep_call M c Hi Hno Hp) as Hst.
  destruct (action_goes_on M a _ _ HM Hst) as (M1 & e & E & He & Hx). rewrite E in Hst. by exists M1, e.
Qed.

Lemma astep_call_inv M (c : kcall) o :
  astep M (ACall c) o → o = settle M (current M) c (call_code c (m_state M)).
Proof.
  intros Hs. remember (ACall c) as x eqn:E. destruct Hs; [by injection E as ->|done|done].
Qed.

Lemma hello_works M a : at_work M a → ∃ M1, astep M (ACall hello) (Some M1) ∧ at_work M1 a.
Proof.
  intros [HM Ec Hb Hno Ho].
  destruct (call_advances M a hello HM) as (M1 & e & Hs & He & Hd); [by rewrite Ec|by rewrite Ec| |].
  { exists (bytes_of_string "Hello, world!
"). split; vm_compute; [reflexivity|discriminate]. }
  destruct e; try done. exists M1. split; [done|]. split; [apply (av_inv _ _ _ _ He)|done|done| |].
  - rewrite <-Ec. by apply (av_runs _ _ _ _ He).
  - eapply others_on_same; [done|intros u; by rewrite (step_flags M a _ M1 u HM Hs)|apply He].
Qed.

Lemma rest_works M a :
  at_work M a → ∃ M1 a1, astep M (ACall rest) (Some M1) ∧ minv M1 a1 ∧ t ∈ a_sleep a1 ∧
    naps M1 t = 100 ∧ a_all a1 = a_all a ∧ others_on t M1.
Proof.
  intros [HM Ec Hb Hno Ho].
  destruct (call_advances M a rest HM) as (M1 & e & Hs & He & Hd); [by rewrite Ec|by rewrite Ec|cbn; lia|].
  destruct e as [| |ms| | | | | | | | | | | | |]; try done. cbn in Hd. subst ms.
  exists M1, (do_event (ESleep 1000) a). split; [done|]. split; [apply (av_inv _ _ _ _ He)|].
  split; [|split; [|split; [reflexivity|]]].
  - rewrite sleep_queue_event, Ec, decide_False by (vm_compute; discriminate).
    apply elem_of_app. right. left.
  - unfold naps. rewrite (ef_sleep _ _ _ _ (av_effect _ _ _ _ He)).
    + cbn. by rewrite Ec, decide_True.
    + rewrite sleep_queue_event, Ec, decide_False by (vm_compute; discriminate).
      apply elem_of_app. right. left.
  - eapply others_on_same; [done|intros u; by rewrite (step_flags M a _ M1 u HM Hs)|apply He].
Qed.

Lemma at_work_beats M a : at_work M a → ∃ M' a', beat M M' ∧ at_work M' a'.
Proof.
  intros Ha. destruct (hello_works M a Ha) as (M1 & Hs1 & Ha1).
  destruct (rest_works M1 a Ha1) as (M2 & a2 & Hs2 & HM2 & Hsl & Hnap & Hall & Ho).
  destruct (sleeper_returns t demo_frame M2 a2 HM2 Hsl Ho) as (n & M' & Hs & Ec & Hno & Hn).
  rewrite Hnap, Hall in Hn.
  destruct (spin_keeps n M2 M' Hs a2 HM2) as (a' & HM' & Hf & Hcr').
  exists M', a'. split.
  - exists M1, M2, n. rewrite (all_of M a (aw_inv _ _ Ha)). split_and!; done || lia.
  - split; [done|by rewrite <-(minv_curr M' a' HM')|apply Ha|done|by eapply others_on_same].
Qed.
End loop.

(** ** What is sent over COM1 *)

(** [out] contains the line [n] times, anything before, between and after. *)
Inductive has_lines (line : list Z) : nat → list Z → Prop :=
| hl_none : has_lines line 0 []
| hl_skip n x out : has_lines line n out → has_lines line n (x ++ out)
| hl_line n out : has_lines line n out → has_lines line (S n) (line ++ out).

Lemma serial_out_app ev io : serial_out (ev ++ io) = serial_out io ++ serial_out ev.
Proof.
  induction ev as [|e ev IH]; cbn; [by rewrite app_nil_r|].
  destruct e as [p v|p v]; [done|]. case_match; [by rewrite IH, <-app_assoc|done].
Qed.

Section sent.
Context `{HLayout : Layout, HDev : Device} (polls depth : nat) (Hu : uart_ready polls).
#[local] Instance sent_logger : Logger := log_at polls (S depth).
#[local] Instance sent_laws : LoggerLaws := log_laws polls depth Hu.
Implicit Types (M : machine) (a : kabs).

(** The text sent so far, and the line of the first task. *)
Definition sent M : list Z := serial_out (c_io (k_cpu (m_state M))).
Definition hello_line : list Z := bytes_of_string "Hello, world!
" ++ [13; 10].

Lemma sent_advances M a e M' : advances M a e M' → ∃ ext, sent M' = sent M ++ ext.
Proof. intros [_ _ _ _ [ev E]]. exists (serial_out ev). unfold sent. by rewrite E, serial_out_app. Qed.

Lemma sent_step M a x M' :
  minv M a → astep M x (Some M') → (∃ a', minv M' a') ∧ ∃ ext, sent M' = sent M ++ ext.
Proof.
  intros HM Hs. destruct (action_advances M a x M' HM Hs) as (e & He & _).
  split; [eexists; apply (av_inv _ _ _ _ He)|by eapply sent_advances].
Qed.

Lemma sent_spin n M M' : spin n M M' → ∀ a, minv M a → ∃ ext, sent M' = sent M ++ ext.
Proof.
  induction 1 as [M|n M M1 M' Hs _ IH|n M M1 M' Hs _ IH]; intros a HM;
    [exists []; by rewrite app_nil_r|..].
  all: destruct (sent_step M a _ M1 HM Hs) as ([a1 HM1] & x1 & E1); destruct (IH a1 HM1) as [x2 ->].
  all: exists (x1 ++ x2); by rewrite E1, <-app_assoc.
Qed.

Lemma hello_sends M M1 :
  log_free (m_state M) → astep M (ACall hello) (Some M1) → sent M1 = sent M ++ hello_line.
Proof.
  intros Hl Hs. destruct (log_at_ok polls depth "Hello, world!
" [] (bytes_of_string "Hello, world!
") (m_state M) Hu Hl) as (ev & E & Hev); [vm_compute; reflexivity|vm_compute; discriminate|].
  apply astep_call_inv in Hs as Eo. unfold settle in Eo.
  assert (Ecode : call_code hello (m_state M) = KRet tt (set_cpu (add_io ev (k_cpu (m_state M))) (m_state M)))
    by exact E.
  rewrite Ecode in Eo. injection Eo as ->. exact Hev.
Qed.

Lemma beat_sends t M a M' :
  minv M a → beat t M M' → ∃ x y, sent M' = sent M ++ x ∧ x = hello_line ++ y.
Proof.
  intros HM (M1 & M2 & k & Hs1 & Hs2 & Hs & _).
  destruct (sent_step M a _ M1 HM Hs1) as [[a1 HM1] _].
  destruct (sent_step M1 a1 _ M2 HM1 Hs2) as ([a2 HM2] & x2 & E2).
  destruct (sent_spin k M2 M' Hs a2 HM2) as [x3 E3].
  exists (hello_line ++ x2 ++ x3), (x2 ++ x3). split; [|done].
  by rewrite E3, E2, (hello_sends M M1 (co_log _ _ _ (mi_core _ _ HM)) Hs1), <-!app_assoc.
Qed.

Lemma at_work_sends t n : ∀ M a, at_work t M a →
  ∃ M' out, nsteps (beat t) n M M' ∧ current M' = t ∧ sent M' = sent M ++ out ∧
    has_lines hello_line n out.
Proof.
  induction n as [|n IH]; intros M a Ha.
  - exists M, []. split; [constructor|]. split; [rewrite (minv_curr M a); apply Ha|].
    split; [by rewrite app_nil_r|constructor].
  - destruct (at_work_beats t M a Ha) as (M1 & a1 & Hb & Ha1).
    destruct (IH M1 a1 Ha1) as (M' & out & Hn & Ec & Eo & Hl).
    destruct (beat_sends t M a M1 (aw_inv _ _ _ Ha) Hb) as (x & y & Ex & ->).
    exists M', ((hello_line ++ y) ++ out). split; [by econstructor|]. split; [done|].
    split; [by rewrite Eo, Ex, <-app_assoc|]. rewrite <-app_assoc. apply hl_line.
    by apply hl_skip.
Qed.
End sent.

(** ** Properties *)
Section properties.
Context `{HLayout : Layout, HDev : Device}.

(** C15: a task that runs [first_task_main] goes round forever: from any reachable
    machine in which a task runs its own code and no other task keeps interrupts
    masked, it can make the calls of its loop for any number [n] of rounds. Each is a
    line over COM1 and a sleep of a second, and clock interrupts and resumptions
    alone bring the task back from the sleep, after at most 101 interrupts and 11 for
    each task that exists; the line is sent [n] times. Which task runs the function
    is left open: the code of the repository has no working entry to it. *)
Theorem first_task_main_goes_round polls depth e st s s' M t n :
  let logger : Logger := log_at polls (S depth) in
  uart_ready polls → power_on s → objects_idle s → boot e st s = KRet tt s' →
  reachable (booted s') M → current M = t → t ≠ idle_task → m_parked M !! t = None →
  others_on t M →
  first_task_main (S n) = (call_code hello;; call_code rest;; first_task_main n) ∧
  ∃ M' out, nsteps (beat t) n M M' ∧ current M' = t ∧ sent M' = sent M ++ out ∧
    has_lines hello_line n out.
Proof.
  intros logger Hu Hp Hi Hb HM Ec Ht Hno Ho. pose proof (log_laws polls depth Hu) as Hlaws.
  destruct (reached_minv e st s s' M Hp Hi Hb HM) as [a Ha].
  split; [apply first_task_main_calls|].
  destruct (at_work_sends polls depth Hu t n M a) as (M' & out & Hn & E & Es & Hl).
  { split; [exact Ha|exact (eq_trans (eq_sym (minv_curr M a Ha)) Ec)|exact Ht|exact Hno|exact Ho]. }
  exists M', out. split; [exact Hn|]. split; [exact E|]. split; [exact Es|exact Hl].
Qed.
End properties.

(** *** Witness: three rounds in the small system of [System], beside a second task *)
Section witnesses.
#[local] Existing Instance demo_layout.
#[local] Existing Instance demo_uart.
#[local] Existing Instance demo_logger.
#[local] Existing Instance demo_logger_laws.

Lemma first_task_main_goes_round_witness :
  ∃ M' out, nsteps (beat first_task) 3 sys1 M' ∧ current M' = first_task ∧
    sent M' = sent sys1 ++ out ∧ has_lines hello_line 3 out.
Proof.
  destruct (first_task_main_goes_round 2 0 4660 8192 system_state system_booted sys1 first_task 3)
    as [_ HM].
  - exact demo_uart_ready.
  - exact system_power_on.
  - exact system_idle.
  - exact system_boots.
  - exact reach1.
  - vm_compute. reflexivity.
  - exact first_not_idle.
  - vm_compute. reflexivity.
  - assert (Ho : set_Forall (λ u, irqs_on (own_flags sys1 u) = true) (m_created sys1)) by decide_vm.
    intros u Hu _. exact (Ho u Hu).
  - exact HM.
Defined.
End witnesses.
