(* ===== verification/X86.v ===== *)
(** * A small x86 machine

    The instructions the assembly files of the repository use, over registers and
    byte memory. Segments are flat; of the flags that arithmetic sets none is kept,
    since the code reads none. C functions that code calls and the BIOS are
    arguments of the execution. The lemmas run code over a stack of words. *)
From S2P Require Import Prelude Mem Desc.

(** ** The processor *)
Inductive reg : Type :=
| EAX | ECX | EDX | EBX | ESP | EBP | ESI | EDI
| CS | SS | DS | ES | FS | GS | EFLAGS.

Definition reg_index (r : reg) : nat :=
  match r with
  | EAX => 0 | ECX => 1 | EDX => 2 | EBX => 3 | ESP => 4 | EBP => 5 | ESI => 6 | EDI => 7
  | CS => 8 | SS => 9 | DS => 10 | ES => 11 | FS => 12 | GS => 13 | EFLAGS => 14
  end.
Definition reg_eqb (r q : reg) : bool := Nat.eqb (reg_index r) (reg_index q).

Record x86 : Type := X86 { x_reg : reg → Z; x_mem : mem }.

Definition reg_upd (r : reg) (v : Z) (f : reg → Z) (q : reg) : Z :=
  if reg_eqb r q then v else f q.

Definition get_reg (r : reg) : stm x86 Z := λ s, Ok (x_reg s r, s).
Definition set_reg (r : reg) (v : Z) : stm x86 unit := λ s,
  Ok (tt, X86 (reg_upd r v (x_reg s)) (x_mem s)).
Definition on_mem {A} (f : stm mem A) : stm x86 A := λ s,
  match f (x_mem s) with
  | Ok (a, m) => Ok (a, X86 (x_reg s) m)
  | Err e => Err e
  end.

(** Operands; a general register has its parts, [%ax], [%ah] and [%al] of [%eax]. *)
Inductive part : Type := All | Low16 | High8 | Low8.
Inductive operand : Type :=
| Imm (v : Z)
| Reg (p : part) (r : reg)
| Ind (d : Z) (r : reg).

Definition part_of (p : part) (v : Z) : Z :=
  match p with
  | All => v
  | Low16 => u16 v
  | High8 => u8 (Z.shiftr v 8)
  | Low8 => u8 v
  end.
Definition with_part (p : part) (old v : Z) : Z :=
  match p with
  | All => v
  | Low16 => old - u16 old + u16 v
  | High8 => old - 256 * u8 (Z.shiftr old 8) + 256 * u8 v
  | Low8 => old - u8 old + u8 v
  end.

Definition is_seg (r : reg) : bool :=
  match r with CS | SS | DS | ES | FS | GS => true | _ => false end.

Definition read (o : operand) : stm x86 Z :=
  match o with
  | Imm v => mret (u32 v)
  | Reg p r => v ← get_reg r; mret (part_of p v)
  | Ind d r => a ← get_reg r; on_mem (load32 (u32 (a + d)))
  end.

(** A segment register takes 16 bits. *)
Definition write (o : operand) (v : Z) : stm x86 unit :=
  match o with
  | Imm _ => throw Halted
  | Reg p r => if is_seg r then set_reg r (u16 v) else old ← get_reg r; set_reg r (with_part p old v)
  | Ind d r => a ← get_reg r; on_mem (store32 (u32 (a + d)) v)
  end.

(** ** The stack *)

(** Pushing a segment register as 32 bits either extends it with zeros or writes
    the low half of the word only, depending on the processor. *)
Class Processor : Type := push_extends : bool.

Section stack.
Context `{Processor}.

Definition push32 (v : Z) : stm x86 unit :=
  a ← get_reg ESP;
  on_mem (store32 (u32 (a - 4)) v);;
  set_reg ESP (u32 (a - 4)).

Definition push_sel (v : Z) : stm x86 unit :=
  a ← get_reg ESP;
  on_mem (if push_extends then store32 (u32 (a - 4)) v else store16 (u32 (a - 4)) v);;
  set_reg ESP (u32 (a - 4)).

Definition pop32 : stm x86 Z :=
  a ← get_reg ESP;
  v ← on_mem (load32 a);
  set_reg ESP (u32 (a + 4));;
  mret v.

Definition push_reg (r : reg) : stm x86 unit :=
  v ← get_reg r; if is_seg r then push_sel v else push32 v.

Definition pop_reg (r : reg) : stm x86 unit :=
  v ← pop32; set_reg r (if is_seg r then u16 v else v).

Fixpoint push_regs (rs : list reg) : stm x86 unit :=
  match rs with [] => mret tt | r :: rs' => push_reg r;; push_regs rs' end.
Fixpoint pop_regs (rs : list reg) : stm x86 unit :=
  match rs with [] => mret tt | r :: rs' => pop_reg r;; pop_regs rs' end.

(** ** Instructions (source before destination, as in the files) *)
Inductive instr : Type :=
| IMov (src dst : operand)
| IPush (v : Z)
| IPushR (r : reg)
| IPopR (r : reg)
| IPusha
| IPopa
| IAdd (v : Z) (r : reg)
| ICall (f : string)
| IInt (n : Z)
| IJmp (f : string)
| ILjmp (sel : Z) (f : string)
| IRet
| IIret.

(** Where the code goes on: at a label, or at an address from the stack. *)
Inductive flow : Type := To (f : string) | Back (a : Z).

Section exec.
(** The C functions and the BIOS services the code calls, and the return address
    behind a call. *)
Context (call : string → stm x86 unit) (bios : Z → stm x86 unit) (after : string → Z).

Definition exec (i : instr) : stm x86 (option flow) :=
  match i with
  | IMov src dst => v ← read src; write dst v;; mret None
  | IPush v => push32 (u32 v);; mret None
  | IPushR r => push_reg r;; mret None
  | IPopR r => pop_reg r;; mret None
  | IPusha =>
      sp ← get_reg ESP;
      push_regs [EAX; ECX; EDX; EBX];;
      push32 sp;;
      push_regs [EBP; ESI; EDI];;
      mret None
  | IPopa =>
      pop_regs [EDI; ESI; EBP];;
      pop32;;
      pop_regs [EBX; EDX; ECX; EAX];;
      mret None
  | IAdd v r => a ← get_reg r; set_reg r (u32 (a + v));; mret None
  | ICall f => push32 (after f);; call f;; mret None
  | IInt n => bios n;; mret None
  | IJmp f => mret (Some (To f))
  | ILjmp sel f => set_reg CS sel;; mret (Some (To f))
  | IRet => a ← pop32; mret (Some (Back a))
  | IIret =>
      a ← pop32;
      sel ← pop32;
      set_reg CS (u16 sel);;
      flags ← pop32;
      set_reg EFLAGS flags;;
      mret (Some (Back a))
  end.

Fixpoint run_code (l : list instr) : stm x86 (option flow) :=
  match l with
  | [] => mret None
  | i :: l' => o ← exec i; match o with None => run_code l' | Some f => mret (Some f) end
  end.
End exec.

(** The processor's part of an interrupt through a gate of [irq_init]: flags, code
    segment, address and error code on the stack, interrupts off. *)
Definition GATE_CLEARS : Z := 256 + 512 + 16384 + 65536 + 131072.

Definition deliver (err : option Z) (eip : Z) : stm x86 unit :=
  flags ← get_reg EFLAGS;
  push32 flags;;
  push_reg CS;;
  push32 eip;;
  match err with Some c => push32 c | None => mret tt end;;
  set_reg CS KERNEL_SELECTOR_CS;;
  set_reg EFLAGS (Z.ldiff flags GATE_CLEARS).
End stack.

(** ** Parts of registers *)
Lemma low16_read old v : u16 (old - u16 old + u16 v) = u16 v.
Proof. unfold u16. Z.to_euclidean_division_equations. lia. Qed.

Lemma high8_written old v : u8 (Z.shiftr (with_part High8 old v) 8) = u8 v.
Proof.
  cbn. unfold u8. rewrite !Z.shiftr_div_pow2 by lia. change (2 ^ 8) with 256.
  Z.to_euclidean_division_equations. lia.
Qed.

Lemma low8_written old v : u8 (with_part Low8 old v) = u8 v.
Proof. cbn. unfold u8. Z.to_euclidean_division_equations. lia. Qed.

Lemma high8_kept old v : u8 (Z.shiftr (with_part Low8 old v) 8) = u8 (Z.shiftr old 8).
Proof.
  cbn. unfold u8. rewrite !Z.shiftr_div_pow2 by lia. change (2 ^ 8) with 256.
  Z.to_euclidean_division_equations. lia.
Qed.

(** ** The stack, as words *)
Fixpoint words_at (m : mem) (a : Z) (ws : list Z) : Prop :=
  match ws with [] => True | w :: ws' => word_at m a w ∧ words_at m (a + 4) ws' end.

Definition len (ws : list Z) : Z := Z.of_nat (length ws).

(** The words [ws] are on the stack that grows down from [top]; there is room down
    to [lo]. *)
Record stacked (lo top : Z) (ws : list Z) (s : x86) : Prop := {
  st_esp : x_reg s ESP = top - 4 * len ws;
  st_words : words_at (x_mem s) (top - 4 * len ws) ws;
  st_mapped : mapped (x_mem s) lo (top - lo);
  st_bytes : bytes_ok (x_mem s);
  st_lo : 0 ≤ lo ≤ top - 4 * len ws;
  st_top : top < 2 ^ 32
}.

(** What a register gets from a word it is popped from. *)
Definition popped (r : reg) (w : Z) : Z := if is_seg r then u16 w else w.

(** Values the registers can have. *)
Definition regs_ok (f : reg → Z) : Prop := ∀ r, if is_seg r then is_u16 (f r) else is_u32 (f r).

#[export] Instance reg_eq_dec : EqDecision reg.
Proof. solve_decision. Defined.

Section steps.
Context `{Processor}.
Implicit Types (s : x86) (ws : list Z) (r : reg) (m : mem).

Lemma reg_upd_same r v f : reg_upd r v f r = v.
Proof. unfold reg_upd, reg_eqb. by rewrite Nat.eqb_refl. Qed.

Lemma reg_upd_other r q v f : r ≠ q → reg_upd r v f q = f q.
Proof.
  unfold reg_upd, reg_eqb. intros Hne. destruct (Nat.eqb_spec (reg_index r) (reg_index q)) as [E|]; [|done].
  destruct Hne. by destruct r, q.
Qed.

Lemma words_at_agree m m' a ws :
  words_at m a ws → agree m m' a (4 * len ws) → words_at m' a ws.
Proof.
  revert a. induction ws as [|w ws IH]; intros a; [done|]. unfold len. cbn [words_at length].
  intros [Hw Hs] Ha. split.
  - apply (word_at_agree m); [done|]. apply (agree_sub _ _ _ _ _ _ Ha); lia.
  - apply IH; [done|]. unfold len. apply (agree_sub _ _ _ _ _ _ Ha); lia.
Qed.

Lemma words_at_lookup m a ws i w :
  words_at m a ws → ws !! i = Some w → word_at m (a + 4 * Z.of_nat i) w.
Proof.
  revert a i. induction ws as [|v ws IH]; intros a i; [done|]. intros [Hv Hs]. destruct i as [|i]; cbn.
  - intros [= <-]. by replace (a + 4 * Z.of_nat 0) with a by lia.
  - intros Hi. replace (a + 4 * Z.of_nat (S i)) with (a + 4 + 4 * Z.of_nat i) by lia. by apply IH.
Qed.

(** A store below the words on the stack. *)
Lemma store_below lo top ws s m v :
  stacked lo top ws s → is_u32 v → lo ≤ top - 4 * len ws - 4 →
  m = write_bytes (x_mem s) (top - 4 * len ws - 4) (le32 v) →
  stacked lo top (v :: ws) (X86 (reg_upd ESP (top - 4 * len ws - 4) (x_reg s)) m) ∧
  ∀ x, ¬ (lo ≤ x < top) → m !! x = x_mem s !! x.
Proof.
  intros [He Hw Hm Hb Hl Ht] Hv Hlo ->.
  assert (El : len (v :: ws) = len ws + 1) by (unfold len; cbn; lia).
  assert (0 ≤ len ws) by (unfold len; lia).
  split; [split; rewrite ?El; cbn [x_reg x_mem]|].
  - rewrite reg_upd_same. lia.
  - cbn [words_at]. replace (top - 4 * (len ws + 1)) with (top - 4 * len ws - 4) by lia.
    split; [by apply word_write_same|].
    replace (top - 4 * len ws - 4 + 4) with (top - 4 * len ws) by lia.
    apply (words_at_agree (x_mem s)); [done|]. apply agree_write. cbn. lia.
  - by apply write_bytes_mapped.
  - apply bytes_ok_write; [done|apply le32_u8].
  - lia.
  - done.
  - intros x Hx. apply write_bytes_outside. cbn. lia.
Qed.

Lemma get_reg_ok r s : get_reg r s = Ok (x_reg s r, s).
Proof. done. Qed.

Lemma set_reg_ok r v s : set_reg r v s = Ok (tt, X86 (reg_upd r v (x_reg s)) (x_mem s)).
Proof. done. Qed.

Lemma on_memory_ok {A} (f : stm mem A) s a m : f (x_mem s) = Ok (a, m) → on_mem f s = Ok (a, X86 (x_reg s) m).
Proof. intros E. unfold on_mem. by rewrite E. Qed.

Lemma push32_ok lo top ws s v :
  stacked lo top ws s → is_u32 v → lo ≤ top - 4 * len ws - 4 →
  ∃ m, push32 v s = Ok (tt, X86 (reg_upd ESP (top - 4 * len ws - 4) (x_reg s)) m) ∧
    stacked lo top (v :: ws) (X86 (reg_upd ESP (top - 4 * len ws - 4) (x_reg s)) m) ∧
    ∀ x, ¬ (lo ≤ x < top) → m !! x = x_mem s !! x.
Proof.
  intros Hs Hv Hlo. eexists. split; [|by eapply store_below]. destruct Hs as [He Hw Hm Hb Hl Ht].
  assert (0 ≤ len ws) by (unfold len; lia).
  unfold push32. stm_step (get_reg_ok ESP s). rewrite He, u32_id by lia.
  stm_step (on_memory_ok _ s _ _ (store32_ok (x_mem s) (top - 4 * len ws - 4) v ltac:(intros x Hx; apply Hm; lia))).
  apply set_reg_ok.
Qed.

(** The low half of a word. *)
Lemma le32_halves v b2 b3 :
  is_u16 v → is_u8 b2 → is_u8 b3 →
  is_u32 (v + 2 ^ 16 * b2 + 2 ^ 24 * b3) ∧ u16 (v + 2 ^ 16 * b2 + 2 ^ 24 * b3) = v ∧
  le32 (v + 2 ^ 16 * b2 + 2 ^ 24 * b3) = le16 v ++ [b2; b3].
Proof.
  unfold is_u16, is_u8, is_u32, le32, le16, u8, u16. intros Hv H2 H3. split; [lia|].
  rewrite !Z.shiftr_div_pow2 by lia. cbn [app].
  change (2 ^ 8) with 256 in *. change (2 ^ 16) with 65536 in *. change (2 ^ 24) with 16777216.
  set (w := v + 65536 * b2 + 16777216 * b3). split; [subst w; Z.to_euclidean_division_equations; lia|].
  assert (w mod 256 = v mod 256) as -> by (subst w; Z.to_euclidean_division_equations; lia).
  assert (w / 256 mod 256 = v / 256 mod 256) as ->.
  { replace w with (v + (b2 + 256 * b3) * 256 * 256) by (subst w; lia).
    rewrite Z.div_add, Z.mod_add by lia. done. }
  assert (w / 65536 = b2 + 256 * b3) as E2 by (subst w; Z.to_euclidean_division_equations; lia).
  assert (w / 16777216 = b3) as -> by (subst w; Z.to_euclidean_division_equations; lia).
  rewrite E2. do 2 f_equal. f_equal; [|f_equal]; Z.to_euclidean_division_equations; lia.
Qed.

Lemma word_exists m a : mapped m a 4 → bytes_ok m → ∃ w, word_at m a w.
Proof.
  intros Hm Hb. destruct (Hm a ltac:(lia)) as [b0 E0]. destruct (Hm (a + 1) ltac:(lia)) as [b1 E1].
  destruct (Hm (a + 2) ltac:(lia)) as [b2 E2]. destruct (Hm (a + 3) ltac:(lia)) as [b3 E3].
  pose proof (Hb _ _ E0) as H0. pose proof (Hb _ _ E1) as H1. unfold is_u8 in H0, H1.
  destruct (le32_halves (b0 + 256 * b1) b2 b3) as (Hw & _ & El);
    [unfold is_u16; lia|by apply (Hb (a + 2))|by apply (Hb (a + 3))|].
  eexists. split; [exact Hw|]. rewrite El. unfold le16, u8. rewrite Z.shiftr_div_pow2 by lia.
  change (2 ^ 8) with 256 in *.
  assert ((b0 + 256 * b1) mod 256 = b0) as -> by (Z.to_euclidean_division_equations; lia).
  assert ((b0 + 256 * b1) / 256 mod 256 = b1) as -> by (Z.to_euclidean_division_equations; lia).
  cbn [app bytes_at]. replace (a + 1 + 1) with (a + 2) by lia. replace (a + 2 + 1) with (a + 3) by lia.
  done.
Qed.

Lemma store16_word m a v :
  mapped m a 4 → bytes_ok m → is_u16 v →
  ∃ w, is_u32 w ∧ u16 w = v ∧ store16 a v m = Ok (tt, write_bytes m a (le32 w)).
Proof.
  intros Hm Hb Hv. destruct (Hm (a + 2) ltac:(lia)) as [b2 E2]. destruct (Hm (a + 3) ltac:(lia)) as [b3 E3].
  destruct (le32_halves v b2 b3 Hv (Hb _ _ E2) (Hb _ _ E3)) as (Hw & Hu & El).
  eexists. split; [exact Hw|]. split; [exact Hu|]. rewrite El, write_bytes_app.
  rewrite store16_ok by (by apply (mapped_le _ _ 4); [|lia]). do 2 f_equal. symmetry. apply write_bytes_self.
  cbn [length le16 bytes_at]. replace (a + Z.of_nat 2 + 1) with (a + 3) by lia.
  change (Z.of_nat 2) with 2. rewrite !write_bytes_outside by (cbn; lia). by rewrite E2, E3.
Qed.

Lemma push_reg_ok lo top ws s r :
  stacked lo top ws s → (if is_seg r then is_u16 (x_reg s r) else is_u32 (x_reg s r)) →
  lo ≤ top - 4 * len ws - 4 →
  ∃ w m, push_reg r s = Ok (tt, X86 (reg_upd ESP (top - 4 * len ws - 4) (x_reg s)) m) ∧
    is_u32 w ∧ popped r w = x_reg s r ∧
    stacked lo top (w :: ws) (X86 (reg_upd ESP (top - 4 * len ws - 4) (x_reg s)) m) ∧
    ∀ x, ¬ (lo ≤ x < top) → m !! x = x_mem s !! x.
Proof.
  intros Hs Hr Hlo. unfold push_reg, popped. stm_step (get_reg_ok r s).
  destruct (is_seg r).
  2: { destruct (push32_ok lo top ws s (x_reg s r) Hs Hr Hlo) as (m & E & Hs' & Ho). by exists (x_reg s r), m. }
  destruct Hs as [He Hw Hm Hb Hl Ht] eqn:EHs. clear EHs.
  assert (0 ≤ len ws) by (unfold len; lia).
  assert (Hroom : mapped (x_mem s) (top - 4 * len ws - 4) 4) by (intros x Hx; apply Hm; lia).
  assert (∃ w, is_u32 w ∧ u16 w = x_reg s r ∧
    (if push_extends then store32 (u32 (x_reg s ESP - 4)) (x_reg s r)
     else store16 (u32 (x_reg s ESP - 4)) (x_reg s r)) (x_mem s) =
      Ok (tt, write_bytes (x_mem s) (top - 4 * len ws - 4) (le32 w))) as (w & Hw32 & Hu & E).
  { rewrite He, u32_id by lia. destruct push_extends.
    - exists (x_reg s r). unfold is_u16 in Hr. split; [unfold is_u32; lia|]. split; [apply u16_id; lia|].
      by apply store32_ok.
    - by apply store16_word. }
  exists w. eexists. split.
  { unfold push_sel. stm_step (get_reg_ok ESP s). stm_step (on_memory_ok _ s _ _ E).
    rewrite set_reg_ok. cbn [x_reg x_mem]. by rewrite He, u32_id by lia. }
  split; [done|]. split; [done|]. by eapply store_below.
Qed.

(** The stack [ws] of a run from [s0] that has changed no register but the stack
    pointer and nothing outside the stack. *)
Record on_stack (lo top : Z) (s0 : x86) ws s : Prop := {
  os_stacked : stacked lo top ws s;
  os_regs : ∀ r, r ≠ ESP → x_reg s r = x_reg s0 r;
  os_outside : ∀ x, ¬ (lo ≤ x < top) → x_mem s !! x = x_mem s0 !! x
}.

Lemma on_stack_push lo top s0 ws s v m :
  on_stack lo top s0 ws s →
  let s' := X86 (reg_upd ESP (top - 4 * len ws - 4) (x_reg s)) m in
  stacked lo top (v :: ws) s' → (∀ x, ¬ (lo ≤ x < top) → m !! x = x_mem s !! x) →
  on_stack lo top s0 (v :: ws) s'.
Proof.
  intros [Hs Hr Ho] s' Hs' Ho'. split; [done| |].
  - intros r Hne. cbn. rewrite reg_upd_other by done. by apply Hr.
  - intros x Hx. cbn. by rewrite Ho', Ho.
Qed.

Lemma push32_on lo top s0 ws s v :
  on_stack lo top s0 ws s → is_u32 v → lo ≤ top - 4 * len ws - 4 →
  ∃ s', push32 v s = Ok (tt, s') ∧ on_stack lo top s0 (v :: ws) s'.
Proof.
  intros Hs Hv Hlo. destruct (push32_ok lo top ws s v (os_stacked _ _ _ _ _ Hs) Hv Hlo) as (m & E & Hs' & Ho).
  eexists. split; [exact E|]. by apply on_stack_push.
Qed.

Lemma push_reg_on lo top s0 ws s r :
  on_stack lo top s0 ws s → regs_ok (x_reg s0) → r ≠ ESP → lo ≤ top - 4 * len ws - 4 →
  ∃ w s', push_reg r s = Ok (tt, s') ∧ is_u32 w ∧ popped r w = x_reg s0 r ∧
    on_stack lo top s0 (w :: ws) s'.
Proof.
  intros Hs Hok Hne Hlo. pose proof Hs as [Hst Hr _].
  destruct (push_reg_ok lo top ws s r Hst) as (w & m & E & Hw & Hp & Hs' & Ho); [|done|].
  - rewrite Hr by done. apply Hok.
  - rewrite Hr in Hp by done. exists w. eexists. split; [exact E|]. split; [done|]. split; [done|].
    by apply on_stack_push.
Qed.

Lemma push_regs_on lo top s0 rs : ∀ ws s,
  on_stack lo top s0 ws s → regs_ok (x_reg s0) → ESP ∉ rs →
  lo ≤ top - 4 * len ws - 4 * Z.of_nat (length rs) →
  ∃ l s', push_regs rs s = Ok (tt, s') ∧ Forall is_u32 l ∧
    Forall2 (λ r w, popped r w = x_reg s0 r) rs l ∧ on_stack lo top s0 (rev l ++ ws) s'.
Proof.
  induction rs as [|r rs IH]; intros ws s Hs Hok Hne Hlo.
  - exists [], s. by split_and!.
  - apply not_elem_of_cons in Hne as [Hr Hne]. cbn [length] in Hlo.
    destruct (push_reg_on lo top s0 ws s r Hs Hok) as (w & s1 & E1 & Hw & Hp & Hs1); [done|lia|].
    destruct (IH (w :: ws) s1 Hs1 Hok Hne) as (l & s2 & E2 & Hl & Hf & Hs2).
    { unfold len in *. cbn [length]. lia. }
    exists (w :: l), s2. cbn [push_regs rev]. stm_step E1. rewrite E2. split; [done|].
    split; [by constructor|]. split; [by constructor|]. by rewrite <-app_assoc.
Qed.

(** ** Popping *)
Lemma pop32_ok lo top ws s v :
  stacked lo top (v :: ws) s →
  pop32 s = Ok (v, X86 (reg_upd ESP (top - 4 * len ws) (x_reg s)) (x_mem s)) ∧
  stacked lo top ws (X86 (reg_upd ESP (top - 4 * len ws) (x_reg s)) (x_mem s)).
Proof.
  intros [He [Hv Hw] Hm Hb Hl Ht]. assert (El : len (v :: ws) = len ws + 1) by (unfold len; cbn; lia).
  assert (0 ≤ len ws) by (unfold len; lia). rewrite El in *. split.
  - unfold pop32. stm_step (get_reg_ok ESP s). rewrite He. stm_step (on_memory_ok _ s _ _ (word_load _ _ _ Hv)).
    replace (top - 4 * (len ws + 1) + 4) with (top - 4 * len ws) by lia. by rewrite u32_id by lia.
  - split; cbn [x_reg x_mem]; [apply reg_upd_same| |done|done|lia|done].
    by replace (top - 4 * len ws) with (top - 4 * (len ws + 1) + 4) by lia.
Qed.

(** Popping registers that were pushed with the values [f]. *)
Lemma pop_regs_ok lo top (f : reg → Z) ws rs : ∀ l s,
  stacked lo top (l ++ ws) s → Forall2 (λ r w, popped r w = f r) rs l → ESP ∉ rs → NoDup rs →
  ∃ s', pop_regs rs s = Ok (tt, s') ∧ stacked lo top ws s' ∧ x_mem s' = x_mem s ∧
    ∀ r, r ≠ ESP → x_reg s' r = if decide (r ∈ rs) then f r else x_reg s r.
Proof.
  induction rs as [|r rs IH]; intros l s Hs Hf Hne Hnd.
  - apply Forall2_nil_inv_l in Hf as ->. exists s. split; [done|]. split; [done|]. split; [done|].
    intros q _. rewrite decide_False; [done|]. apply not_elem_of_nil.
  - apply Forall2_cons_inv_l in Hf as (w & l' & Hw & Hf & ->).
    apply not_elem_of_cons in Hne as [Hr Hne]. apply NoDup_cons in Hnd as [Hin Hnd].
    destruct (pop32_ok lo top (l' ++ ws) s w Hs) as [E Hs1].
    set (s1 := X86 _ _) in E.
    set (s2 := X86 (reg_upd r (f r) (x_reg s1)) (x_mem s1)).
    assert (Hs2 : stacked lo top (l' ++ ws) s2).
    { destruct Hs1 as [He H1 H2 H3 H4 H5]. split; try done. cbn [s2 x_reg]. by rewrite reg_upd_other. }
    destruct (IH l' s2 Hs2 Hf Hne Hnd) as (s' & E' & Hs' & Em & Hregs).
    exists s'. split; [|split; [done|split; [by rewrite Em|]]].
    + cbn [pop_regs]. unfold pop_reg. rewrite stm_bind_assoc. stm_step E. cbn beta.
      fold (popped r w). rewrite Hw. by stm_step (set_reg_ok r (f r) s1).
    + intros q Hq. rewrite Hregs by done. cbn [s2 s1 x_reg].
      destruct (decide (q = r)) as [->|Hqr].
      * rewrite decide_False by done. rewrite decide_True by left. apply reg_upd_same.
      * rewrite !reg_upd_other by done. destruct (decide (q ∈ rs)).
        -- by rewrite decide_True by by right.
        -- rewrite decide_False; [done|]. by rewrite not_elem_of_cons.
Qed.

Lemma stacked_reg lo top ws s r v :
  r ≠ ESP → stacked lo top ws s → stacked lo top ws (X86 (reg_upd r v (x_reg s)) (x_mem s)).
Proof. intros Hr [He ? ? ? ? ?]. split; try done. cbn. by rewrite reg_upd_other. Qed.

(** Reading the [i]-th word of the stack. *)
Lemma read_stack lo top ws s (i : nat) w :
  stacked lo top ws s → ws !! i = Some w → 
  on_mem (load32 (u32 (x_reg s ESP + 4 * Z.of_nat i))) s = Ok (w, s).
Proof.
  intros [He Hw _ _ Hl Ht] Hi. apply lookup_lt_Some in Hi as Hlt.
  rewrite u32_id by (rewrite He; unfold len in *; lia).
  rewrite (on_memory_ok _ s w (x_mem s)); [by destruct s|].
  apply word_load. rewrite He. by apply (words_at_lookup _ _ ws).
Qed.

(** ** Running code *)
Context (call : string → stm x86 unit) (bios : Z → stm x86 unit) (after : string → Z).
Implicit Types (l : list instr).

#[local] Abbreviation execute := (exec call bios after).
#[local] Abbreviation run := (run_code call bios after).

Lemma run_next i l s s' : execute i s = Ok (None, s') → run (i :: l) s = run l s'.
Proof. intros E. cbn [run_code]. by stm_step E. Qed.

Lemma run_pushes rs l : ∀ s s', push_regs rs s = Ok (tt, s') → run ((IPushR <$> rs) ++ l) s = run l s'.
Proof.
  induction rs as [|r rs IH]; intros s s'; [by intros [= ->]|]. cbn [push_regs]. intros E.
  apply stm_bind_inv in E as ([] & s1 & E1 & E). cbn [fmap list_fmap app].
  rewrite (run_next _ _ s s1); [by apply IH|]. cbn [exec]. by stm_step E1.
Qed.

Lemma run_pops rs l : ∀ s s', pop_regs rs s = Ok (tt, s') → run ((IPopR <$> rs) ++ l) s = run l s'.
Proof.
  induction rs as [|r rs IH]; intros s s'; [by intros [= ->]|]. cbn [pop_regs]. intros E.
  apply stm_bind_inv in E as ([] & s1 & E1 & E). cbn [fmap list_fmap app].
  rewrite (run_next _ _ s s1); [by apply IH|]. cbn [exec]. by stm_step E1.
Qed.

Lemma stacked_drop lo top ws1 ws s :
  stacked lo top (ws1 ++ ws) s →
  stacked lo top ws (X86 (reg_upd ESP (top - 4 * len ws) (x_reg s)) (x_mem s)).
Proof.
  assert (Hw : ∀ a, words_at (x_mem s) a (ws1 ++ ws) → words_at (x_mem s) (a + 4 * len ws1) ws).
  { unfold len. induction ws1 as [|w ws1 IH]; intros a; cbn [app words_at length].
    - by replace (a + 4 * Z.of_nat 0) with a by lia.
    - intros [_ Hs]. apply IH in Hs. by replace (a + 4 * Z.of_nat (S (length ws1)))
        with (a + 4 + 4 * Z.of_nat (length ws1)) by lia. }
  intros [He Hs Hm Hb Hl Ht]. apply Hw in Hs.
  assert (El : len (ws1 ++ ws) = len ws1 + len ws) by (unfold len; rewrite length_app; lia).
  assert (0 ≤ len ws1 ∧ 0 ≤ len ws) by (unfold len; lia). rewrite El in *.
  split; cbn [x_reg x_mem]; [apply reg_upd_same| |done|done|lia|done].
  by replace (top - 4 * len ws) with (top - 4 * (len ws1 + len ws) + 4 * len ws1) by lia.
Qed.

(** [add $n, %esp] over [ws1]. *)
Lemma run_add_esp lo top ws1 ws l s n :
  stacked lo top (ws1 ++ ws) s → n = 4 * len ws1 →
  ∃ s', run (IAdd n ESP :: l) s = run l s' ∧ stacked lo top ws s' ∧ x_mem s' = x_mem s ∧
    ∀ r, r ≠ ESP → x_reg s' r = x_reg s r.
Proof.
  intros Hs ->. pose proof (stacked_drop _ _ _ _ _ Hs) as Hs'. eexists. split; [|split; [exact Hs'|split; [done|]]].
  - apply run_next. cbn [exec]. stm_step (get_reg_ok ESP s). destruct Hs as [He _ _ _ Hl Ht].
    assert (El : len (ws1 ++ ws) = len ws1 + len ws) by (unfold len; rewrite length_app; lia).
    assert (0 ≤ len ws1 ∧ 0 ≤ len ws) by (unfold len; lia). rewrite El in *.
    rewrite He. replace (top - 4 * (len ws1 + len ws) + 4 * len ws1) with (top - 4 * len ws) by lia.
    rewrite u32_id by lia. by stm_step (set_reg_ok ESP (top - 4 * len ws) s).
  - intros r Hr. cbn. by rewrite reg_upd_other.
Qed.

Lemma run_popa lo top (f : reg → Z) di si bp sp bx dx cx ax ws l s :
  stacked lo top (di :: si :: bp :: sp :: bx :: dx :: cx :: ax :: ws) s →
  di = f EDI → si = f ESI → bp = f EBP → bx = f EBX → dx = f EDX → cx = f ECX → ax = f EAX →
  ∃ s', run (IPopa :: l) s = run l s' ∧ stacked lo top ws s' ∧ x_mem s' = x_mem s ∧
    ∀ r, r ≠ ESP → x_reg s' r =
      if decide (r ∈ [EDI; ESI; EBP; EBX; EDX; ECX; EAX]) then f r else x_reg s r.
Proof.
  intros Hs -> -> -> -> -> -> ->.
  destruct (pop_regs_ok lo top f (sp :: f EBX :: f EDX :: f ECX :: f EAX :: ws) [EDI; ESI; EBP]
    [f EDI; f ESI; f EBP] s Hs) as (s1 & E1 & Hs1 & Em1 & Hr1); [by repeat constructor|decide_vm|decide_vm|].
  destruct (pop32_ok lo top _ s1 sp Hs1) as [E2 Hs2]. set (s2 := X86 _ _) in E2, Hs2.
  destruct (pop_regs_ok lo top f ws [EBX; EDX; ECX; EAX] [f EBX; f EDX; f ECX; f EAX] s2 Hs2)
    as (s3 & E3 & Hs3 & Em3 & Hr3); [by repeat constructor|decide_vm|decide_vm|].
  exists s3. split; [|split; [done|split; [by rewrite Em3|]]].
  - apply run_next. cbn [exec]. stm_step E1. stm_step E2. by stm_step E3.
  - intros r Hr. rewrite Hr3 by done. cbn [s2 x_reg]. rewrite reg_upd_other, Hr1 by done.
    by destruct r.
Qed.

Lemma run_iret lo top eip w fl ws l s :
  stacked lo top (eip :: w :: fl :: ws) s →
  ∃ s', run (IIret :: l) s = Ok (Some (Back eip), s') ∧ stacked lo top ws s' ∧ x_mem s' = x_mem s ∧
    x_reg s' CS = u16 w ∧ x_reg s' EFLAGS = fl ∧
    ∀ r, r ≠ ESP → r ≠ CS → r ≠ EFLAGS → x_reg s' r = x_reg s r.
Proof.
  intros Hs. destruct (pop32_ok lo top _ s eip Hs) as [E1 Hs1]. set (s1 := X86 _ _) in E1, Hs1.
  destruct (pop32_ok lo top _ s1 w Hs1) as [E2 Hs2]. set (s2 := X86 _ _) in E2, Hs2.
  set (s3 := X86 (reg_upd CS (u16 w) (x_reg s2)) (x_mem s2)).
  assert (Hs3 : stacked lo top (fl :: ws) s3) by (destruct Hs2; by split).
  destruct (pop32_ok lo top _ s3 fl Hs3) as [E4 Hs4]. set (s4 := X86 _ _) in E4, Hs4.
  exists (X86 (reg_upd EFLAGS fl (x_reg s4)) (x_mem s4)). split_and!; try done.
  - cbn [run_code exec]. rewrite stm_bind_assoc. stm_step E1. rewrite stm_bind_assoc. stm_step E2.
    rewrite stm_bind_assoc. stm_step (set_reg_ok CS (u16 w) s2). fold s3.
    rewrite stm_bind_assoc. by stm_step E4.
  - destruct Hs4. by split.
  - intros r H1 H2 H3. by destruct r.
Qed.

Lemma run_call f l s s1 :
  push32 (after f) s = Ok (tt, s1) → run (ICall f :: l) s = (call f;; run l) s1.
Proof.
  intros E. cbn [run_code exec]. unfold mbind, stm_bind. rewrite E.
  by destruct (call f s1) as [[[] s2]|].
Qed.
End steps.
