(* ===== verification/Asm.v ===== *)
(** * Assembly (kernel/init/start.S, kernel/init/first_task_entry.S,
    loader/start.S, boot/start.S)

    The entry points of the interrupts, which save the registers in an
    [exception_frame_t] and restore them, the start of the kernel, the switch of
    stacks, and the entries of the boot sector, the loader and the first task. *)
From S2P Require Import Prelude Mem Klib DList CpuInstr Desc Kernel Queues ListRef Demo Sched Irq X86.

Definition KERNEL_STACK_SIZE : Z := 8 * 1024.

(** ** The code *)

(** The macro [exception_handler] of start.S, with its call and what follows. *)
Definition exception_enter (num : Z) (with_error_code : bool) : list instr :=
  (if with_error_code then [] else [IPush 0]) ++
  [IPush num; IPusha; IPushR DS; IPushR ES; IPushR FS; IPushR GS; IPushR ESP].
Definition exception_leave : list instr :=
  [IAdd (1 * 4) ESP; IPopR GS; IPopR FS; IPopR ES; IPopR DS; IPopa; IAdd (2 * 4) ESP; IIret].
Definition exception_handler (name : string) (num : Z) (with_error_code : bool) : list instr :=
  exception_enter num with_error_code ++ [ICall ("do_handler_" ++ name)] ++ exception_leave.

(** Its uses. *)
Definition exception_stub (e : entry) : string * Z * bool :=
  match e with
  | exception_handler_unknown => ("unknown", -1, false)
  | exception_handler_divider => ("divider", 0, false)
  | exception_handler_Debug => ("Debug", 1, false)
  | exception_handler_NMI => ("NMI", 2, false)
  | exception_handler_breakpoint => ("breakpoint", 3, false)
  | exception_handler_overflow => ("overflow", 4, false)
  | exception_handler_bound_range => ("bound_range", 5, false)
  | exception_handler_invalid_opcode => ("invalid_opcode", 6, false)
  | exception_handler_device_unavailable => ("device_unavailable", 7, false)
  | exception_handler_double_fault => ("double_fault", 8, true)
  | exception_handler_invalid_tss => ("invalid_tss", 10, true)
  | exception_handler_segment_not_present => ("segment_not_present", 11, true)
  | exception_handler_stack_segment_fault => ("stack_segment_fault", 12, true)
  | exception_handler_general_protection => ("general_protection", 13, true)
  | exception_handler_page_fault => ("page_fault", 14, true)
  | exception_handler_fpu_error => ("fpu_error", 16, false)
  | exception_handler_alignment_check => ("alignment_check", 17, true)
  | exception_handler_machine_check => ("machine_check", 18, false)
  | exception_handler_smd_exception => ("smd_exception", 19, false)
  | exception_handler_virtual_exception => ("virtual_exception", 20, false)
  | exception_handler_time => ("time", 32, false)
  end%string.

Definition entry_code (e : entry) : list instr :=
  let '(name, num, b) := exception_stub e in exception_handler name num b.

(** [_start] of the kernel, in two parts: the far jump to [gdt_reload] comes between
    them. [stack] is the address of the kernel stack. *)
Definition kernel_entry : list instr :=
  [IPushR EBP; IMov (Reg All ESP) (Reg All EBP); IMov (Ind 8 EBP) (Reg All EAX);
   IPushR EAX; ICall "kernel_init"; ILjmp KERNEL_SELECTOR_CS "gdt_reload"].
Definition gdt_reload (stack : Z) : list instr :=
  [IMov (Imm KERNEL_SELECTOR_DS) (Reg Low16 EAX);
   IMov (Reg Low16 EAX) (Reg All DS); IMov (Reg Low16 EAX) (Reg All SS);
   IMov (Reg Low16 EAX) (Reg All ES); IMov (Reg Low16 EAX) (Reg All FS);
   IMov (Reg Low16 EAX) (Reg All GS);
   IMov (Imm stack) (Reg All EAX); IAdd KERNEL_STACK_SIZE EAX;
   IMov (Reg All EAX) (Reg All ESP); IJmp "init_main"].

(** [simple_switch (from, to)] *)
Definition simple_switch : list instr :=
  [IMov (Ind 4 ESP) (Reg All EAX); IMov (Ind 8 ESP) (Reg All EDX);
   IPushR EBP; IPushR EBX; IPushR ESI; IPushR EDI;
   IMov (Reg All ESP) (Ind 0 EAX);
   IMov (Reg All EDX) (Reg All ESP);
   IPopR EDI; IPopR ESI; IPopR EBX; IPopR EBP; IRet].

(** first_task_entry.S *)
Definition first_task_entry : list instr :=
  [IMov (Reg All SS) (Reg Low16 EAX);
   IMov (Reg Low16 EAX) (Reg All DS); IMov (Reg Low16 EAX) (Reg All ES);
   IMov (Reg Low16 EAX) (Reg All FS); IMov (Reg Low16 EAX) (Reg All GS);
   IJmp "first_task_main"].

(** loader/start.S *)
Definition protected_mode_code : list instr :=
  [IMov (Imm 16) (Reg Low16 EAX);
   IMov (Reg Low16 EAX) (Reg All DS); IMov (Reg Low16 EAX) (Reg All SS);
   IMov (Reg Low16 EAX) (Reg All ES); IMov (Reg Low16 EAX) (Reg All FS);
   IMov (Reg Low16 EAX) (Reg All GS); ILjmp 8 "load_kernel"].

(** boot/start.S: [_start] up to the label [read_loader], the read behind it, and
    the loop [jc read_loader]; [start] is the address the sector is loaded at. *)
Definition boot_start (start : Z) : list instr :=
  [IMov (Imm 0) (Reg Low16 EAX);
   IMov (Reg Low16 EAX) (Reg All DS); IMov (Reg Low16 EAX) (Reg All SS);
   IMov (Reg Low16 EAX) (Reg All ES); IMov (Reg Low16 EAX) (Reg All FS);
   IMov (Reg Low16 EAX) (Reg All GS);
   IMov (Imm start) (Reg All ESP);
   IMov (Imm 14) (Reg High8 EAX); IMov (Imm 100) (Reg Low8 EAX);
   IMov (Imm 0) (Reg High8 EBX); IMov (Imm 7) (Reg Low8 EBX); IInt 16].
Definition read_loader : list instr :=
  [IMov (Imm 32768) (Reg Low16 EBX); IMov (Imm 2) (Reg High8 EAX);
   IMov (Imm 2) (Reg Low16 ECX); IMov (Imm 64) (Reg Low8 EAX);
   IMov (Imm 128) (Reg Low16 EDX); IInt 19].

(** [bios i] is the answer of the BIOS to the [i]-th interrupt. *)
Section boot_sector.
Context `{Processor} (bios : nat → Z → stm x86 unit).

Definition no_call : string → stm x86 unit := λ _, throw Halted.
Definition straight (i : nat) (l : list instr) : stm x86 (option flow) :=
  run_code no_call (bios i) (λ _, 0) l.

Fixpoint read_loop (fuel i : nat) : stm x86 (option flow) :=
  match fuel with
  | O => throw OutOfFuel
  | S f =>
      straight i read_loader;;
      flags ← get_reg EFLAGS;
      if Z.testbit flags 0 then read_loop f (S i) else mret (Some (To "boot_entry"))
  end.

Definition boot_sector (start : Z) (attempts : nat) : stm x86 (option flow) :=
  straight 0 (boot_start start);; read_loop attempts 1.
End boot_sector.

Section stubs.
Context `{Processor} (call : string → stm x86 unit) (bios : Z → stm x86 unit) (after : string → Z).
Implicit Types (s : x86) (ws : list Z) (l : list instr).

#[local] Abbreviation run := (run_code call bios after).

(** ** Entering a handler *)

(** The interrupted state, as the processor leaves it to the entry point. *)
Definition interrupted s : x86 :=
  X86 (reg_upd EFLAGS (Z.ldiff (x_reg s EFLAGS) GATE_CLEARS) (reg_upd CS KERNEL_SELECTOR_CS (x_reg s)))
    (x_mem s).

Lemma flags_range v : is_u32 v → is_u32 (Z.ldiff v GATE_CLEARS).
Proof.
  unfold is_u32. intros Hv. enough (0 ≤ Z.ldiff v GATE_CLEARS ≤ v) by lia.
  apply Z.ldiff_le; [lia|]. apply Z.bits_inj'. intros n _. rewrite !Z.ldiff_spec, Z.bits_0.
  destruct (Z.testbit v n); [by rewrite andb_false_r|done].
Qed.

Lemma interrupted_ok s : regs_ok (x_reg s) → regs_ok (x_reg (interrupted s)).
Proof.
  intros Hr r. specialize (Hr r). destruct r; try exact Hr; cbn; [|by apply flags_range].
  unfold is_u16, KERNEL_SELECTOR_CS. lia.
Qed.

(** The words the processor pushes. *)
Definition gate_words (err : option Z) (eip wcs fl : Z) : list Z :=
  match err with Some c => [c] | None => [] end ++ [eip; wcs; fl].

Lemma deliver_ok lo top s err eip :
  stacked lo top [] s → regs_ok (x_reg s) → is_u32 eip → (∀ c, err = Some c → is_u32 c) → lo ≤ top - 16 →
  ∃ wcs s', deliver err eip s = Ok (tt, s') ∧ is_u32 wcs ∧ u16 wcs = x_reg s CS ∧
    on_stack lo top (interrupted s) (gate_words err eip wcs (x_reg s EFLAGS)) s'.
Proof.
  intros Hs Hok Heip Herr Hlo.
  assert (H0 : on_stack lo top s [] s) by by split.
  destruct (push32_on lo top s [] s (x_reg s EFLAGS) H0 (Hok EFLAGS)) as (s1 & E1 & H1); [unfold len; cbn; lia|].
  destruct (push_reg_on lo top s _ s1 CS H1 Hok) as (wcs & s2 & E2 & Hw & Hp & H2);
    [done|unfold len; cbn; lia|].
  destruct (push32_on lo top s _ s2 eip H2 Heip) as (s3 & E3 & H3); [unfold len; cbn; lia|].
  assert (∃ s4, match err with Some c => push32 c | None => mret tt end s3 = Ok (tt, s4) ∧
    on_stack lo top s (gate_words err eip wcs (x_reg s EFLAGS)) s4) as (s4 & E4 & H4).
  { destruct err as [c|]; [|by exists s3].
    destruct (push32_on lo top s _ s3 c H3 (Herr c eq_refl)) as (s4 & E4 & H4); [unfold len; cbn; lia|].
    by exists s4. }
  exists wcs. eexists. split; [|split; [done|split; [exact Hp|]]].
  - unfold deliver. stm_step (get_reg_ok EFLAGS s). stm_step E1. stm_step E2. stm_step E3. stm_step E4.
    stm_step (set_reg_ok CS KERNEL_SELECTOR_CS s4). apply set_reg_ok.
  - destruct H4 as [[? ? ? ? ? ?] Hr Ho]. split; [by split| |done].
    intros r Hr'. cbn. unfold reg_upd. repeat case_match; try done; by apply Hr.
Qed.

(** The register frame on the stack. *)
Definition frame_words (f : exception_frame_t) : list Z :=
  [f_gs f; f_fs f; f_es f; f_ds f; f_edi f; f_esi f; f_ebp f; f_esp f; f_ebx f; f_edx f; f_ecx f;
   f_eax f; f_num f; f_err_code f; f_eip f; f_cs f; f_eflags f].

(** The frame describes the interrupted state; of a segment register the low half of
    its word. *)
Record saves s (eip : Z) (err : option Z) (num : Z) (f : exception_frame_t) : Prop := {
  sv_general : f_eax f = x_reg s EAX ∧ f_ecx f = x_reg s ECX ∧ f_edx f = x_reg s EDX ∧
    f_ebx f = x_reg s EBX ∧ f_ebp f = x_reg s EBP ∧ f_esi f = x_reg s ESI ∧ f_edi f = x_reg s EDI;
  sv_segments : u16 (f_ds f) = x_reg s DS ∧ u16 (f_es f) = x_reg s ES ∧ u16 (f_fs f) = x_reg s FS ∧
    u16 (f_gs f) = x_reg s GS ∧ u16 (f_cs f) = x_reg s CS;
  sv_eip : f_eip f = eip;
  sv_eflags : f_eflags f = x_reg s EFLAGS;
  sv_err : f_err_code f = default 0 err;
  sv_num : f_num f = u32 num;
  sv_esp : f_esp f = x_reg s ESP - 20
}.

(** What a handler does for its caller, by the calling convention of C: it takes the
    return address off the stack, keeps the stack segment, and leaves the stack
    behind its argument alone. *)
Record returned lo top s1 s2 : Prop := {
  rt_esp : x_reg s2 ESP = x_reg s1 ESP + 4;
  rt_ss : x_reg s2 SS = x_reg s1 SS;
  rt_stack : agree (x_mem s1) (x_mem s2) (x_reg s1 ESP + 8) (top - (x_reg s1 ESP + 8));
  rt_mapped : mapped (x_mem s2) lo (top - lo);
  rt_bytes : bytes_ok (x_mem s2)
}.

Lemma returned_stack lo top s1 s2 ret arg ws :
  stacked lo top (ret :: arg :: ws) s1 → returned lo top s1 s2 → ∃ w, stacked lo top (w :: ws) s2.
Proof.
  intros [He (_ & _ & Hw) _ _ Hl Ht] [Re _ Ra Rm Rb].
  assert (El : len (ret :: arg :: ws) = len ws + 2) by (unfold len; cbn [length]; lia).
  assert (El1 : ∀ w, len (w :: ws) = len ws + 1) by (intros w; unfold len; cbn [length]; lia).
  assert (0 ≤ len ws) by (unfold len; lia). rewrite El in *. rewrite He in *.
  destruct (word_exists (x_mem s2) (top - 4 * (len ws + 1))) as [w Hw1]; [|done|].
  { intros x Hx. apply Rm. lia. }
  exists w. split; rewrite ?El1; try done; try lia. split; [done|].
  apply (words_at_agree (x_mem s1)).
  - by replace (top - 4 * (len ws + 1) + 4) with (top - 4 * (len ws + 2) + 4 + 4) by lia.
  - apply (agree_sub _ _ _ _ _ _ Ra); lia.
Qed.

(** An error code is on the stack exactly for the entry points that expect one. *)
Definition code_given (b : bool) (err : option Z) : Prop :=
  if b then ∃ c, err = Some c ∧ is_u32 c else err = None.

Lemma run_push lo top s0 ws v l s :
  on_stack lo top s0 ws s → lo ≤ top - 4 * len ws - 4 →
  ∃ s', run (IPush v :: l) s = run l s' ∧ on_stack lo top s0 (u32 v :: ws) s'.
Proof.
  intros Hs Hlo. destruct (push32_on lo top s0 ws s (u32 v) Hs (u32_range v) Hlo) as (s' & E & Hs').
  exists s'. split; [|done]. apply run_next. cbn [exec]. by stm_step E.
Qed.

Lemma popped_general (f : reg → Z) rs ws :
  Forall2 (λ r w, popped r w = f r) rs ws → Forall (λ r, is_seg r = false) rs → ws = f <$> rs.
Proof.
  induction 1 as [|r w rs ws E _ IH]; intros Hg; [done|]. apply Forall_cons in Hg as [Hr Hg].
  unfold popped in E. rewrite Hr in E. cbn. by rewrite E, IH.
Qed.

Lemma run_pusha lo top s0 ws l s :
  on_stack lo top s0 ws s → regs_ok (x_reg s0) → lo ≤ top - 4 * len ws - 32 →
  ∃ s', run (IPusha :: l) s = run l s' ∧
    on_stack lo top s0 ((x_reg s0 <$> [EDI; ESI; EBP]) ++ top - 4 * len ws ::
      (x_reg s0 <$> [EBX; EDX; ECX; EAX]) ++ ws) s'.
Proof.
  intros Hs Hok Hlo. pose proof (st_esp _ _ _ _ (os_stacked _ _ _ _ _ Hs)) as Esp.
  assert (Hsp : is_u32 (top - 4 * len ws)).
  { destruct (os_stacked _ _ _ _ _ Hs) as [_ _ _ _ ? ?]. unfold is_u32, len in *. lia. }
  destruct (push_regs_on lo top s0 [EAX; ECX; EDX; EBX] _ s Hs Hok) as (l1 & s1 & E1 & _ & F1 & H1);
    [decide_vm|cbn; lia|].
  apply popped_general in F1 as ->; [|by repeat constructor]. cbn [fmap list_fmap rev app] in H1.
  destruct (push32_on lo top s0 _ s1 _ H1 Hsp) as (s2 & E2 & H2); [unfold len in *; cbn [length]; lia|].
  destruct (push_regs_on lo top s0 [EBP; ESI; EDI] _ s2 H2 Hok) as (l2 & s3 & E3 & _ & F2 & H3);
    [decide_vm|unfold len in *; cbn [length]; lia|].
  apply popped_general in F2 as ->; [|by repeat constructor]. cbn [fmap list_fmap rev app] in H3.
  exists s3. split; [|exact H3]. apply run_next. cbn [exec]. stm_step (get_reg_ok ESP s).
  rewrite Esp. stm_step E1. stm_step E2. by stm_step E3.
Qed.

(** The error code, or the zero in its place. *)
Lemma run_error_code lo top s0 b err eip wcs fl l s :
  on_stack lo top s0 (gate_words err eip wcs fl) s → code_given b err → lo ≤ top - 16 →
  ∃ s', run ((if b then [] else [IPush 0]) ++ l) s = run l s' ∧
    on_stack lo top s0 [default 0 err; eip; wcs; fl] s'.
Proof.
  intros Hs Hb Hlo. destruct b; cbn in Hb.
  - destruct Hb as (c & -> & _). by exists s.
  - subst err. destruct (run_push lo top s0 [eip; wcs; fl] 0 l s Hs) as (s' & E & H');
      [unfold len; cbn; lia|]. exists s'. split; [exact E|exact H'].
Qed.

Lemma stub_enter_ok lo top s0 num b err eip wcs fl l s :
  on_stack lo top s0 (gate_words err eip wcs fl) s → regs_ok (x_reg s0) → code_given b err →
  lo ≤ top - 72 →
  ∃ wgs wfs wes wds s', run (exception_enter num b ++ l) s = run l s' ∧
    u16 wgs = x_reg s0 GS ∧ u16 wfs = x_reg s0 FS ∧ u16 wes = x_reg s0 ES ∧ u16 wds = x_reg s0 DS ∧
    on_stack lo top s0 (top - 68 :: frame_words (ExceptionFrame wgs wfs wes wds
      (x_reg s0 EDI) (x_reg s0 ESI) (x_reg s0 EBP) (top - 20) (x_reg s0 EBX) (x_reg s0 EDX)
      (x_reg s0 ECX) (x_reg s0 EAX) (u32 num) (default 0 err) eip wcs fl)) s'.
Proof.
  intros Hs Hok Hb Hlo. unfold exception_enter. rewrite <-app_assoc.
  edestruct run_error_code as (s1 & -> & H1); [exact Hs|exact Hb|lia|]. cbn [app].
  edestruct run_push as (s2 & -> & H2); [exact H1|unfold len; cbn [length]; lia|].
  edestruct run_pusha as (s3 & -> & H3); [exact H2|done|unfold len; cbn [length]; lia|].
  change (IPushR DS :: ?x) with ((IPushR <$> [DS; ES; FS; GS]) ++ [IPushR ESP] ++ l).
  destruct (push_regs_on lo top s0 [DS; ES; FS; GS] _ s3 H3 Hok) as (ws & s4 & E4 & _ & F & H4);
    [decide_vm|unfold len; cbn [length]; cbn; lia|].
  rewrite (run_pushes _ _ _ _ _ _ _ E4).
  apply Forall2_cons_inv_l in F as (wds & ? & Eds & F & ->).
  apply Forall2_cons_inv_l in F as (wes & ? & Ees & F & ->).
  apply Forall2_cons_inv_l in F as (wfs & ? & Efs & F & ->).
  apply Forall2_cons_inv_l in F as (wgs & ? & Egs & F & ->).
  apply Forall2_nil_inv_l in F as ->. cbn [rev app fmap list_fmap] in H4.
  pose proof (st_esp _ _ _ _ (os_stacked _ _ _ _ _ H4)) as Esp.
  destruct (push32_on lo top s0 _ s4 (x_reg s4 ESP) H4) as (s5 & E5 & H5).
  { rewrite Esp. destruct (os_stacked _ _ _ _ _ H4) as [_ _ _ _ ? ?]. unfold is_u32, len in *. lia. }
  { unfold len. cbn [length]. lia. }
  exists wgs, wfs, wes, wds, s5. split.
  { apply run_next. cbn [exec]. unfold push_reg. rewrite !stm_bind_assoc. stm_step (get_reg_ok ESP s4).
    by stm_step E5. }
  split; [exact Egs|]. split; [exact Efs|]. split; [exact Ees|]. split; [exact Eds|].
  replace (top - 68) with (x_reg s4 ESP) by (rewrite Esp; unfold len; cbn [length]; lia).
  replace (top - 20) with (top - 4 * len [u32 num; default 0 err; eip; wcs; fl])
    by (unfold len; cbn [length]; lia). exact H5.
Qed.

(** ** Leaving it *)
Lemma stub_leave_ok lo top (s : x86) eip err num f w s2 :
  saves s eip err num f → stacked lo top (w :: frame_words f) s2 →
  ∃ s3, run exception_leave s2 = Ok (Some (Back eip), s3) ∧ x_mem s3 = x_mem s2 ∧
    x_reg s3 ESP = top ∧ x_reg s3 SS = x_reg s2 SS ∧
    ∀ r, r ≠ ESP → r ≠ SS → x_reg s3 r = x_reg s r.
Proof.
  intros [(Eax & Ecx & Edx & Ebx & Ebp & Esi & Edi) (Eds & Ees & Efs & Egs & Ecs) Eip Efl _ _ _] Hs.
  destruct (run_add_esp call bios after lo top [w] _ (tail exception_leave) s2 (1 * 4) Hs eq_refl)
    as (s3 & E3 & H3 & M3 & R3).
  destruct (pop_regs_ok lo top (x_reg s) (drop 4 (frame_words f)) [GS; FS; ES; DS]
    [f_gs f; f_fs f; f_es f; f_ds f] s3 H3) as (s4 & E4 & H4 & M4 & R4);
    [by repeat constructor|decide_vm|decide_vm|].
  pose proof (run_pops call bios after _ (drop 5 exception_leave) _ _ E4) as E4'.
  destruct (run_popa call bios after lo top (x_reg s) _ _ _ _ _ _ _ _ _ (drop 6 exception_leave) s4 H4
    Edi Esi Ebp Ebx Edx Ecx Eax) as (s5 & E5 & H5 & M5 & R5).
  destruct (run_add_esp call bios after lo top [f_num f; f_err_code f] _ [IIret] s5 (2 * 4) H5 eq_refl)
    as (s6 & E6 & H6 & M6 & R6).
  destruct (run_iret call bios after lo top _ _ _ [] [] s6 H6) as (s7 & E7 & H7 & M7 & C7 & F7 & R7).
  exists s7. split; [|split; [congruence|split; [|split]]].
  - etrans; [exact E3|]. etrans; [exact E4'|]. etrans; [exact E5|]. etrans; [exact E6|].
    rewrite <-Eip. exact E7.
  - rewrite (st_esp _ _ _ _ H7). unfold len. cbn. lia.
  - rewrite R7, R6, R5, R4, R3 by done. done.
  - intros r Hr Hss. destruct (decide (r = CS)) as [->|Hcs]; [congruence|].
    destruct (decide (r = EFLAGS)) as [->|Hfl]; [congruence|].
    rewrite R7, R6, R5 by done. case_decide as Hp; [done|]. rewrite R4 by done.
    case_decide as Hq; [done|]. by destruct r; try (destruct Hp; decide_vm); try (destruct Hq; decide_vm).
Qed.
End stubs.

(** ** The other pieces of code *)
Section pieces.
Context `{Processor} (call : string → stm x86 unit) (bios : Z → stm x86 unit) (after : string → Z).
Implicit Types (s : x86).

#[local] Abbreviation run := (run_code call bios after).

(** All data segments. *)
Definition data_segments (sel : Z) s : Prop :=
  x_reg s DS = sel ∧ x_reg s SS = sel ∧ x_reg s ES = sel ∧ x_reg s FS = sel ∧ x_reg s GS = sel.

(** [protected_mode_entry] loads the data segments and enters [load_kernel]. *)
Lemma protected_mode_ok s :
  ∃ s', run protected_mode_code s = Ok (Some (To "load_kernel"), s') ∧ x_mem s' = x_mem s ∧
    x_reg s' CS = 8 ∧ data_segments 16 s' ∧ x_reg s' ESP = x_reg s ESP.
Proof.
  eexists. split; [reflexivity|]. split; [reflexivity|]. split; [done|]. split; [|done].
  unfold data_segments. cbn. by rewrite !low16_read.
Qed.

(** [first_task_entry] uses the stack segment for all data. *)
Lemma first_task_entry_ok s :
  is_u16 (x_reg s SS) →
  ∃ s', run first_task_entry s = Ok (Some (To "first_task_main"), s') ∧ x_mem s' = x_mem s ∧
    data_segments (x_reg s SS) s' ∧ x_reg s' ESP = x_reg s ESP ∧ x_reg s' CS = x_reg s CS.
Proof.
  intros Hs. eexists. split; [reflexivity|]. split; [reflexivity|]. split; [|done].
  unfold data_segments. cbn. rewrite !low16_read, !u16_id by (unfold is_u16 in *; rewrite ?u16_id; lia).
  done.
Qed.

Lemma gdt_reload_ok stack s :
  0 ≤ stack → stack + KERNEL_STACK_SIZE < 2 ^ 32 →
  ∃ s', run (gdt_reload stack) s = Ok (Some (To "init_main"), s') ∧ x_mem s' = x_mem s ∧
    data_segments KERNEL_SELECTOR_DS s' ∧ x_reg s' ESP = stack + KERNEL_STACK_SIZE ∧
    x_reg s' CS = x_reg s CS.
Proof.
  intros H0 H1. eexists. split; [reflexivity|]. split; [reflexivity|]. split; [|split; [|done]].
  - unfold data_segments. cbn. by rewrite !low16_read.
  - cbn. unfold KERNEL_STACK_SIZE in *. rewrite (u32_id stack), u32_id by lia. done.
Qed.

(** A C function entered with the arguments [args]. *)
Definition entered lo top (args : list Z) s : Prop :=
  ∃ ret ws, stacked lo top (ret :: args ++ ws) s.

(** [_start] of the kernel passes its argument on to [kernel_init] and reloads the
    code segment. *)
Lemma kernel_entry_ok lo top b s :
  entered lo top [b] s → regs_ok (x_reg s) → is_u32 (after "kernel_init") → lo + 12 ≤ x_reg s ESP →
  ∃ s1, entered lo top [b] s1 ∧ (∀ x, ¬ (lo ≤ x < top) → x_mem s1 !! x = x_mem s !! x) ∧
    (∀ s2, call "kernel_init" s1 = Ok (tt, s2) → ∃ s3,
       run kernel_entry s = Ok (Some (To "gdt_reload"), s3) ∧ x_mem s3 = x_mem s2 ∧
       x_reg s3 CS = KERNEL_SELECTOR_CS).
Proof.
  intros (ret & ws & Hs) Hok Hafter Hlo. cbn [app] in Hs.
  pose proof (st_esp _ _ _ _ Hs) as Esp.
  pose proof (st_words _ _ _ _ Hs) as (_ & [Hb _] & _).
  destruct (push_reg_ok lo top _ s EBP Hs (Hok EBP)) as (bp & m1 & E1 & _ & _ & H1 & O1); [lia|].
  set (s1 := X86 _ m1) in E1, H1.
  apply (stacked_reg _ _ _ _ EBP (x_reg s1 ESP)) in H1 as H2; [|done]. set (s2 := X86 _ _) in H2.
  apply (stacked_reg _ _ _ _ EAX b) in H2 as H3; [|done]. set (s3 := X86 _ _) in H3.
  assert (E3 : on_mem (load32 (u32 (x_reg s2 EBP + 8))) s2 = Ok (b, s2)) 
    by exact (read_stack lo top _ s2 2 b H2 eq_refl).
  assert (Hlen : len (bp :: ret :: b :: ws) = len (ret :: b :: ws) + 1) by (unfold len; cbn [length]; lia).
  destruct (push_reg_ok lo top _ s3 EAX H3 Hb) as (w & m4 & E4 & _ & Hw & H4 & O4); [lia|].
  cbn in Hw. subst w. set (s4 := X86 _ m4) in E4, H4.
  destruct (push32_ok lo top _ s4 _ H4 Hafter) as (m5 & E5 & H5 & O5).
  { unfold len in *. cbn [length] in *. lia. }
  set (s5 := X86 _ m5) in E5, H5. exists s5. split; [by exists (after "kernel_init"), (bp :: ret :: b :: ws)|].
  split.
  { intros x Hx. cbn [s5 x_mem]. rewrite O5, <-(O1 x Hx) by done. by rewrite O4. }
  intros s6 Ec. eexists. split; [|split].
  - unfold kernel_entry. rewrite (run_next _ _ _ _ _ s s1); [|cbn [exec]; by stm_step E1].
    rewrite (run_next _ _ _ _ _ s1 s2); [|done].
    rewrite (run_next _ _ _ _ _ s2 s3); [|cbn [exec read]; rewrite stm_bind_assoc;
      stm_step (get_reg_ok EBP s2); by stm_step E3].
    rewrite (run_next _ _ _ _ _ s3 s4); [|cbn [exec]; by stm_step E4].
    rewrite (run_call _ _ _ _ _ s4 s5 E5). stm_step Ec. reflexivity.
  - done.
  - done.
Qed.
End pieces.

(** ** Switching stacks *)
Section switch.
Context `{Processor} (call : string → stm x86 unit) (bios : Z → stm x86 unit) (after : string → Z).
Implicit Types (s : x86).

#[local] Abbreviation run := (run_code call bios after).

(** A task that left the processor in [simple_switch]: its registers [%edi], [%esi],
    [%ebx] and [%ebp] and its return address are on its stack, at [sp]. *)
Definition suspended lo top (sp : Z) (regs : list Z) (ret : Z) (ws : list Z) (m : mem) : Prop :=
  length regs = 4%nat ∧ stacked lo top (regs ++ ret :: ws) (X86 (λ _, sp) m).

Definition kept_regs : list reg := [EDI; ESI; EBX; EBP].

Lemma stacked_ext lo top ws s s' :
  stacked lo top ws s → x_reg s' ESP = x_reg s ESP → x_mem s' = x_mem s → stacked lo top ws s'.
Proof. intros [? ? ? ? ? ?] Er Em. split; rewrite ?Er, ?Em; done. Qed.

(** A stack in memory that another store does not reach. *)
Lemma stacked_other lo top ws s s' :
  stacked lo top ws s → x_reg s' ESP = x_reg s ESP → (∀ x, lo ≤ x < top → x_mem s' !! x = x_mem s !! x) →
  bytes_ok (x_mem s') → stacked lo top ws s'.
Proof.
  intros [He Hw Hm Hb Hl Ht] Er Ho Hb'. assert (0 ≤ len ws) by (unfold len; lia).
  split; try done; [by rewrite Er| |].
  - apply (words_at_agree (x_mem s)); [done|]. intros x Hx. apply Ho. lia.
  - intros x Hx. rewrite Ho by lia. apply Hm. lia.
Qed.

(** The middle of [simple_switch]: the stack pointer goes to [*from]. *)
Lemma store_save lo top lo2 top2 s s3 from to ws ws2 :
  stacked lo top ws s3 → (∀ x, ¬ (lo ≤ x < top) → x_mem s3 !! x = x_mem s !! x) →
  stacked lo2 top2 ws2 (X86 (λ _, to) (x_mem s)) → top ≤ lo2 ∨ top2 ≤ lo →
  is_u32 from → mapped (x_mem s) from 4 → from + 4 ≤ lo ∨ top ≤ from → from + 4 ≤ lo2 ∨ top2 ≤ from →
  ∃ m, on_mem (store32 (u32 (from + 0)) (x_reg s3 ESP)) s3 = Ok (tt, X86 (x_reg s3) m) ∧
    stacked lo2 top2 ws2 (X86 (reg_upd ESP to (x_reg s3)) m) ∧
    stacked lo top ws (X86 (x_reg s3) m) ∧ word_at m from (x_reg s3 ESP).
Proof.
  intros Hs Ho H2 Hdis Hfr Hm Hf1 Hf2. pose proof (st_esp _ _ _ _ Hs) as Esp.
  pose proof (st_lo _ _ _ _ Hs). pose proof (st_lo _ _ _ _ H2). pose proof (st_top _ _ _ _ Hs).
  assert (0 ≤ len ws ∧ 0 ≤ len ws2) by (unfold len; lia).
  eexists. split; [|split; [|split]].
  - apply on_memory_ok, store32_ok. rewrite Z.add_0_r, u32_id by (unfold is_u32 in *; lia).
    intros x Hx. rewrite Ho by lia. by apply Hm.
  - apply (stacked_other _ _ _ _ _ H2); [done| |].
    + intros x Hx. cbn [x_mem]. rewrite write_bytes_outside by
        (rewrite Z.add_0_r, u32_id by (unfold is_u32 in *; lia); cbn; lia). apply Ho. lia.
    + apply bytes_ok_write; [apply Hs|apply le32_u8].
  - apply (stacked_other _ _ _ _ _ Hs); [done| |apply bytes_ok_write; [apply Hs|apply le32_u8]].
    intros x Hx. cbn [x_mem]. apply write_bytes_outside.
    rewrite Z.add_0_r, u32_id by (unfold is_u32 in *; lia). cbn. lia.
  - rewrite Z.add_0_r, u32_id by (unfold is_u32 in *; lia). apply word_write_same. unfold is_u32. lia.
Qed.

(** The end of [simple_switch]: the registers come off the other stack. *)
Lemma resume_ok lo2 top2 regs2 ret2 ws2 s :
  length regs2 = 4%nat → stacked lo2 top2 (regs2 ++ ret2 :: ws2) s →
  ∃ s', run [IPopR EDI; IPopR ESI; IPopR EBX; IPopR EBP; IRet] s = Ok (Some (Back ret2), s') ∧
    (x_reg s' <$> kept_regs) = regs2 ∧ stacked lo2 top2 ws2 s' ∧ x_mem s' = x_mem s.
Proof.
  intros Hlen Hs. destruct regs2 as [|di [|si [|bx [|bp [|]]]]]; try done.
  set (f := λ r, match r with EDI => di | ESI => si | EBX => bx | _ => bp end).
  destruct (pop_regs_ok lo2 top2 f (ret2 :: ws2) kept_regs [di; si; bx; bp] s Hs)
    as (s1 & E1 & H1 & Em & Hr); [by repeat constructor|decide_vm|decide_vm|].
  destruct (pop32_ok _ _ _ _ _ H1) as [E2 H2]. eexists. split; [|split; [|split; [exact H2|exact Em]]].
  - etrans; [apply (run_pops call bios after kept_regs [IRet] s s1 E1)|].
    cbn [run_code exec]. rewrite stm_bind_assoc. by stm_step E2.
  - cbn. by rewrite !Hr.
Qed.

(** [simple_switch] puts the caller to sleep, its stack pointer in [*from], and goes
    on in the task whose stack pointer is [to]: that task has its registers back. *)
Lemma simple_switch_ok lo top lo2 top2 ret from to ws regs2 ret2 ws2 s :
  stacked lo top (ret :: from :: to :: ws) s → regs_ok (x_reg s) → lo + 16 ≤ x_reg s ESP →
  suspended lo2 top2 to regs2 ret2 ws2 (x_mem s) → top ≤ lo2 ∨ top2 ≤ lo →
  mapped (x_mem s) from 4 → from + 4 ≤ lo ∨ top ≤ from → from + 4 ≤ lo2 ∨ top2 ≤ from →
  ∃ s', run simple_switch s = Ok (Some (Back ret2), s') ∧
    (x_reg s' <$> kept_regs) = regs2 ∧ stacked lo2 top2 ws2 s' ∧
    word_at (x_mem s') from (x_reg s ESP - 16) ∧
    suspended lo top (x_reg s ESP - 16) (x_reg s <$> kept_regs) ret (from :: to :: ws) (x_mem s').
Proof.
  intros Hs Hok Hlo [Hlen Hsus] Hdis Hfrom Hf1 Hf2.
  pose proof (st_esp _ _ _ _ Hs) as Esp.
  pose proof (st_words _ _ _ _ Hs) as (_ & [Hfr _] & [Hto _] & _).
  assert (E1 : on_mem (load32 (u32 (x_reg s ESP + 4))) s = Ok (from, s))
    by exact (read_stack lo top _ s 1 from Hs eq_refl).
  set (s1 := X86 (reg_upd EAX from (x_reg s)) (x_mem s)).
  assert (H1 : stacked lo top (ret :: from :: to :: ws) s1) by by apply stacked_reg.
  assert (E2 : on_mem (load32 (u32 (x_reg s1 ESP + 8))) s1 = Ok (to, s1))
    by exact (read_stack lo top _ s1 2 to H1 eq_refl).
  set (s2 := X86 (reg_upd EDX to (x_reg s1)) (x_mem s1)).
  assert (H2 : stacked lo top (ret :: from :: to :: ws) s2) by by apply stacked_reg.
  assert (Hok2 : regs_ok (x_reg s2)).
  { intros r. specialize (Hok r). destruct r; try exact Hok; [exact Hfr|exact Hto]. }
  destruct (push_regs_on lo top s2 [EBP; EBX; ESI; EDI] (ret :: from :: to :: ws) s2)
    as (l & s3 & E3 & _ & F3 & H3); [by split|done|decide_vm|rewrite Esp in Hlo; cbn [length]; lia|].
  apply popped_general in F3 as ->; [|by repeat constructor]. cbn [fmap list_fmap rev app] in H3.
  assert (Esp3 : x_reg s3 ESP = x_reg s ESP - 16).
  { rewrite (st_esp _ _ _ _ (os_stacked _ _ _ _ _ H3)), Esp. unfold len. cbn [length]. lia. }
  assert (Eax : x_reg s3 EAX = from) by by rewrite (os_regs _ _ _ _ _ H3).
  assert (Edx : x_reg s3 EDX = to) by by rewrite (os_regs _ _ _ _ _ H3).
  destruct (store_save lo top lo2 top2 s s3 from to _ _ (os_stacked _ _ _ _ _ H3) (os_outside _ _ _ _ _ H3)
    Hsus Hdis Hfr Hfrom Hf1 Hf2) as (m4 & E4 & H5 & H4 & Hw4).
  destruct (resume_ok lo2 top2 regs2 ret2 ws2 _ Hlen H5) as (s6 & E6 & Hregs & H6 & Em6).
  exists s6. split; [|split; [done|split; [done|split]]].
  - unfold simple_switch.
    rewrite (run_next _ _ _ _ _ s s1); [|cbn [exec read]; rewrite stm_bind_assoc;
      stm_step (get_reg_ok ESP s); by stm_step E1].
    rewrite (run_next _ _ _ _ _ s1 s2); [|cbn [exec read]; rewrite stm_bind_assoc;
      stm_step (get_reg_ok ESP s1); by stm_step E2].
    etrans; [apply (run_pushes call bios after [EBP; EBX; ESI; EDI] _ s2 s3 E3)|].
    rewrite (run_next _ _ _ _ _ s3 (X86 (x_reg s3) m4)).
    2: { cbn [exec read write]. unfold mbind, stm_bind, get_reg, mret, stm_ret. cbn [part_of].
      by rewrite Eax, E4. }
    rewrite (run_next _ _ _ _ _ _ (X86 (reg_upd ESP to (x_reg s3)) m4)); [exact E6|].
    cbn [exec read write is_seg with_part part_of].
    unfold mbind, stm_bind, get_reg, set_reg, mret, stm_ret. cbn [x_reg x_mem]. by rewrite Edx.
  - by rewrite Em6, <-Esp3.
  - split; [done|]. rewrite <-Esp3. apply (stacked_ext _ _ _ _ _ H4); [done|exact Em6].
Qed.
End switch.

(** ** The boot sector *)
Section boot.
Context `{Processor} (bios : nat → Z → stm x86 unit).
Implicit Types (s : x86).

(** Registers that the BIOS keeps. *)
Definition bios_keeps s s' : Prop := ∀ r, r ≠ EAX → r ≠ EFLAGS → x_reg s' r = x_reg s r.

(** The services used: video output, and reading [n] sectors of the first disk, from
    sector [lba + 1] of its first track on, to [%es:%bx]. A read that fails sets the
    carry flag, and may leave part of the buffer written. *)
Record bios_services (sectors : Z → list Z) (fails : nat → bool) : Prop := {
  bs_length : ∀ j, length (sectors j) = 512%nat;
  bs_video : ∀ i s, part_of High8 (x_reg s EAX) = 14 →
    ∃ s', bios i 16 s = Ok (tt, s') ∧ x_mem s' = x_mem s ∧ bios_keeps s s';
  bs_read : ∀ i s n lba a, part_of High8 (x_reg s EAX) = 2 → part_of Low8 (x_reg s EAX) = n →
    part_of Low16 (x_reg s ECX) = lba + 1 → 0 ≤ lba < 63 → part_of Low16 (x_reg s EDX) = 128 →
    16 * x_reg s ES + part_of Low16 (x_reg s EBX) = a →
    mapped (x_mem s) a (512 * n) →
    ∃ s', bios i 19 s = Ok (tt, s') ∧ bios_keeps s s' ∧
      Z.testbit (x_reg s' EFLAGS) 0 = fails i ∧ mapped (x_mem s') a (512 * n) ∧
      (∀ x, ¬ (a ≤ x < a + 512 * n) → x_mem s' !! x = x_mem s !! x) ∧
      (fails i = false → bytes_at (x_mem s') a (mjoin (sectors <$> seqZ lba n)))
}.

Context (sectors : Z → list Z) (fails : nat → bool) (Hbios : bios_services sectors fails).

Definition loader_sectors : list Z := mjoin (sectors <$> seqZ 1 64).

(** The read asks for 64 sectors behind the boot sector, at 0x8000. *)
Lemma read_loader_ok i s :
  x_reg s ES = 0 → mapped (x_mem s) 32768 (512 * 64) →
  ∃ s', straight bios i read_loader s = Ok (None, s') ∧ x_reg s' ES = 0 ∧
    Z.testbit (x_reg s' EFLAGS) 0 = fails i ∧ mapped (x_mem s') 32768 (512 * 64) ∧
    (∀ x, ¬ (32768 ≤ x < 65536) → x_mem s' !! x = x_mem s !! x) ∧
    (fails i = false → bytes_at (x_mem s') 32768 loader_sectors).
Proof.
  intros Hes Hm.
  set (ax := with_part Low8 (with_part High8 (x_reg s EAX) 2) 64).
  set (s1 := X86 (reg_upd EDX (with_part Low16 (x_reg s EDX) 128) (reg_upd EAX ax
    (reg_upd ECX (with_part Low16 (x_reg s ECX) 2) (reg_upd EAX (with_part High8 (x_reg s EAX) 2)
    (reg_upd EBX (with_part Low16 (x_reg s EBX) 32768) (x_reg s)))))) (x_mem s)).
  assert (Hbx : part_of Low16 (x_reg s1 EBX) = 32768) by exact (low16_read (x_reg s EBX) 32768).
  assert (Hah : part_of High8 (x_reg s1 EAX) = 2).
  { cbn [part_of]. change (x_reg s1 EAX) with ax. subst ax. by rewrite high8_kept, high8_written. }
  assert (Hal : part_of Low8 (x_reg s1 EAX) = 64) by exact (low8_written _ 64).
  assert (Hcx : part_of Low16 (x_reg s1 ECX) = 1 + 1) by exact (low16_read (x_reg s ECX) 2).
  assert (Hdx : part_of Low16 (x_reg s1 EDX) = 128) by exact (low16_read (x_reg s EDX) 128).
  assert (Ha : 16 * x_reg s1 ES + part_of Low16 (x_reg s1 EBX) = 32768).
  { rewrite Hbx. change (x_reg s1 ES) with (x_reg s ES). by rewrite Hes. }
  destruct (bs_read _ _ Hbios i s1 64 1 32768 Hah Hal Hcx ltac:(lia) Hdx Ha Hm)
    as (s' & E & Hk & Hcf & Hm' & Ho & Hb).
  exists s'. split; [|split; [by rewrite Hk|by split_and!]].
  transitivity (straight bios i [IInt 19] s1); [reflexivity|].
  unfold straight. cbn [run_code exec]. unfold mbind, stm_bind. by rewrite E.
Qed.

(** The loop repeats the read until it succeeds. *)
Lemma read_loop_ok n : ∀ i s,
  x_reg s ES = 0 → mapped (x_mem s) 32768 (512 * 64) →
  (∀ j, (j < n)%nat → fails (i + j)%nat = true) → fails (i + n)%nat = false →
  ∃ s', read_loop bios (S n) i s = Ok (Some (To "boot_entry"), s') ∧
    (∀ x, ¬ (32768 ≤ x < 65536) → x_mem s' !! x = x_mem s !! x) ∧
    bytes_at (x_mem s') 32768 loader_sectors.
Proof.
  induction n as [|n IH]; intros i s Hes Hm Hf Hok;
    destruct (read_loader_ok i s Hes Hm) as (s1 & E & He1 & Hcf & Hm1 & Ho & Hb).
  - rewrite Nat.add_0_r in Hok. exists s1. split; [|split; [done|by apply Hb]].
    cbn [read_loop]. stm_step E. stm_step (get_reg_ok EFLAGS s1). by rewrite Hcf, Hok.
  - assert (fails i = true) as Hi by (rewrite <-(Nat.add_0_r i); apply Hf; lia).
    destruct (IH (S i) s1 He1 Hm1) as (s2 & E2 & Ho2 & Hb2).
    { intros j Hj. replace (S i + j)%nat with (i + S j)%nat by lia. apply Hf. lia. }
    { by replace (S i + n)%nat with (i + S n)%nat by lia. }
    exists s2. split; [|split; [|done]].
    + cbn [read_loop]. stm_step E. stm_step (get_reg_ok EFLAGS s1). rewrite Hcf, Hi. exact E2.
    + intros x Hx. by rewrite Ho2, Ho.
Qed.

(** The boot sector ends in [boot_entry] with 64 sectors of the loader in place, as
    soon as one read succeeds. *)
Lemma boot_sector_ok start n s :
  mapped (x_mem s) 32768 (512 * 64) →
  (∀ j, (1 ≤ j ≤ n)%nat → fails j = true) → fails (S n) = false →
  ∃ s', boot_sector bios start (S n) s = Ok (Some (To "boot_entry"), s') ∧
    (∀ x, ¬ (32768 ≤ x < 65536) → x_mem s' !! x = x_mem s !! x) ∧
    bytes_at (x_mem s') 32768 loader_sectors.
Proof.
  intros Hm Hf Hok.
  assert (∃ s1, straight bios 0 (boot_start start) s = straight bios 0 [IInt 16] s1 ∧
    x_mem s1 = x_mem s ∧ x_reg s1 ES = 0 ∧ part_of High8 (x_reg s1 EAX) = 14)
    as (s1 & E0 & M1 & Hes & Hah).
  { eexists. split; [reflexivity|]. split; [reflexivity|]. cbn -[with_part part_of u8 u16]. split.
    - unfold part_of, with_part. by rewrite low16_read.
    - cbn [part_of]. by rewrite high8_kept, high8_written. }
  destruct (bs_video _ _ Hbios 0 s1 Hah) as (s2 & E2 & M2 & Hk).
  assert (E1 : straight bios 0 (boot_start start) s = Ok (None, s2)).
  { rewrite E0. unfold straight. cbn [run_code exec]. unfold mbind, stm_bind. by rewrite E2. }
  destruct (read_loop_ok n 1 s2) as (s3 & E3 & Ho & Hb).
  - by rewrite Hk.
  - by rewrite M2, M1.
  - intros j Hj. apply Hf. lia.
  - done.
  - exists s3. unfold boot_sector. stm_step E1. split; [exact E3|]. split; [|done].
    intros x Hx. by rewrite Ho, M2, M1.
Qed.
End boot.

(** ** Properties *)
Section properties.
Context `{Processor} (call : string → stm x86 unit) (bios : Z → stm x86 unit) (after : string → Z).
Implicit Types (s : x86).

(** C39: interrupts are transparent: an interrupt pushes what the processor and the
    entry point push; the handler is called with interrupts masked and a pointer to
    an [exception_frame_t] that holds the registers of the interrupted code, the
    number of the entry point and the error code; and when the handler returns, the
    interrupted code goes on where it was with every register as it was, whichever
    registers the handler used. *)
Theorem exception_entry_transparent e name num b lo top s eip err :
  exception_stub e = (name, num, b) → code_given b err → is_u32 (after ("do_handler_" ++ name)) →
  stacked lo top [] s → lo ≤ top - 76 → regs_ok (x_reg s) → is_u32 eip →
  let taken := (deliver err eip;; run_code call bios after (entry_code e)) in
  ∃ s1 f, saves s eip err num f ∧
    stacked lo top (after ("do_handler_" ++ name) :: top - 68 :: frame_words f) s1 ∧
    x_reg s1 ESP + 8 = top - 68 ∧
    Z.testbit (x_reg s1 EFLAGS) 9 = false ∧
    (∀ x, ¬ (lo ≤ x < top) → x_mem s1 !! x = x_mem s !! x) ∧
    taken s = (call ("do_handler_" ++ name)%string;; run_code call bios after exception_leave) s1 ∧
    ∀ s2, call ("do_handler_" ++ name)%string s1 = Ok (tt, s2) → returned lo top s1 s2 →
      ∃ s3, taken s = Ok (Some (Back eip), s3) ∧ (∀ r, x_reg s3 r = x_reg s r) ∧
        x_mem s3 = x_mem s2.
Proof.
  intros Hst Hb Hafter Hs Hlo Hok Heip taken.
  destruct (deliver_ok lo top s err eip Hs Hok Heip) as (wcs & s' & Ed & _ & Ecs & Hd).
  { intros c ->. destruct b; [by destruct Hb as (? & [= <-] & ?)|done]. }
  { lia. }
  destruct (stub_enter_ok call bios after lo top (interrupted s) num b err eip wcs (x_reg s EFLAGS)
    (ICall ("do_handler_" ++ name) :: exception_leave) s' Hd (interrupted_ok s Hok) Hb)
    as (wgs & wfs & wes & wds & s0 & Ee & Egs & Efs & Ees & Eds & H0); [lia|].
  set (f := ExceptionFrame _ _ _ _ _ _ _ _ _ _ _ _ _ _ _ _ _) in H0.
  destruct (push32_on lo top _ _ s0 _ H0 Hafter) as (s1 & Ep & H1); [unfold len; cbn; lia|].
  pose proof H1 as [Hst1 Hr1 Ho1]. pose proof (st_esp _ _ _ _ Hst1) as Esp.
  pose proof (st_esp _ _ _ _ Hs) as Esp0. unfold len in Esp, Esp0. cbn [length frame_words] in Esp, Esp0.
  assert (Hsv : saves s eip err num f).
  { split; try done. cbn. lia. }
  assert (Hall : taken s = (call ("do_handler_" ++ name)%string;; run_code call bios after exception_leave) s1).
  { unfold taken. stm_step Ed. unfold entry_code. rewrite Hst. unfold exception_handler.
    cbn [app]. rewrite Ee. by apply run_call. }
  exists s1, f. split; [exact Hsv|].
  split; [exact Hst1|]. split; [lia|]. split.
  { rewrite Hr1 by done. change (x_reg (interrupted s) EFLAGS) with (Z.ldiff (x_reg s EFLAGS) GATE_CLEARS).
    rewrite Z.ldiff_spec. apply andb_false_r. }
  split; [exact Ho1|]. split; [exact Hall|]. intros s2 Ec [Re Rs Ra Rm Rb].
  assert (∃ w, stacked lo top (w :: frame_words f) s2) as [w H2].
  { apply (returned_stack lo top s1 s2 _ _ _ Hst1). by split. }
  destruct (stub_leave_ok call bios after lo top s eip err num f w s2 Hsv H2)
    as (s3 & El & Em & Et & Ess & Hr3).
  exists s3. split; [rewrite Hall; by stm_step Ec|]. split; [|done].
  intros r. destruct (decide (r = ESP)) as [->|]; [rewrite Et; lia|].
  destruct (decide (r = SS)) as [->|]; [|by apply Hr3]. rewrite Ess, Rs, Hr1 by done. done.
Qed.

(** The numbers of the entry points are the vectors [irq_init] installs them at, and
    the ones that expect an error code are those for which the processor pushes
    one. *)
Definition pushes_code (n : Z) : bool := bool_decide (n ∈ [8; 10; 11; 12; 13; 14; 17]).

Lemma stubs_match_vectors n e :
  (n, e) ∈ exception_vectors → (exception_stub e).1.2 = n ∧ (exception_stub e).2 = pushes_code n.
Proof.
  assert (Hall : Forall (λ x, (exception_stub x.2).1.2 = x.1 ∧ (exception_stub x.2).2 = pushes_code x.1)
    exception_vectors) by decide_vm.
  rewrite Forall_forall in Hall. apply (Hall (n, e)).
Qed.
End properties.

(** *** Witness: a division error with a handler that uses [%eax] *)
Section witnesses.
#[local] Instance demo_processor : Processor := false.

Definition demo_call : string → stm x86 unit := λ _, set_reg EAX 1;; pop32;; mret tt.
Definition demo_after : string → Z := λ _, 66000.
Definition demo_x86 : x86 :=
  X86 (λ r, match r with ESP => 8192 | EFLAGS => 514 | CS => 8 | SS | DS | ES | FS | GS => 16 | EAX => 7 | _ => 0 end)
    (zero_mem 4096 4096).

Lemma demo_stack : stacked 4096 8192 [] demo_x86.
Proof.
  split; [reflexivity|exact I|apply zero_mem_mapped| |unfold len; cbn [length]; lia|lia].
  intros a v. cbn [demo_x86 x_mem]. rewrite zero_mem_lookup.
  case_decide; [intros [= <-]; unfold is_u8; lia|discriminate].
Qed.

Lemma demo_returns s v s2 :
  pop32 (X86 (reg_upd EAX 1 (x_reg s)) (x_mem s)) = Ok (v, s2) → demo_call "do_handler_divider" s = Ok (tt, s2).
Proof. intros E. unfold demo_call. stm_step (set_reg_ok EAX 1 s). by stm_step E. Qed.

Lemma exception_entry_transparent_witness :
  ∃ s3, (deliver None 65536;; run_code demo_call (λ _, mret tt) demo_after
      (entry_code exception_handler_divider)) demo_x86 = Ok (Some (Back 65536), s3) ∧
    x_reg s3 EAX = 7 ∧ x_reg s3 ESP = 8192 ∧ x_reg s3 EFLAGS = 514.
Proof.
  destruct (exception_entry_transparent demo_call (λ _, mret tt) demo_after exception_handler_divider
    "divider" 0 false 4096 8192 demo_x86 65536 None) as (s1 & f & _ & Hst & Hesp & _ & _ & _ & Hret).
  - reflexivity.
  - reflexivity.
  - by split.
  - exact demo_stack.
  - lia.
  - intros r. destruct r; by split.
  - by split.
  - pose proof (stacked_reg 4096 8192 _ s1 EAX 1 ltac:(done) Hst) as Hst2.
    destruct (pop32_ok 4096 8192 _ _ _ Hst2) as [E H2].
    destruct (Hret _ (demo_returns _ _ _ E)) as (s3 & E3 & Hr & _).
    + split; cbn [x_reg x_mem]; [| reflexivity|by intros x _|apply H2|apply H2].
      rewrite reg_upd_same, (st_esp _ _ _ _ Hst). unfold len. cbn [length frame_words]. lia.
    + exists s3. split; [exact E3|]. rewrite !Hr. split; [reflexivity|]. split; reflexivity.
Defined.
End witnesses.
