(* ===== verification/Boot.v ===== *)
(** * From the boot sector to the first task (boot/boot.c and the stages after it)

    The stages put together: [boot_entry] enters the loader, [loader_entry] leaves
    real mode, [load_kernel] enters the kernel, [kernel_init] initialises it, and
    [init_main] makes the first task current, and leaves it without a page
    directory, an entry point and a stack. What one stage promises is what the next
    one needs. *)
From S2P Require Import Prelude KernelTables Mem Klib DList CpuInstr Mmu Desc BootInfo Loader16 Loader32 Kernel Queues ListRef Demo Sched Mutex Sem Log Tasks Irq Machine Safety System Bitmap Memory Init X86 Asm.

Definition LOADER_START_ADDR : Z := 32768.

(** The call of the loader, without arguments. *)
Definition boot_entry : exit := CallEntry LOADER_START_ADDR [].

(** The boot sector leaves the loader where [boot_entry] calls it. *)
Lemma boot_sector_loads `{Processor} (bios : nat → Z → stm x86 unit) sectors fails start n (s : x86) :
  bios_services bios sectors fails → mapped (x_mem s) LOADER_START_ADDR (512 * 64) →
  (∀ j, (1 ≤ j ≤ n)%nat → fails j = true) → fails (S n) = false →
  boot_entry = CallEntry LOADER_START_ADDR [] ∧
  ∃ s', boot_sector bios start (S n) s = Ok (Some (To "boot_entry"), s') ∧
    bytes_at (x_mem s') LOADER_START_ADDR (mjoin (sectors <$> seqZ 1 64)).
Proof.
  intros Hb Hm Hf Hok. split; [done|].
  destruct (boot_sector_ok bios sectors fails Hb start n s Hm Hf Hok) as (s' & E & _ & Hl). by exists s'.
Qed.

(** ** Memory between the stages *)
Section stages.
Context `{HImage : LoaderImage, HAta : AtaDisk polls disk}.
Implicit Types (m : mem).

Lemma outside_mapped m m' a n :
  buffer_ok m' → outside_buffer m m' → mapped m a n → mapped m' a n.
Proof.
  intros Hb Ho Hm x Hx.
  destruct (decide (detect_buffer ≤ x < detect_buffer + 256)) as [Hd|Hd]; [by apply Hb|].
  rewrite (ob_same _ _ Ho x Hd). by apply Hm.
Qed.

Lemma kernel_file_lookup m x :
  kernel_file disk m !! x =
    if decide (SYS_KERNEL_ADDR ≤ x < SYS_KERNEL_ADDR + 512 * 500)
    then disk_bytes disk (256 * 100) (256 * Z.to_nat 500) !! Z.to_nat (x - SYS_KERNEL_ADDR)
    else m !! x.
Proof.
  rewrite kernel_file_eq, write_bytes_lookup, length_disk_bytes.
  by replace (Z.of_nat (2 * (256 * Z.to_nat 500))) with (512 * 500) by lia.
Qed.

Lemma kernel_file_agree m m' :
  agree (kernel_file disk m) (kernel_file disk m') SYS_KERNEL_ADDR (512 * 500).
Proof. intros x Hx. by rewrite !kernel_file_lookup, !decide_True by done. Qed.

Lemma kernel_file_mapped m m' :
  (∀ a n, mapped m a n → mapped m' a n) →
  ∀ a n, mapped (kernel_file disk m) a n → mapped (kernel_file disk m') a n.
Proof.
  intros Hmm a n H x Hx. specialize (H x Hx). rewrite kernel_file_lookup in *.
  case_decide; [done|]. apply (Hmm x 1); [|lia]. intros y Hy. by replace y with x by lia.
Qed.
End stages.

(** ** The chain *)
Section chain.
Context `{HBios : Bios, HImage : LoaderImage, HAta : AtaDisk polls disk}.

(** The memory map the BIOS reports, behind what [boot_info] held before. *)
Definition bios_map (b : boot_info_t) : boot_info_t :=
  let us := usable (e820_calls 10 0 []) in
  BootInfo (us ++ drop (length us) (ram_region_cfg b)) (Z.of_nat (length us)).

Lemma loader_ok (l : loader_t) entry phoff ps :
  buffer_ok (ld_mem l) → length (ram_region_cfg (ld_boot l)) = 10%nat →
  bytes_ok (ld_mem l) → mapped (ld_mem l) SYS_KERNEL_ADDR (512 * 500) →
  elf_at (kernel_file disk (ld_mem l)) SYS_KERNEL_ADDR entry phoff ps →
  elf_fits (kernel_file disk (ld_mem l)) SYS_KERNEL_ADDR (512 * 500) phoff ps → entry ≠ 0 →
  ∃ l1 l2 ev m, loader_entry l = Ok (FarJump 8 protected_mode_entry, l1) ∧
    load_kernel polls l1 = Ok (CallEntry entry [boot_info_addr], l2) ∧
    ld_boot l2 = bios_map (ld_boot l) ∧
    ld_cpu l2 = paging_cpu (add_io ev (protected_cpu (ld_cpu l))) ∧
    ld_mem l2 = elf_memory (kernel_file disk m) SYS_KERNEL_ADDR ps ∧
    elf_at (kernel_file disk m) SYS_KERNEL_ADDR entry phoff ps ∧
    elf_fits (kernel_file disk m) SYS_KERNEL_ADDR (512 * 500) phoff ps.
Proof.
  intros Hb Hl Hbytes Hm He Hf Hne.
  destruct (loader_entry_ok l Hb Hl) as (m & E1 & Hb1 & Ho).
  set (l1 := set_ld_cpu _ _) in E1.
  assert (Hmap : ∀ a n, mapped (ld_mem l) a n → mapped m a n).
  { intros a n. by apply outside_mapped. }
  pose proof (elf_at_agree _ (kernel_file disk m) _ _ _ _ _ He Hf (kernel_file_agree _ _)) as He1.
  pose proof (elf_fits_mapped _ _ _ _ _ _ Hf (kernel_file_mapped _ _ Hmap)) as Hf1.
  destruct (load_kernel_ok l1 entry phoff ps (Hmap _ _ Hm) (ob_bytes _ _ Ho Hbytes) He1 Hf1 Hne)
    as (ev & E2).
  exists l1. eexists. exists ev, m. split; [exact E1|]. split; [exact E2|].
  split; [reflexivity|]. split; [reflexivity|]. split; [reflexivity|]. by split.
Qed.

(** Paging is on with the directory at [dir]. *)
Definition paging_at (dir : Z) (c : cpu_t) : Prop := Z.testbit (c_cr0 c) 31 = true ∧ c_cr3 c = dir.

Lemma paging_cpu_at c : paging_at page_dir_addr (paging_cpu c).
Proof. split; [apply paging_cr0|done]. Qed.

Lemma paging_at_same dir c c' :
  c_cr0 c' = c_cr0 c → c_cr3 c' = c_cr3 c → paging_at dir c → paging_at dir c'.
Proof. unfold paging_at. by intros -> ->. Qed.
End chain.

(** ** The kernel, once its tables are built *)
Section kernel.
Context `{LoggerLaws}.
Context `{HDevice : Device, HEntry : Entry, HKernel : KernelImage, HWalk : PageWalk}.
Implicit Types (s : kstate) (b : boot_info_t).

Lemma kernel_main_ok s b ev s2 e st dir :
  bss s → mask_reads_back → builds (init_at_tables b ev s) s2 → paging_at dir (k_cpu s) →
  ∃ s3 s' sel, after_memory e st s2 = KRet tt s3 ∧ paging_at dir (k_cpu s3) ∧
    init_main s3 = KRet tt s' ∧ started s3 s' sel ∧ paging_at 0 (k_cpu s') ∧
    c_eflags (k_cpu s') = c_eflags (k_cpu s).
Proof.
  intros Hs Hback Hb Hp.
  destruct (after_memory_ok s b ev s2 e st Hs Hback Hb) as (s3 & E3 & Hi & _ & _ & Ee & E0 & Ecr).
  destruct (init_main_ok s3 (in_tasks _ _ Hi)) as (s' & sel & E' & Hst).
  assert (Hp3 : paging_at dir (k_cpu s3)) by by apply (paging_at_same _ (k_cpu s)).
  exists s3, s', sel. split; [done|]. split; [done|]. split; [done|]. split; [done|].
  split; [|by rewrite (sd_eflags _ _ _ Hst)].
  split; [rewrite (sd_cr0 _ _ _ Hst); exact (proj1 Hp3)|exact (sd_cr3 _ _ _ Hst)].
Qed.
End kernel.

(** ** Properties of the start as a whole *)
Section properties.
Context `{HBios : Bios, HImage : LoaderImage, HAta : AtaDisk polls disk}.
Context `{HLaws : LoggerLaws, HEntry : Entry, HKernel : KernelImage, HWalk : PageWalk}.

(** C16: a machine whose disk holds a well-formed kernel file starts, up to a point.
    The loader leaves real mode, loads every segment of the file, turns protection
    and paging on with a directory of its own and enters the kernel with interrupts
    masked and the memory map of the BIOS. On that processor and that map
    [kernel_init] gets to its call of [creat_kernel_tables], which no file defines,
    with the page allocator set up. If this call returns and has changed nothing but
    memory, [kernel_init] returns, and so does [init_main] up to its last call: the
    first task is current, interrupts are masked, and paging is on with 0 for a page
    directory; the TSS of the first task holds entry point, stack and directory 0,
    so the jump [move_to_first_task] is meant to make leads to address 0. *)
Theorem cold_boot (l : loader_t) entry phoff ps s idle_entry stack_end :
  mapped (ld_mem l) detect_buffer 256 → bytes_ok (ld_mem l) →
  length (ram_region_cfg (ld_boot l)) = Z.to_nat BOOT_RAM_REGION_MAX →
  mapped (ld_mem l) SYS_KERNEL_ADDR (512 * 500) →
  let file := kernel_file disk (ld_mem l) in
  elf_at file SYS_KERNEL_ADDR entry phoff ps →
  elf_fits file SYS_KERNEL_ADDR (512 * 500) phoff ps → entry ≠ 0 →
  let b := bios_map (ld_boot l) in
  bss s → map_fits s b → mask_reads_back →
  ∃ l1 l2 ev, loader_entry l = Ok (FarJump 8 protected_mode_entry, l1) ∧
    load_kernel polls l1 = Ok (CallEntry entry [boot_info_addr], l2) ∧ ld_boot l2 = b ∧
    (∀ i p, ps !! i = Some p → loaded p →
      (∀ j q, ps !! j = Some q → (i < j)%nat → loaded q →
        apart (ph_paddr p) (ph_memsz p) (ph_paddr q) (ph_memsz q)) →
      bytes_at (ld_mem l2) (ph_paddr p) (segment_bytes file SYS_KERNEL_ADDR p)) ∧
    Z.testbit (c_cr0 (ld_cpu l2)) 0 = true ∧ paging_at page_dir_addr (ld_cpu l2) ∧
    let s0 := set_cpu (ld_cpu l2) s in
    let s1 := init_at_tables b ev s0 in
    kernel_init b idle_entry stack_end s0 =
      (creat_kernel_tables;; after_memory idle_entry stack_end) s1 ∧ alloc_ready s1 ∧
    ∀ s2, creat_kernel_tables s1 = KRet tt s2 → builds s1 s2 →
      ∃ s3 s' x, kernel_init b idle_entry stack_end s0 = KRet tt s3 ∧
        paging_at page_dir_addr (k_cpu s3) ∧
        init_main s3 = KRet tt s' ∧ krel s' boot_abs ∧
        Z.testbit (c_eflags (k_cpu s')) 9 = false ∧ paging_at 0 (k_cpu s') ∧
        k_tasks s' !! first_task = Some x ∧ eip (tss x) = 0 ∧ esp (tss x) = 0 ∧ cr3 (tss x) = 0.
Proof.
  intros Hb Hbytes Hl Hm file He Hf Hne b Hs Hmap Hback. subst file.
  destruct (loader_ok l entry phoff ps Hb Hl Hbytes Hm He Hf Hne)
    as (l1 & l2 & ev & m & E1 & E2 & Eb & Ec & Em & He1 & Hf1).
  destruct (kernel_init_to_tables (set_cpu (ld_cpu l2) s) b idle_entry stack_end)
    as (ev' & E3 & Hal); [by apply bss_set_cpu|by destruct Hmap; split|].
  assert (Hpg : paging_at page_dir_addr (ld_cpu l2)) by (rewrite Ec; apply paging_cpu_at).
  exists l1, l2, ev'. split; [exact E1|]. split; [exact E2|]. split; [exact Eb|].
  split; [|split; [|split; [|split; [exact E3|split; [exact Hal|]]]]].
  - intros i p Hi Hld Hap. rewrite Em.
    rewrite <-(segment_bytes_agree _ _ _ _ _ _ _ He Hf (kernel_file_agree _ m) p
      (list_elem_of_lookup_2 _ _ _ Hi) Hld).
    by apply (elf_memory_segment _ _ _ _ _ _ He1 Hf1 i).
  - rewrite Ec. destruct (paging_cr0 (add_io ev (protected_cpu (ld_cpu l)))) as [_ Plow].
    rewrite Plow by lia. cbn [add_io protected_cpu c_cr0]. rewrite Z.lor_spec. apply orb_true_r.
  - exact Hpg.
  - intros s2 E4 Hb2.
    destruct (kernel_main_ok (set_cpu (ld_cpu l2) s) b ev' s2 idle_entry stack_end page_dir_addr)
      as (s3 & s' & sel & E5 & Hp3 & E6 & Hst & Hp' & He'); [by apply bss_set_cpu|done|done|exact Hpg|].
    exists s3, s', (fresh_task TASK_READY (bytes_of_string "first task") 0 0 sel).
    split; [rewrite E3; by kstep E4|]. split; [exact Hp3|]. split; [exact E6|].
    split; [exact (sd_rel _ _ _ Hst)|]. split; [|split; [exact Hp'|]].
    + rewrite He'. cbn [set_cpu k_cpu]. rewrite Ec. apply cli_masks.
    + split; [exact (sd_first _ _ _ Hst)|]. split; [reflexivity|]. split; reflexivity.
Qed.
End properties.

(** *** Witness: the demo disk, BIOS and board in one machine *)
Section witnesses.
#[local] Existing Instances demo_layout demo_entry demo_bios demo_loader_image.
#[local] Instance boot_image : KernelImage := named_image 0.
#[local] Instance boot_walk : PageWalk := named_walk 0.
#[local] Opaque named_state.

Definition boot_board : Device := λ io port,
  if (port =? 496) || (port =? 503) then demo_drive io port else demo_board io port.
#[local] Existing Instance boot_board.

Lemma boot_board_ata : AtaDisk (HDevice := boot_board) 2 demo_disk.
Proof.
  split.
  - intros io _ _. exists 1%nat. split; [lia|]. reflexivity.
  - intros io _ _. reflexivity.
Qed.

#[local] Existing Instance boot_board_ata.

Lemma boot_board_uart : uart_ready (H := boot_board) 2.
Proof. intros io. exists 1%nat. split; [lia|]. reflexivity. Qed.

Lemma boot_board_mask : mask_reads_back.
Proof. intros io v E. exact (demo_board_mask io v E). Qed.

#[local] Instance boot_logger : Logger := log_at 2 1.
#[local] Instance boot_logger_laws : LoggerLaws := log_laws 2 0 boot_board_uart.

Definition boot_ram : mem := zero_mem 31744 1272832.
Definition boot_loader : loader_t :=
  Loader (Cpu 514 16 0 0 0 (0, 0, 0) (0, 0, 0) []) boot_ram [] (BootInfo (replicate 10 (0, 0)) 0).

Lemma boot_ram_mapped a n : 31744 ≤ a → a + n ≤ 1304576 → mapped boot_ram a n.
Proof. intros Ha Hn x Hx. unfold boot_ram. rewrite zero_mem_lookup, decide_True by lia. eauto. Qed.

Lemma boot_ram_bytes : bytes_ok boot_ram.
Proof.
  intros x v. unfold boot_ram. rewrite zero_mem_lookup. case_decide; [|done].
  intros [= <-]. unfold is_u8. lia.
Qed.

Lemma boot_ram_extends a n : mapped demo_ram a n → mapped boot_ram a n.
Proof.
  intros H x Hx. assert (Hr : 65536 ≤ x < 65536 + 1239040).
  { destruct (H x Hx) as [v Hv]. revert Hv. unfold demo_ram. rewrite zero_mem_lookup.
    case_decide as Hd; [intros _; exact Hd|discriminate]. }
  exact (boot_ram_mapped x 1 ltac:(lia) ltac:(lia) x ltac:(lia)).
Qed.

Lemma boot_map : bios_map (ld_boot boot_loader) = demo_boot_info.
Proof. reflexivity. Qed.

Lemma boot_map_fits : map_fits named_state (bios_map (ld_boot boot_loader)).
Proof. rewrite boot_map. exact (named_fits 0). Qed.

Lemma boot_elf : elf_at (kernel_file demo_disk boot_ram) SYS_KERNEL_ADDR 65536 52 [demo_phdr].
Proof. exact (elf_at_agree _ _ _ _ _ _ _ demo_file_elf demo_file_fits (kernel_file_agree _ _)). Qed.

Lemma boot_elf_fits :
  elf_fits (kernel_file demo_disk boot_ram) SYS_KERNEL_ADDR (512 * 500) 52 [demo_phdr].
Proof. exact (elf_fits_mapped _ _ _ _ _ _ demo_file_fits (kernel_file_mapped _ _ boot_ram_extends)). Qed.

Lemma cold_boot_witness :
  ∃ l1 l2 s3 s', loader_entry boot_loader = Ok (FarJump 8 33024, l1) ∧
    load_kernel 2 l1 = Ok (CallEntry 65536 [34816], l2) ∧
    kernel_init (ld_boot l2) 4660 8192 (set_cpu (ld_cpu l2) named_state) = KRet tt s3 ∧
    init_main s3 = KRet tt s' ∧ paging_at 0 (k_cpu s').
Proof.
  destruct (cold_boot boot_loader 65536 52 [demo_phdr] named_state 4660 8192)
    as (l1 & l2 & ev & E1 & E2 & Eb & _ & _ & _ & _ & _ & Hs).
  - apply boot_ram_mapped; cbn; lia.
  - exact boot_ram_bytes.
  - reflexivity.
  - apply boot_ram_mapped; unfold SYS_KERNEL_ADDR; lia.
  - exact boot_elf.
  - exact boot_elf_fits.
  - discriminate.
  - exact named_bss.
  - exact boot_map_fits.
  - exact boot_board_mask.
  - rewrite boot_map in Eb, Hs. destruct (named_tables (set_cpu (ld_cpu l2) named_state) ev) as (s2 & E & Hb);
      [apply named_set_cpu|].
    destruct (Hs s2 E Hb) as (s3 & s' & x & E3 & _ & E4 & _ & _ & Hp & _).
    exists l1, l2, s3, s'. split; [exact E1|]. split; [exact E2|].
    split; [rewrite Eb; exact E3|]. split; [exact E4|exact Hp].
Defined.
End witnesses.
